(* ===== verification/_CoqProject ===== *)
-Q . S2P
Prelude.v
BigInt.v
Geth.v
World.v
OverlayState.v
Fetch.v
StateSpec.v
OverlayStateDB.v
VmStateDB.v
Refinement.v
Chain.v
GoSlice.v
ToyInstance.v
TxPool.v
Signer.v
Multisend.v
Clones.v
Reset.v
Merge.v
StateDiff.v
ToyNode.v
StateProps.v
Tracers.v
GoStd.v
TxArgs.v
Evm.v
Warm.v
EvmProps.v
Backend.v
Actions.v
Debug.v
NodeState.v
NodeSteps.v
Receipts.v
NodeSpec.v
NodeLogic.v
NodeToy.v
NodeProps.v
StorageRange.v
Probe.v
Blocks.v
Bundle.v
SafeSim.v
NodeQuiet.v
NodeHandlers.v
NodeInvariant.v
NodeReceipts.v
Threads.v
Locks.v
NodeStart.v
Follow.v
Main.v
