(* ===== verification/Prelude.v ===== *)
(** * Verification of mfer-node

    mfer-node forks an Ethereum chain: it answers the usual JSON-RPC interface on top of an
    upstream node whose state it reads on demand, keeps what its own transactions change in
    layers above that state, and remembers the transactions in a pool that it can execute
    again on a later block.  This library models the Go program under src/ and proves what
    makes it correct.

    ** Parts of the program, and the files that model them

    - mferstate/overlaystate.go: [World.OverlayState] is a layer of the state, [World.World]
      the heap of layers, databases, receipts and shared numbers with the counters of the
      requests made so far.  OverlayState.v has the operations, down to the batched requests
      ([loadStateBatchRPC], [loadAccountBatchRPC]) and the two cases of the server goroutine
      ([timeSlot_storage], [timeSlot_account]).
    - mferstate/overlaystatedb.go: OverlayStateDB.v, one definition per method of the Go
      type, on the pointer of the database.  VmStateDB.v names the interface calls the EVM
      makes ([Op], [run_op]) and the programs built of them.
    - mferstate/slotkey.go and mfersigner/signer.go: Signer.v.
    - mfertxpool/txpool.go: TxPool.v, with its slices on a heap of arrays (GoSlice.v).
    - multisend/multisend.go and safe.go: Multisend.v.
    - mfertracer/: Tracers.v.
    - mferevm/evm.go: Evm.v, and Follow.v for the subscription to new heads.  [EvmState] is
      the world, the fields of [MferEVM] and the tracers it shares with the handlers.
    - mferbackend/ethinternaltypes.go: TxArgs.v; backend.go and rpcapi.go: Backend.v;
      mferactionapi.go: Actions.v, which also has the rounds of the goroutine that follows the
      chain; debugapi.go and probeapi.go: Debug.v.  A [Node] is the
      EVM, the pool and the settings; a handler is a computation [M Node].
    - package constant: the fake accounts in OverlayStateDB.v, the numbers in Signer.v.
    - cmd/mfer-node/main.go: Main.v, how flags become a node that serves.
    - The state lock of mferevm/evm.go and the handlers as goroutines: Threads.v, Locks.v.
      There a handler is the sequence of its calls ([Code]), and [step] interleaves several.

    A computation [M S A] passes a state [S] and ends with [Ok], a panic or divergence.
    Pointers that are shared are locations: layers between databases, the pinned block
    number between the root layer, the database and the EVM, the numbers of the block
    context between the EVM and receipts, tracers between the EVM and handlers, arrays
    between the pool and the readers of its slices.  A Go integer is a [Z] with its wrapping
    written out ([u64], [i64]); a big.Int is a [Z]; bytes and strings that hold bytes are
    lists of bytes.

    ** What is not code of this repository

    go-ethereum is a parameter: the classes [Geth] (addresses, hashes, hexadecimal) and
    [Core] (transactions, signers, blocks, tracers and [ApplyMessage], the EVM as a program of
    state calls and tracer steps), with the laws [GethLaws] and [CoreLaws] of documented
    behaviour: sizes and paddings, that an EVM run brackets its snapshots, takes at most one
    per forty gas, and logs only in between.  Nothing is assumed of the steps that a run shows
    its tracer: go-ethereum also shows the step that fails for want of operands or of gas, and
    there the tracers of this repository panic; go-ethereum's own tracers are total functions.
    The upstream node is [Upstream] (batches),
    [Remote] (its other calls and the schedule of the warm-up goroutines) and, for Go's growth
    of slices, [Growth].  The generated contract bindings are [Abi] and [SafeContract].
    [Reliable answer N] describes an upstream node that answers consistently and, from its
    [N]-th round trip on, always.  ToyInstance.v, ToyNode.v and NodeToy.v give concrete
    instances, on which every property has an example.

    ** What is proved

    - The state (StateSpec.v, Refinement.v, Clones.v, Reset.v, Merge.v, StateDiff.v,
      StateProps.v).  [Abs] is the contract of a vm.StateDB with snapshots; [refines] says
      that a database shows an abstract state.  Every program of the EVM refines the
      contract; reads give the nearest layer's value or the upstream node's at the pinned
      block, through outages; snapshots revert; clones are isolated; a reset re-reads
      everything at the new block; the state difference is exact.  The limits are stated as
      theorems too: negative balances, large nonces, refunds, failed batch elements.
    - Executing (Warm.v, EvmProps.v).  [spec_ExecuteTxs] is the meaning of a list of
      transactions on [Abs], which has accounts, storage, logs and receipts; [ExecuteTxs]
      refines it whatever the goroutines that warm up the cache do; calls on clones leave the
      original alone; an impersonated transaction comes back as a message of its sender.
    - The pool refines two lists; the MultiSend packing decodes to what was packed; the call
      data of a safe transaction carries the sorted signatures of its owners; tracers record
      what they should and do not disturb the run, until the first step they cannot read, where
      they panic; arguments become well-typed messages.
    - The node.  NodeState.v: [node_ok] says that a node is up and shows a state.
      NodeSteps.v, NodeProps.v: what each of the main handlers does.  Receipts.v: what
      executing leaves on record.  Probe.v, StorageRange.v, Blocks.v, Bundle.v, SafeSim.v:
      probes of the pool, the storage it touches, traces of blocks of the chain, bundles of
      transactions, and the simulation of a transaction of a safe, from the approvals of its
      owners to its traced call.  NodeSpec.v: [Spec] is the node as clients see it, a pinned
      block, a state and a pool, and [spec_step] the effects a request may have.  NodeLogic.v:
      a program logic for handlers on a node that represents a [Spec].  NodeQuiet.v,
      NodeHandlers.v: fifty-two handlers ([Handler]), the methods of every interface and the
      rounds of the goroutine, simulate [Spec]; [handler_ok] lists what each takes for granted,
      [panics] when it panics, which changes nothing that clients see.  NodeInvariant.v: so
      after any [history] of them, with panics, the state is the pool executed from the pinned block, once what threw the state
      away was made good.  NodeReceipts.v: then a
      client is told the receipt and the logs of what executing its transaction gave.
      NodeStart.v, Main.v: a node comes up when its upstream does, with the settings its
      flags ask for.
    - Following the chain (Follow.v).  New heads, polling, broken subscriptions and attempts
      to renew them, in any order, keep the node in step; what an upstream node that is down,
      or a head that comes too early, does instead is proved as well.
    - Concurrent requests.  Threads.v: goroutines that touch the state under the lock only
      behave, under every schedule, as if they had run one after the other, and all get
      their turn.  Locks.v: [SendTransaction], [ResetState] and [ReExecTxPool] are such
      goroutines, so they keep the node in step; [ClearTxPool] takes the lock too late and
      [SendRawTransaction] not at all, and what their races do is proved as well.

    ** Fuel and bounds

    Loops that follow parents run on [S s] steps from layer [s], enough because a parent is
    allocated before its child ([chain_bounded]).  Batch loops get one step more than there
    are requests, enough for a positive batch size; with a batch size of zero they use up any
    number of steps ([loads_bad_size]).  Loops that retry for ever are unfolded [patience] times, and the theorems
    that they return assume that the outage is shorter; so does the start of the node.  The
    depth of layers is an int64: theorems about executing assume that it does not overflow,
    and the node's theorems derive this from the gas of the pool ([budget]), which must stay
    below 2^61.

    ** Not modelled

    - utils/mem.go (logging), the statistics goroutine (terminal output, never started),
      gen_*.go (generated); of cmd/mfer-node/main.go the log, the default path of the key cache and
      the HTTP server.
    - The BLOCKHASH callback and the timeouts of tracers.
    - A key-cache file that cannot be opened, which makes a reset panic.
    - That a panic in the goroutine which serves loads, which only a negative batch size
      causes, ends the program; in the model it is a panic of the call that waits for the
      load.
    - Concurrency beyond Locks.v and the schedule of the warm-up: there a call of the EVM, the
      state database or the pool is one step, so the finer locks inside the state layer do
      not show; elsewhere a handler is atomic.
    - A repeated dial starts a further goroutine that follows the chain; the model has the
      rounds of one, between handlers: readers and rounds do not interleave with the calls
      of a handler as the goroutines of Locks.v do.
    - The bindings of a safe put their questions to the node's own interface.  Their answers
      are the parameter [SafeContract]; what answering them reads into the cache is left out.
    - Logs of a transaction are lists; the sharing of their backing arrays is not modelled. *)
From Stdlib Require Export Strings.Byte.
From stdpp Require Export base numbers list gmap strings fin_maps pretty.

(** Scope of the library's own notations. *)
Declare Scope mfer_scope.
Delimit Scope mfer_scope with mfer.

Create HintDb mfer.
Create Rewrite HintDb mfer_run.

#[global] Open Scope Z_scope.

(** ** Bytes

    A Go [[]byte] (and a Go [string], which is an immutable byte sequence) is a
    list of [Byte.byte]. *)
Abbreviation bytes := (list byte).

#[global] Instance byte_eq_dec : EqDecision byte := Byte.byte_eq_dec.

#[global] Instance byte_countable : Countable byte :=
  inj_countable Byte.to_N Byte.of_N Byte.of_to_N.

Definition Z_of_byte (b : byte) : Z := Z.of_N (Byte.to_N b).

Definition byte_of_Z (z : Z) : byte :=
  match Byte.of_N (Z.to_N (z mod 256)) with Some b => b | None => x00 end.

(** Left padding with zero bytes up to length [n]; a longer list is kept. *)
Definition pad_left (n : nat) (l : bytes) : bytes := replicate (n - length l) x00 ++ l.

(** The [n] rightmost bytes of a list. *)
Definition crop_left (n : nat) (l : bytes) : bytes := drop (length l - n) l.

(** ** Machine integers *)

(** A value stored in a Go [uint64]: arithmetic wraps modulo 2^64. *)
Definition u64 (z : Z) : Z := z mod 2 ^ 64.

(** A value stored in a Go [int64] (or [int]): two's complement wrap-around. *)
Definition i64 (z : Z) : Z := (z + 2 ^ 63) mod 2 ^ 64 - 2 ^ 63.

Definition is_u64 (z : Z) : Prop := 0 ≤ z < 2 ^ 64.

(** ** Outcomes and the state monad

    A Go call returns, panics (a [log.Panic], a nil dereference, an index out of
    range; the state reached is kept because the RPC server recovers the panic and
    goes on serving), or never returns.  A Go [error] is a returned value, so it is a
    component of [A], never an outcome. *)
Inductive Outcome (A : Type) : Type :=
| Ok (a : A)
| Panic (msg : string)
| Diverge.

Arguments Ok {A} a.
Arguments Panic {A} msg.
Arguments Diverge {A}.

Definition M (W A : Type) : Type := W → Outcome A * W.

#[global] Instance M_ret W : MRet (M W) := λ A a w, (Ok a, w).
#[global] Instance M_bind W : MBind (M W) := λ A B k m w,
  match m w with
  | (Ok a, w') => k a w'
  | (Panic s, w') => (Panic s, w')
  | (Diverge, w') => (Diverge, w')
  end.
#[global] Instance M_fmap W : FMap (M W) := λ A B f m w,
  match m w with
  | (Ok a, w') => (Ok (f a), w')
  | (Panic s, w') => (Panic s, w')
  | (Diverge, w') => (Diverge, w')
  end.

Definition panic {W A} (msg : string) : M W A := λ w, (Panic msg, w).
Definition diverge {W A} : M W A := λ w, (Diverge, w).
Definition gets {W A} (f : W → A) : M W A := λ w, (Ok (f w), w).
Definition modify {W} (f : W → W) : M W unit := λ w, (Ok tt, f w).

(** Dereference of a possibly missing object. *)
Definition deref {W A} (f : W → option A) : M W A := λ w,
  match f w with
  | Some a => (Ok a, w)
  | None => (Panic "invalid memory address or nil pointer dereference", w)
  end.

(** A computation on one part of a larger state. *)
Definition zoom {S W A} (proj : S → W) (inj : W → S → S) (m : M W A) : M S A := λ s,
  let r := m (proj s) in (r.1, inj r.2 s).

(** [defer]: [d], which does not panic, runs when [m] has returned or panicked. *)
Definition deferred {W A B} (m : M W A) (d : M W B) : M W A := λ w,
  match m w with
  | (Diverge, w') => (Diverge, w')
  | (o, w') => (o, (d w').2)
  end.

(** A Go [for ... range] over a list of elements, for its effects. *)
Fixpoint for_each {W A} (f : A → M W unit) (l : list A) : M W unit :=
  match l with
  | [] => mret tt
  | x :: l' => f x ≫= λ _, for_each f l'
  end.

(** The Go slice expression [l[b:e]]: [None] when the bounds are out of range. *)
Definition slice {A} (l : list A) (b e : Z) : option (list A) :=
  if decide (0 ≤ b ≤ e ∧ e ≤ Z.of_nat (length l))
  then Some (take (Z.to_nat (e - b)) (drop (Z.to_nat b) l)) else None.

(** A loop that threads an accumulator. *)
Fixpoint fold_m {W A B} (f : B → A → M W B) (b : B) (l : list A) : M W B :=
  match l with
  | [] => mret b
  | x :: l' => f b x ≫= λ b', fold_m f b' l'
  end.

(** A loop that collects one result per element. *)
Fixpoint map_m {W A B} (f : A → M W B) (l : list A) : M W (list B) :=
  match l with
  | [] => mret []
  | x :: l' => f x ≫= λ y, map_m f l' ≫= λ ys, mret (y :: ys)
  end.

(** ** Lemmas on bytes *)

Lemma Z_of_byte_range b : 0 ≤ Z_of_byte b < 256.
Proof. unfold Z_of_byte. pose proof (Byte.to_N_bounded b). lia. Qed.

Lemma byte_of_Z_of_byte b : byte_of_Z (Z_of_byte b) = b.
Proof.
  unfold byte_of_Z. rewrite Z.mod_small by apply Z_of_byte_range.
  unfold Z_of_byte. by rewrite N2Z.id, Byte.of_to_N.
Qed.

Lemma Z_of_byte_of_Z z : Z_of_byte (byte_of_Z z) = z mod 256.
Proof.
  unfold byte_of_Z, Z_of_byte.
  pose proof (Z.mod_pos_bound z 256 ltac:(lia)) as Hz.
  destruct (Byte.of_N (Z.to_N (z mod 256))) as [b|] eqn:E.
  - apply Byte.to_of_N in E. rewrite E. lia.
  - apply Byte.of_N_None_iff in E. lia.
Qed.

Lemma Z_of_byte_inj b1 b2 : Z_of_byte b1 = Z_of_byte b2 → b1 = b2.
Proof. intros H. by rewrite <-(byte_of_Z_of_byte b1), H, byte_of_Z_of_byte. Qed.

Lemma length_pad_left n l : (length l ≤ n)%nat → length (pad_left n l) = n.
Proof. intros. unfold pad_left. rewrite length_app, length_replicate. lia. Qed.

Lemma pad_left_id n l : length l = n → pad_left n l = l.
Proof. intros <-. unfold pad_left. by rewrite Nat.sub_diag. Qed.

Lemma length_crop_left n l : length (crop_left n l) = (length l `min` n)%nat.
Proof. unfold crop_left. rewrite length_drop. lia. Qed.

Lemma crop_left_id n l : (length l ≤ n)%nat → crop_left n l = l.
Proof. intros. unfold crop_left. replace (length l - n)%nat with 0%nat by lia. done. Qed.

(** ** Lemmas on machine integers *)

Lemma u64_range z : is_u64 (u64 z).
Proof. apply Z.mod_pos_bound. lia. Qed.

Lemma u64_id z : is_u64 z → u64 z = z.
Proof. apply Z.mod_small. Qed.

Lemma u64_idem z : u64 (u64 z) = u64 z.
Proof. apply u64_id, u64_range. Qed.

Lemma i64_range z : - 2 ^ 63 ≤ i64 z < 2 ^ 63.
Proof. unfold i64. pose proof (Z.mod_pos_bound (z + 2 ^ 63) (2 ^ 64) ltac:(lia)). lia. Qed.

Lemma i64_id z : - 2 ^ 63 ≤ z < 2 ^ 63 → i64 z = z.
Proof. intros. unfold i64. rewrite Z.mod_small; lia. Qed.

(** Conversion of a [uint64] to [int64] reinterprets its bits. *)
Lemma i64_of_u64 z : is_u64 z → i64 z = if decide (z < 2 ^ 63) then z else z - 2 ^ 64.
Proof.
  intros Hz. case_decide; [apply i64_id; unfold is_u64 in Hz; lia|].
  unfold i64. replace (z + 2 ^ 63) with ((z - 2 ^ 63) + 1 * 2 ^ 64) by lia.
  rewrite Z.mod_add, Z.mod_small by (unfold is_u64 in Hz; lia). lia.
Qed.

(** ** Lemmas on the monad *)

Section monad.
Context {W : Type}.

Lemma bind_Ok {A B} (m : M W A) (k : A → M W B) w a w' :
  m w = (Ok a, w') → (m ≫= k) w = k a w'.
Proof. intros H. unfold mbind, M_bind. by rewrite H. Qed.

Lemma bind_Ok_inv {A B} (m : M W A) (k : A → M W B) w b w' :
  (m ≫= k) w = (Ok b, w') → ∃ a w1, m w = (Ok a, w1) ∧ k a w1 = (Ok b, w').
Proof. unfold mbind, M_bind. destruct (m w) as [[a| |] w1] eqn:E; naive_solver. Qed.

Lemma bind_Panic {A B} (m : M W A) (k : A → M W B) w s w' :
  m w = (Panic s, w') → (m ≫= k) w = (Panic s, w').
Proof. intros H. unfold mbind, M_bind. by rewrite H. Qed.

Lemma bind_mret {A B} (a : A) (k : A → M W B) w : (mret a ≫= k) w = k a w.
Proof. done. Qed.

Lemma bind_gets {A B} (f : W → A) (k : A → M W B) w : (gets f ≫= k) w = k (f w) w.
Proof. done. Qed.

Lemma bind_modify {B} (f : W → W) (k : unit → M W B) w : (modify f ≫= k) w = k tt (f w).
Proof. done. Qed.

Lemma bind_deref {A B} (f : W → option A) (k : A → M W B) w a :
  f w = Some a → (deref f ≫= k) w = k a w.
Proof. intros H. unfold mbind, M_bind, deref. by rewrite H. Qed.

Lemma deferred_Ok {A B} (m : M W A) (d : M W B) w a w' : m w = (Ok a, w') → deferred m d w = (Ok a, (d w').2).
Proof. unfold deferred. by intros ->. Qed.

Lemma deferred_Panic {A B} (m : M W A) (d : M W B) w s w' : m w = (Panic s, w') → deferred m d w = (Panic s, (d w').2).
Proof. unfold deferred. by intros ->. Qed.

Lemma zoom_run {S A} (proj : S → W) (inj : W → S → S) (m : M W A) s o w' :
  m (proj s) = (o, w') → zoom proj inj m s = (o, inj w' s).
Proof. unfold zoom. by intros ->. Qed.

Lemma zoom_Ok {S A} (proj : S → W) (inj : W → S → S) (m : M W A) s a w' :
  m (proj s) = (Ok a, w') → zoom proj inj m s = (Ok a, inj w' s).
Proof. unfold zoom. by intros ->. Qed.

(** Two computations that go on alike. *)
Lemma bind_ext {A B} (m : M W A) (k k' : A → M W B) w :
  (∀ a w', k a w' = k' a w') → (m ≫= k) w = (m ≫= k') w.
Proof. intros Hk. unfold mbind, M_bind. by destruct (m w) as [[a| |] w1]. Qed.

Lemma bind_assoc {A B C} (m : M W A) (k : A → M W B) (k' : B → M W C) w :
  ((m ≫= k) ≫= k') w = (m ≫= λ a, k a ≫= k') w.
Proof. unfold mbind, M_bind. by destruct (m w) as [[a| |] w1]. Qed.

(** Every state reached by a computation satisfies [P] whatever the outcome, as long
    as every step preserves it. *)
Definition preserves {A} (P : W → Prop) (m : M W A) : Prop := ∀ w, P w → P (m w).2.

Lemma preserves_mret {A} P (a : A) : preserves P (mret a).
Proof. intros w. done. Qed.

Lemma preserves_panic {A} P s : preserves P (panic (A:=A) s).
Proof. intros w. done. Qed.

Lemma preserves_diverge {A} P : preserves P (diverge (A:=A)).
Proof. intros w. done. Qed.

Lemma preserves_gets {A} P (f : W → A) : preserves P (gets f).
Proof. intros w. done. Qed.

Lemma preserves_deref {A} P (f : W → option A) : preserves P (deref f).
Proof. intros w. unfold deref. by destruct (f w). Qed.

Lemma preserves_modify P (f : W → W) : (∀ w, P w → P (f w)) → preserves P (modify f).
Proof. intros H w. apply H. Qed.

Lemma preserves_bind {A B} P (m : M W A) (k : A → M W B) :
  preserves P m → (∀ a, preserves P (k a)) → preserves P (m ≫= k).
Proof.
  intros Hm Hk w Hw. unfold mbind, M_bind. specialize (Hm w Hw).
  destruct (m w) as [[a| |] w1]; simpl in *; try done. by apply Hk.
Qed.

Lemma preserves_for_each {A} P (f : A → M W unit) l :
  (∀ x, preserves P (f x)) → preserves P (for_each f l).
Proof.
  intros Hf. induction l as [|x l IH]; simpl; [apply preserves_mret|].
  by apply preserves_bind.
Qed.

Lemma for_each_app {A} (f : A → M W unit) l1 l2 w :
  for_each f (l1 ++ l2) w = (for_each f l1 ≫= λ _, for_each f l2) w.
Proof.
  revert w. induction l1 as [|x l1 IH]; intros w; simpl; [done|].
  rewrite bind_assoc. unfold mbind at 1 2, M_bind.
  destruct (f x w) as [[[]| |] w1]; [apply IH|done..].
Qed.

(** A loop whose body is a pure update is the fold of the updates. *)
Lemma for_each_modify {A} (f : A → W → W) l w :
  for_each (λ x, modify (f x)) l w = (Ok tt, foldl (λ w x, f x w) w l).
Proof. revert w. induction l as [|x l IH]; intros w; simpl; [done|]. apply IH. Qed.
End monad.

#[export] Hint Resolve preserves_mret preserves_panic preserves_diverge preserves_gets
  preserves_deref preserves_for_each u64_range : mfer.
#[export] Hint Rewrite @bind_mret @bind_gets @bind_modify @bind_assoc : mfer_run.

(** One step of symbolic execution: pure binds are computed, and a bind whose head has
    a known run is replaced by its continuation. *)
Ltac mstep :=
  first
    [ rewrite bind_mret | rewrite bind_gets | rewrite bind_modify
    | match goal with
      | H : ?m ?w = (Ok _, _) |- context [(?m ≫= _) ?w] => rewrite (bind_Ok m _ _ _ _ H)
      | H : ?f ?w = Some _ |- context [(deref ?f ≫= _) ?w] => rewrite (bind_deref f _ _ _ H)
      end
    | rewrite bind_assoc ]; cbv beta.
Ltac msteps := repeat mstep.

(** Inverts a run that returned through its binds. *)
Ltac minv H :=
  match type of H with
  | (_ ≫= _) _ = (Ok _, _) =>
      let a := fresh "a" in let w := fresh "w" in
      let Ha := fresh "Hrun" in
      apply bind_Ok_inv in H as (a & w & Ha & H)
  end.
