(* ===== verification/BigInt.v ===== *)
(** * Go's [math/big] integers and their byte codecs

    A [*big.Int] is a [Z].  The scratch pad of the overlay state stores balances and
    nonces as the big-endian bytes of [big.Int.Bytes], and the multisend packer writes
    32-byte words with [big.Int.FillBytes]; the lemmas here are the round trips those
    components rest on. *)
From S2P Require Import Prelude.

(** ** Definitions *)

(** [new(big.Int).SetBytes(l)]: the big-endian value, never negative. *)
Definition SetBytes (l : bytes) : Z := foldl (λ acc b, acc * 256 + Z_of_byte b) 0 l.

(** Little-endian base-256 digits of a non-negative number; no digit for zero. *)
Fixpoint le_digits (fuel : nat) (z : Z) : bytes :=
  match fuel with
  | O => []
  | S fuel => if Z.eqb z 0 then [] else byte_of_Z z :: le_digits fuel (z / 256)
  end.

(** [x.Bytes()]: the big-endian bytes of the absolute value, with no leading zero; the
    fuel is the number of bits, which bounds the number of digits. *)
Definition Bytes (z : Z) : bytes :=
  reverse (le_digits (Z.to_nat (Z.log2 (Z.abs z) + 1)) (Z.abs z)).

(** [x.FillBytes(buf)] with [len(buf) = n]: panics when the absolute value does not fit,
    otherwise fills the buffer, zero-extended on the left. *)
Definition FillBytes (n : nat) (z : Z) : option bytes :=
  let b := Bytes z in
  if decide (length b ≤ n)%nat then Some (pad_left n b) else None.

(** [x.Uint64()]: the low 64 bits of the absolute value. *)
Definition Uint64 (z : Z) : Z := u64 (Z.abs z).

(** [x.Int64()]: the low 64 bits of the absolute value, negated for a negative [x]. *)
Definition Int64 (z : Z) : Z := if Z.ltb z 0 then i64 (- u64 (Z.abs z)) else i64 (u64 z).

(** ** Lemmas *)

Lemma foldl_be acc l :
  foldl (λ acc b, acc * 256 + Z_of_byte b) acc l = acc * 256 ^ Z.of_nat (length l) + SetBytes l.
Proof.
  unfold SetBytes. revert acc. induction l as [|b l IH]; intros acc; cbn [foldl length]; [lia|].
  rewrite IH, (IH (0 * 256 + Z_of_byte b)). rewrite Nat2Z.inj_succ, Z.pow_succ_r by lia. ring.
Qed.

Lemma SetBytes_nil : SetBytes [] = 0.
Proof. done. Qed.

Lemma SetBytes_app l1 l2 :
  SetBytes (l1 ++ l2) = SetBytes l1 * 256 ^ Z.of_nat (length l2) + SetBytes l2.
Proof. unfold SetBytes at 1. rewrite foldl_app. apply foldl_be. Qed.

Lemma SetBytes_range l : 0 ≤ SetBytes l < 256 ^ Z.of_nat (length l).
Proof.
  induction l as [|b l IH]; [done|]. change (b :: l) with ([b] ++ l).
  rewrite SetBytes_app, length_app, Nat2Z.inj_add, Z.pow_add_r by lia.
  change (SetBytes [b]) with (Z_of_byte b). pose proof (Z_of_byte_range b).
  simpl length. nia.
Qed.

Lemma SetBytes_zeros n l : SetBytes (replicate n x00 ++ l) = SetBytes l.
Proof.
  rewrite SetBytes_app. enough (SetBytes (replicate n x00) = 0) as -> by lia.
  induction n as [|n IH]; [done|]. simpl replicate. change (x00 :: replicate n x00) with ([x00] ++ replicate n x00).
  rewrite SetBytes_app, IH. change (SetBytes [x00]) with 0. lia.
Qed.

Lemma SetBytes_pad_left n l : SetBytes (pad_left n l) = SetBytes l.
Proof. apply SetBytes_zeros. Qed.

Lemma SetBytes_inj l1 l2 : length l1 = length l2 → SetBytes l1 = SetBytes l2 → l1 = l2.
Proof.
  revert l2. induction l1 as [|b1 l1 IH] using rev_ind; intros l2 Hlen Heq.
  { by destruct l2. }
  destruct l2 as [|b2 l2 _] using rev_ind; rewrite !length_app in Hlen; simpl in Hlen; [lia|].
  rewrite !SetBytes_app in Heq. simpl in Heq.
  change (SetBytes [b1]) with (Z_of_byte b1) in Heq.
  change (SetBytes [b2]) with (Z_of_byte b2) in Heq.
  pose proof (Z_of_byte_range b1). pose proof (Z_of_byte_range b2).
  assert (SetBytes l1 = SetBytes l2 ∧ Z_of_byte b1 = Z_of_byte b2) as [H1 H2] by nia.
  apply Z_of_byte_inj in H2 as ->. f_equal. apply IH; [lia|done].
Qed.

Lemma SetBytes_le_digits fuel z :
  0 ≤ z < 2 ^ Z.of_nat fuel → SetBytes (reverse (le_digits fuel z)) = z.
Proof.
  revert z. induction fuel as [|fuel IH]; intros z Hz.
  { change (2 ^ Z.of_nat 0) with 1 in Hz. change (0 = z). lia. }
  simpl. destruct (Z.eqb_spec z 0) as [->|Hne]; [done|].
  rewrite reverse_cons, SetBytes_app. simpl length.
  change (SetBytes [byte_of_Z z]) with (Z_of_byte (byte_of_Z z)). rewrite Z_of_byte_of_Z.
  rewrite Nat2Z.inj_succ, Z.pow_succ_r in Hz by lia.
  change (256 ^ Z.of_nat 1) with 256.
  rewrite IH; [pose proof (Z.div_mod z 256 ltac:(lia)); lia|].
  split; [apply Z.div_pos; lia|]. apply Z.div_lt_upper_bound; lia.
Qed.

Lemma SetBytes_Bytes z : SetBytes (Bytes z) = Z.abs z.
Proof.
  apply SetBytes_le_digits. split; [lia|].
  pose proof (Z.log2_nonneg (Z.abs z)). rewrite Z2Nat.id by lia.
  destruct (decide (z = 0)) as [->|]; [done|]. apply Z.log2_lt_pow2; lia.
Qed.

Lemma le_digits_0 fuel : le_digits fuel 0 = [].
Proof. by destruct fuel. Qed.

Lemma length_le_digits fuel z n :
  0 ≤ z < 256 ^ Z.of_nat n → (length (le_digits fuel z) ≤ n)%nat.
Proof.
  revert z n. induction fuel as [|fuel IH]; intros z n Hz; simpl; [lia|].
  destruct (Z.eqb_spec z 0); simpl; [lia|]. destruct n as [|n]; [simpl in Hz; lia|].
  rewrite Nat2Z.inj_succ, Z.pow_succ_r in Hz by lia.
  enough (length (le_digits fuel (z / 256)) ≤ n)%nat by lia.
  apply IH. split; [apply Z.div_pos; lia|]. apply Z.div_lt_upper_bound; lia.
Qed.

(** A number below 256^n needs at most n bytes. *)
Lemma length_Bytes z n : Z.abs z < 256 ^ Z.of_nat n → (length (Bytes z) ≤ n)%nat.
Proof. intros. unfold Bytes. rewrite length_reverse. apply length_le_digits. lia. Qed.

Lemma length_Bytes_iff z n : (length (Bytes z) ≤ n)%nat ↔ Z.abs z < 256 ^ Z.of_nat n.
Proof.
  split; [|apply length_Bytes]. intros Hl.
  pose proof (SetBytes_range (Bytes z)) as Hr. rewrite SetBytes_Bytes in Hr.
  pose proof (Z.pow_le_mono_r 256 (Z.of_nat (length (Bytes z))) (Z.of_nat n)). lia.
Qed.

Lemma Bytes_0 : Bytes 0 = [].
Proof. done. Qed.

Lemma Bytes_abs z : Bytes (Z.abs z) = Bytes z.
Proof. unfold Bytes. by rewrite Z.abs_idemp. Qed.

Lemma FillBytes_Some n z b :
  FillBytes n z = Some b → length b = n ∧ SetBytes b = Z.abs z.
Proof.
  unfold FillBytes. case_decide; intros ?; simplify_eq.
  split; [by apply length_pad_left|]. by rewrite SetBytes_pad_left, SetBytes_Bytes.
Qed.

Lemma FillBytes_is_Some n z : is_Some (FillBytes n z) ↔ Z.abs z < 256 ^ Z.of_nat n.
Proof.
  unfold FillBytes. case_decide as H; rewrite length_Bytes_iff in H;
    split; intros Hx; try done; by destruct Hx.
Qed.

Lemma Uint64_id z : is_u64 z → Uint64 z = z.
Proof. intros H. unfold Uint64. rewrite Z.abs_eq by (unfold is_u64 in H; lia). by apply u64_id. Qed.

Lemma Uint64_SetBytes_Bytes z : is_u64 z → Uint64 (SetBytes (Bytes z)) = z.
Proof.
  intros H. rewrite SetBytes_Bytes, Z.abs_eq by (unfold is_u64 in H; lia). by apply Uint64_id.
Qed.

#[export] Hint Resolve SetBytes_range : mfer.
#[export] Hint Rewrite SetBytes_Bytes SetBytes_pad_left SetBytes_nil : mfer_run.
