(* ===== verification/Geth.v ===== *)
(** * The go-ethereum value types the program uses

    [common.Address], [common.Hash], [crypto.Keccak256Hash] and [hexutil] are not part of
    this repository.  They are the operations of the class [Geth]; [GethLaws] states the
    documented behaviour the theorems rely on: the sizes of the byte arrays, that
    [BytesToAddress]/[BytesToHash] are right-aligned and crop from the left, and that the
    Keccak hash separates the six scratch-pad tags of mferstate.  [Toy] is a concrete
    instance, used by the examples that evaluate the model. *)
From S2P Require Import Prelude BigInt.

(** ** Interface *)

Class Geth := {
  Address : Type;
  Hash : Type;
  #[global] Address_eq_dec :: EqDecision Address;
  #[global] Address_countable :: Countable Address;
  #[global] Hash_eq_dec :: EqDecision Hash;
  #[global] Hash_countable :: Countable Hash;
  Address_Bytes : Address → bytes;
  BytesToAddress : bytes → Address;
  Hash_Bytes : Hash → bytes;
  BytesToHash : bytes → Hash;
  Keccak256Hash : bytes → Hash;
  (** [hexutil.EncodeBig]: the 0x-prefixed hexadecimal numeral of an integer. *)
  EncodeBig : Z → string;
  (** [common.Hex2Bytes]: hexadecimal decoding of a line of text, errors ignored. *)
  Hex2Bytes : bytes → bytes;
  (** [common.Bytes2Hex]. *)
  Bytes2Hex : bytes → bytes
}.

(** The bytes of a Go string literal. *)
Definition str (s : string) : bytes := String.list_byte_of_string s.

(** The labels hashed by mferstate into its six scratch-pad tags. *)
Definition tag_labels : list bytes :=
  [str "mfersafe-scratchpad-balance"; str "mfersafe-scratchpad-nonce";
   str "mfersafe-scratchpad-code"; str "mfersafe-scratchpad-codehash";
   str "mfersafe-scratchpad-state"; str "mfersafe-suicide-state"].

Class GethLaws `{Geth} : Prop := {
  length_Address_Bytes a : length (Address_Bytes a) = 20%nat;
  length_Hash_Bytes h : length (Hash_Bytes h) = 32%nat;
  Address_Bytes_BytesToAddress l :
    Address_Bytes (BytesToAddress l) = pad_left 20 (crop_left 20 l);
  BytesToAddress_Address_Bytes a : BytesToAddress (Address_Bytes a) = a;
  Hash_Bytes_BytesToHash l : Hash_Bytes (BytesToHash l) = pad_left 32 (crop_left 32 l);
  BytesToHash_Hash_Bytes h : BytesToHash (Hash_Bytes h) = h;
  tags_NoDup : NoDup (Keccak256Hash <$> tag_labels);
  Hex2Bytes_Bytes2Hex l : Hex2Bytes (Bytes2Hex l) = l
}.

(** [common.Address{}] and [common.Hash{}]. *)
Definition Address_zero `{Geth} : Address := BytesToAddress [].
Definition Hash_zero `{Geth} : Hash := BytesToHash [].

(** [addr.Hash()]: the address left-padded to 32 bytes; [h.Big()]: its number. *)
Definition Address_Hash `{Geth} (a : Address) : Hash := BytesToHash (Address_Bytes a).
Definition Hash_Big `{Geth} (h : Hash) : Z := SetBytes (Hash_Bytes h).
Definition BigToAddress `{Geth} (z : Z) : Address := BytesToAddress (Bytes z).

(** ** Lemmas *)

Section laws.
Context `{GethLaws}.

#[global] Instance Address_Bytes_inj : Inj (=) (=) Address_Bytes.
Proof. intros a b E. by rewrite <-(BytesToAddress_Address_Bytes a), E, BytesToAddress_Address_Bytes. Qed.

#[global] Instance Hash_Bytes_inj : Inj (=) (=) Hash_Bytes.
Proof. intros a b E. by rewrite <-(BytesToHash_Hash_Bytes a), E, BytesToHash_Hash_Bytes. Qed.

(** A 32-byte big-endian word has the value of its hash. *)
Lemma Hash_Bytes_BytesToHash_32 l : length l = 32%nat → Hash_Bytes (BytesToHash l) = l.
Proof.
  intros Hl. rewrite Hash_Bytes_BytesToHash, crop_left_id by lia. by apply pad_left_id.
Qed.

Lemma Hash_Bytes_zero : Hash_Bytes Hash_zero = replicate 32 x00.
Proof. unfold Hash_zero. rewrite Hash_Bytes_BytesToHash. done. Qed.

(** [addr.Hash().Big()] is the number of the address, and determines it. *)
Lemma Hash_Big_Address_Hash a : Hash_Big (Address_Hash a) = SetBytes (Address_Bytes a).
Proof.
  unfold Hash_Big, Address_Hash. rewrite Hash_Bytes_BytesToHash, SetBytes_pad_left.
  rewrite crop_left_id; [done|]. rewrite length_Address_Bytes. lia.
Qed.

Lemma SetBytes_Address_Bytes_inj a b :
  SetBytes (Address_Bytes a) = SetBytes (Address_Bytes b) → a = b.
Proof.
  intros E. apply Address_Bytes_inj, SetBytes_inj; [by rewrite !length_Address_Bytes|done].
Qed.

(** [BigToAddress] inverts reading the address as a number. *)
Lemma BigToAddress_SetBytes a : BigToAddress (SetBytes (Address_Bytes a)) = a.
Proof.
  apply Address_Bytes_inj. unfold BigToAddress. rewrite Address_Bytes_BytesToAddress.
  pose proof (SetBytes_range (Address_Bytes a)) as Hr. rewrite length_Address_Bytes in Hr.
  assert (length (Bytes (SetBytes (Address_Bytes a))) ≤ 20)%nat by (apply length_Bytes; lia).
  rewrite crop_left_id by done. apply SetBytes_inj.
  - rewrite length_pad_left by done. by rewrite length_Address_Bytes.
  - rewrite SetBytes_pad_left, SetBytes_Bytes. lia.
Qed.
End laws.

(** ** A concrete instance *)

Module Toy.
Definition word (n : nat) : Type := dsig (λ l : bytes, length l = n).

Definition mk (n : nat) (l : bytes) : bytes := pad_left n (crop_left n l).

Lemma mk_length n l : length (mk n l) = n.
Proof. unfold mk. rewrite length_pad_left; [done|]. rewrite length_crop_left. lia. Qed.

(** The proof of a decided fact, in a form that evaluates to the same term. *)
Definition canonical (b : bool) : Is_true b → Is_true b :=
  match b with true => λ _, I | false => λ H, H end.

Definition of_bytes (n : nat) (l : bytes) : word n :=
  exist _ (mk n l) (canonical _ (bool_decide_pack _ (mk_length n l))).

#[export] Instance word_eq_dec n : EqDecision (word n).
Proof.
  intros x y. refine (cast_if (decide (`x = `y))).
  - by apply dsig_eq.
  - by intros ->.
Defined.

Lemma of_bytes_proj n (x : word n) : of_bytes n (`x) = x.
Proof.
  apply dsig_eq. unfold of_bytes. simpl. pose proof (proj2_dsig x) as Hx. simpl in Hx.
  unfold mk. rewrite crop_left_id by lia. by apply pad_left_id.
Qed.

#[export] Instance word_countable n : Countable (word n) :=
  inj_countable' proj1_sig (of_bytes n) (of_bytes_proj n).

Definition hex_digit (z : Z) : byte := byte_of_Z (if Z.ltb z 10 then 48 + z else 87 + z).
Definition digit_val (b : byte) : Z :=
  let z := Z_of_byte b in if Z.ltb z 58 then z - 48 else z - 87.

Definition bytes2hex (l : bytes) : bytes :=
  b ← l; [hex_digit (Z_of_byte b / 16); hex_digit (Z_of_byte b mod 16)].

Fixpoint hex2bytes (l : bytes) : bytes :=
  match l with
  | a :: b :: l => byte_of_Z (digit_val a * 16 + digit_val b) :: hex2bytes l
  | _ => []
  end.

Lemma hex2bytes_bytes2hex l : hex2bytes (bytes2hex l) = l.
Proof.
  induction l as [|b l IH]; [done|]. unfold bytes2hex in *. simpl. f_equal; [|exact IH].
  destruct b; vm_compute; done.
Qed.

#[export] Instance geth : Geth := {|
  Address := word 20;
  Hash := word 32;
  Address_Bytes := proj1_sig;
  BytesToAddress := of_bytes 20;
  Hash_Bytes := proj1_sig;
  BytesToHash := of_bytes 32;
  (* long enough to keep the labels hashed by the program apart *)
  Keccak256Hash l := of_bytes 32 l;
  EncodeBig z := pretty.pretty z;
  Hex2Bytes := hex2bytes;
  Bytes2Hex := bytes2hex
|}.

#[export] Instance laws : GethLaws.
Proof.
  split; simpl; intros.
  - apply (proj2_dsig a).
  - apply (proj2_dsig h).
  - done.
  - apply of_bytes_proj.
  - done.
  - apply of_bytes_proj.
  - apply (bool_decide_unpack _). vm_compute. done.
  - apply hex2bytes_bytes2hex.
Qed.

(** The address (hash) whose number is [z]. *)
Definition addr (z : Z) : Address := BytesToAddress (Bytes z).
Definition hash (z : Z) : Hash := BytesToHash (Bytes z).
End Toy.
