(* ===== verification/World.v ===== *)
(** * The heap of the node

    The program shares mutable objects through pointers: an [OverlayState] is the parent
    of every layer derived from it, an [OverlayStateDB] is passed by reference to the EVM,
    a [Receipt] found in a layer is updated in place, the block number lives in one
    [uint64] shared by the EVM and the root layer, and the [big.Int]s of the block context
    are shared by every copy of the context.  [World] is the store of these objects; a
    location [loc] is a pointer.  The upstream node is the class [Upstream]. *)
From S2P Require Import Prelude BigInt Geth.

(** ** Data *)

Abbreviation loc := nat.

Section data.
Context `{Geth}.

(** The fields of [types.Log] the program reads or writes. *)
Record Log := mkLog { log_Address : Address; log_Topics : list Hash; log_Data : bytes }.

(** The fields of [types.Receipt] the program reads or writes.  [BlockNumber] is a
    pointer to a [big.Int]. *)
Record Receipt := mkReceipt {
  PostState : bytes;
  Status : Z;
  CumulativeGasUsed : Z;
  Logs : option (list Log);
  TxHash : Hash;
  BlockHash : Hash;
  BlockNumber : loc;
  GasUsed : Z;
  ContractAddress : Address;
  TransactionIndex : Z
}.

(** [mferstate.OverlayState]: one layer of the overlay.  The mutexes, the request
    channels and the connection handles carry no data of their own. *)
Record OverlayState := mkOverlayState {
  parent : option loc;
  bn : option loc;
  scratchPad : gmap bytes bytes;
  batchSize : Z;
  accessedAccounts : gmap Address bool;
  txLogs : gmap Hash (list Log);
  receipts : gmap Hash loc;
  currentTxHash : Hash;
  currentBlockHash : Hash;
  deriveCnt : Z;
  rpcCnt : Z;
  reason : string;
  stateID : Z
}.

(** [mferstate.OverlayStateDB]. *)
Record OverlayStateDB := mkOverlayStateDB {
  cacheFilePath : string;
  maxKeyCache : Z;
  refundGas : Z;
  state : option loc;
  stateBN : option loc
}.

Record World := mkWorld {
  w_states : gmap loc OverlayState;
  w_dbs : gmap loc OverlayStateDB;
  w_receipts : gmap loc Receipt;
  w_u64 : gmap loc Z;
  w_bigs : gmap loc Z;
  w_next : loc;            (* the next free location *)
  w_calls : nat;           (* round trips made to the upstream node so far *)
  w_rand : nat;            (* numbers drawn from math/rand so far *)
  w_files : gmap string bytes
}.

Definition world_empty : World := mkWorld ∅ ∅ ∅ ∅ ∅ 0 0 0 ∅.

(** ** Updates of one field *)

Definition set_scratchPad (f : gmap bytes bytes → gmap bytes bytes) (s : OverlayState) :=
  mkOverlayState (parent s) (bn s) (f (scratchPad s)) (batchSize s) (accessedAccounts s)
    (txLogs s) (receipts s) (currentTxHash s) (currentBlockHash s) (deriveCnt s) (rpcCnt s)
    (reason s) (stateID s).
Definition set_batchSize (n : Z) (s : OverlayState) :=
  mkOverlayState (parent s) (bn s) (scratchPad s) n (accessedAccounts s)
    (txLogs s) (receipts s) (currentTxHash s) (currentBlockHash s) (deriveCnt s) (rpcCnt s)
    (reason s) (stateID s).
Definition set_accessedAccounts (f : gmap Address bool → gmap Address bool) (s : OverlayState) :=
  mkOverlayState (parent s) (bn s) (scratchPad s) (batchSize s) (f (accessedAccounts s))
    (txLogs s) (receipts s) (currentTxHash s) (currentBlockHash s) (deriveCnt s) (rpcCnt s)
    (reason s) (stateID s).
Definition set_txLogs (f : gmap Hash (list Log) → gmap Hash (list Log)) (s : OverlayState) :=
  mkOverlayState (parent s) (bn s) (scratchPad s) (batchSize s) (accessedAccounts s)
    (f (txLogs s)) (receipts s) (currentTxHash s) (currentBlockHash s) (deriveCnt s) (rpcCnt s)
    (reason s) (stateID s).
Definition set_receipts (f : gmap Hash loc → gmap Hash loc) (s : OverlayState) :=
  mkOverlayState (parent s) (bn s) (scratchPad s) (batchSize s) (accessedAccounts s)
    (txLogs s) (f (receipts s)) (currentTxHash s) (currentBlockHash s) (deriveCnt s) (rpcCnt s)
    (reason s) (stateID s).
Definition set_current (tx blk : Hash) (s : OverlayState) :=
  mkOverlayState (parent s) (bn s) (scratchPad s) (batchSize s) (accessedAccounts s)
    (txLogs s) (receipts s) tx blk (deriveCnt s) (rpcCnt s) (reason s) (stateID s).
Definition incr_rpcCnt (s : OverlayState) :=
  mkOverlayState (parent s) (bn s) (scratchPad s) (batchSize s) (accessedAccounts s)
    (txLogs s) (receipts s) (currentTxHash s) (currentBlockHash s) (deriveCnt s)
    (i64 (rpcCnt s + 1)) (reason s) (stateID s).

Definition set_refundGas (f : Z → Z) (db : OverlayStateDB) :=
  mkOverlayStateDB (cacheFilePath db) (maxKeyCache db) (f (refundGas db)) (state db) (stateBN db).
Definition set_state (s : option loc) (db : OverlayStateDB) :=
  mkOverlayStateDB (cacheFilePath db) (maxKeyCache db) (refundGas db) s (stateBN db).

Definition set_Logs (l : option (list Log)) (r : Receipt) :=
  mkReceipt (PostState r) (Status r) (CumulativeGasUsed r) l (TxHash r) (BlockHash r)
    (BlockNumber r) (GasUsed r) (ContractAddress r) (TransactionIndex r).

(** A receipt without its logs, which are filled in when it is read, and without the
    number of its block, a shared object. *)
Definition plain (r : Receipt) :=
  mkReceipt (PostState r) (Status r) (CumulativeGasUsed r) None (TxHash r) (BlockHash r)
    0%nat (GasUsed r) (ContractAddress r) (TransactionIndex r).

Definition with_states (f : gmap loc OverlayState → gmap loc OverlayState) (w : World) :=
  mkWorld (f (w_states w)) (w_dbs w) (w_receipts w) (w_u64 w) (w_bigs w) (w_next w)
    (w_calls w) (w_rand w) (w_files w).
Definition with_dbs (f : gmap loc OverlayStateDB → gmap loc OverlayStateDB) (w : World) :=
  mkWorld (w_states w) (f (w_dbs w)) (w_receipts w) (w_u64 w) (w_bigs w) (w_next w)
    (w_calls w) (w_rand w) (w_files w).
Definition with_receipts (f : gmap loc Receipt → gmap loc Receipt) (w : World) :=
  mkWorld (w_states w) (w_dbs w) (f (w_receipts w)) (w_u64 w) (w_bigs w) (w_next w)
    (w_calls w) (w_rand w) (w_files w).
Definition with_u64 (f : gmap loc Z → gmap loc Z) (w : World) :=
  mkWorld (w_states w) (w_dbs w) (w_receipts w) (f (w_u64 w)) (w_bigs w) (w_next w)
    (w_calls w) (w_rand w) (w_files w).
Definition with_bigs (f : gmap loc Z → gmap loc Z) (w : World) :=
  mkWorld (w_states w) (w_dbs w) (w_receipts w) (w_u64 w) (f (w_bigs w)) (w_next w)
    (w_calls w) (w_rand w) (w_files w).
Definition with_next (w : World) :=
  mkWorld (w_states w) (w_dbs w) (w_receipts w) (w_u64 w) (w_bigs w) (S (w_next w))
    (w_calls w) (w_rand w) (w_files w).
Definition with_call (w : World) :=
  mkWorld (w_states w) (w_dbs w) (w_receipts w) (w_u64 w) (w_bigs w) (w_next w)
    (S (w_calls w)) (w_rand w) (w_files w).
Definition with_rand (w : World) :=
  mkWorld (w_states w) (w_dbs w) (w_receipts w) (w_u64 w) (w_bigs w) (w_next w)
    (w_calls w) (S (w_rand w)) (w_files w).
Definition with_files (f : gmap string bytes → gmap string bytes) (w : World) :=
  mkWorld (w_states w) (w_dbs w) (w_receipts w) (w_u64 w) (w_bigs w) (w_next w)
    (w_calls w) (w_rand w) (f (w_files w)).

(** ** Access to the objects *)

(** A method call or field access through a pointer that may be nil. *)
Definition non_nil (p : option loc) : M World loc := deref (λ _, p).

Definition get_state (s : loc) : M World OverlayState := deref (λ w, w_states w !! s).
Definition update_state (s : loc) (f : OverlayState → OverlayState) : M World unit :=
  modify (with_states (alter f s)).
Definition new_state (st : OverlayState) : M World loc := λ w,
  (Ok (w_next w), with_next (with_states (<[w_next w := st]>) w)).

Definition get_db (d : loc) : M World OverlayStateDB := deref (λ w, w_dbs w !! d).
Definition update_db (d : loc) (f : OverlayStateDB → OverlayStateDB) : M World unit :=
  modify (with_dbs (alter f d)).
Definition new_db (db : OverlayStateDB) : M World loc := λ w,
  (Ok (w_next w), with_next (with_dbs (<[w_next w := db]>) w)).

Definition get_receipt (r : loc) : M World Receipt := deref (λ w, w_receipts w !! r).
Definition update_receipt (r : loc) (f : Receipt → Receipt) : M World unit :=
  modify (with_receipts (alter f r)).
Definition new_receipt (r : Receipt) : M World loc := λ w,
  (Ok (w_next w), with_next (with_receipts (<[w_next w := r]>) w)).

Definition get_u64 (p : loc) : M World Z := deref (λ w, w_u64 w !! p).
Definition set_u64 (p : loc) (z : Z) : M World unit := modify (with_u64 (<[p := z]>)).
Definition new_u64 (z : Z) : M World loc := λ w,
  (Ok (w_next w), with_next (with_u64 (<[w_next w := z]>) w)).

Definition get_big (p : loc) : M World Z := deref (λ w, w_bigs w !! p).
Definition set_big (p : loc) (z : Z) : M World unit := modify (with_bigs (<[p := z]>)).
Definition new_big (z : Z) : M World loc := λ w,
  (Ok (w_next w), with_next (with_bigs (<[w_next w := z]>) w)).
End data.

(** ** The upstream node

    A JSON-RPC batch element is a method name with arguments; its result is decoded into
    the Go value its [Result] pointer has. *)
Section upstream.
Context `{Geth}.

Inductive RpcArg :=
| ArgAddress (a : Address)
| ArgHash (h : Hash)
| ArgString (s : string)
| ArgStrings (l : list string).

Record BatchElem := mkBatchElem { Method : string; Args : list RpcArg }.

(** The answer to a proof request. *)
Record StorageResult := mkStorageResult { str_Key : string; str_Value : option Z; str_Proof : list string }.

Record AccountResult := mkAccountResult {
  ar_Address : Address;
  ar_AccountProof : list string;
  ar_Balance : option Z;
  ar_CodeHash : Hash;
  ar_Nonce : Z;
  ar_StorageHash : Hash;
  ar_StorageProof : list StorageResult
}.

Inductive RpcValue :=
| ValUint64 (z : Z)
| ValBig (z : Z)
| ValBytes (l : bytes)
| ValHash (h : Hash)
| ValAccount (r : AccountResult).

(** [batch_call n reqs] is what the [n]-th round trip returns: [None] when
    [BatchCallContext] returns an error, otherwise one answer per element, [None] for an
    element whose [Error] field is set, whose result is then left untouched.
    [storage_at] is a single request for a slot; [None] is an error.
    [rand_uint64] is the sequence drawn from math/rand.  [patience] bounds how often a
    loop that retries for ever is unfolded before the model reports that it diverges.  The
    two start times are the clock readings that seed the two generated accounts of
    package constant. *)
Class Upstream := {
  batch_call : nat → list BatchElem → option (list (option RpcValue));
  storage_at : nat → Address → Hash → Z → option bytes;
  rand_uint64 : nat → Z;
  patience : nat;
  start_time_rich : bytes;
  start_time_rand : bytes
}.

(** [rpc.Client.BatchCallContext]. *)
Definition BatchCallContext `{!Upstream} (reqs : list BatchElem)
    : M World (option (list (option RpcValue))) := λ w,
  (Ok (batch_call (w_calls w) reqs), with_call w).

(** [ethclient.Client.StorageAt]. *)
Definition StorageAt `{!Upstream} (account : Address) (key : Hash) (bn : Z) : M World (option bytes) := λ w,
  (Ok (storage_at (w_calls w) account key bn), with_call w).
End upstream.

#[global] Hint Mode Upstream - : typeclass_instances.

(** ** Lemmas *)

Section lemmas.
Context `{Geth}.
Implicit Types w : World.

(** Worlds that differ only in their logs, counters and files agree on the objects. *)
Lemma new_state_spec st w :
  new_state st w = (Ok (w_next w), with_next (with_states (<[w_next w := st]>) w)).
Proof. done. Qed.

Lemma get_state_Some s st w : w_states w !! s = Some st → get_state s w = (Ok st, w).
Proof. intros E. unfold get_state, deref. by rewrite E. Qed.

Lemma get_state_inv s st w w' : get_state s w = (Ok st, w') → w_states w !! s = Some st ∧ w' = w.
Proof. unfold get_state, deref. destruct (w_states w !! s); naive_solver. Qed.

Lemma get_db_Some d db w : w_dbs w !! d = Some db → get_db d w = (Ok db, w).
Proof. intros E. unfold get_db, deref. by rewrite E. Qed.

Lemma get_db_inv d db w w' : get_db d w = (Ok db, w') → w_dbs w !! d = Some db ∧ w' = w.
Proof. unfold get_db, deref. destruct (w_dbs w !! d); naive_solver. Qed.

Lemma non_nil_inv p l w w' : non_nil p w = (Ok l, w') → p = Some l ∧ w' = w.
Proof. unfold non_nil, deref. destruct p; naive_solver. Qed.
End lemmas.

#[export] Hint Resolve get_state_Some get_db_Some : mfer.
