(* ===== verification/OverlayState.v ===== *)
(** * mferstate/overlaystate.go: the layered state

    A layer holds a scratch pad of the values written through it; a read goes down the
    chain of parents to the root layer, whose scratch pad caches what the upstream node
    answered.  The root's [timeSlot] goroutine collects the requests of the clients and
    sends them in batches; [timeSlot_storage] and [timeSlot_account] are its two cases, on
    the requests pending at a tick, and [loadState]/[loadAccount] are a client's call. *)
From S2P Require Import Prelude BigInt Geth World.

(** ** Keys of the scratch pad *)

Section keys.
Context `{Geth}.

Inductive RequestType := GET_BALANCE | GET_NONCE | GET_CODE | GET_CODEHASH | GET_STATE.

#[global] Instance RequestType_eq_dec : EqDecision RequestType.
Proof. solve_decision. Defined.

Definition BALANCE_KEY : Hash := Keccak256Hash (str "mfersafe-scratchpad-balance").
Definition NONCE_KEY : Hash := Keccak256Hash (str "mfersafe-scratchpad-nonce").
Definition CODE_KEY : Hash := Keccak256Hash (str "mfersafe-scratchpad-code").
Definition CODEHASH_KEY : Hash := Keccak256Hash (str "mfersafe-scratchpad-codehash").
Definition STATE_KEY : Hash := Keccak256Hash (str "mfersafe-scratchpad-state").
Definition SUICIDE_KEY : Hash := Keccak256Hash (str "mfersafe-suicide-state").

Definition calcKey (op : Hash) (account : Address) : bytes :=
  Hash_Bytes op ++ Address_Bytes account.

Definition calcStateKey (account : Address) (key : Hash) : bytes :=
  calcKey STATE_KEY account ++ Hash_Bytes key.

(** The key selected by the [switch] at the head of [get]. *)
Definition scratchpadKey (account : Address) (action : RequestType) (key : Hash) : bytes :=
  match action with
  | GET_BALANCE => calcKey BALANCE_KEY account
  | GET_NONCE => calcKey NONCE_KEY account
  | GET_CODE => calcKey CODE_KEY account
  | GET_CODEHASH => calcKey CODEHASH_KEY account
  | GET_STATE => calcStateKey account key
  end.

Record StorageReq := mkStorageReq { sr_Address : Address; sr_Key : Hash; sr_Value : Hash }.

Record FetchedAccountResult := mkFetched {
  fa_Account : Address;
  fa_Balance : Z;
  fa_CodeHash : Hash;
  fa_Nonce : Z;
  fa_Code : bytes
}.

(** [StorageReq.Hash]. *)
Definition StorageReq_Hash (r : StorageReq) : Hash :=
  Keccak256Hash (Address_Bytes (sr_Address r) ++ Hash_Bytes (sr_Key r)).
End keys.

(** ** Layers *)

Section layers.
Context `{Geth} `{!Upstream}.

(** [rand.Uint64()]. *)
Definition rand_Uint64 : M World Z := λ w, (Ok (u64 (rand_uint64 (w_rand w))), with_rand w).

(** A root layer; the goroutine started on it is [timeSlot]. *)
Definition NewOverlayState (bnp : option loc) (batch : Z) : M World loc :=
  new_state {|
    parent := None; bn := bnp; scratchPad := ∅; batchSize := batch; accessedAccounts := ∅;
    txLogs := ∅; receipts := ∅; currentTxHash := Hash_zero; currentBlockHash := Hash_zero;
    deriveCnt := 0; rpcCnt := 0; reason := ""; stateID := 0 |}.

Definition Derive (s : loc) (why : string) : M World loc :=
  st ← get_state s;
  id ← rand_Uint64;
  new_state {|
    parent := Some s; bn := None; scratchPad := ∅; batchSize := 0; accessedAccounts := ∅;
    txLogs := ∅; receipts := ∅; currentTxHash := currentTxHash st;
    currentBlockHash := currentBlockHash st; deriveCnt := i64 (deriveCnt st + 1); rpcCnt := 0;
    reason := why; stateID := id |}.

(** The method reads [s.stateID], so a nil receiver panics. *)
Definition Parent (s : option loc) : M World (option loc) :=
  l ← non_nil s; st ← get_state l; mret (parent st).

Fixpoint getRootState_ (fuel : nat) (s : loc) : M World loc :=
  match fuel with
  | O => diverge
  | S fuel =>
      st ← get_state s;
      match parent st with
      | None => mret s
      | Some p => getRootState_ fuel p
      end
  end.

(** Parents are allocated before their children, so [S s] steps reach the root. *)
Definition getRootState (s : loc) : M World loc := getRootState_ (S s) s.

Definition DeriveFromRoot (s : loc) : M World loc :=
  r ← getRootState s; Derive r "from root".
End layers.

(** ** Requests to the upstream node *)

Section rpc.
Context `{Geth} `{!Upstream}.

(** The hexadecimal block number of the root layer: [big.NewInt(int64( *s.bn))]. *)
Definition hexBN (s : loc) : M World string :=
  st ← get_state s; p ← non_nil (bn st); b ← get_u64 p; mret (EncodeBig (i64 b)).

(** What a [Result] pointer holds after the call: its zero value when the element failed
    or the answer does not decode into the pointed type. *)
Definition as_uint64 (v : option RpcValue) : Z :=
  match v with Some (ValUint64 z) => if decide (0 ≤ z < 2 ^ 64) then z else 0 | _ => 0 end.
Definition as_big (v : option RpcValue) : Z :=
  match v with Some (ValBig z) => if decide (0 ≤ z < 2 ^ 256) then z else 0 | _ => 0 end.
Definition as_bytes (v : option RpcValue) : bytes :=
  match v with Some (ValBytes l) => l | _ => [] end.
Definition as_hash (v : option RpcValue) : Hash :=
  match v with Some (ValHash h) => h | _ => Hash_zero end.

(** One answer per request; a missing one leaves the result untouched. *)
Definition fit {A B} (reqs : list A) (vs : list (option B)) : list (option B) :=
  imap (λ i _, mjoin (vs !! i)) reqs.

(** The inner loop of [loadAccountBatchRPC]; [budget] is [5 - rpcTries]. *)
Fixpoint call_retrying (budget : nat) (reqs : list BatchElem)
    : M World (option (list (option RpcValue) * nat)) :=
  r ← BatchCallContext reqs;
  match r with
  | Some vs => mret (Some (fit reqs vs, budget))
  | None => match budget with O => mret None | S budget => call_retrying budget reqs end
  end.

(** [BatchCallContext] with no retry, the body of the loop of [loadStateBatchRPC]. *)
Definition call_once (budget : nat) (reqs : list BatchElem)
    : M World (option (list (option RpcValue) * nat)) :=
  r ← BatchCallContext reqs;
  mret ((λ vs, (fit reqs vs, budget)) <$> r).

(** [for begin := 0; begin < len(reqs); begin += step]: the requests are sent in slices
    of [step]; a zero [step] never ends and a negative one has a bad slice bound. *)
Fixpoint batch_loop (fuel : nat)
    (call : nat → list BatchElem → M World (option (list (option RpcValue) * nat)))
    (step : Z) (reqs : list BatchElem) (begin : Z) (budget : nat) (acc : list (option RpcValue))
    : M World (option (list (option RpcValue))) :=
  if Z.ltb begin (Z.of_nat (length reqs)) then
    match fuel with
    | O => diverge
    | S fuel =>
        let stop := begin + step in
        let stop := if Z.ltb (Z.of_nat (length reqs)) stop then Z.of_nat (length reqs) else stop in
        match slice reqs begin stop with
        | None => panic "slice bounds out of range"
        | Some chunk =>
            r ← call budget chunk;
            match r with
            | None => mret None
            | Some (vs, budget) =>
                batch_loop fuel call step reqs (begin + step) budget (acc ++ vs)
            end
        end
    end
  else mret (Some acc).

(** The three requests made for an account. *)
Definition account_reqs (hbn : string) (account : Address) : list BatchElem :=
  [mkBatchElem "eth_getTransactionCount" [ArgAddress account; ArgString hbn];
   mkBatchElem "eth_getBalance" [ArgAddress account; ArgString hbn];
   mkBatchElem "eth_getCode" [ArgAddress account; ArgString hbn]].

(** The account read from its three answers. *)
Definition account_result (nonce balance code : option RpcValue) : FetchedAccountResult := {|
  fa_Account := Address_zero;
  fa_Balance := as_big balance;
  fa_CodeHash :=
    match as_bytes code with [] => Hash_zero | c => Keccak256Hash c end;
  fa_Nonce := as_uint64 nonce;
  fa_Code := as_bytes code |}.

Fixpoint account_results (vs : list (option RpcValue)) : list FetchedAccountResult :=
  match vs with
  | nonce :: balance :: code :: vs => account_result nonce balance code :: account_results vs
  | _ => []
  end.

(** [fuel] bounds the rounds of the loop. *)
Definition loadAccountBatchRPC_ (fuel : nat) (s : loc) (accounts : list Address)
    : M World (option (list FetchedAccountResult)) :=
  hbn ← hexBN s;
  let reqs := accounts ≫= account_reqs hbn in
  for_each (λ a, update_state s (set_accessedAccounts <[a := true]>)) accounts ;;
  st ← get_state s;
  r ← batch_loop fuel call_retrying (batchSize st) reqs 0 5 [];
  mret (account_results <$> r).

(** A positive batch size needs no more rounds than there are requests. *)
Definition loadAccountBatchRPC (s : loc) (accounts : list Address)
    : M World (option (list FetchedAccountResult)) :=
  loadAccountBatchRPC_ (S (3 * length accounts)) s accounts.

Definition storage_req (hbn : string) (r : StorageReq) : BatchElem :=
  mkBatchElem "eth_getStorageAt" [ArgAddress (sr_Address r); ArgHash (sr_Key r); ArgString hbn].

Definition set_value (r : StorageReq) (v : option RpcValue) : StorageReq :=
  mkStorageReq (sr_Address r) (sr_Key r) (as_hash v).

Definition loadStateBatchRPC_ (fuel : nat) (s : loc) (storageReqs : list StorageReq)
    : M World (option (list StorageReq)) :=
  update_state s incr_rpcCnt ;;
  hbn ← hexBN s;
  let reqs := storage_req hbn <$> storageReqs in
  st ← get_state s;
  r ← batch_loop fuel call_once (batchSize st) reqs 0 0 [];
  mret (zip_with set_value storageReqs <$> r).

Definition loadStateBatchRPC (s : loc) (storageReqs : list StorageReq)
    : M World (option (list StorageReq)) :=
  loadStateBatchRPC_ (S (length storageReqs)) s storageReqs.

(** *** Loaders that nothing calls *)

Definition no_account : AccountResult := mkAccountResult Address_zero [] None Hash_zero 0 Hash_zero [].

Definition as_account (v : option RpcValue) : AccountResult :=
  match v with Some (ValAccount r) => r | _ => no_account end.

(** The errors of the two elements are looked for in copies the client does not fill, so
    they are never seen. *)
Definition loadAccountViaGetProof (s : loc) (account : Address)
    : M World (option (AccountResult * bytes)) :=
  hbn ← hexBN s;
  let getProofReq := mkBatchElem "eth_getProof" [ArgAddress account; ArgStrings []; ArgString hbn] in
  let getCodeReq := mkBatchElem "eth_getCode" [ArgAddress account; ArgString hbn] in
  r ← call_retrying 5 [getProofReq; getCodeReq];
  mret ((λ q, (as_account (mjoin (q.1 !! 0%nat)), as_bytes (mjoin (q.1 !! 1%nat)))) <$> r).

Definition loadStateRPC (s : loc) (account : Address) (key : Hash) : M World (option Hash) :=
  update_state s incr_rpcCnt ;;
  st ← get_state s;
  p ← non_nil (bn st);
  b ← get_u64 p;
  storage ← StorageAt account key (i64 b);
  mret (BytesToHash <$> storage).

(** *** The server goroutine *)

Fixpoint retry_forever {A} (fuel : nat) (m : M World (option A)) : M World A :=
  match fuel with
  | O => diverge
  | S fuel =>
      r ← m;
      match r with Some a => mret a | None => retry_forever fuel m end
  end.

(** The storage case of [timeSlot] on the pending requests: the replies, in order. *)
Definition timeSlot_storage (s : loc) (pending : list StorageReq) : M World (list StorageReq) :=
  match pending with
  | [] => mret []
  | _ => retry_forever patience (loadStateBatchRPC s pending)
  end.

(** The account case of [timeSlot]. *)
Definition timeSlot_account (s : loc) (accounts : list Address)
    : M World (list FetchedAccountResult) :=
  match accounts with
  | [] => mret []
  | _ => retry_forever patience (loadAccountBatchRPC s accounts)
  end.

(** A client sends its request on a fresh channel and waits for the reply on it. *)
Definition loadState (s : loc) (account : Address) (key : Hash) : M World Hash :=
  rs ← timeSlot_storage s [mkStorageReq account key Hash_zero];
  match rs with r :: _ => mret (sr_Value r) | [] => diverge end.

Definition loadAccount (s : loc) (account : Address) : M World FetchedAccountResult :=
  rs ← timeSlot_account s [account];
  match rs with r :: _ => mret r | [] => diverge end.
End rpc.

(** ** Reads *)

Section get.
Context `{Geth} `{!Upstream}.

(** [if _, ok := m[k]; !ok { m[k] = v }] *)
Definition insert_absent (k v : bytes) (m : gmap bytes bytes) : gmap bytes bytes :=
  match m !! k with Some _ => m | None => <[k := v]> m end.

(** The four entries filled from a fetched account. *)
Definition fill_account (account : Address) (r : FetchedAccountResult) (m : gmap bytes bytes) :=
  insert_absent (calcKey CODEHASH_KEY account) (Hash_Bytes (fa_CodeHash r))
    (insert_absent (calcKey CODE_KEY account) (fa_Code r)
      (insert_absent (calcKey NONCE_KEY account) (Bytes (i64 (fa_Nonce r)))
        (insert_absent (calcKey BALANCE_KEY account) (Bytes (fa_Balance r)) m))).

(** A read that misses the root's scratch pad. *)
Definition fetch (s : loc) (account : Address) (action : RequestType) (key : Hash)
    : M World bytes :=
  match action with
  | GET_STATE =>
      result ← loadState s account key;
      update_state s (set_scratchPad <[calcStateKey account key := Hash_Bytes result]>) ;;
      mret (Hash_Bytes result)
  | _ =>
      result ← loadAccount s account;
      update_state s (set_scratchPad (fill_account account result)) ;;
      st ← get_state s;
      mret (default [] (scratchPad st !! scratchpadKey account action key))
  end.

Fixpoint get_ (fuel : nat) (s : loc) (account : Address) (action : RequestType) (key : Hash)
    : M World bytes :=
  match fuel with
  | O => diverge
  | S fuel =>
      st ← get_state s;
      match parent st with
      | None =>
          match scratchPad st !! scratchpadKey account action key with
          | Some val => mret val
          | None => fetch s account action key
          end
      | Some p =>
          match scratchPad st !! scratchpadKey account action key with
          | Some val => mret val
          | None => get_ fuel p account action key
          end
      end
  end.

(** [get]; its error result is nil on every path.  The fuel is enough: see [get_spec]. *)
Definition get (s : loc) (account : Address) (action : RequestType) (key : Hash)
    : M World bytes := get_ (S s) s account action key.
End get.
