(* ===== verification/Fetch.v ===== *)
(** * What the upstream requests return

    The node is described by the answer it gives to each batch element ([Reliable]): every
    round trip that succeeds returns these answers, and from the [N]-th round trip on all
    succeed.  The lemmas follow the requests bottom up: a slice with its retries, the loop
    over the slices, the two batched loaders, and the server's retry-until-success. *)
From S2P Require Import Prelude BigInt Geth World OverlayState.

(** ** The node's answers *)

Section remote.
Context `{Geth} `{!Upstream}.
Variable answer : BatchElem → option RpcValue.

(** The account and the storage slot the node has at a block. *)
Definition remote_account (hbn : string) (a : Address) : FetchedAccountResult :=
  account_result (answer (mkBatchElem "eth_getTransactionCount" [ArgAddress a; ArgString hbn]))
    (answer (mkBatchElem "eth_getBalance" [ArgAddress a; ArgString hbn]))
    (answer (mkBatchElem "eth_getCode" [ArgAddress a; ArgString hbn])).

Definition remote_slot (hbn : string) (a : Address) (key : Hash) : Hash :=
  as_hash (answer (mkBatchElem "eth_getStorageAt" [ArgAddress a; ArgHash key; ArgString hbn])).

(** The bytes a read of [account] through the root layer is meant to see. *)
Definition remote (hbn : string) (a : Address) (action : RequestType) (key : Hash) : bytes :=
  match action with
  | GET_BALANCE => Bytes (fa_Balance (remote_account hbn a))
  | GET_NONCE => Bytes (i64 (fa_Nonce (remote_account hbn a)))
  | GET_CODE => fa_Code (remote_account hbn a)
  | GET_CODEHASH => Hash_Bytes (fa_CodeHash (remote_account hbn a))
  | GET_STATE => Hash_Bytes (remote_slot hbn a key)
  end.

Record Reliable (N : nat) : Prop := {
  rel_answer n reqs vs : batch_call n reqs = Some vs → vs = answer <$> reqs;
  rel_recovers n reqs : (N ≤ n)%nat → is_Some (batch_call n reqs);
  rel_patience : (N < patience)%nat
}.
End remote.

(** The same world after [n] round trips in all. *)
Definition at_calls `{Geth} (n : nat) (w : World) : World :=
  mkWorld (w_states w) (w_dbs w) (w_receipts w) (w_u64 w) (w_bigs w) (w_next w) n (w_rand w)
    (w_files w).

(** ** The effect of a request on the world

    Requests touch nothing but the bookkeeping of the root layer they go through:
    [evolves R r w w'] says that the root [r] keeps everything except its request count,
    its set of accessed accounts (which grows) and its scratch pad, related by [R]. *)
Section evolves.
Context `{Geth}.

Record layer_evolves (R : relation (gmap bytes bytes)) (st st' : OverlayState) : Prop := {
  le_parent : parent st' = parent st;
  le_bn : bn st' = bn st;
  le_pad : R (scratchPad st) (scratchPad st');
  le_batch : batchSize st' = batchSize st;
  le_accessed : dom (accessedAccounts st) ⊆ dom (accessedAccounts st');
  le_logs : txLogs st' = txLogs st;
  le_receipts : receipts st' = receipts st;
  le_tx : currentTxHash st' = currentTxHash st;
  le_block : currentBlockHash st' = currentBlockHash st;
  le_depth : deriveCnt st' = deriveCnt st;
  le_reason : reason st' = reason st;
  le_id : stateID st' = stateID st;
  le_tracked a act key : act ≠ GET_STATE → is_Some (scratchPad st' !! scratchpadKey a act key) →
    is_Some (scratchPad st !! scratchpadKey a act key) ∨ a ∈ dom (accessedAccounts st')
}.

(** Account [a] is among those the root layer remembers for the next prefetch. *)
Definition accessed (w : World) (r : loc) (a : Address) : Prop :=
  ∃ st, w_states w !! r = Some st ∧ a ∈ dom (accessedAccounts st).

Record evolves (R : relation (gmap bytes bytes)) (r : loc) (w w' : World) : Prop := {
  ev_dbs : w_dbs w' = w_dbs w;
  ev_heap_receipts : w_receipts w' = w_receipts w;
  ev_u64 : w_u64 w' = w_u64 w;
  ev_bigs : w_bigs w' = w_bigs w;
  ev_next : w_next w' = w_next w;
  ev_calls : (w_calls w ≤ w_calls w')%nat;
  ev_rand : w_rand w' = w_rand w;
  ev_files : w_files w' = w_files w;
  ev_others l : l ≠ r → w_states w' !! l = w_states w !! l;
  ev_root : option_Forall2 (layer_evolves R) (w_states w !! r) (w_states w' !! r)
}.

(** A root layer ready to serve: it has a block number and slices of at least one. *)
Definition root_ready (w : World) (r : loc) (b : Z) : Prop :=
  ∃ st p, w_states w !! r = Some st ∧ parent st = None ∧ bn st = Some p ∧
    w_u64 w !! p = Some b ∧ 1 ≤ batchSize st.
End evolves.

(** ** Lemmas *)

Section evolves_lemmas.
Context `{Geth}.

#[global] Instance layer_evolves_preorder R : PreOrder R → PreOrder (layer_evolves R).
Proof.
  intros HR. split.
  - intros st. split; (reflexivity || done || by left).
  - intros x y z [] []. split; try (etrans; eauto; fail).
    intros a act key Hact [H2|H2]%le_tracked1; [apply le_tracked0 in H2 as [|]; set_solver|by right|done].
Qed.

#[global] Instance evolves_preorder R r : PreOrder R → PreOrder (evolves R r).
Proof.
  intros HR. split.
  - intros w. split; try reflexivity; try done.
  - intros x y z [] []. split; try (etrans; eauto; fail); try congruence.
    intros l Hl. by rewrite ev_others1, ev_others0.
Qed.

Lemma evolves_weaken R1 R2 r w w' :
  (∀ m m', R1 m m' → R2 m m') → evolves R1 r w w' → evolves R2 r w w'.
Proof.
  intros HR []. split; try done.
  destruct ev_root0 as [st st' []|]; constructor. split; eauto.
Qed.

Lemma evolves_at_calls R r w n :
  PreOrder R → (w_calls w ≤ n)%nat → evolves R r w (at_calls n w).
Proof.
  intros HR Hn. by split.
Qed.

(** An update of the root's layer that respects [R]. *)
Lemma evolves_update R r f w w' :
  (∀ st, w_states w !! r = Some st → layer_evolves R st (f st)) →
  update_state r f w = (Ok tt, w') → evolves R r w w'.
Proof.
  intros Hf [= <-]. split; try done; simpl.
  - intros l Hl. by rewrite lookup_alter_ne.
  - rewrite lookup_alter_eq. destruct (w_states w !! r) eqn:E; simpl; constructor. by apply Hf.
Qed.

Lemma root_ready_evolves R r w w' b : evolves R r w w' → root_ready w r b → root_ready w' r b.
Proof.
  intros Hev (st & p & Hst & Hpar & Hbn & Hb & Hbatch). destruct Hev.
  rewrite Hst in ev_root0. inversion ev_root0 as [? st' Hle Heq1 Heq2|]; subst.
  exists st', p. destruct Hle. repeat split; congruence.
Qed.

Lemma accessed_evolves R r w w' a : evolves R r w w' → accessed w r a → accessed w' r a.
Proof.
  intros Hev (st & Hst & Ha). destruct Hev. rewrite Hst in ev_root0.
  inversion ev_root0 as [? st' Hle E1 E2|]; subst. exists st'. split; [done|].
  by apply (le_accessed _ _ _ Hle).
Qed.

Lemma hexBN_ready r b w : root_ready w r b → hexBN r w = (Ok (EncodeBig (i64 b)), w).
Proof.
  intros (st & p & Hst & _ & Hbn & Hb & _). unfold hexBN.
  rewrite (bind_Ok _ _ _ _ _ (get_state_Some _ _ _ Hst)). rewrite Hbn.
  unfold non_nil, get_u64, mbind, M_bind, deref. by rewrite Hb.
Qed.
End evolves_lemmas.

Section fetch.
Context `{Geth} `{!Upstream}.
Context (answer : BatchElem → option RpcValue) (N : nat) (HN : Reliable answer N).

Lemma at_calls_at_calls n m w : at_calls n (at_calls m w) = at_calls n w.
Proof. done. Qed.

Lemma at_calls_id w : at_calls (w_calls w) w = w.
Proof. by destruct w. Qed.

Lemma at_calls_le n w w' : at_calls n w = w' → w_calls w' = n.
Proof. by intros <-. Qed.

Lemma fit_answers (reqs : list BatchElem) : fit reqs (answer <$> reqs) = answer <$> reqs.
Proof.
  apply list_eq. intros i. unfold fit. rewrite list_lookup_imap, !list_lookup_fmap.
  by destruct (reqs !! i).
Qed.

(** A call of a batch of requests: it either fails, which takes at least one round trip
    and cannot happen after the outage, or returns the node's answers. *)
Definition call_spec
    (call : nat → list BatchElem → M World (option (list (option RpcValue) * nat))) : Prop :=
  ∀ b reqs w, ∃ n r, call b reqs w = (Ok r, at_calls n w) ∧ (w_calls w < n)%nat ∧
    ((N ≤ w_calls w)%nat → is_Some r) ∧ (∀ vs b', r = Some (vs, b') → vs = answer <$> reqs).

Lemma call_once_spec : call_spec call_once.
Proof.
  intros b reqs w. unfold call_once, BatchCallContext. eexists (S (w_calls w)), _.
  split; [reflexivity|]. split; [lia|]. split.
  - intros Hn. apply (rel_recovers answer N HN _ reqs) in Hn as [vs ->]. done.
  - intros vs b'. destruct (batch_call (w_calls w) reqs) as [vs'|] eqn:E; [|done].
    intros [= <- <-]. apply (rel_answer answer N HN) in E as ->. apply fit_answers.
Qed.

Lemma call_retrying_spec : call_spec call_retrying.
Proof.
  intros b reqs. induction b as [|b IH]; intros w; cbn [call_retrying];
    unfold BatchCallContext at 1; unfold mbind, M_bind;
    destruct (batch_call (w_calls w) reqs) as [vs|] eqn:E;
    try (apply (rel_answer answer N HN) in E as ->; eexists (S (w_calls w)), _;
         split; [reflexivity|]; split; [lia|]; split; [done|];
         intros ?? [= <- <-]; apply fit_answers).
  - eexists (S (w_calls w)), _. split; [reflexivity|]. split; [lia|]. split; [|done].
    intros Hn. apply (rel_recovers answer N HN _ reqs) in Hn as [vs Hvs]. congruence.
  - destruct (IH (with_call w)) as (n & r & Hrun & Hlt & Hrec & Hans). simpl in *.
    exists n, r. split; [exact Hrun|]. split; [lia|]. split; [|done].
    intros Hn. apply Hrec. lia.
Qed.

(** The loop over the slices returns the answers to all the requests, in order. *)
Lemma batch_loop_spec call step reqs fuel begin b acc w :
  call_spec call → 1 ≤ step → 0 ≤ begin → (Z.to_nat (Z.of_nat (length reqs) - begin) ≤ fuel)%nat →
  ∃ n r, batch_loop fuel call step reqs begin b acc w = (Ok r, at_calls n w) ∧
    (w_calls w ≤ n)%nat ∧ (r = None → (w_calls w < n)%nat) ∧ ((N ≤ w_calls w)%nat → is_Some r) ∧
    (∀ vs, r = Some vs → vs = acc ++ (answer <$> drop (Z.to_nat begin) reqs)).
Proof.
  intros Hcall Hstep. revert begin b acc w.
  induction fuel as [|fuel IH]; intros begin b acc w Hbegin Hfuel; cbn [batch_loop];
    (destruct (Z.ltb_spec begin (Z.of_nat (length reqs))) as [Hlt|Hge];
     [|exists (w_calls w), (Some acc); rewrite at_calls_id;
       repeat split; [lia|done|done|intros vs [= <-]];
       rewrite drop_ge by lia; by rewrite app_nil_r]); [lia|].
  set (stop := if Z.ltb _ _ then _ else _).
  assert (begin ≤ stop ∧ stop ≤ Z.of_nat (length reqs) ∧
          stop = Z.min (begin + step) (Z.of_nat (length reqs))) as (H1 & H2 & Hstop).
  { unfold stop. destruct (Z.ltb_spec (Z.of_nat (length reqs)) (begin + step)); lia. }
  unfold slice. rewrite decide_True by lia.
  set (chunk := take _ _).
  destruct (Hcall b chunk w) as (n1 & r1 & Hrun & Hlt1 & Hrec1 & Hans1).
  rewrite (bind_Ok _ _ _ _ _ Hrun).
  assert ((N ≤ w_calls w)%nat → r1 = None → False) as Hrec1' by (intros Hn ->; by destruct (Hrec1 Hn)).
  destruct r1 as [[vs1 b1]|].
  - specialize (Hans1 _ _ eq_refl) as ->.
    destruct (IH (begin + step) b1 (acc ++ (answer <$> chunk)) (at_calls n1 w))
      as (n & r & Hrun2 & Hle & Hnone & Hrec & Hans); [lia..|]. simpl in *.
    exists n, r. rewrite at_calls_at_calls in Hrun2.
    split; [exact Hrun2|]. split; [lia|]. split; [intros ->; specialize (Hnone eq_refl); lia|].
    split; [intros; apply Hrec; lia|]. intros vs ->. rewrite (Hans vs eq_refl), <-app_assoc.
    f_equal. rewrite <-fmap_app. f_equal. unfold chunk.
    rewrite Hstop. destruct (decide (begin + step ≤ Z.of_nat (length reqs))).
    + rewrite Z.min_l by done. replace (begin + step - begin) with step by lia.
      rewrite Z2Nat.inj_add, <-drop_drop by lia. apply take_drop.
    + rewrite Z.min_r by lia. rewrite take_ge, (drop_ge _ (Z.to_nat (begin + step))) by
        (rewrite ?length_drop; lia). by rewrite app_nil_r.
  - exists n1, None. split; [done|]. split; [lia|]. split; [lia|]. split; [intros Hn; by destruct (Hrec1' Hn)|done].
Qed.

Lemma account_results_app (hbn : string) (accounts : list Address) :
  account_results (answer <$> (accounts ≫= account_reqs hbn)) = remote_account answer hbn <$> accounts.
Proof. induction accounts as [|a l IH]; [done|]. simpl. f_equal. exact IH. Qed.

Lemma touch_accounts r accounts w :
  ∃ w', for_each (λ a, update_state r (set_accessedAccounts <[a := true]>)) accounts w = (Ok tt, w') ∧
    evolves eq r w w' ∧ w_calls w' = w_calls w ∧
    (is_Some (w_states w !! r) → ∀ a, a ∈ accounts → accessed w' r a).
Proof.
  revert w. induction accounts as [|a l IH]; intros w.
  { exists w. split_and!; try done. by intros _ a ?%elem_of_nil. }
  simpl. destruct (IH (with_states (alter (set_accessedAccounts <[a := true]>) r) w))
    as (w' & Hrun & Hev & Hc & Ha).
  exists w'. split; [exact Hrun|]. split; [|split; [done|]].
  - etrans; [|exact Hev].
    eapply evolves_update; [|reflexivity]. intros st _. split; try done; simpl; [set_solver|by left].
  - intros [st Hst] a' [->|Ha']%elem_of_cons.
    + eapply accessed_evolves; [exact Hev|]. exists (set_accessedAccounts <[a := true]> st).
      simpl. rewrite lookup_alter_eq, Hst. split; [done|]. simpl. set_solver.
    + apply Ha; [|done]. simpl. rewrite lookup_alter_eq, Hst. done.
Qed.

(** What a batched loader returns: it fails only during the outage, after at least one
    round trip, and what it returns is given by the node's answers. *)
Definition loader_spec {A} (r : loc) (m : M World (option A)) (result : A) (b : Z)
    (touched : list Address) : Prop :=
  ∀ w, root_ready w r b → ∃ w' o, m w = (Ok o, w') ∧ evolves eq r w w' ∧
    (o = None → (w_calls w < w_calls w')%nat) ∧ ((N ≤ w_calls w)%nat → is_Some o) ∧
    (∀ a, o = Some a → a = result) ∧ (∀ a, a ∈ touched → accessed w' r a).

Lemma length_account_reqs hbn accounts : length (accounts ≫= account_reqs hbn) = (3 * length accounts)%nat.
Proof. induction accounts as [|a l IH]; [done|]. cbn [mbind list_bind]. rewrite length_app, IH. simpl. lia. Qed.

Lemma loadAccountBatchRPC_spec r b accounts :
  loader_spec r (loadAccountBatchRPC r accounts)
    (remote_account answer (EncodeBig (i64 b)) <$> accounts) b accounts.
Proof.
  intros w Hready. unfold loadAccountBatchRPC, loadAccountBatchRPC_.
  rewrite (bind_Ok _ _ _ _ _ (hexBN_ready _ _ _ Hready)).
  destruct (touch_accounts r accounts w) as (w1 & Hrun1 & Hev1 & Hc1 & Ha1).
  assert (is_Some (w_states w !! r)) as Hsome by (destruct Hready as (? & ? & ? & _); eauto).
  rewrite (bind_Ok _ _ _ _ _ Hrun1).
  pose proof (root_ready_evolves _ _ _ _ _ Hev1 Hready) as (st & p & Hst & _ & _ & _ & Hbatch).
  rewrite (bind_Ok _ _ _ _ _ (get_state_Some _ _ _ Hst)).
  rewrite <-(length_account_reqs (EncodeBig (i64 b))). set (reqs := accounts ≫= _).
  destruct (batch_loop_spec call_retrying (batchSize st) reqs (S (length reqs)) 0 5 [] w1)
    as (n & o & Hrun & Hle & Hnone & Hrec & Hans); [apply call_retrying_spec|lia..|].
  rewrite (bind_Ok _ _ _ _ _ Hrun).
  exists (at_calls n w1), (account_results <$> o). split; [done|]. split.
  { etrans; [exact Hev1|]. apply evolves_at_calls; [apply _|done]. }
  split; [|split; [|split]].
  - intros Ho. destruct o; [done|]. specialize (Hnone eq_refl). simpl. lia.
  - rewrite <-Hc1. intros Hn. destruct (Hrec Hn) as [vs ->]. done.
  - intros a. destruct o as [vs|]; intros [= <-]. rewrite (Hans vs eq_refl).
    apply account_results_app.
  - intros a Ha. apply (Ha1 Hsome a Ha).
Qed.

Lemma set_values (reqs : list StorageReq) hbn :
  zip_with set_value reqs (answer <$> (storage_req hbn <$> reqs)) =
  (λ r, mkStorageReq (sr_Address r) (sr_Key r) (remote_slot answer hbn (sr_Address r) (sr_Key r))) <$> reqs.
Proof. induction reqs as [|r l IH]; [done|]. simpl. f_equal. exact IH. Qed.

Lemma loadStateBatchRPC_spec r b reqs :
  loader_spec r (loadStateBatchRPC r reqs)
    ((λ q, mkStorageReq (sr_Address q) (sr_Key q)
        (remote_slot answer (EncodeBig (i64 b)) (sr_Address q) (sr_Key q))) <$> reqs) b [].
Proof.
  intros w Hready. unfold loadStateBatchRPC, loadStateBatchRPC_.
  set (w1 := with_states (alter incr_rpcCnt r) w).
  assert (evolves eq r w w1) as Hev1.
  { eapply evolves_update; [|reflexivity]. intros st _. split; try done. by left. }
  pose proof (root_ready_evolves _ _ _ _ _ Hev1 Hready) as Hready1.
  unfold update_state at 1. rewrite bind_modify. fold w1.
  rewrite (bind_Ok _ _ _ _ _ (hexBN_ready _ _ _ Hready1)).
  destruct Hready1 as (st & p & Hst & _ & _ & _ & Hbatch).
  rewrite (bind_Ok _ _ _ _ _ (get_state_Some _ _ _ Hst)).
  set (breqs := storage_req _ <$> reqs).
  assert (length reqs = length breqs) as -> by by unfold breqs; rewrite length_fmap.
  destruct (batch_loop_spec call_once (batchSize st) breqs (S (length breqs)) 0 0 [] w1)
    as (n & o & Hrun & Hle & Hnone & Hrec & Hans); [apply call_once_spec|lia..|].
  rewrite (bind_Ok _ _ _ _ _ Hrun).
  exists (at_calls n w1), (zip_with set_value reqs <$> o). split; [done|]. split.
  { etrans; [exact Hev1|]. apply evolves_at_calls; [apply _|done]. }
  split; [|split; [|split]].
  - intros Ho. destruct o; [done|]. specialize (Hnone eq_refl). simpl in *. lia.
  - intros Hn. destruct (Hrec Hn) as [vs ->]. done.
  - intros a. destruct o as [vs|]; intros [= <-]. rewrite (Hans vs eq_refl). apply set_values.
  - by intros a ?%elem_of_nil.
Qed.

(** The server's retry loop ends: each failure takes a round trip of the outage. *)
Lemma retry_forever_spec {A} r (m : M World (option A)) result b touched fuel w :
  loader_spec r m result b touched → root_ready w r b → (0 < fuel)%nat →
  (N ≤ fuel - 1 + w_calls w)%nat →
  ∃ w', retry_forever fuel m w = (Ok result, w') ∧ evolves eq r w w' ∧
    (∀ a, a ∈ touched → accessed w' r a).
Proof.
  intros Hm. revert w. induction fuel as [|fuel IH]; intros w Hready Hpos Hfuel; [lia|].
  destruct (Hm w Hready) as (w1 & o & Hrun & Hev & Hnone & Hrec & Hres & Htouch).
  cbn [retry_forever]. rewrite (bind_Ok _ _ _ _ _ Hrun). destruct o as [a|].
  - exists w1. by rewrite (Hres a eq_refl).
  - specialize (Hnone eq_refl).
    assert (¬ (N ≤ w_calls w)%nat) by (intros Hn; by destruct (Hrec Hn)).
    destruct (IH w1) as (w2 & Hrun2 & Hev2 & Ha2); [by eapply root_ready_evolves|lia..|].
    exists w2. split; [done|]. split; [by etrans|done].
Qed.

Lemma patient_spec {A} r (m : M World (option A)) result b touched w :
  loader_spec r m result b touched → root_ready w r b →
  ∃ w', retry_forever patience m w = (Ok result, w') ∧ evolves eq r w w' ∧
    (∀ a, a ∈ touched → accessed w' r a).
Proof.
  intros Hm Hready. pose proof (rel_patience answer N HN).
  eapply retry_forever_spec; [done..|lia|lia].
Qed.

(** Every pending storage request gets the reply to that very request. *)
Lemma timeSlot_storage_spec r b pending w :
  root_ready w r b →
  ∃ w', timeSlot_storage r pending w =
    (Ok ((λ q, mkStorageReq (sr_Address q) (sr_Key q)
        (remote_slot answer (EncodeBig (i64 b)) (sr_Address q) (sr_Key q))) <$> pending), w') ∧
    evolves eq r w w'.
Proof.
  intros Hready. destruct pending as [|q l]; [by exists w|].
  destruct (patient_spec r _ _ b [] w (loadStateBatchRPC_spec r b (q :: l)) Hready)
    as (w' & Hrun & Hev & _). by exists w'.
Qed.

Lemma timeSlot_account_spec r b accounts w :
  root_ready w r b →
  ∃ w', timeSlot_account r accounts w =
    (Ok (remote_account answer (EncodeBig (i64 b)) <$> accounts), w') ∧ evolves eq r w w' ∧
    (∀ a, a ∈ accounts → accessed w' r a).
Proof.
  intros Hready. destruct accounts as [|a l].
  { exists w. split_and!; try done. by intros a ?%elem_of_nil. }
  eapply patient_spec; [apply loadAccountBatchRPC_spec|done].
Qed.

Lemma loadState_spec r b account key w :
  root_ready w r b →
  ∃ w', loadState r account key w =
    (Ok (remote_slot answer (EncodeBig (i64 b)) account key), w') ∧ evolves eq r w w'.
Proof.
  intros Hready. unfold loadState.
  edestruct timeSlot_storage_spec as (w' & Hrun & Hev); [done|].
  rewrite (bind_Ok _ _ _ _ _ Hrun). by exists w'.
Qed.

Lemma loadAccount_spec r b account w :
  root_ready w r b →
  ∃ w', loadAccount r account w =
    (Ok (remote_account answer (EncodeBig (i64 b)) account), w') ∧ evolves eq r w w' ∧
    accessed w' r account.
Proof.
  intros Hready. unfold loadAccount.
  edestruct timeSlot_account_spec as (w' & Hrun & Hev & Ha); [done|].
  rewrite (bind_Ok _ _ _ _ _ Hrun). exists w'. split; [done|]. split; [done|]. apply Ha. by left.
Qed.
End fetch.

#[export] Hint Resolve root_ready_evolves : mfer.
