(* ===== verification/StateSpec.v ===== *)
(** * What a layered state means

    The abstract reading of a chain of layers: [view] is the union of the scratch pads,
    the nearest layer first, and [observe] falls back to the upstream node's value at the
    pinned block.  [get] is shown to return exactly [observe], for every chain, with every
    cache state of the root and through every outage of the node, and to change no
    observation. *)
From S2P Require Import Prelude BigInt Geth World OverlayState Fetch.

(** ** Specification *)

Section spec.
Context `{Geth} `{!Upstream}.

(** The layers from [s] down to its root; a parent is older than its children. *)
Inductive chain (w : World) : loc → list loc → Prop :=
| chain_root s st :
    w_states w !! s = Some st → parent st = None → chain w s [s]
| chain_step s st p ls :
    w_states w !! s = Some st → parent st = Some p → (p < s)%nat → chain w p ls →
    chain w s (s :: ls).

Definition pad (w : World) (l : loc) : gmap bytes bytes := default ∅ (scratchPad <$> w_states w !! l).

Definition view (w : World) (ls : list loc) : gmap bytes bytes :=
  foldr (λ l m, pad w l ∪ m) ∅ ls.

Variable answer : BatchElem → option RpcValue.

(** The node's value at block number [b]. *)
Definition remote_at (b : Z) (a : Address) (action : RequestType) (key : Hash) : bytes :=
  remote answer (EncodeBig (i64 b)) a action key.

Definition observe (b : Z) (w : World) (ls : list loc) (a : Address) (action : RequestType)
    (key : Hash) : bytes :=
  default (remote_at b a action key) (view w ls !! scratchpadKey a action key).

(** The root's cache gained only the node's values. *)
Definition grows (b : Z) (m m' : gmap bytes bytes) : Prop :=
  m ⊆ m' ∧ ∀ a action key v, m' !! scratchpadKey a action key = Some v →
    m !! scratchpadKey a action key = Some v ∨
    (m !! scratchpadKey a action key = None ∧ v = remote_at b a action key).

(** Two worlds agree on the layers in [P]: these are unchanged, but for the root, whose
    cache may have been warmed with the node's values; receipts at most get new logs. *)
Record agrees (b : Z) (r : loc) (P : loc → Prop) (w w' : World) : Prop := {
  ag_layers l : P l → l ≠ r → w_states w' !! l = w_states w !! l;
  ag_root : option_Forall2 (layer_evolves (grows b)) (w_states w !! r) (w_states w' !! r);
  ag_u64 : w_u64 w' = w_u64 w;
  ag_receipts l rc : w_receipts w !! l = Some rc →
    ∃ rc', w_receipts w' !! l = Some rc' ∧ plain rc' = plain rc
}.

(** A chain over a root that serves block number [b]. *)
Definition overlay (w : World) (s : loc) (ls : list loc) (r : loc) (b : Z) : Prop :=
  chain w s ls ∧ last ls = Some r ∧ root_ready w r b.
End spec.

(** ** The keys of the scratch pad are separate *)

Section keys.
Context `{GethLaws}.

Lemma tags_distinct :
  BALANCE_KEY ≠ NONCE_KEY ∧ BALANCE_KEY ≠ CODE_KEY ∧ BALANCE_KEY ≠ CODEHASH_KEY ∧
  BALANCE_KEY ≠ STATE_KEY ∧ BALANCE_KEY ≠ SUICIDE_KEY ∧ NONCE_KEY ≠ CODE_KEY ∧
  NONCE_KEY ≠ CODEHASH_KEY ∧ NONCE_KEY ≠ STATE_KEY ∧ NONCE_KEY ≠ SUICIDE_KEY ∧
  CODE_KEY ≠ CODEHASH_KEY ∧ CODE_KEY ≠ STATE_KEY ∧ CODE_KEY ≠ SUICIDE_KEY ∧
  CODEHASH_KEY ≠ STATE_KEY ∧ CODEHASH_KEY ≠ SUICIDE_KEY ∧ STATE_KEY ≠ SUICIDE_KEY.
Proof.
  pose proof tags_NoDup as Hnd. unfold tag_labels in Hnd. cbn [fmap list_fmap] in Hnd.
  rewrite !NoDup_cons, !not_elem_of_cons in Hnd.
  unfold BALANCE_KEY, NONCE_KEY, CODE_KEY, CODEHASH_KEY, STATE_KEY, SUICIDE_KEY. tauto.
Qed.

Lemma length_calcKey op a : length (calcKey op a) = 52%nat.
Proof. unfold calcKey. by rewrite length_app, length_Hash_Bytes, length_Address_Bytes. Qed.

Lemma length_calcStateKey a key : length (calcStateKey a key) = 84%nat.
Proof. unfold calcStateKey. by rewrite length_app, length_calcKey, length_Hash_Bytes. Qed.

Lemma calcKey_inj op a op' a' : calcKey op a = calcKey op' a' → op = op' ∧ a = a'.
Proof.
  intros E. apply app_inj_1 in E as [E1 E2]; [|by rewrite !length_Hash_Bytes].
  split; [by apply (inj Hash_Bytes)|by apply (inj Address_Bytes)].
Qed.

Lemma calcStateKey_inj a key a' key' :
  calcStateKey a key = calcStateKey a' key' → a = a' ∧ key = key'.
Proof.
  intros E. apply app_inj_1 in E as [E1 E2]; [|by rewrite !length_calcKey].
  apply calcKey_inj in E1 as [_ ->]. split; [done|by apply (inj Hash_Bytes)].
Qed.

Lemma calcKey_calcStateKey op a a' key : calcKey op a ≠ calcStateKey a' key.
Proof. intros E. apply (f_equal length) in E. rewrite length_calcKey, length_calcStateKey in E. lia. Qed.

(** Two reads use the same key only if they read the same thing. *)
Lemma scratchpadKey_inj a act key a' act' key' :
  scratchpadKey a act key = scratchpadKey a' act' key' →
  a = a' ∧ act = act' ∧ (act = GET_STATE → key = key').
Proof.
  pose proof tags_distinct as Htags. destruct_and!.
  destruct act, act'; simpl; intros E;
    first
      [ by apply calcKey_calcStateKey in E
      | symmetry in E; by apply calcKey_calcStateKey in E
      | by apply calcStateKey_inj in E as [-> ->]
      | apply calcKey_inj in E as [? ->]; try congruence; split_and!; congruence ].
Qed.

Lemma suicide_key_separate a a' act key : calcKey SUICIDE_KEY a ≠ scratchpadKey a' act key.
Proof.
  pose proof tags_distinct as Htags. destruct_and!.
  destruct act; simpl; intros E;
    first [ by apply calcKey_calcStateKey in E | apply calcKey_inj in E as [? _]; congruence ].
Qed.
End keys.

(** ** Chains *)

Section chains.
Context `{Geth}.
Implicit Types w : World.

Lemma chain_lookup w s ls : chain w s ls → is_Some (w_states w !! s).
Proof. destruct 1; eauto. Qed.

Lemma chain_length w s ls : chain w s ls → (length ls ≤ S s)%nat.
Proof. induction 1; simpl in *; lia. Qed.

Lemma chain_head w s ls : chain w s ls → ∃ ls', ls = s :: ls'.
Proof. destruct 1; eauto. Qed.

Lemma chain_bounded w s ls l : chain w s ls → l ∈ ls → (l ≤ s)%nat.
Proof.
  induction 1; intros Hl; apply elem_of_cons in Hl as [->|Hl]; try lia; [by apply elem_of_nil in Hl|].
  apply IHchain in Hl. lia.
Qed.

Lemma chain_det w s ls ls' : chain w s ls → chain w s ls' → ls = ls'.
Proof.
  intros Hc. revert ls'. induction Hc; intros ls'' Hc'; inversion Hc'; simplify_eq; try done.
  f_equal. by apply IHHc.
Qed.

Lemma chain_NoDup w s ls : chain w s ls → NoDup ls.
Proof.
  induction 1; constructor; try done; [by apply not_elem_of_nil|constructor|].
  intros Hl. eapply chain_bounded in Hl; [|done]. lia.
Qed.

Lemma chain_last w s ls : chain w s ls →
  ∃ r st, last ls = Some r ∧ w_states w !! r = Some st ∧ parent st = None.
Proof.
  induction 1 as [|s st p ls ? ? ? Hc (r & rst & Hr & ? & ?)]; [by eexists _, _|].
  exists r, rst. split; [|done]. apply chain_head in Hc as [ls' ->]. done.
Qed.

(** A chain depends only on which layers exist and on their parents. *)
Lemma chain_ext w w' s ls :
  (∀ l st, l ∈ ls → w_states w !! l = Some st →
     ∃ st', w_states w' !! l = Some st' ∧ parent st' = parent st) →
  chain w s ls → chain w' s ls.
Proof.
  intros Hext Hc. induction Hc as [s st Hst Hp|s st p ls Hst Hp Hlt Hc IH].
  - destruct (Hext s st) as (st' & Hst' & Hp'); [left|done|].
    eapply chain_root; [done|congruence].
  - destruct (Hext s st) as (st' & Hst' & Hp'); [left|done|].
    eapply chain_step; [done|by rewrite Hp', Hp|done|]. apply IH. intros l st0 Hl. apply Hext. by right.
Qed.

Lemma view_ext w w' ls : (∀ l, l ∈ ls → pad w' l = pad w l) → view w' ls = view w ls.
Proof.
  induction ls as [|l ls IH]; intros Hext; simpl; [done|].
  rewrite (Hext l) by left. rewrite IH; [done|]. intros l' Hl'. apply Hext. by right.
Qed.

Lemma view_cons w l ls k : view w (l :: ls) !! k =
  match pad w l !! k with Some v => Some v | None => view w ls !! k end.
Proof. simpl. rewrite lookup_union. by destruct (pad w l !! k), (view w ls !! k). Qed.

Lemma pad_lookup w l st : w_states w !! l = Some st → pad w l = scratchPad st.
Proof. intros E. unfold pad. by rewrite E. Qed.

Lemma Parent_run w s st : w_states w !! s = Some st → Parent (Some s) w = (Ok (parent st), w).
Proof.
  intros Hst. unfold Parent. rewrite (bind_Ok (non_nil (Some s)) _ w s w) by done.
  by rewrite (bind_Ok _ _ _ _ _ (get_state_Some _ _ _ Hst)).
Qed.

Lemma getRootState_spec w s ls r :
  chain w s ls → last ls = Some r → getRootState s w = (Ok r, w).
Proof.
  intros Hc Hr. unfold getRootState.
  assert (length ls ≤ S s)%nat as Hlen by by eapply chain_length.
  revert Hlen. generalize (S s). induction Hc as [s st Hst Hp|s st p ls Hst Hp Hlt Hc IH];
    intros [|fuel] Hlen; simpl in Hlen; try lia; cbn [getRootState_];
    rewrite (bind_Ok _ _ _ _ _ (get_state_Some _ _ _ Hst)), Hp.
  - simpl in Hr. by simplify_eq.
  - apply IH; [|lia]. apply chain_head in Hc as [ls' ->]. done.
Qed.
End chains.

(** ** Reads *)

Section reads.
Context `{GethLaws} `{!Upstream}.
Context (answer : BatchElem → option RpcValue).
Implicit Types w : World.

Lemma remote_at_key b a act key key' :
  (act = GET_STATE → key = key') → remote_at answer b a act key = remote_at answer b a act key'.
Proof. destruct act; simpl; intros Hkey; try done. by rewrite Hkey. Qed.

#[global] Instance grows_preorder b : PreOrder (grows answer b).
Proof.
  split.
  - intros m. split; [done|]. auto.
  - intros m1 m2 m3 [Hs1 Hg1] [Hs2 Hg2]. split; [by etrans|]. intros a act key v Hv.
    apply Hg2 in Hv as [Hv|[Hn ->]]; [by apply Hg1|]. right. split; [|done].
    destruct (m1 !! _) as [v|] eqn:E; [|done]. eapply lookup_weaken in E; [|done]. congruence.
Qed.

Lemma grows_insert b m a act key :
  m !! scratchpadKey a act key = None →
  grows answer b m (<[scratchpadKey a act key := remote_at answer b a act key]> m).
Proof.
  intros Hn. split; [by apply insert_subseteq|]. intros a' act' key' v.
  rewrite lookup_insert. case_decide as E; [|by left].
  intros [= <-]. rewrite <-E. right. split; [done|].
  apply scratchpadKey_inj in E as (-> & -> & Hkey). by apply remote_at_key.
Qed.

Lemma grows_insert_absent b m a act key v :
  v = remote_at answer b a act key →
  grows answer b m (insert_absent (scratchpadKey a act key) v m).
Proof.
  intros ->. unfold insert_absent. destruct (m !! _) eqn:E; [done|]. by apply grows_insert.
Qed.

Lemma insert_absent_subseteq k v m : m ⊆ insert_absent k v m.
Proof. unfold insert_absent. destruct (m !! k) eqn:E; [done|]. by apply insert_subseteq. Qed.

Lemma insert_absent_lookup k v m : is_Some (insert_absent k v m !! k).
Proof. unfold insert_absent. destruct (m !! k) eqn:E; [by rewrite E|]. by rewrite lookup_insert_eq. Qed.

Lemma fill_account_grows b a m :
  grows answer b m (fill_account a (remote_account answer (EncodeBig (i64 b)) a) m).
Proof.
  unfold fill_account.
  etrans; [by apply (grows_insert_absent b m a GET_BALANCE Hash_zero)|].
  etrans; [by apply (grows_insert_absent b _ a GET_NONCE Hash_zero)|].
  etrans; [by apply (grows_insert_absent b _ a GET_CODE Hash_zero)|].
  by apply (grows_insert_absent b _ a GET_CODEHASH Hash_zero).
Qed.

Lemma fill_account_lookup a r m act key :
  act ≠ GET_STATE → is_Some (fill_account a r m !! scratchpadKey a act key).
Proof.
  intros Hact. unfold fill_account.
  destruct act; try done; simpl;
    repeat first
      [ apply insert_absent_lookup
      | eapply lookup_weaken_is_Some; [|apply insert_absent_subseteq] ].
Qed.

Lemma fill_account_lookup_ne a r m a' act key :
  a' ≠ a → fill_account a r m !! scratchpadKey a' act key = m !! scratchpadKey a' act key.
Proof.
  intros Hne.
  assert (∀ act0 v m0, insert_absent (scratchpadKey a act0 Hash_zero) v m0 !! scratchpadKey a' act key
    = m0 !! scratchpadKey a' act key) as Hins.
  { intros act0 v m0. unfold insert_absent. destruct (m0 !! scratchpadKey a _ _); [done|].
    apply lookup_insert_ne. by intros (<- & _)%scratchpadKey_inj. }
  unfold fill_account. rewrite (Hins GET_CODEHASH), (Hins GET_CODE), (Hins GET_NONCE).
  apply (Hins GET_BALANCE).
Qed.

Lemma evolves_state_lookup R r w w' st :
  evolves R r w w' → w_states w !! r = Some st →
  ∃ st', w_states w' !! r = Some st' ∧ layer_evolves R st st'.
Proof. intros [] Hst. rewrite Hst in ev_root. inversion ev_root. eauto. Qed.

Lemma evolves_agrees b r P w w' : evolves (grows answer b) r w w' → agrees answer b r P w w'.
Proof. intros []. split; auto. intros l rc Hrc. rewrite ev_heap_receipts. eauto. Qed.

#[global] Instance agrees_preorder b r P : PreOrder (agrees answer b r P).
Proof.
  split.
  - intros w. split; eauto. reflexivity.
  - intros x y z [] []. split; try (etrans; eauto; fail); try congruence.
    + intros l HP Hl. by rewrite ag_layers1, ag_layers0.
    + intros l rc (rc1 & (rc2 & ? & ?)%ag_receipts1 & ?)%ag_receipts0. exists rc2. split; [done|congruence].
Qed.

Lemma agrees_mono b r (P Q : loc → Prop) w w' :
  (∀ l, Q l → P l) → agrees answer b r P w w' → agrees answer b r Q w w'.
Proof. intros HQ []. split; auto. Qed.

Lemma agrees_root_lookup b r P w w' st :
  agrees answer b r P w w' → w_states w !! r = Some st →
  ∃ st', w_states w' !! r = Some st' ∧ layer_evolves (grows answer b) st st'.
Proof. intros [] Hst. rewrite Hst in ag_root0. inversion ag_root0. eauto. Qed.

(** A layer of a chain keeps everything but the bookkeeping of the root. *)
Lemma agrees_layer b r (P : loc → Prop) w w' l st :
  agrees answer b r P w w' → P l → w_states w !! l = Some st →
  ∃ st', w_states w' !! l = Some st' ∧ layer_evolves (grows answer b) st st'.
Proof.
  intros Hag HP Hst. destruct (decide (l = r)) as [->|Hne].
  - by eapply agrees_root_lookup.
  - exists st. rewrite (ag_layers _ _ _ _ _ _ Hag) by done. by split.
Qed.

Lemma agrees_chain b r w w' s ls :
  agrees answer b r (.∈ ls) w w' → chain w s ls → chain w' s ls.
Proof.
  intros Hag. apply chain_ext. intros l st Hl Hst.
  destruct (agrees_layer _ _ _ _ _ _ _ Hag Hl Hst) as (st' & ? & []). eauto.
Qed.

Lemma agrees_root_ready b r P w w' b0 :
  agrees answer b r P w w' → root_ready w r b0 → root_ready w' r b0.
Proof.
  intros Hag (st & p & Hst & Hp & Hbn & Hb & Hbatch).
  destruct (agrees_root_lookup _ _ _ _ _ _ Hag Hst) as (st' & Hst' & []).
  exists st', p. rewrite (ag_u64 _ _ _ _ _ _ Hag). repeat split; congruence.
Qed.

Lemma agrees_overlay b r w w' s ls :
  agrees answer b r (.∈ ls) w w' → overlay w s ls r b → overlay w' s ls r b.
Proof.
  intros Hag (Hc & Hl & Hr). split; [by eapply agrees_chain|]. split; [done|].
  by eapply agrees_root_ready.
Qed.

Lemma agrees_view b r w w' s ls a act key :
  agrees answer b r (.∈ ls) w w' → chain w s ls → last ls = Some r →
  view w' ls !! scratchpadKey a act key = view w ls !! scratchpadKey a act key ∨
  view w ls !! scratchpadKey a act key = None ∧
    view w' ls !! scratchpadKey a act key = Some (remote_at answer b a act key).
Proof.
  intros Hag Hc Hlast. induction Hc as [s st Hst Hp|s st p ls Hst Hp Hlt Hc IH].
  - simpl in Hlast. simplify_eq.
    destruct (agrees_root_lookup _ _ _ _ _ _ Hag Hst) as (st' & Hst' & Hle).
    rewrite !view_cons, (pad_lookup _ _ _ Hst), (pad_lookup _ _ _ Hst'). simpl.
    rewrite lookup_empty. destruct (le_pad _ _ _ Hle) as [Hsub Hnew].
    destruct (scratchPad st' !! _) as [v|] eqn:E'.
    + apply Hnew in E' as [->|[-> ->]]; auto.
    + left. destruct (scratchPad st !! _) as [v|] eqn:E; [|done].
      eapply lookup_weaken in E; [|done]. congruence.
  - assert (last ls = Some r) as Hr by by (apply chain_head in Hc as [? ->]).
    assert (s ≠ r) as Hne.
    { apply last_Some_elem_of in Hr. eapply chain_bounded in Hr; [|done]. lia. }
    rewrite !view_cons. unfold pad. rewrite (ag_layers _ _ _ _ _ _ Hag) by (left || done).
    destruct (default _ _ !! _); [by left|]. apply IH; [|done].
    eapply agrees_mono; [|done]. intros l Hl. by right.
Qed.

(** Filling the root's cache changes no observation. *)
Lemma observe_agrees b r w w' s ls a act key :
  agrees answer b r (.∈ ls) w w' → chain w s ls → last ls = Some r →
  observe answer b w' ls a act key = observe answer b w ls a act key.
Proof.
  intros Hag Hc Hl. unfold observe.
  by destruct (agrees_view b r w w' s ls a act key) as [->|[-> ->]].
Qed.

Context (N : nat) (HN : Reliable answer N).

Lemma fetch_spec r b st a act key w :
  root_ready w r b → w_states w !! r = Some st → scratchPad st !! scratchpadKey a act key = None →
  ∃ w', fetch r a act key w = (Ok (remote_at answer b a act key), w') ∧
    evolves (grows answer b) r w w'.
Proof.
  intros Hready Hst Hmiss. destruct (decide (act = GET_STATE)) as [->|Hact].
  - destruct (loadState_spec answer N HN r b a key w Hready) as (w1 & Hrun & Hev).
    unfold fetch. rewrite (bind_Ok _ _ _ _ _ Hrun).
    eexists. split; [reflexivity|]. etrans; [by eapply evolves_weaken; [|done]; intros ?? ->|].
    eapply evolves_update; [|reflexivity]. intros st1 Hst1.
    destruct (evolves_state_lookup _ _ _ _ _ Hev Hst) as (st1' & ? & Hle). simplify_eq.
    split; try done; simpl.
    + apply (grows_insert b _ a GET_STATE key). by rewrite <-(le_pad _ _ _ Hle).
    + intros a' act' key' Hact' [v' Hv']. left. rewrite lookup_insert_ne in Hv'; [eauto|].
      intros E. by apply (scratchpadKey_inj a GET_STATE key a' act' key') in E as (_ & <- & _).
  - destruct (loadAccount_spec answer N HN r b a w Hready) as (w1 & Hrun & Hev & Hacc).
    destruct (evolves_state_lookup _ _ _ _ _ Hev Hst) as (st1 & Hst1 & Hle).
    set (res := remote_account answer (EncodeBig (i64 b)) a) in *.
    set (w2 := with_states (alter (set_scratchPad (fill_account a res)) r) w1).
    assert (w_states w2 !! r = Some (set_scratchPad (fill_account a res) st1)) as Hst2.
    { simpl. by rewrite lookup_alter_eq, Hst1. }
    exists w2. split.
    + transitivity ((update_state r (set_scratchPad (fill_account a res));;
          st' ← get_state r; mret (default [] (scratchPad st' !! scratchpadKey a act key))) w1).
      { unfold fetch. destruct act; try done; by rewrite (bind_Ok _ _ _ _ _ Hrun). }
      unfold update_state. rewrite bind_modify. fold w2.
      rewrite (bind_Ok _ _ _ _ _ (get_state_Some _ _ _ Hst2)). simpl. do 2 f_equal.
      destruct (fill_account_lookup a res (scratchPad st1) act key Hact) as [v Hv].
      rewrite Hv. simpl. apply (fill_account_grows b a (scratchPad st1)) in Hv as [Hv|[_ ->]]; [|done].
      rewrite <-(le_pad _ _ _ Hle) in Hv. congruence.
    + etrans; [by eapply evolves_weaken; [|done]; intros ?? ->|].
      eapply evolves_update; [|reflexivity]. intros st' Hst'. split; try done.
      * apply fill_account_grows.
      * simpl. intros a' act' key' _ Hin. destruct Hacc as (st2 & Hst2' & Hacc). simplify_eq.
        destruct (decide (a' = a)) as [->|Hne]; [by right|left].
        by rewrite fill_account_lookup_ne in Hin.
Qed.

(** A read returns the observation, whatever the root has cached and however the node
    fails on the way, and only warms the root's cache. *)
Lemma get_spec s ls r b a act key w :
  overlay w s ls r b →
  ∃ w', get s a act key w = (Ok (observe answer b w ls a act key), w') ∧
    evolves (grows answer b) r w w'.
Proof.
  intros (Hc & Hlast & Hready). unfold get.
  assert (length ls ≤ S s)%nat as Hlen by by eapply chain_length.
  revert Hlen. generalize (S s) as fuel.
  induction Hc as [s st Hst Hp|s st p ls Hst Hp Hlt Hc IH]; intros [|fuel] Hlen; simpl in Hlen;
    try lia; cbn [get_]; rewrite (bind_Ok _ _ _ _ _ (get_state_Some _ _ _ Hst)), Hp;
    unfold observe; rewrite view_cons, (pad_lookup _ _ _ Hst);
    destruct (scratchPad st !! scratchpadKey a act key) as [v|] eqn:Hv.
  - exists w. by split.
  - simpl in Hlast. simplify_eq. cbn [view foldr]; rewrite lookup_empty. by eapply fetch_spec.
  - exists w. by split.
  - apply IH; [|lia]. by apply chain_head in Hc as [? ->].
Qed.
End reads.
