(* ===== verification/OverlayStateDB.v ===== *)
(** * mferstate/overlaystatedb.go: the state database

    [OverlayStateDB] is the [vm.StateDB] the EVM runs against: it points to the top layer
    of a chain; reads go through [OverlayState.get], writes go to the top layer's scratch
    pad, snapshots push a layer and reverting pops layers.  Every method takes the pointer
    [d] of the database.  The [if err != nil] guards after [get] are dead, because [get]
    always returns a nil error. *)
From S2P Require Import Prelude BigInt Geth World OverlayState.

(** ** Data *)

Section data.
Context `{Geth}.

(** The fields of [OverrideAccount] that [GetStateDiff] sets. *)
Record OverrideAccount := mkOverride {
  ov_Nonce : option Z;
  ov_Code : option bytes;
  ov_Balance : option Z;
  ov_StateDiff : option (gmap Hash Hash)
}.

Definition override_empty : OverrideAccount := mkOverride None None None None.
Definition set_ov_Nonce (n : Z) (o : OverrideAccount) :=
  mkOverride (Some n) (ov_Code o) (ov_Balance o) (ov_StateDiff o).
Definition set_ov_Code (c : bytes) (o : OverrideAccount) :=
  mkOverride (ov_Nonce o) (Some c) (ov_Balance o) (ov_StateDiff o).
Definition set_ov_Balance (b : Z) (o : OverrideAccount) :=
  mkOverride (ov_Nonce o) (ov_Code o) (Some b) (ov_StateDiff o).
Definition set_ov_StateDiff (k v : Hash) (o : OverrideAccount) :=
  mkOverride (ov_Nonce o) (ov_Code o) (ov_Balance o) (Some (<[k := v]> (default ∅ (ov_StateDiff o)))).
End data.

(** ** Construction *)

Section construction.
Context `{Geth} `{!Upstream}.

Definition NewOverlayStateDB (blockNumber : option loc) (path : string) (maxKeys : Z) (batch : Z)
    : M World loc :=
  root ← NewOverlayState blockNumber batch;
  s ← Derive root "protect underlying";
  new_db {| cacheFilePath := path; maxKeyCache := maxKeys; refundGas := 0; state := Some s;
            stateBN := blockNumber |}.

(** [db.state], dereferenced. *)
Definition top (d : loc) : M World loc := db ← get_db d; non_nil (state db).

Definition GetOverlayDepth (d : loc) : M World Z := s ← top d; st ← get_state s; mret (deriveCnt st).

(** [db.state.scratchPad[k] = v] *)
Definition put (d : loc) (k v : bytes) : M World unit :=
  s ← top d; update_state s (set_scratchPad <[k := v]>).

(** [db.state.get(account, action, key)] *)
Definition read (d : loc) (account : Address) (action : RequestType) (key : Hash) : M World bytes :=
  s ← top d; get s account action key.
End construction.

(** ** Accounts and storage *)

Section accounts.
Context `{Geth} `{!Upstream}.

Definition CreateAccount (d : loc) (account : Address) : M World unit := mret tt.

Definition SubBalance (d : loc) (account : Address) (delta : Z) : M World unit :=
  bal ← read d account GET_BALANCE Hash_zero;
  put d (calcKey BALANCE_KEY account) (Bytes (SetBytes bal - delta)).

Definition AddBalance (d : loc) (account : Address) (delta : Z) : M World unit :=
  bal ← read d account GET_BALANCE Hash_zero;
  put d (calcKey BALANCE_KEY account) (Bytes (SetBytes bal + delta)).

Definition GetBalance (d : loc) (account : Address) : M World Z :=
  bal ← read d account GET_BALANCE Hash_zero; mret (SetBytes bal).

Definition SetBalance (d : loc) (account : Address) (balance : Z) : M World unit :=
  put d (calcKey BALANCE_KEY account) (Bytes balance).

Definition GetNonce (d : loc) (account : Address) : M World Z :=
  nonce ← read d account GET_NONCE Hash_zero; mret (Uint64 (SetBytes nonce)).

(** The [uint64] is converted to [int64] on the way to a [big.Int]. *)
Definition SetNonce (d : loc) (account : Address) (nonce : Z) : M World unit :=
  put d (calcKey NONCE_KEY account) (Bytes (i64 nonce)).

Definition GetCodeHash (d : loc) (account : Address) : M World Hash :=
  codehash ← read d account GET_CODEHASH Hash_zero; mret (BytesToHash codehash).

Definition SetCodeHash (d : loc) (account : Address) (codeHash : Hash) : M World unit :=
  put d (calcKey CODEHASH_KEY account) (Hash_Bytes codeHash).

Definition GetCode (d : loc) (account : Address) : M World bytes :=
  read d account GET_CODE Hash_zero.

Definition SetCode (d : loc) (account : Address) (code : bytes) : M World unit :=
  put d (calcKey CODE_KEY account) code.

Definition GetCodeSize (d : loc) (account : Address) : M World Z :=
  code ← read d account GET_CODE Hash_zero; mret (Z.of_nat (length code)).

Definition AddRefund (d : loc) (delta : Z) : M World unit :=
  update_db d (set_refundGas (λ g, u64 (g + delta))).
Definition SubRefund (d : loc) (delta : Z) : M World unit :=
  update_db d (set_refundGas (λ g, u64 (g - delta))).
Definition GetRefund (d : loc) : M World Z := db ← get_db d; mret (refundGas db).

Definition GetCommittedState (d : loc) (account : Address) (key : Hash) : M World Hash :=
  val ← read d account GET_STATE key; mret (BytesToHash val).

Definition GetState (d : loc) (account : Address) (key : Hash) : M World Hash :=
  GetCommittedState d account key.

Definition SetState (d : loc) (account : Address) (key value : Hash) : M World unit :=
  put d (calcStateKey account key) (Hash_Bytes value).

Definition Suicide (d : loc) (account : Address) : M World bool :=
  put d (calcKey SUICIDE_KEY account) [x01] ;; mret true.

(** Only the top layer's scratch pad is consulted. *)
Definition HasSuicided (d : loc) (account : Address) : M World bool :=
  s ← top d; st ← get_state s;
  match scratchPad st !! calcKey SUICIDE_KEY account with
  | Some val => mret (bool_decide (val = [x01]))
  | None => mret false
  end.

Definition Empty (d : loc) (account : Address) : M World bool :=
  code ← GetCode d account;
  nonce ← GetNonce d account;
  balance ← GetBalance d account;
  mret (Nat.eqb (length code) 0 && Z.eqb nonce 0 && Z.eqb (Z.sgn balance) 0).

Definition Exist (d : loc) (account : Address) : M World bool :=
  e ← Empty d account; mret (negb e).

Definition AddressInAccessList (d : loc) (addr : Address) : M World bool := mret true.
Definition SlotInAccessList (d : loc) (addr : Address) (slot : Hash) : M World (bool * bool) :=
  mret (true, true).

(** package constant: the four fixed accounts and the generated one. *)
Definition FAKE_ACCOUNT_0 : Address := BytesToAddress (replicate 20 xaa).
Definition FAKE_ACCOUNT_1 : Address := BytesToAddress (replicate 20 xbb).
Definition FAKE_ACCOUNT_2 : Address := BytesToAddress (replicate 20 xcc).
Definition FAKE_ACCOUNT_3 : Address := BytesToAddress (replicate 20 xdd).
Definition FAKE_ACCOUNT_RICH : Address :=
  BytesToAddress (Hash_Bytes (Keccak256Hash start_time_rich)).
Definition FAKE_ACCOUNT_RAND : Address :=
  BytesToAddress (Hash_Bytes (Keccak256Hash start_time_rand)).

Definition InitFakeAccounts (d : loc) : M World unit :=
  AddBalance d FAKE_ACCOUNT_0 (10 ^ 18 * 1000) ;;
  AddBalance d FAKE_ACCOUNT_1 (10 ^ 18 * 1000) ;;
  AddBalance d FAKE_ACCOUNT_2 (10 ^ 18 * 1000) ;;
  AddBalance d FAKE_ACCOUNT_3 (10 ^ 18 * 1000) ;;
  AddBalance d FAKE_ACCOUNT_RICH (10 ^ 18 * 1000000000).
End accounts.

(** ** Snapshots, merges and clones *)

Section layers.
Context `{Geth} `{!Upstream}.

Definition Snapshot (d : loc) : M World Z :=
  s ← top d;
  n ← Derive s "snapshot";
  update_db d (set_state (Some n)) ;;
  st ← get_state n;
  mret (deriveCnt st).

(** The loop of [RevertToSnapshot]; the comparison reads through [tmpState], so running
    past the root panics. *)
Fixpoint revert_loop (fuel : nat) (d : loc) (revisionID : Z) (tmpState : option loc)
    : M World unit :=
  match fuel with
  | O => diverge
  | S fuel =>
      t ← non_nil tmpState;
      st ← get_state t;
      if Z.eqb (i64 (deriveCnt st + 1)) revisionID
      then update_db d (set_state tmpState)
      else p ← Parent tmpState; revert_loop fuel d revisionID p
  end.

Definition RevertToSnapshot (d : loc) (revisionID : Z) : M World unit :=
  db ← get_db d;
  tmpState ← Parent (state db);
  revert_loop (S (default 0%nat (state db))) d revisionID tmpState.

(** The loop of [MergeTo]. *)
Fixpoint merge_loop (fuel : nat) (d : loc) (revisionID : Z) (currState : loc)
    : M World unit :=
  match fuel with
  | O => diverge
  | S fuel =>
      curr ← get_state currState;
      if Z.eqb (deriveCnt curr) revisionID
      then update_db d (set_state (Some currState))
      else
        p ← non_nil (parent curr);
        update_state p (set_scratchPad (λ m, scratchPad curr ∪ m)) ;;
        merge_loop fuel d revisionID p
  end.

Definition MergeTo (d : loc) (revisionID : Z) : M World unit :=
  s ← top d; merge_loop (S s) d revisionID s.

Definition Clone (d : loc) : M World loc :=
  s ← top d;
  n ← Derive s "clone";
  new_db {| cacheFilePath := ""; maxKeyCache := 0; refundGas := 0; state := Some n;
            stateBN := None |}.

Definition CloneFromRoot (d : loc) : M World loc :=
  s ← top d;
  n ← DeriveFromRoot s;
  new_db {| cacheFilePath := ""; maxKeyCache := 0; refundGas := 0; state := Some n;
            stateBN := None |}.

Definition CacheSize (d : loc) : M World Z :=
  db ← get_db d;
  match state db with
  | None => mret (-1)
  | Some s =>
      r ← getRootState s;
      st ← get_state r;
      mret (map_fold (λ k v n, n + Z.of_nat (length k + length v)) 0 (scratchPad st))
  end.

Definition RPCRequestCount (d : loc) : M World Z :=
  db ← get_db d;
  match state db with
  | None => mret (-1)
  | Some s => r ← getRootState s; st ← get_state r; mret (rpcCnt st)
  end.

Definition StateBlockNumber (d : loc) : M World Z :=
  db ← get_db d; p ← non_nil (stateBN db); get_u64 p.

Definition SetBatchSize (d : loc) (n : Z) : M World unit :=
  s ← top d; r ← getRootState s; update_state r (set_batchSize n).
End layers.

(** ** Logs and receipts *)

Section logs.
Context `{Geth} `{!Upstream}.

Definition StartLogCollection (d : loc) (txHash blockHash : Hash) : M World unit :=
  s ← top d; update_state s (set_current txHash blockHash).

Definition AddLog (d : loc) (vLog : Log) : M World unit :=
  s ← top d; st ← get_state s;
  update_state s (set_txLogs (λ m, <[currentTxHash st := default [] (m !! currentTxHash st) ++ [vLog]]> m)).

(** The loop of [GetLogs]: the logs of an outer layer precede those of the layers above. *)
Fixpoint logs_loop (fuel : nat) (txHash : Hash) (tmpState : option loc) (logs : list Log)
    : M World (list Log) :=
  match fuel with
  | O => diverge
  | S fuel =>
      match tmpState with
      | None => mret logs
      | Some t =>
          st ← get_state t;
          logs_loop fuel txHash (parent st)
            (match txLogs st !! txHash with Some l => l ++ logs | None => logs end)
      end
  end.

Definition GetLogs (d : loc) (txHash : Hash) : M World (list Log) :=
  db ← get_db d; logs_loop (S (S (default 0%nat (state db)))) txHash (state db) [].

Definition AddReceipt (d : loc) (txHash : Hash) (receipt : loc) : M World unit :=
  s ← top d; update_state s (set_receipts <[txHash := receipt]>).

(** The root's receipts are never returned; a receipt found is updated in place. *)
Fixpoint receipt_loop (fuel : nat) (d : loc) (txHash : Hash) (t : loc) : M World (option loc) :=
  match fuel with
  | O => diverge
  | S fuel =>
      st ← get_state t;
      match parent st with
      | None => mret None
      | Some p =>
          match receipts st !! txHash with
          | Some r => logs ← GetLogs d txHash; update_receipt r (set_Logs (Some logs)) ;; mret (Some r)
          | None => receipt_loop fuel d txHash p
          end
      end
  end.

Definition GetReceipt (d : loc) (txHash : Hash) : M World (option loc) :=
  s ← top d; receipt_loop (S s) d txHash s.
End logs.

(** ** The difference to the pinned block *)

Section diff.
Context `{Geth} `{!Upstream}.

(** The loop of [getMergedScratchPad]: a key already present is kept. *)
Fixpoint merged_loop (fuel : nat) (t : loc) (merged : gmap bytes bytes) : M World (gmap bytes bytes) :=
  match fuel with
  | O => diverge
  | S fuel =>
      st ← get_state t;
      match parent st with
      | None => mret merged
      | Some p => merged_loop fuel p (merged ∪ scratchPad st)
      end
  end.

Definition getMergedScratchPad (d : loc) : M World (gmap bytes bytes) :=
  s ← top d; merged_loop (S s) s ∅.

(** [[]byte(k)[b:e]], which panics out of range. *)
Definition subslice (k : bytes) (b e : Z) : M World bytes :=
  match slice k b e with Some l => mret l | None => panic "slice bounds out of range" end.

(** The body of the loop of [GetStateDiff], reading through the clone [c]. *)
Definition diff_key (c : loc) (accounts : gmap Address OverrideAccount) (k : bytes)
    : M World (gmap Address OverrideAccount) :=
  kb ← subslice k 0 32;
  ab ← subslice k 32 52;
  let key := BytesToHash kb in
  let account := BytesToAddress ab in
  let override := default override_empty (accounts !! account) in
  if decide (key = BALANCE_KEY) then
    balance ← GetBalance c account; mret (<[account := set_ov_Balance balance override]> accounts)
  else if decide (key = NONCE_KEY) then
    nonce ← GetNonce c account; mret (<[account := set_ov_Nonce nonce override]> accounts)
  else if decide (key = CODE_KEY) then
    code ← GetCode c account; mret (<[account := set_ov_Code code override]> accounts)
  else if decide (key = STATE_KEY) then
    sb ← subslice k 52 84;
    v ← GetState c account (BytesToHash sb);
    mret (<[account := set_ov_StateDiff (BytesToHash sb) v override]> accounts)
  else mret (<[account := override]> accounts).

(** The clone's scratch pad is replaced by the merged one; Go's map iteration order is
    the order of [map_to_list]. *)
Definition GetStateDiff (d : loc) : M World (gmap Address OverrideAccount) :=
  merged ← getMergedScratchPad d;
  c ← CloneFromRoot d;
  s ← top c;
  update_state s (set_scratchPad (λ _, merged)) ;;
  fold_m (diff_key c) ∅ ((map_to_list merged).*1).
End diff.

(** ** Resetting the root's cache *)

Section reset.
Context `{Geth} `{!Upstream}.

(** [bufio.ScanLines]: the lines without their newline and a carriage return before it;
    a final empty line is dropped, and a line that does not fit in the scanner's buffer ends
    the scan. *)
Fixpoint scan_lines_ (acc : bytes) (l : bytes) : list bytes :=
  let line := match last acc with Some b => if decide (b = x0d) then take (length acc - 1) acc else acc | None => acc end in
  match l with
  | [] => match acc with [] => [] | _ => [line] end
  | b :: l =>
      if decide (b = x0a) then line :: scan_lines_ [] l
      else if Z.leb 65535 (Z.of_nat (length acc)) then [] else scan_lines_ (acc ++ [b]) l
  end.
Definition scan_lines (l : bytes) : list bytes := scan_lines_ [] l.

(** The keys of the cached storage slots among those of a scratch pad. *)
Definition is_state_key (k : bytes) : bool :=
  bool_decide (length k = 84%nat) && bool_decide (BytesToHash (take 32 k) = STATE_KEY).

Definition key_req (k : bytes) : StorageReq :=
  mkStorageReq (BytesToAddress (take 20 (drop 32 k))) (BytesToHash (drop 52 k)) Hash_zero.

(** The four entries written for a prefetched account. *)
Definition store_account (account : Address) (r : FetchedAccountResult) (m : gmap bytes bytes) :=
  <[calcKey CODEHASH_KEY account := Hash_Bytes (fa_CodeHash r)]>
    (<[calcKey CODE_KEY account := fa_Code r]>
      (<[calcKey NONCE_KEY account := Bytes (i64 (fa_Nonce r))]>
        (<[calcKey BALANCE_KEY account := Bytes (fa_Balance r)]> m))).

Definition store_slot (m : gmap bytes bytes) (r : StorageReq) : gmap bytes bytes :=
  <[calcStateKey (sr_Address r) (sr_Key r) := Hash_Bytes (sr_Value r)]> m.

(** The keys read from the cache file are put in the pad with an empty value. *)
Definition add_cached_key (m : gmap bytes bytes) (line : bytes) : gmap bytes bytes :=
  <[Hash_Bytes STATE_KEY ++ Hex2Bytes line := []]> m.

(** The key-cache file can be opened: that [os.OpenFile] fails, which panics, is not
    modelled. *)
Definition resetScratchPad (d : loc) (clearKeyCache : bool) : M World unit :=
  db ← get_db d;
  s ← non_nil (state db);
  st ← get_state s;
  (* only a root layer has mutexes *)
  (match parent st with Some _ => panic "invalid memory address or nil pointer dereference" | None => mret tt end) ;;
  content ← gets (λ w, default [] (w_files w !! cacheFilePath db));
  if clearKeyCache then
    update_state s (set_scratchPad (λ _, ∅)) ;;
    update_state s (set_accessedAccounts (λ _, ∅)) ;;
    modify (with_files <[cacheFilePath db := []]>)
  else
    update_state s (set_scratchPad (λ m, foldl add_cached_key m
      (take (Z.to_nat (maxKeyCache db)) (scan_lines content)))) ;;
    st ← get_state s;
    let keys := filter (λ k, is_state_key k = true) ((map_to_list (scratchPad st)).*1) in
    let reqs := key_req <$> keys in
    for_each (λ q, update_state s (set_accessedAccounts <[sr_Address q := true]>)) reqs ;;
    r ← loadStateBatchRPC s reqs;
    match r with
    | None => panic "loadStateBatchRPC"
    | Some results =>
        modify (with_files <[cacheFilePath db := keys ≫= λ k, Bytes2Hex (drop 32 k) ++ [x0a]]>) ;;
        update_state s (set_scratchPad (λ m, foldl store_slot m results)) ;;
        st ← get_state s;
        let accounts := (map_to_list (accessedAccounts st)).*1 in
        r ← loadAccountBatchRPC s accounts;
        match r with
        | None => mret tt
        | Some accountResults =>
            update_state s (set_scratchPad (λ m,
              foldl (λ m p, store_account p.1 p.2 m) m (zip accounts accountResults)))
        end
    end.

Definition InitState (d : loc) (fetchNewState clearCache : bool) : M World unit :=
  s ← top d;
  r ← getRootState s;
  update_db d (set_state (Some r)) ;;
  _ ← StateBlockNumber d;
  (if fetchNewState then resetScratchPad d clearCache else mret tt) ;;
  s ← top d;
  n ← Derive s "reset and protect underlying";
  update_db d (set_state (Some n)).
End reset.
