(* ===== verification/VmStateDB.v ===== *)
(** * The interface between the EVM and the state database

    go-ethereum's EVM reaches the state only through the interface [vm.StateDB], which
    [OverlayStateDB] implements.  [Op] lists its methods (with the two setters the node
    itself adds before a run), [run_op] is the implementation, and [EvmProg] is any code
    that interacts with the state through these calls alone: the EVM is one such program.
    [spec_op] is the contract: a state of full observations with a stack of saved copies,
    on which a snapshot saves and a revert restores. *)
From S2P Require Import Prelude BigInt Geth World OverlayState OverlayStateDB.

(** ** The methods and their implementation *)

Section ops.
Context `{Geth} `{!Upstream}.

Inductive Op :=
| OpCreateAccount (a : Address)
| OpSubBalance (a : Address) (delta : Z)
| OpAddBalance (a : Address) (delta : Z)
| OpGetBalance (a : Address)
| OpSetBalance (a : Address) (v : Z)
| OpGetNonce (a : Address)
| OpSetNonce (a : Address) (n : Z)
| OpGetCodeHash (a : Address)
| OpSetCodeHash (a : Address) (h : Hash)
| OpGetCode (a : Address)
| OpSetCode (a : Address) (c : bytes)
| OpGetCodeSize (a : Address)
| OpAddRefund (n : Z)
| OpSubRefund (n : Z)
| OpGetRefund
| OpGetCommittedState (a : Address) (k : Hash)
| OpGetState (a : Address) (k : Hash)
| OpSetState (a : Address) (k v : Hash)
| OpSuicide (a : Address)
| OpHasSuicided (a : Address)
| OpExist (a : Address)
| OpEmpty (a : Address)
| OpAddressInAccessList (a : Address)
| OpSlotInAccessList (a : Address) (k : Hash)
| OpAccessListUpdate       (* PrepareAccessList, AddAddressToAccessList, AddSlotToAccessList *)
| OpAddPreimage (h : Hash) (l : bytes)
| OpForEachStorage (a : Address)
| OpRevertToSnapshot (id : Z)
| OpSnapshot
| OpAddLog (l : Log).

Inductive Res :=
| RUnit
| RInt (z : Z)
| RHash (h : Hash)
| RBytes (l : bytes)
| RBool (b : bool)
| RBools (b1 b2 : bool).

Definition run_op (d : loc) (op : Op) : M World Res :=
  match op with
  | OpCreateAccount a => CreateAccount d a ;; mret RUnit
  | OpSubBalance a delta => SubBalance d a delta ;; mret RUnit
  | OpAddBalance a delta => AddBalance d a delta ;; mret RUnit
  | OpGetBalance a => v ← GetBalance d a; mret (RInt v)
  | OpSetBalance a v => SetBalance d a v ;; mret RUnit
  | OpGetNonce a => v ← GetNonce d a; mret (RInt v)
  | OpSetNonce a n => SetNonce d a n ;; mret RUnit
  | OpGetCodeHash a => v ← GetCodeHash d a; mret (RHash v)
  | OpSetCodeHash a h => SetCodeHash d a h ;; mret RUnit
  | OpGetCode a => v ← GetCode d a; mret (RBytes v)
  | OpSetCode a c => SetCode d a c ;; mret RUnit
  | OpGetCodeSize a => v ← GetCodeSize d a; mret (RInt v)
  | OpAddRefund n => AddRefund d n ;; mret RUnit
  | OpSubRefund n => SubRefund d n ;; mret RUnit
  | OpGetRefund => v ← GetRefund d; mret (RInt v)
  | OpGetCommittedState a k => v ← GetCommittedState d a k; mret (RHash v)
  | OpGetState a k => v ← GetState d a k; mret (RHash v)
  | OpSetState a k v => SetState d a k v ;; mret RUnit
  | OpSuicide a => v ← Suicide d a; mret (RBool v)
  | OpHasSuicided a => v ← HasSuicided d a; mret (RBool v)
  | OpExist a => v ← Exist d a; mret (RBool v)
  | OpEmpty a => v ← Empty d a; mret (RBool v)
  | OpAddressInAccessList a => v ← AddressInAccessList d a; mret (RBool v)
  | OpSlotInAccessList a k => v ← SlotInAccessList d a k; mret (RBools v.1 v.2)
  | OpAccessListUpdate | OpAddPreimage _ _ | OpForEachStorage _ => mret RUnit
  | OpRevertToSnapshot id => RevertToSnapshot d id ;; mret RUnit
  | OpSnapshot => v ← Snapshot d; mret (RInt v)
  | OpAddLog l => AddLog d l ;; mret RUnit
  end.

(** Code that uses the state only through the interface. *)
Inductive EvmProg (A : Type) : Type :=
| Done (a : A)
| Invoke (op : Op) (k : Res → EvmProg A).

Fixpoint exec {A} (d : loc) (p : EvmProg A) : M World A :=
  match p with
  | Done _ a => mret a
  | Invoke _ op k => r ← run_op d op; exec d (k r)
  end.
End ops.

Arguments Done {_ A} a.
Arguments Invoke {_ A} op k.

(** ** The contract *)

Section contract.
Context `{Geth}.

(** The whole observable state of accounts and storage. *)
Definition Obs : Type := Address → RequestType → Hash → bytes.

Definition upd_obs (f : Obs) (a : Address) (act : RequestType) (key : Hash) (v : bytes) : Obs :=
  λ a' act' key', if decide (a = a' ∧ act = act' ∧ (act = GET_STATE → key = key'))
                  then v else f a' act' key'.

(** What one layer shows: the observations, the accounts it marked as suicided, the logs
    and the receipt of each transaction, and the transaction whose logs are being collected. *)
Record Frame := mkFrame {
  f_obs : Obs;
  f_dead : Address → bool;
  f_logs : Hash → list Log;
  f_receipts : Hash → option Receipt;
  f_tx : Hash
}.

Record Abs := mkAbs {
  a_frame : Frame;
  a_depth : Z;
  a_saved : list (Z * Frame);
  a_refund : Z
}.

Definition with_obs (g : Obs → Obs) (A : Abs) : Abs :=
  mkAbs (mkFrame (g (f_obs (a_frame A))) (f_dead (a_frame A)) (f_logs (a_frame A))
    (f_receipts (a_frame A)) (f_tx (a_frame A)))
    (a_depth A) (a_saved A) (a_refund A).
Definition with_dead (g : (Address → bool) → Address → bool) (A : Abs) : Abs :=
  mkAbs (mkFrame (f_obs (a_frame A)) (g (f_dead (a_frame A))) (f_logs (a_frame A))
    (f_receipts (a_frame A)) (f_tx (a_frame A)))
    (a_depth A) (a_saved A) (a_refund A).
Definition with_logs (g : (Hash → list Log) → Hash → list Log) (A : Abs) : Abs :=
  mkAbs (mkFrame (f_obs (a_frame A)) (f_dead (a_frame A)) (g (f_logs (a_frame A)))
    (f_receipts (a_frame A)) (f_tx (a_frame A)))
    (a_depth A) (a_saved A) (a_refund A).
Definition with_receipt (h : Hash) (rc : Receipt) (A : Abs) : Abs :=
  mkAbs (mkFrame (f_obs (a_frame A)) (f_dead (a_frame A)) (f_logs (a_frame A))
    (λ h', if decide (h = h') then Some (plain rc) else f_receipts (a_frame A) h') (f_tx (a_frame A)))
    (a_depth A) (a_saved A) (a_refund A).
Definition with_refund (n : Z) (A : Abs) : Abs := mkAbs (a_frame A) (a_depth A) (a_saved A) n.

Definition a_balance (A : Abs) (a : Address) : Z := SetBytes (f_obs (a_frame A) a GET_BALANCE Hash_zero).
Definition a_nonce (A : Abs) (a : Address) : Z := Uint64 (SetBytes (f_obs (a_frame A) a GET_NONCE Hash_zero)).
Definition a_code (A : Abs) (a : Address) : bytes := f_obs (a_frame A) a GET_CODE Hash_zero.
Definition a_empty (A : Abs) (a : Address) : bool :=
  Nat.eqb (length (a_code A a)) 0 && Z.eqb (a_nonce A a) 0 && Z.eqb (Z.sgn (a_balance A a)) 0.

(** The saved copy of a snapshot and those older than it. *)
Fixpoint find_saved (id : Z) (saved : list (Z * Frame)) : option (Frame * list (Z * Frame)) :=
  match saved with
  | [] => None
  | (i, F) :: saved => if Z.eqb i id then Some (F, saved) else find_saved id saved
  end.

(** [None]: the contract says nothing (a revert to a snapshot that was not taken through
    this database or is no longer live, or 2^63 nested snapshots). *)
Definition spec_op (op : Op) (A : Abs) : option (Res * Abs) :=
  match op with
  | OpSubBalance a delta =>
      Some (RUnit, with_obs (λ f, upd_obs f a GET_BALANCE Hash_zero (Bytes (a_balance A a - delta))) A)
  | OpAddBalance a delta =>
      Some (RUnit, with_obs (λ f, upd_obs f a GET_BALANCE Hash_zero (Bytes (a_balance A a + delta))) A)
  | OpGetBalance a => Some (RInt (a_balance A a), A)
  | OpSetBalance a v => Some (RUnit, with_obs (λ f, upd_obs f a GET_BALANCE Hash_zero (Bytes v)) A)
  | OpGetNonce a => Some (RInt (a_nonce A a), A)
  | OpSetNonce a n => Some (RUnit, with_obs (λ f, upd_obs f a GET_NONCE Hash_zero (Bytes (i64 n))) A)
  | OpGetCodeHash a => Some (RHash (BytesToHash (f_obs (a_frame A) a GET_CODEHASH Hash_zero)), A)
  | OpSetCodeHash a h => Some (RUnit, with_obs (λ f, upd_obs f a GET_CODEHASH Hash_zero (Hash_Bytes h)) A)
  | OpGetCode a => Some (RBytes (a_code A a), A)
  | OpSetCode a c => Some (RUnit, with_obs (λ f, upd_obs f a GET_CODE Hash_zero c) A)
  | OpGetCodeSize a => Some (RInt (Z.of_nat (length (a_code A a))), A)
  | OpAddRefund n => Some (RUnit, with_refund (u64 (a_refund A + n)) A)
  | OpSubRefund n => Some (RUnit, with_refund (u64 (a_refund A - n)) A)
  | OpGetRefund => Some (RInt (a_refund A), A)
  | OpGetCommittedState a k | OpGetState a k =>
      Some (RHash (BytesToHash (f_obs (a_frame A) a GET_STATE k)), A)
  | OpSetState a k v => Some (RUnit, with_obs (λ f, upd_obs f a GET_STATE k (Hash_Bytes v)) A)
  | OpSuicide a => Some (RBool true, with_dead (λ f a', if decide (a = a') then true else f a') A)
  | OpHasSuicided a => Some (RBool (f_dead (a_frame A) a), A)
  | OpExist a => Some (RBool (negb (a_empty A a)), A)
  | OpEmpty a => Some (RBool (a_empty A a), A)
  | OpAddressInAccessList a => Some (RBool true, A)
  | OpSlotInAccessList a k => Some (RBools true true, A)
  | OpCreateAccount _ | OpAccessListUpdate | OpAddPreimage _ _ | OpForEachStorage _ => Some (RUnit, A)
  | OpRevertToSnapshot id =>
      match find_saved id (a_saved A) with
      | Some (F, saved) => Some (RUnit, mkAbs F (id - 1) saved (a_refund A))
      | None => None
      end
  | OpSnapshot =>
      if Z.ltb (a_depth A + 1) (2 ^ 63) then
        let F := a_frame A in
        Some (RInt (a_depth A + 1),
              mkAbs (mkFrame (f_obs F) (λ _, false) (f_logs F) (f_receipts F) (f_tx F)) (a_depth A + 1)
                ((a_depth A + 1, F) :: a_saved A) (a_refund A))
      else None
  | OpAddLog l =>
      Some (RUnit, with_logs (λ f h, if decide (f_tx (a_frame A) = h) then f h ++ [l] else f h) A)
  end.

Fixpoint spec_prog {A} (p : EvmProg A) (S : Abs) : option (A * Abs) :=
  match p with
  | Done a => Some (a, S)
  | Invoke op k => r ← spec_op op S; spec_prog (k r.1) r.2
  end.
End contract.
