(* ===== verification/Refinement.v ===== *)
(** * The overlay implements the contract of the state database

    [refines own base r b w d A]: database [d] of world [w] shows exactly the abstract
    state [A]; its chain of layers is [own] (the layers it may still revert or write)
    followed by [base] (layers it shares with other databases), over the root [r] that
    serves block [b].  Every call of the interface preserves the relation, returns the
    result the contract gives, and stays confined to [own] and to fresh layers. *)
From S2P Require Import Prelude BigInt Geth World OverlayState Fetch StateSpec OverlayStateDB.
From S2P Require Import VmStateDB.

(** ** The refinement relation *)

Section relation.
Context `{Geth} `{!Upstream}.
Variable answer : BatchElem → option RpcValue.

(** The logs of a transaction along a chain, the outer layers first. *)
Definition chain_logs (w : World) (ls : list loc) (h : Hash) : list Log :=
  foldr (λ l logs, logs ++ default [] ((w_states w !! l) ≫= (λ st, txLogs st !! h))) [] ls.

(** The receipt of the nearest layer that has one; the root's are not looked at. *)
Fixpoint find_receipt (w : World) (ls : list loc) (h : Hash) : option loc :=
  match ls with
  | [] | [_] => None
  | l :: ls =>
      match (w_states w !! l) ≫= (λ st, receipts st !! h) with
      | Some r => Some r
      | None => find_receipt w ls h
      end
  end.

Definition shows_receipt (w : World) (p : option loc) (o : option Receipt) : Prop :=
  match p with
  | Some l => ∃ rc, w_receipts w !! l = Some rc ∧ o = Some (plain rc)
  | None => o = None
  end.

Definition dead_in (w : World) (s : loc) (a : Address) : bool :=
  bool_decide (pad w s !! calcKey SUICIDE_KEY a = Some [x01]).

(** A key some operation of the database writes. *)
Definition wf_key (k : bytes) : Prop :=
  (∃ a act key, k = scratchpadKey a act key) ∨ ∃ a, k = calcKey SUICIDE_KEY a.

Definition wf_pad (m : gmap bytes bytes) : Prop := ∀ k, is_Some (m !! k) → wf_key k.

(** The chain [ls], headed by layer [s], shows the frame [F]. *)
Record shows (b : Z) (w : World) (s : loc) (ls : list loc) (F : Frame) : Prop := {
  sh_obs a act key : observe answer b w ls a act key = f_obs F a act key;
  sh_dead a : dead_in w s a = f_dead F a;
  sh_logs h : chain_logs w ls h = f_logs F h;
  sh_receipts h : shows_receipt w (find_receipt w ls h) (f_receipts F h);
  sh_tx : currentTxHash <$> w_states w !! s = Some (f_tx F)
}.

(** The layers above the base show the current frame and the saved ones, and a layer's
    depth is the identifier of the snapshot that created it. *)
Fixpoint tower (b : Z) (w : World) (own base : list loc) (depth : Z) (F : Frame)
    (saved : list (Z * Frame)) : Prop :=
  match own with
  | [] => False
  | s :: own =>
      shows b w s (s :: own ++ base) F ∧ deriveCnt <$> w_states w !! s = Some depth ∧
      match saved, own with
      | [], [] => 0 ≤ depth < 2 ^ 63
      | (id, F') :: saved, _ :: _ => id = depth ∧ depth < 2 ^ 63 ∧ tower b w own base (depth - 1) F' saved
      | _, _ => False
      end
  end.

Record refines (own base : list loc) (r : loc) (b : Z) (w : World) (d : loc) (A : Abs) : Prop := {
  rf_db : ∃ db s, w_dbs w !! d = Some db ∧ state db = Some s ∧ head own = Some s ∧
                  refundGas db = a_refund A ∧ overlay w s (own ++ base) r b;
  rf_base : base ≠ [];
  rf_fresh l : is_Some (w_states w !! l) → (l < w_next w)%nat;
  rf_fresh_db d' : is_Some (w_dbs w !! d') → (d' < w_next w)%nat;
  rf_fresh_receipt l : is_Some (w_receipts w !! l) → (l < w_next w)%nat;
  rf_tower : tower b w own base (a_depth A) (a_frame A) (a_saved A);
  rf_wf l : l ∈ own ++ base → l ≠ r → wf_pad (pad w l)
}.

(** A run that touches only the layers [own], objects allocated meanwhile, the database
    [d] and the root's cache. *)
Record confined (b : Z) (r d : loc) (own : list loc) (w : World) (own' : list loc) (w' : World)
    : Prop := {
  cf_layers : agrees answer b r (λ l, ¬ (l ∈ own) ∧ (l < w_next w)%nat) w w';
  cf_dbs d' : d' ≠ d → (d' < w_next w)%nat → w_dbs w' !! d' = w_dbs w !! d';
  cf_receipts l : (l < w_next w)%nat → w_receipts w' !! l = w_receipts w !! l;
  cf_bigs : w_bigs w' = w_bigs w;
  cf_files : w_files w' = w_files w;
  cf_next : (w_next w ≤ w_next w')%nat;
  cf_own l : l ∈ own' → l ∈ own ∨ (w_next w ≤ l)%nat;
  cf_calls : (w_calls w ≤ w_calls w')%nat;
  cf_self : (d < w_next w)%nat → stateBN <$> w_dbs w' !! d = stateBN <$> w_dbs w !! d
}.
End relation.

(** ** Frames depend on their layers only *)

Section frames.
Context `{GethLaws} `{!Upstream}.
Context (answer : BatchElem → option RpcValue).
Implicit Types w : World.

Lemma chain_logs_ext w w' ls h :
  (∀ l, l ∈ ls → ((w_states w' !! l) ≫= (λ st, txLogs st !! h)) = ((w_states w !! l) ≫= (λ st, txLogs st !! h))) →
  chain_logs w' ls h = chain_logs w ls h.
Proof.
  induction ls as [|l ls IH]; intros Hext; simpl; [done|].
  rewrite (Hext l) by left. rewrite IH; [done|]. intros l' Hl'. apply Hext. by right.
Qed.

Lemma agrees_logs b r w w' s ls h :
  agrees answer b r (.∈ ls) w w' → chain w s ls → chain_logs w' ls h = chain_logs w ls h.
Proof.
  intros Hag Hc. apply chain_logs_ext. intros l Hl.
  destruct (w_states w !! l) as [st|] eqn:Hst.
  - destruct (agrees_layer _ _ _ _ _ _ _ _ Hag Hl Hst) as (st' & -> & []). simpl. congruence.
  - destruct (decide (l = r)) as [->|Hne].
    + pose proof (ag_root _ _ _ _ _ _ Hag) as Hr. rewrite Hst in Hr. by inversion Hr.
    + by rewrite (ag_layers _ _ _ _ _ _ Hag), Hst.
Qed.

Lemma find_receipt_ext w w' ls h :
  (∀ l, l ∈ ls → ((w_states w' !! l) ≫= (λ st, receipts st !! h)) = ((w_states w !! l) ≫= (λ st, receipts st !! h))) →
  find_receipt w' ls h = find_receipt w ls h.
Proof.
  induction ls as [|l [|l2 ls] IH]; intros Hext; [done..|]. cbn [find_receipt] in *.
  rewrite (Hext l) by left. rewrite IH; [done|]. intros l' Hl'. apply Hext. by right.
Qed.

Lemma find_receipt_cons w l ls h :
  ls ≠ [] → find_receipt w (l :: ls) h =
    match (w_states w !! l) ≫= (λ st, receipts st !! h) with
    | Some x => Some x
    | None => find_receipt w ls h
    end.
Proof. by destruct ls. Qed.

Lemma shows_receipt_agrees b r P w w' p o :
  agrees answer b r P w w' → shows_receipt w p o → shows_receipt w' p o.
Proof.
  intros Hag. destruct p as [l|]; simpl; [|done]. intros (rc & Hrc & ->).
  destruct (ag_receipts _ _ _ _ _ _ Hag l rc Hrc) as (rc' & ? & E). exists rc'. split; [done|congruence].
Qed.

Lemma agrees_find b r w w' s ls h :
  agrees answer b r (.∈ ls) w w' → chain w s ls → find_receipt w' ls h = find_receipt w ls h.
Proof.
  intros Hag Hc. apply find_receipt_ext. intros l Hl.
  destruct (w_states w !! l) as [st|] eqn:Hst.
  - destruct (agrees_layer _ _ _ _ _ _ _ _ Hag Hl Hst) as (st' & -> & []). simpl. congruence.
  - destruct (decide (l = r)) as [->|Hne].
    + pose proof (ag_root _ _ _ _ _ _ Hag) as Hr. rewrite Hst in Hr. by inversion Hr.
    + by rewrite (ag_layers _ _ _ _ _ _ Hag), Hst.
Qed.

Lemma agrees_shows b r w w' s ls F :
  agrees answer b r (.∈ ls) w w' → chain w s ls → last ls = Some r → s ≠ r →
  shows answer b w s ls F → shows answer b w' s ls F.
Proof.
  intros Hag Hc Hl Hs []. assert (s ∈ ls) as Hin by (apply chain_head in Hc as [? ->]; left).
  split; intros; rewrite <-?sh_obs0, <-?sh_dead0, <-?sh_logs0.
  - by eapply observe_agrees.
  - unfold dead_in, pad. by rewrite (ag_layers _ _ _ _ _ _ Hag).
  - by eapply agrees_logs.
  - rewrite (agrees_find b r w w' s ls h) by done. by eapply shows_receipt_agrees.
  - by rewrite (ag_layers _ _ _ _ _ _ Hag).
Qed.

Lemma chain_tail w s s' ls : chain w s (s :: s' :: ls) → chain w s' (s' :: ls).
Proof.
  intros Hc. inversion Hc as [|? ? p ls' Hst Hp Hlt Hc']; subst.
  pose proof (chain_head _ _ _ Hc') as [? E]. by injection E as -> ->.
Qed.

Lemma chain_not_in_tail w s ls : chain w s (s :: ls) → s ∉ ls.
Proof. intros Hc%chain_NoDup. by apply NoDup_cons in Hc as [? _]. Qed.

Lemma head_ne_root w s ls r : chain w s (s :: ls) → last (s :: ls) = Some r → ls ≠ [] → s ≠ r.
Proof.
  intros Hc Hl Hne ->. apply chain_not_in_tail in Hc. apply Hc, last_Some_elem_of.
  by destruct ls.
Qed.

Lemma last_tail (s : loc) ls (x : loc) : ls ≠ [] → last (s :: ls) = Some x → last ls = Some x.
Proof. by destruct ls. Qed.

(** The whole tower is kept by a change that spares its layers. *)
Lemma agrees_tower b r w w' own base depth F saved s :
  agrees answer b r (.∈ own ++ base) w w' → chain w s (own ++ base) →
  last (own ++ base) = Some r → base ≠ [] →
  tower answer b w own base depth F saved → tower answer b w' own base depth F saved.
Proof.
  intros Hag. revert s depth F saved.
  induction own as [|s own IH]; intros s0 depth F saved Hc Hl Hb; [done|].
  pose proof (chain_head _ _ _ Hc) as [? [= <- ?]].
  assert (own ++ base ≠ []) as Hne by (by destruct own).
  intros (Hsh & Hd & Hrest). simpl in Hc, Hl.
  assert (s ≠ r) as Hsr by by eapply head_ne_root.
  split; [by eapply agrees_shows|]. split.
  { by rewrite (ag_layers _ _ _ _ _ _ Hag) by (left || done). }
  destruct saved as [|[id F'] saved], own as [|s' own]; try done.
  destruct Hrest as (-> & ? & Hrest). split; [done|]. split; [done|].
  eapply IH; [|by eapply chain_tail|by eapply last_tail|done|done].
  eapply agrees_mono; [|exact Hag]. intros l ?. by right.
Qed.
End frames.

(** ** The elementary steps *)

Section steps.
Context `{GethLaws} `{!Upstream}.
Context (answer : BatchElem → option RpcValue) (N : nat) (HN : Reliable answer N).
Context (base : list loc) (r : loc) (b : Z) (d : loc).
Implicit Types w : World.

Abbreviation REF := (refines answer).
Abbreviation CONF := (confined answer b r d).

#[local] Hint Extern 0 (_ ∈ _ :: _) => left : core.

Lemma confined_refl own w : CONF own w own w.
Proof. split; auto with lia; try done. Qed.

Lemma confined_trans own0 w0 own1 w1 own2 w2 :
  CONF own0 w0 own1 w1 → CONF own1 w1 own2 w2 → CONF own0 w0 own2 w2.
Proof.
  intros Hx Hy. destruct Hx as [A1 B1 C1 D1 E1 F1 G1 J1 I1], Hy as [A2 B2 C2 D2 E2 F2 G2 J2 I2].
  split; try congruence; try lia.
  - etrans; [exact A1|]. eapply agrees_mono; [|exact A2]. intros l [Hl ?]. split; [|lia].
    intros [?|?]%G1; [done|lia].
  - intros d' Hd Hlt. rewrite B2 by (done || lia). by apply B1.
  - intros l Hl. rewrite C2 by lia. by apply C1.
  - intros l [[?|?]%G1|?]%G2; auto with lia.
  - intros Hd. rewrite I2 by lia. by apply I1.
Qed.

(** The database and its top layer. *)
Lemma refines_top own w A :
  REF own base r b w d A →
  ∃ db s own' st, own = s :: own' ∧ w_dbs w !! d = Some db ∧ state db = Some s ∧
    w_states w !! s = Some st ∧ refundGas db = a_refund A ∧ overlay w s (s :: own' ++ base) r b ∧
    shows answer b w s (s :: own' ++ base) (a_frame A) ∧ deriveCnt st = a_depth A ∧ s ≠ r ∧
    (s < w_next w)%nat.
Proof.
  intros [(db & s & Hdb & Hs & Hhd & Hg & Hov) Hbase Hfr _ _ Htw _].
  destruct own as [|s' own']; [done|]. simpl in Hhd. simplify_eq. destruct Htw as (Hsh & Hd & _).
  destruct (w_states w !! s) as [st|] eqn:Hst; [|done]. simpl in Hd. simplify_eq.
  exists db, s, own', st. split_and!; try done; [|by apply Hfr].
  destruct Hov as (Hc & Hl & _). eapply head_ne_root; [done..|]. by destruct own'.
Qed.

Lemma top_run w db s : w_dbs w !! d = Some db → state db = Some s → top d w = (Ok s, w).
Proof.
  intros Hdb Hs. unfold top. rewrite (bind_Ok _ _ _ _ _ (get_db_Some _ _ _ Hdb)), Hs. done.
Qed.

(** A step that keeps the database's record and all the layers of its chain. *)
Lemma refines_quiet own w w' A :
  agrees answer b r (λ l, (l < w_next w)%nat) w w' → w_dbs w' = w_dbs w → w_next w' = w_next w →
  w_receipts w' = w_receipts w → w_bigs w' = w_bigs w → w_files w' = w_files w →
  (w_calls w ≤ w_calls w')%nat →
  (∀ l, is_Some (w_states w' !! l) → is_Some (w_states w !! l)) →
  REF own base r b w d A → REF own base r b w' d A ∧ CONF own w own w'.
Proof.
  intros Hag Hdbs Hnext Hrec Hbig Hfile Hcalls Hdom [(db & s & Hdb & Hs & Hhd & Hg & Hov) Hb Hfr Hfd Hfc Htw Hwf].
  assert (∀ l, l ∈ own ++ base → (l < w_next w)%nat) as Hin.
  { intros l Hl. destruct Hov as (Hc & _). eapply chain_bounded in Hl; [|done].
    apply chain_lookup, Hfr in Hc. lia. }
  assert (agrees answer b r (.∈ own ++ base) w w') as Hag' by (eapply agrees_mono; [|exact Hag]; exact Hin).
  split.
  - split; [|done|..].
    + exists db, s. rewrite Hdbs. split_and!; try done. by eapply agrees_overlay.
    + intros l Hl. rewrite Hnext. by apply Hfr, Hdom.
    + intros d'. rewrite Hdbs, Hnext. apply Hfd.
    + intros l. rewrite Hrec, Hnext. apply Hfc.
    + destruct Hov as (Hc & Hl & _). by eapply agrees_tower.
    + intros l Hl Hne. unfold pad. rewrite (ag_layers _ _ _ _ _ _ Hag') by done. by apply Hwf.
  - split; auto with lia; try congruence.
    eapply agrees_mono; [|exact Hag]. tauto.
Qed.

Lemma refines_evolves own w w' A :
  evolves (grows answer b) r w w' → REF own base r b w d A →
  REF own base r b w' d A ∧ CONF own w own w'.
Proof.
  intros Hev. apply refines_quiet; [by apply evolves_agrees|by destruct Hev..|].
  intros l Hl. destruct (decide (l = r)) as [->|Hne].
  - destruct Hev. destruct ev_root; [eauto|by destruct Hl].
  - by rewrite (ev_others _ _ _ _ Hev) in Hl.
Qed.

(** A read returns what the abstract state shows. *)
Lemma read_step own w A a act key :
  REF own base r b w d A →
  ∃ w', read d a act key w = (Ok (f_obs (a_frame A) a act key), w') ∧
    REF own base r b w' d A ∧ CONF own w own w'.
Proof.
  intros Href. destruct (refines_top _ _ _ Href) as
    (db & s & own' & st & -> & Hdb & Hs & Hst & _ & Hov & Hsh & _).
  destruct (get_spec answer N HN s _ r b a act key w Hov) as (w' & Hrun & Hev).
  exists w'. split.
  - unfold read. rewrite (bind_Ok _ _ _ _ _ (top_run _ _ _ Hdb Hs)), Hrun.
    by rewrite (sh_obs _ _ _ _ _ _ Hsh).
  - by apply refines_evolves.
Qed.

(** An update [f] of the top layer that makes it show the frame [F']. *)
Lemma update_top_step own' w A s f F' :
  REF (s :: own') base r b w d A →
  (∀ st, parent (f st) = parent st ∧ deriveCnt (f st) = deriveCnt st) →
  (∀ st, wf_pad (scratchPad st) → wf_pad (scratchPad (f st))) →
  let w' := with_states (alter f s) w in
  shows answer b w' s (s :: own' ++ base) F' →
  REF (s :: own') base r b w' d (mkAbs F' (a_depth A) (a_saved A) (a_refund A)) ∧
  CONF (s :: own') w (s :: own') w'.
Proof.
  intros Href Hf Hfw w' Hsh.
  destruct (refines_top _ _ _ Href) as
    (db & s' & own'' & st & [= <- <-] & Hdb & Hs & Hst & Hg & Hov & _ & _ & Hsr & _).
  destruct Href as [_ Hb Hfr Hfd Hfc Htw Hwf].
  assert (agrees answer b r (λ l, l ≠ s) w w') as Hag.
  { split; [|simpl; by rewrite lookup_alter_ne|done|by eauto].
    intros l Hl _. simpl. by rewrite lookup_alter_ne. }
  destruct Hov as (Hc & Hl & Hr).
  assert (chain w' s (s :: own' ++ base)) as Hc'.
  { eapply chain_ext; [|exact Hc]. intros l st0 _ Hst0. simpl. rewrite lookup_alter.
    case_decide; [subst; rewrite Hst0; simpl; eexists; split; [done|apply Hf]|eauto]. }
  split; [split|split].
  - exists db, s. split_and!; try done. split; [done|]. split; [done|]. by eapply agrees_root_ready.
  - done.
  - intros l. simpl. rewrite lookup_alter_is_Some. apply Hfr.
  - done.
  - done.
  - destruct Htw as (_ & Hd & Hrest). cbn [a_depth a_frame a_saved].
    split; [done|]. split; [simpl; rewrite lookup_alter_eq, Hst; simpl; rewrite Hst in Hd; simpl in Hd;
      rewrite (proj2 (Hf st)); done|].
    destruct (a_saved A) as [|[id F2] saved], own' as [|s2 own2]; try done.
    destruct Hrest as (-> & ? & Hrest). split; [done|]. split; [done|].
    eapply (agrees_tower answer b r w w'); [|by eapply chain_tail|by eapply last_tail|done|exact Hrest].
    eapply agrees_mono; [|exact Hag]. intros l Hin ->. by eapply chain_not_in_tail.
  - intros l Hin Hne. specialize (Hwf l Hin Hne). unfold pad in *. simpl. rewrite lookup_alter.
    case_decide; [subst|done]. rewrite Hst in Hwf |- *. by apply Hfw.
  - eapply agrees_mono; [|exact Hag]. intros l [Hin _] ->. apply Hin. by left.
  - done.
  - done.
  - done.
  - done.
  - done.
  - auto.
  - done.
  - done.
Qed.

(** *** Writes to the scratch pad *)

Lemma pad_alter s f w st :
  w_states w !! s = Some st → pad (with_states (alter f s) w) s = scratchPad (f st).
Proof. intros Hst. unfold pad. simpl. by rewrite lookup_alter_eq, Hst. Qed.

Lemma view_alter_other s f w ls : s ∉ ls → view (with_states (alter f s) w) ls = view w ls.
Proof.
  intros Hs. apply view_ext. intros l Hl. unfold pad. simpl.
  rewrite lookup_alter_ne; [done|]. by intros ->.
Qed.

Lemma view_put s k v w st ls k' :
  w_states w !! s = Some st → s ∉ ls →
  view (with_states (alter (set_scratchPad <[k := v]>) s) w) (s :: ls) !! k' =
  if decide (k = k') then Some v else view w (s :: ls) !! k'.
Proof.
  intros Hst Hs. rewrite !view_cons, (pad_alter _ _ _ _ Hst), (pad_lookup _ _ _ Hst).
  rewrite view_alter_other by done. simpl. rewrite lookup_insert. by case_decide.
Qed.

Lemma logs_put s m w ls h :
  chain_logs (with_states (alter (set_scratchPad m) s) w) ls h = chain_logs w ls h.
Proof.
  apply chain_logs_ext. intros l _. simpl. rewrite lookup_alter.
  case_decide; [subst|done]. by destruct (w_states w !! l).
Qed.

Lemma wf_insert m k v : wf_key k → wf_pad m → wf_pad (<[k := v]> m).
Proof. intros Hk Hm k' [v' Hv]. rewrite lookup_insert in Hv. case_decide; [by subst|by apply Hm]. Qed.

Lemma receipts_put s m w ls h :
  find_receipt (with_states (alter (set_scratchPad m) s) w) ls h = find_receipt w ls h.
Proof.
  apply find_receipt_ext. intros l _. simpl. rewrite lookup_alter.
  case_decide; [subst|done]. by destruct (w_states w !! l).
Qed.

Lemma tx_put s m w : currentTxHash <$> w_states (with_states (alter (set_scratchPad m) s) w) !! s =
  currentTxHash <$> w_states w !! s.
Proof. simpl. rewrite lookup_alter_eq. by destruct (w_states w !! s). Qed.

Lemma observe_put s a act key v w st ls a' act' key' :
  w_states w !! s = Some st → s ∉ ls →
  observe answer b (with_states (alter (set_scratchPad <[scratchpadKey a act key := v]>) s) w)
    (s :: ls) a' act' key' =
  upd_obs (observe answer b w (s :: ls)) a act key v a' act' key'.
Proof.
  intros Hst Hs. unfold observe at 1, upd_obs. rewrite (view_put _ _ _ _ _ _ _ Hst Hs).
  repeat case_decide; simpl; try done.
  - exfalso. by match goal with E : scratchpadKey _ _ _ = _ |- _ => apply scratchpadKey_inj in E end.
  - exfalso. destruct_and!. subst. apply H2. destruct act'; simpl; try done. f_equal. auto.
Qed.

Lemma put_step own w A a act key v :
  REF own base r b w d A →
  ∃ w', put d (scratchpadKey a act key) v w = (Ok tt, w') ∧
    REF own base r b w' d (with_obs (λ f, upd_obs f a act key v) A) ∧ CONF own w own w'.
Proof.
  intros Href. destruct (refines_top _ _ _ Href) as
    (db & s & own' & st & -> & Hdb & Hs & Hst & _ & (Hc & _ & _) & Hsh & _).
  apply chain_not_in_tail in Hc. eexists. split.
  - unfold put. rewrite (bind_Ok _ _ _ _ _ (top_run _ _ _ Hdb Hs)). reflexivity.
  - apply update_top_step; [done|done| |].
    { intros st'. apply wf_insert. left. eauto. }
    destruct Hsh. split; intros.
    + rewrite (observe_put _ _ _ _ _ _ _ _ _ _ _ Hst Hc). simpl. unfold upd_obs.
      by rewrite sh_obs0.
    + simpl. rewrite <-sh_dead0. unfold dead_in. rewrite (pad_alter _ _ _ _ Hst), (pad_lookup _ _ _ Hst).
      simpl. by rewrite lookup_insert_ne by (intros E; by apply (suicide_key_separate a0 a act key)).
    + etrans; [apply logs_put|apply sh_logs0].
    + rewrite receipts_put. apply sh_receipts0.
    + by rewrite tx_put.
Qed.

Lemma suicide_step own w A a :
  REF own base r b w d A →
  ∃ w', put d (calcKey SUICIDE_KEY a) [x01] w = (Ok tt, w') ∧
    REF own base r b w' d (with_dead (λ f a', if decide (a = a') then true else f a') A) ∧
    CONF own w own w'.
Proof.
  intros Href. destruct (refines_top _ _ _ Href) as
    (db & s & own' & st & -> & Hdb & Hs & Hst & _ & (Hc & _ & _) & Hsh & _).
  apply chain_not_in_tail in Hc. eexists. split.
  - unfold put. rewrite (bind_Ok _ _ _ _ _ (top_run _ _ _ Hdb Hs)). reflexivity.
  - apply update_top_step; [done|done| |].
    { intros st'. apply wf_insert. right. eauto. }
    destruct Hsh. split; intros; cbn [f_obs f_dead f_logs f_tx].
    + rewrite <-sh_obs0. unfold observe. rewrite (view_put _ _ _ _ _ _ _ Hst Hc).
      rewrite decide_False by apply suicide_key_separate. done.
    + rewrite <-sh_dead0. unfold dead_in. rewrite (pad_alter _ _ _ _ Hst), (pad_lookup _ _ _ Hst).
      simpl. rewrite lookup_insert. repeat case_decide; try done; subst; try done.
      exfalso. match goal with E : calcKey _ _ = _ |- _ => by apply calcKey_inj in E as [_ ->] end.
    + etrans; [apply logs_put|apply sh_logs0].
    + rewrite receipts_put. apply sh_receipts0.
    + by rewrite tx_put.
Qed.

(** *** Logs, refunds *)

Lemma addlog_step own w A l :
  REF own base r b w d A →
  ∃ w', AddLog d l w = (Ok tt, w') ∧
    REF own base r b w' d
      (with_logs (λ f h, if decide (f_tx (a_frame A) = h) then f h ++ [l] else f h) A) ∧
    CONF own w own w'.
Proof.
  intros Href. destruct (refines_top _ _ _ Href) as
    (db & s & own' & st & -> & Hdb & Hs & Hst & _ & (Hc & _ & _) & Hsh & _).
  apply chain_not_in_tail in Hc. eexists. split.
  - unfold AddLog. rewrite (bind_Ok _ _ _ _ _ (top_run _ _ _ Hdb Hs)).
    rewrite (bind_Ok _ _ _ _ _ (get_state_Some _ _ _ Hst)). reflexivity.
  - apply update_top_step; [done|done|done|]. destruct Hsh.
    assert (f_tx (a_frame A) = currentTxHash st) as Htx by (rewrite Hst in sh_tx0; by injection sh_tx0).
    split; intros; cbn [f_obs f_dead f_logs f_tx a_frame with_logs].
    + rewrite <-sh_obs0. unfold observe. f_equal. cbn [app]. rewrite !view_cons.
      rewrite (pad_alter _ _ _ _ Hst), (pad_lookup _ _ _ Hst), view_alter_other by done. done.
    + rewrite <-sh_dead0. unfold dead_in. by rewrite (pad_alter _ _ _ _ Hst), (pad_lookup _ _ _ Hst).
    + rewrite <-sh_logs0. simpl. rewrite lookup_alter_eq, Hst. simpl. rewrite Htx.
      rewrite (chain_logs_ext w _ (own' ++ base) h) by
        (intros l' Hl'; simpl; rewrite lookup_alter_ne; [done|by intros ->]).
      rewrite lookup_insert. case_decide; [subst; simpl; by rewrite app_assoc|done].
    + erewrite find_receipt_ext; [apply sh_receipts0|]. intros l' _. simpl. rewrite lookup_alter.
      case_decide; [subst|done]. by rewrite Hst.
    + simpl. rewrite lookup_alter_eq, Hst. simpl. by rewrite Htx.
Qed.

Lemma refund_step own w A f :
  REF own base r b w d A →
  let w' := with_dbs (alter (set_refundGas f) d) w in
  REF own base r b w' d (with_refund (f (a_refund A)) A) ∧ CONF own w own w'.
Proof.
  intros [(db & s & Hdb & Hs & Hhd & Hg & Hov) Hb Hfr Hfd Hfc Htw Hwf] w'.
  assert (∀ P, agrees answer b r P w w') as Hag by (intros P; split; by eauto).
  split.
  - split; [|done|done| |done| |].
    + exists (set_refundGas f db), s. simpl. rewrite lookup_alter_eq, Hdb. simpl.
      split_and!; try done; [by rewrite Hg|]. eapply agrees_overlay; [apply Hag|done].
    + intros d'. simpl. rewrite lookup_alter_is_Some. apply Hfd.
    + destruct Hov as (Hc & Hl & _). eapply agrees_tower; [apply Hag|done..].
    + done.
  - split; auto with lia; try done; simpl.
    + intros d' Hd _. by rewrite lookup_alter_ne.
    + by rewrite lookup_alter_eq, Hdb.
Qed.

(** *** Snapshots *)

Lemma Derive_run s why w st :
  w_states w !! s = Some st →
  ∃ st' w', Derive s why w = (Ok (w_next w), w') ∧
    w_states w' = <[w_next w := st']> (w_states w) ∧ w_next w' = S (w_next w) ∧
    w_dbs w' = w_dbs w ∧ w_receipts w' = w_receipts w ∧ w_u64 w' = w_u64 w ∧
    w_bigs w' = w_bigs w ∧ w_files w' = w_files w ∧
    parent st' = Some s ∧ scratchPad st' = ∅ ∧ txLogs st' = ∅ ∧ receipts st' = ∅ ∧
    currentTxHash st' = currentTxHash st ∧ deriveCnt st' = i64 (deriveCnt st + 1) ∧
    w_calls w' = w_calls w.
Proof.
  intros Hst. do 2 eexists. split.
  - unfold Derive. rewrite (bind_Ok _ _ _ _ _ (get_state_Some _ _ _ Hst)). reflexivity.
  - split_and!; reflexivity.
Qed.

Lemma tower_depth w own depth F saved :
  tower answer b w own base depth F saved → 0 ≤ depth < 2 ^ 63.
Proof.
  revert depth F saved. induction own as [|s own IH]; intros depth F saved; [done|].
  intros (_ & _ & Hrest). destruct saved as [|[id F'] saved], own as [|s' own]; try done.
  destruct Hrest as (-> & ? & Hrest). apply IH in Hrest. lia.
Qed.

(** A fresh layer over a chain shows what the chain shows, with no suicides of its own. *)
Lemma fresh_layer_shows w w' n st st' s ls F :
  shows answer b w s ls F → chain w s ls → n ∉ ls → w_states w !! s = Some st →
  w_states w' = <[n := st']> (w_states w) →
  scratchPad st' = ∅ → txLogs st' = ∅ → receipts st' = ∅ → currentTxHash st' = currentTxHash st →
  w_receipts w' = w_receipts w →
  shows answer b w' n (n :: ls) (mkFrame (f_obs F) (λ _, false) (f_logs F) (f_receipts F) (f_tx F)).
Proof.
  intros [] Hc Hn Hst Hw' Hpad Hlogs Hrcs Htx Hheap.
  assert (∀ l, l ∈ ls → w_states w' !! l = w_states w !! l) as Hsame.
  { intros l Hl. rewrite Hw', lookup_insert_ne; [done|]. by intros ->. }
  assert (w_states w' !! n = Some st') as Hn' by by rewrite Hw', lookup_insert_eq.
  split; intros; cbn [f_obs f_dead f_logs f_tx].
  - rewrite <-sh_obs0. unfold observe. rewrite view_cons, (pad_lookup _ _ _ Hn'), Hpad, lookup_empty.
    rewrite (view_ext w w' ls); [done|]. intros l Hl. unfold pad. by rewrite Hsame.
  - unfold dead_in. rewrite (pad_lookup _ _ _ Hn'), Hpad, lookup_empty. done.
  - rewrite <-sh_logs0. simpl. rewrite Hn'. simpl. rewrite Hlogs, lookup_empty, app_nil_r.
    apply chain_logs_ext. intros l Hl. by rewrite Hsame.
  - assert (find_receipt w' (n :: ls) h = find_receipt w ls h) as ->.
    { rewrite <-(find_receipt_ext w w' ls h) by (intros l Hl; by rewrite Hsame).
      rewrite find_receipt_cons by (pose proof (chain_head _ _ _ Hc) as [? ->]; done).
      rewrite Hn'. simpl. by rewrite Hrcs, lookup_empty. }
    unfold shows_receipt. rewrite Hheap. apply sh_receipts0.
  - rewrite Hn'. simpl. rewrite Htx. by rewrite Hst in sh_tx0.
Qed.

(** The run of [Snapshot]: an empty layer [n] on the top layer [s]. *)
Lemma snapshot_run w db s st z :
  w_dbs w !! d = Some db → state db = Some s → w_states w !! s = Some st → deriveCnt st = z → 0 ≤ z → z + 1 < 2 ^ 63 →
  let n := w_next w in
  ∃ st' w', Snapshot d w = (Ok (z + 1), w') ∧ w_states w' = <[n := st']> (w_states w) ∧
    w_dbs w' = alter (set_state (Some n)) d (w_dbs w) ∧ w_next w' = S n ∧ w_u64 w' = w_u64 w ∧
    w_receipts w' = w_receipts w ∧ w_bigs w' = w_bigs w ∧ w_calls w' = w_calls w ∧ w_files w' = w_files w ∧
    parent st' = Some s ∧ scratchPad st' = ∅ ∧ txLogs st' = ∅ ∧ receipts st' = ∅ ∧
    currentTxHash st' = currentTxHash st ∧ deriveCnt st' = z + 1.
Proof.
  intros Hdb Hs Hst Hd H0' Hlt n. destruct (Derive_run s "snapshot" w st Hst) as
    (st' & w1 & Hrun & Hst1 & Hnx & Hdbs & Hrc & Hu & Hbg & Hfl & Hp & Hpad & Hlg & Hrcs & Htx & Hdc & Hcl).
  rewrite Hd, i64_id in Hdc by lia.
  exists st', (with_dbs (alter (set_state (Some n)) d) w1). split; [|split_and!; try done; simpl; by rewrite Hdbs].
  unfold Snapshot. rewrite (bind_Ok _ _ _ _ _ (top_run _ _ _ Hdb Hs)), (bind_Ok _ _ _ _ _ Hrun).
  unfold update_db. rewrite bind_modify.
  assert (w_states (with_dbs (alter (set_state (Some n)) d) w1) !! n = Some st') as Hn
    by (simpl; by rewrite Hst1, lookup_insert_eq).
  by rewrite (bind_Ok _ _ _ _ _ (get_state_Some _ _ _ Hn)), Hdc.
Qed.

Lemma snapshot_step own w A :
  REF own base r b w d A → a_depth A + 1 < 2 ^ 63 →
  let F := a_frame A in
  ∃ w', Snapshot d w = (Ok (a_depth A + 1), w') ∧
    REF (w_next w :: own) base r b w' d
      (mkAbs (mkFrame (f_obs F) (λ _, false) (f_logs F) (f_receipts F) (f_tx F)) (a_depth A + 1)
         ((a_depth A + 1, F) :: a_saved A) (a_refund A)) ∧
    CONF own w (w_next w :: own) w'.
Proof.
  intros Href Hdepth F. destruct (refines_top _ _ _ Href) as
    (db & s & own' & st & -> & Hdb & Hs & Hst & Hg & (Hc & Hl & Hr) & Hsh & Hd & Hsr & Hlt).
  destruct Href as [_ Hb Hfr Hfd Hfc Htw Hwf]. pose proof (tower_depth _ _ _ _ _ Htw) as Hd0.
  destruct (snapshot_run w db s st (a_depth A) Hdb Hs Hst Hd) as
    (st' & w2 & Hrun & Hst2 & Hdbs & Hnx & Hu & Hrc & Hbg & Hcl & Hfl & Hp & Hpad & Hlg & Hrcs & Htx & Hdc); [lia..|].
  set (n := w_next w) in *.
  assert (∀ l, l ∈ s :: own' ++ base → (l < n)%nat) as Hin.
  { intros l Hin. eapply chain_bounded in Hin; [|done]. lia. }
  assert (n ∉ s :: own' ++ base) as Hnin by (intros Hn; apply Hin in Hn; lia).
  assert (w_states w2 !! n = Some st') as Hn2 by by rewrite Hst2, lookup_insert_eq.
  assert (agrees answer b r (λ l, (l < n)%nat) w w2) as Hag.
  { split; [|rewrite Hst2, lookup_insert_ne; [done|]|by rewrite Hu|rewrite Hrc; by eauto].
    - intros l ? _. rewrite Hst2, lookup_insert_ne; [done|lia].
    - intros ->. apply Hnin. by apply last_Some_elem_of. }
  assert (agrees answer b r (.∈ s :: own' ++ base) w w2) as Hag2 by (eapply agrees_mono; [exact Hin|exact Hag]).
  assert (tower answer b w2 (s :: own') base (a_depth A) F (a_saved A)) as Htw2 by (by eapply (agrees_tower answer b r w w2)).
  exists w2. split; [exact Hrun|]. split; split; rewrite ?Hnx; try done.
  - exists (set_state (Some n) db), n. rewrite Hdbs, lookup_alter_eq, Hdb. split_and!; try done.
    split; [|split; [done|by eapply agrees_root_ready]].
    eapply chain_step; [exact Hn2|exact Hp|lia|]. by eapply agrees_chain.
  - intros l. rewrite Hst2, lookup_insert_is_Some. intros [<-|[_ Hl']]; [lia|]. apply Hfr in Hl'. lia.
  - intros d'. rewrite Hdbs, lookup_alter_is_Some. intros Hx%Hfd. lia.
  - intros l. rewrite Hrc. intros Hx%Hfc. lia.
  - cbn [a_depth a_frame a_saved tower]. split; [|split; [by rewrite Hn2; simpl; rewrite Hdc|split; [done|split; [lia|]]]].
    + eapply fresh_layer_shows; [done|exact Hc|exact Hnin|done|exact Hst2|done..].
    + replace (a_depth A + 1 - 1) with (a_depth A) by lia. exact Htw2.
  - intros l Hin' Hne. unfold pad. rewrite Hst2.
    apply elem_of_cons in Hin' as [->|Hin']; [rewrite lookup_insert_eq; simpl; rewrite Hpad; by intros k [? ?]|].
    rewrite lookup_insert_ne; [by apply Hwf|]. by intros ->.
  - eapply agrees_mono; [|exact Hag]. intros l [_ ?]. done.
  - intros d' Hd' _. by rewrite Hdbs, lookup_alter_ne.
  - intros l _. by rewrite Hrc.
  - lia.
  - intros l Hl'. apply elem_of_cons in Hl' as [->|?]; [by right|by left].
  - by rewrite Hcl.
  - intros _. by rewrite Hdbs, lookup_alter_eq, Hdb.
Qed.

(** The loop of a revert stops at the layer below the one the snapshot created. *)
Lemma revert_loop_run fuel id s own w depth F saved F' saved' :
  (length (s :: own) ≤ fuel)%nat → chain w s ((s :: own) ++ base) →
  last ((s :: own) ++ base) = Some r → tower answer b w (s :: own) base depth F saved →
  depth + 1 < 2 ^ 63 → find_saved id ((depth + 1, F) :: saved) = Some (F', saved') →
  ∃ s' own', revert_loop fuel d id (Some s) w = (Ok tt, with_dbs (alter (set_state (Some s')) d) w) ∧
    tower answer b w (s' :: own') base (id - 1) F' saved' ∧
    chain w s' ((s' :: own') ++ base) ∧ last ((s' :: own') ++ base) = Some r ∧
    (∀ l, l ∈ s' :: own' → l ∈ s :: own).
Proof.
  revert s own depth F saved. induction fuel as [|fuel IH]; intros s own depth F saved Hlen Hc Hl Htw Hbd Hf.
  { simpl in Hlen. lia. }
  pose proof (tower_depth _ _ _ _ _ Htw) as Hd. pose proof (chain_lookup _ _ _ Hc) as [st Hst].
  assert (deriveCnt st = depth) as Hdc.
  { destruct Htw as (_ & Hdc & _). rewrite Hst in Hdc. by injection Hdc. }
  cbn [revert_loop]. rewrite (bind_Ok (non_nil (Some s)) _ w s w) by done.
  rewrite (bind_Ok _ _ _ _ _ (get_state_Some _ _ _ Hst)), Hdc.
  cbn [find_saved] in Hf. destruct (Z.eqb_spec (depth + 1) id) as [Heq|Hne].
  - injection Hf as <- <-. rewrite i64_id by lia. rewrite (proj2 (Z.eqb_eq _ _)) by done.
    exists s, own. replace (id - 1) with depth by lia. done.
  - rewrite i64_id, (proj2 (Z.eqb_neq _ _)) by (lia || done).
    destruct Htw as (_ & _ & Hrest).
    destruct saved as [|[id2 F2] saved], own as [|s2 own]; try done.
    destruct Hrest as (-> & _ & Htw). pose proof (chain_tail _ _ _ _ Hc) as Hc2.
    assert (parent st = Some s2) as Hp.
    { inversion Hc as [|? ? p ls Hst' Hp' _ Hcp]; simplify_eq.
      pose proof (chain_head _ _ _ Hcp) as [? E]. by injection E as <-. }
    rewrite (bind_Ok _ _ _ _ _ (Parent_run _ _ _ Hst)), Hp.
    edestruct (IH s2 own (depth - 1) F2 saved) as (s' & own' & Hrun & ? & ? & ? & Hsub);
      [simpl in *; lia|exact Hc2|by eapply last_tail|exact Htw|lia|
       by replace (depth - 1 + 1) with depth by lia|].
    exists s', own'. split_and!; try done. intros l Hin%Hsub. by right.
Qed.

Lemma revert_step own w A id F saved :
  REF own base r b w d A → find_saved id (a_saved A) = Some (F, saved) →
  ∃ w' own', RevertToSnapshot d id w = (Ok tt, w') ∧
    REF own' base r b w' d (mkAbs F (id - 1) saved (a_refund A)) ∧ CONF own w own' w'.
Proof.
  intros Href Hfind. destruct (refines_top _ _ _ Href) as
    (db & s & own1 & st & -> & Hdb & Hs & Hst & Hg & (Hc & Hl & Hr) & _ & Hd & Hsr & Hlt).
  destruct Href as [_ Hb Hfr Hfd Hfc Htw Hwf]. pose proof (tower_depth _ _ _ _ _ Htw) as Hd0.
  destruct Htw as (_ & _ & Hrest).
  destruct (a_saved A) as [|[id1 F1] saved1], own1 as [|s1 own1]; try done.
  destruct Hrest as (-> & _ & Htw). pose proof (chain_tail _ _ _ _ Hc) as Hc1.
  assert (parent st = Some s1) as Hp.
  { inversion Hc as [|? ? p ls Hst' Hp' _ Hcp]; simplify_eq.
    pose proof (chain_head _ _ _ Hcp) as [? E]. by injection E as <-. }
  assert (length (s1 :: own1) ≤ S s)%nat as Hlen.
  { apply chain_length in Hc. simpl in Hc. rewrite length_app in Hc. simpl. lia. }
  destruct (revert_loop_run (S s) id s1 own1 w (a_depth A - 1) F1 saved1 F saved) as
    (s' & own' & Hrun & Htw' & Hc' & Hl' & Hsub);
    [done|exact Hc1|by eapply last_tail|exact Htw|lia|
     by replace (a_depth A - 1 + 1) with (a_depth A) by lia|].
  set (w' := with_dbs (alter (set_state (Some s')) d) w) in *.
  assert (∀ P, agrees answer b r P w w') as Hag by (intros P; split; by eauto).
  exists w', (s' :: own'). split; [|split].
  - unfold RevertToSnapshot. rewrite (bind_Ok _ _ _ _ _ (get_db_Some _ _ _ Hdb)), Hs.
    rewrite (bind_Ok _ _ _ _ _ (Parent_run _ _ _ Hst)), Hp.
    exact Hrun.
  - split; [|done|done|..].
    + exists (set_state (Some s') db), s'. simpl. rewrite lookup_alter_eq, Hdb. simpl.
      split_and!; try done. eapply agrees_overlay; [apply Hag|]. by split.
    + intros d'. simpl. rewrite lookup_alter_is_Some. apply Hfd.
    + done.
    + eapply agrees_tower; [apply Hag|done..].
    + intros l Hin Hne. apply Hwf; [|done]. apply (elem_of_app (s :: s1 :: own1)).
      apply elem_of_app in Hin as [Hin%Hsub|Hin]; [left; by right|by right].
  - split; auto with lia; try done.
    + intros d' Hd' _. simpl. by rewrite lookup_alter_ne.
    + intros l Hin%Hsub. left. by right.
    + intros _. simpl. by rewrite lookup_alter_eq, Hdb.
Qed.

(** ** Refinement *)

(** One read or one write of a method, through [read_step] or [put_step]. *)
#[local] Ltac rd :=
  match goal with
  | Href : refines _ _ _ _ _ ?w _ ?A |- context [(read d ?a ?act ?key ≫= _) ?w] =>
      let w' := fresh "w" in let Hrun := fresh "Hrun" in
      let Href' := fresh "Href" in let Hconf := fresh "Hconf" in
      destruct (read_step _ _ _ a act key Href) as (w' & Hrun & Href' & Hconf);
      rewrite (bind_Ok _ _ _ _ _ Hrun)
  end.
#[local] Ltac wr acc act key :=
  match goal with
  | Href : refines _ _ _ _ _ ?w _ ?A |- context [(put d _ ?v ≫= _) ?w] =>
      let w' := fresh "w" in let Hrun := fresh "Hrun" in
      let Href' := fresh "Href" in let Hconf := fresh "Hconf" in
      destruct (put_step _ _ _ acc act key v Href) as (w' & Hrun & Href' & Hconf);
      cbn [scratchpadKey] in Hrun; rewrite (bind_Ok _ _ _ _ _ Hrun)
  end.
#[local] Ltac fin := do 2 eexists; split_and!; [reflexivity|eassumption|];
  eauto using confined_trans, confined_refl.

Lemma run_op_refines own w A op res A' :
  REF own base r b w d A → spec_op op A = Some (res, A') →
  ∃ w' own', run_op d op w = (Ok res, w') ∧ REF own' base r b w' d A' ∧ CONF own w own' w'.
Proof.
  intros Href Hspec. destruct op; cbn [spec_op] in Hspec; simplify_eq; cbn [run_op].
  - fin.
  - unfold SubBalance. rewrite bind_assoc. rd. wr a GET_BALANCE Hash_zero. fin.
  - unfold AddBalance. rewrite bind_assoc. rd. wr a GET_BALANCE Hash_zero. fin.
  - unfold GetBalance. rewrite bind_assoc. rd. fin.
  - unfold SetBalance. wr a GET_BALANCE Hash_zero. fin.
  - unfold GetNonce. rewrite bind_assoc. rd. fin.
  - unfold SetNonce. wr a GET_NONCE Hash_zero. fin.
  - unfold GetCodeHash. rewrite bind_assoc. rd. fin.
  - unfold SetCodeHash. wr a GET_CODEHASH Hash_zero. fin.
  - unfold GetCode. rd. fin.
  - unfold SetCode. wr a GET_CODE Hash_zero. fin.
  - unfold GetCodeSize. rewrite bind_assoc. rd. fin.
  - destruct (refund_step own w A (λ g, u64 (g + n)) Href). fin.
  - destruct (refund_step own w A (λ g, u64 (g - n)) Href). fin.
  - destruct (refines_top _ _ _ Href) as (db & ? & ? & ? & -> & Hdb & _ & _ & Hg & _).
    unfold GetRefund. rewrite bind_assoc, (bind_Ok _ _ _ _ _ (get_db_Some _ _ _ Hdb)), Hg. fin.
  - unfold GetCommittedState. rewrite bind_assoc. rd. fin.
  - unfold GetState, GetCommittedState. rewrite bind_assoc. rd. fin.
  - unfold SetState. wr a GET_STATE k. fin.
  - destruct (suicide_step _ _ _ a Href) as (w1 & Hrun & ? & ?).
    unfold Suicide. rewrite bind_assoc, (bind_Ok _ _ _ _ _ Hrun). fin.
  - destruct (refines_top _ _ _ Href) as (db & s & ? & st & -> & Hdb & Hs & Hst & _ & _ & Hsh & _).
    unfold HasSuicided. rewrite bind_assoc, (bind_Ok _ _ _ _ _ (top_run _ _ _ Hdb Hs)).
    rewrite bind_assoc, (bind_Ok _ _ _ _ _ (get_state_Some _ _ _ Hst)), <-(sh_dead _ _ _ _ _ _ Hsh).
    unfold dead_in. rewrite (pad_lookup _ _ _ Hst).
    destruct (scratchPad st !! _) as [v|]; [|fin]. exists w, (s :: x). split_and!; [|done|apply confined_refl].
    rewrite bind_mret. unfold mret, M_ret. do 3 f_equal. apply bool_decide_ext. naive_solver.
  - unfold Exist, Empty, GetCode, GetNonce, GetBalance. rewrite !bind_assoc. rd.
    rewrite !bind_assoc. rd. rewrite bind_mret, !bind_assoc. rd. fin.
  - unfold Empty, GetCode, GetNonce, GetBalance. rewrite !bind_assoc. rd.
    rewrite !bind_assoc. rd. rewrite bind_mret, !bind_assoc. rd. fin.
  - fin.
  - fin.
  - fin.
  - fin.
  - fin.
  - destruct (find_saved id (a_saved A)) as [[F saved]|] eqn:Hf; simplify_eq.
    destruct (revert_step _ _ _ _ _ _ Href Hf) as (w1 & own1 & Hrun & ? & ?).
    rewrite (bind_Ok _ _ _ _ _ Hrun). fin.
  - destruct (Z.ltb_spec (a_depth A + 1) (2 ^ 63)); simplify_eq.
    destruct (snapshot_step _ _ _ Href) as (w1 & Hrun & ? & ?); [done|].
    rewrite (bind_Ok _ _ _ _ _ Hrun). fin.
  - destruct (addlog_step _ _ _ l Href) as (w1 & Hrun & ? & ?).
    rewrite (bind_Ok _ _ _ _ _ Hrun). fin.
Qed.

(** A whole program of calls. *)
Lemma exec_refines {X} (p : EvmProg X) own w A x A' :
  REF own base r b w d A → spec_prog p A = Some (x, A') →
  ∃ w' own', exec d p w = (Ok x, w') ∧ REF own' base r b w' d A' ∧ CONF own w own' w'.
Proof.
  revert own w A. induction p as [x0|op k IH]; intros own w A Href Hspec; cbn [spec_prog] in Hspec.
  - simplify_eq. exists w, own. split_and!; [done|done|apply confined_refl].
  - destruct (spec_op op A) as [[res A1]|] eqn:Hop; [|done]. simpl in Hspec.
    destruct (run_op_refines _ _ _ _ _ _ Href Hop) as (w1 & own1 & Hrun & Href1 & Hconf1).
    destruct (IH res own1 w1 A1 Href1 Hspec) as (w2 & own2 & Hrun2 & Href2 & Hconf2).
    exists w2, own2. split_and!; [|done|by eapply confined_trans].
    cbn [exec]. by rewrite (bind_Ok _ _ _ _ _ Hrun).
Qed.
End steps.
