(* ===== verification/Chain.v ===== *)
(** * Transactions, messages and the EVM of go-ethereum

    [types.Transaction], [types.Message], [core.ApplyMessage] and the tracers shipped with
    go-ethereum are not part of this repository: they are the operations of the class
    [Core], and [CoreLaws] states the documented behaviour the theorems use.  The EVM is
    the program [ApplyMessage] of calls to the state database and of steps shown to the
    tracer.  Plain structs the program builds field by field are records. *)
From S2P Require Import Prelude BigInt Geth World OverlayState OverlayStateDB VmStateDB.

(** ** Data *)

(** A Go [error] that is not nil. *)
Abbreviation Err := string.

Section data.
Context `{Geth}.

Record AccessTuple := mkAccessTuple { at_Address : Address; at_StorageKeys : list Hash }.
Abbreviation AccessList := (list AccessTuple).

(** [types.LegacyTx], [types.AccessListTx] and [types.DynamicFeeTx]. *)
Inductive TxData :=
| LegacyTx (To : option Address) (Nonce Gas : Z) (GasPrice Value : option Z) (Data : bytes)
| AccessListTx (To : option Address) (ChainID : option Z) (Nonce Gas : Z)
    (GasPrice Value : option Z) (Data : bytes) (al : AccessList)
| DynamicFeeTx (To : option Address) (ChainID : option Z) (Nonce Gas : Z)
    (GasFeeCap GasTipCap Value : option Z) (Data : bytes) (al : AccessList).

(** [types.Message], whose accessors return the arguments of [types.NewMessage]. *)
Record Message := NewMessage {
  m_From : Address;
  m_To : option Address;
  m_Nonce : Z;
  m_Value : Z;
  m_Gas : Z;
  m_GasPrice : Z;
  m_GasFeeCap : Z;
  m_GasTipCap : Z;
  m_Data : bytes;
  m_AccessList : AccessList;
  m_IsFake : bool
}.

(** The interface [types.Signer]. *)
Record Signer (Tx : Type) := mkSigner {
  SignatureValues : Tx → bytes → Err + (Z * Z * Z);  (* r, s, v *)
  Sender : Tx → Err + Address;
  sg_ChainID : Z;
  sg_Hash : Tx → Hash
}.

(** The numbers of a [vm.BlockContext], as the EVM reads them. *)
Record BlockValues := mkBlockValues {
  bv_Coinbase : Address;
  bv_GasLimit : Z;
  bv_BlockNumber : Z;
  bv_Time : Z;
  bv_Difficulty : Z;
  bv_BaseFee : Z
}.

(** What the accessors of a [core.ExecutionResult] return. *)
Record ExecutionResult := mkExecutionResult {
  er_UsedGas : Z;
  er_Err : option Err;
  er_Failed : bool;
  er_Revert : bytes;
  er_Return : bytes
}.

(** The opcodes a tracer of this repository distinguishes. *)
Inductive OpCode := KECCAK256 | ORIGIN | REVERT | SLOAD | SSTORE | GAS | OTHER_OP.

(** The memory of a call frame: the identity of its backing array, the array up to its
    capacity, and how many bytes of it are in use. *)
Record Memory := mkMemory { mem_ID : nat; mem_array : bytes; mem_len : Z }.

(** The arguments of [CaptureState] that a tracer reads.  The last element of the stack is
    its top. *)
Record Step := mkStep {
  st_Op : OpCode;
  st_Contract : Address;
  st_ContractGas : Z;
  st_Stack : list Z;
  st_Memory : Memory
}.

(** [types.Header]. *)
Record Header := mkHeader {
  hd_ParentHash : Hash;
  hd_UncleHash : Hash;
  hd_Coinbase : Address;
  hd_Root : Hash;
  hd_TxHash : Hash;
  hd_ReceiptHash : Hash;
  hd_Bloom : bytes;
  hd_Difficulty : Z;
  hd_Number : Z;
  hd_GasLimit : Z;
  hd_GasUsed : Z;
  hd_Time : Z;
  hd_Extra : bytes;
  hd_MixDigest : Hash;
  hd_Nonce : bytes;
  hd_BaseFee : option Z
}.

(** [logger.Config] and [logger.StructLog]; what a struct logger was asked to leave out is
    nil. *)
Record LoggerConfig := mkLoggerConfig {
  EnableMemory : bool;
  DisableStack : bool;
  DisableStorage : bool;
  EnableReturnData : bool;
  Limit : Z
}.

Record StructLog := mkStructLog {
  sl_Pc : Z;
  sl_Op : string;
  sl_Gas : Z;
  sl_GasCost : Z;
  sl_Depth : Z;
  sl_ErrorString : string;
  sl_Stack : option (list Z);
  sl_Memory : option bytes;
  sl_Storage : option (gmap Hash Hash)
}.

(** [tracers.TraceConfig]; the logger's configuration is an embedded pointer. *)
Record TraceConfig := mkTraceConfig {
  tc_Config : option LoggerConfig;
  tc_Tracer : option string;
  tc_Timeout : option string;
  tc_TracerConfig : bytes
}.

(** [tracers.Context] *)
Record TracerContext := mkTracerContext { tx_BlockHash : Hash; tx_TxIndex : Z; tx_TxHash : Hash }.

(** EVM code: calls to the state database, and steps shown to the tracer. *)
Inductive TracedProg (A : Type) : Type :=
| TDone (a : A)
| TInvoke (op : Op) (k : Res → TracedProg A)
| TStep (ev : Step) (k : TracedProg A).

(** Execution without a tracer. *)
Fixpoint erase {A} (p : TracedProg A) : EvmProg A :=
  match p with
  | TDone _ a => Done a
  | TInvoke _ op k => Invoke op (λ r, erase (k r))
  | TStep _ ev k => erase k
  end.
End data.

Arguments TDone {_ A} a.
Arguments TInvoke {_ A} op k.
Arguments TStep {_ A} ev k.
Arguments mkSigner {_ Tx}.
Arguments SignatureValues {_ Tx}.
Arguments Sender {_ Tx}.
Arguments sg_ChainID {_ Tx}.
Arguments sg_Hash {_ Tx}.

(** ** Interface *)

Class Core `{Geth} := {
  Transaction : Type;
  #[global] Transaction_eq_dec :: EqDecision Transaction;
  NewTx : TxData → Transaction;
  tx_Hash : Transaction → Hash;
  tx_Type : Transaction → Z;
  tx_To : Transaction → option Address;
  tx_Value : Transaction → Z;
  tx_Data : Transaction → bytes;
  tx_Nonce : Transaction → Z;
  tx_Gas : Transaction → Z;
  tx_GasPrice : Transaction → Z;
  tx_GasFeeCap : Transaction → Z;
  tx_GasTipCap : Transaction → Z;
  tx_ChainId : Transaction → Z;
  tx_Protected : Transaction → bool;
  tx_AccessList : Transaction → list AccessTuple;
  (** [tx.RawSignatureValues()]: v, r, s. *)
  RawSignatureValues : Transaction → Z * Z * Z;
  WithSignature : Transaction → Signer Transaction → bytes → Err + Transaction;
  (** [tx.AsMessage(signer, nil)], its error dropped. *)
  AsMessage : Transaction → Signer Transaction → Message;
  UnmarshalBinary : bytes → Err + Transaction;
  (** [types.Sender], with its cache. *)
  types_Sender : Signer Transaction → Transaction → Err + Address;
  NewLondonSigner : Z → Signer Transaction;
  LatestSignerForChainID : Z → Signer Transaction;
  HomesteadSigner : Signer Transaction;
  (** [core.ApplyMessage]: the outcome and the gas left in the pool. *)
  ApplyMessage : BlockValues → Z → Message → Z → TracedProg ((Err + ExecutionResult) * Z);
  (** [crypto.CreateAddress]. *)
  CreateAddress : Address → Z → Address;
  (** [memory.GetPtr(offset, size)]: nothing when it slices the memory out of bounds. *)
  GetPtr : Memory → Z → Z → option bytes;
  (** [types.Block] and its constructor from a header and transactions. *)
  Block : Type;
  block_Header : Block → Header;
  block_Hash : Block → Hash;
  block_Size : Block → Z;
  block_Transactions : Block → list Transaction;
  block_Uncles : Block → list Header;
  NewBlock : Header → list Transaction → Block;
  header_Hash : Header → Hash;
  header_Size : Header → Z;
  (** [abi.UnpackRevert]: the reason, when the data has one. *)
  UnpackRevert : bytes → option string;
  (** The tracers of go-ethereum: [tracers.New], their hooks, and their result. *)
  ForeignTracer : Type;
  NewForeignTracer : string → TracerContext → bytes → Err + ForeignTracer;
  NewStructLogger : option LoggerConfig → ForeignTracer;
  foreign_step : Step → ForeignTracer → ForeignTracer;
  foreign_result : ForeignTracer → bytes * option Err;
  StructLogs : ForeignTracer → list StructLog
}.

(** A program that ends in the contract, reverts only to snapshots it took itself, and
    keeps at most [n] snapshots. *)
Definition disciplined `{Geth} {A} (n : Z) (p : EvmProg A) : Prop :=
  ∀ S, a_depth S + n < 2 ^ 63 → ∃ x S' own,
    spec_prog p S = Some (x, S') ∧ a_saved S' = own ++ a_saved S ∧
    Forall (λ q, a_depth S < q.1) own ∧ a_depth S' ≤ a_depth S + n.

(** A call frame takes one snapshot, and a call costs at least 40 gas, so a message takes at
    most a fortieth of its gas and one for the outermost frame. *)
Definition frames_of `{Geth} (msg : Message) : Z := 1 + Z.max 0 (m_Gas msg) / 40.

Lemma frames_of_pos `{Geth} msg : 1 ≤ frames_of msg.
Proof. unfold frames_of. pose proof (Z.div_pos (Z.max 0 (m_Gas msg)) 40). lia. Qed.

Class CoreLaws `{Core} : Prop := {
  (** Signing stores the signer's values and keeps the rest of the transaction. *)
  WithSignature_ok tx sg sig r s v :
    SignatureValues sg tx sig = inr (r, s, v) →
    ∃ tx', WithSignature tx sg sig = inr tx' ∧ RawSignatureValues tx' = (v, r, s) ∧
      tx_To tx' = tx_To tx ∧ tx_Value tx' = tx_Value tx ∧ tx_Data tx' = tx_Data tx ∧
      tx_Nonce tx' = tx_Nonce tx ∧ tx_Gas tx' = tx_Gas tx;
  (** A message is the transaction with the sender the signer recovers. *)
  AsMessage_From tx sg a : Sender sg tx = inr a → m_From (AsMessage tx sg) = a;
  AsMessage_fields tx sg :
    m_To (AsMessage tx sg) = tx_To tx ∧ m_Nonce (AsMessage tx sg) = tx_Nonce tx ∧
    m_Value (AsMessage tx sg) = tx_Value tx ∧ m_Gas (AsMessage tx sg) = tx_Gas tx ∧
    m_Data (AsMessage tx sg) = tx_Data tx;
  (** A new transaction has the fields it was built from. *)
  NewTx_Legacy to nonce gas price value data :
    let tx := NewTx (LegacyTx to nonce gas price value data) in
    tx_Type tx = 0 ∧ tx_To tx = to ∧ tx_Nonce tx = nonce ∧ tx_Gas tx = gas ∧
    tx_GasPrice tx = default 0 price ∧ tx_Value tx = default 0 value ∧ tx_Data tx = data;
  (** The EVM ends and brackets its snapshots.  Nothing is said of the steps it shows: one
      that fails for want of stack or gas is shown as well. *)
  ApplyMessage_disciplined ctx cid msg gas :
    disciplined (frames_of msg) (erase (ApplyMessage ctx cid msg gas))
}.
