(* ===== verification/GoSlice.v ===== *)
(** * Go slices over shared backing arrays

    A slice is a window on a backing array; slices cut from the same array share its
    cells, and [append] writes into the array when the capacity allows.  The arrays of one
    element type are a heap; a cell no slice ever wrote is not stored.  [grow] is the
    capacity the runtime chooses for a new array, which Go leaves open apart from being
    large enough. *)
From S2P Require Import Prelude.

(** ** Data and operations *)

Record GoSlice := mkSlice { s_arr : nat; s_off : nat; s_len : nat; s_cap : nat }.

Record Heap (A : Type) := mkHeap { h_arrays : gmap nat (list A); h_next : nat }.
Arguments mkHeap {A}.
Arguments h_arrays {A}.
Arguments h_next {A}.

Class Growth := { grow : nat → nat; grow_enough n : (n ≤ grow n)%nat }.

Section ops.
Context {A : Type}.
Implicit Types (h : Heap A) (s : GoSlice).

Definition cells h s : list A := default [] (h_arrays h !! s_arr s).

(** The elements of a slice. *)
Definition contents h s : list A := take (s_len s) (drop (s_off s) (cells h s)).

(** [make([]A, 0)] *)
Definition make_empty h : GoSlice * Heap A :=
  (mkSlice (h_next h) 0 0 0, mkHeap (<[h_next h := []]> (h_arrays h)) (S (h_next h))).

(** A composite literal or a slice made by another package: a fresh array. *)
Definition make_of h (l : list A) : GoSlice * Heap A :=
  (mkSlice (h_next h) 0 (length l) (length l), mkHeap (<[h_next h := l]> (h_arrays h)) (S (h_next h))).

(** [s[b:e]]; the upper bound is checked against the capacity. *)
Definition reslice s (b e : nat) : option GoSlice :=
  if decide (b ≤ e ∧ e ≤ s_cap s)%nat
  then Some (mkSlice (s_arr s) (s_off s + b) (e - b) (s_cap s - b)) else None.

(** Overwriting the cells from position [p] on. *)
Definition write_at (p : nat) (xs l : list A) : list A :=
  take p l ++ xs ++ drop (p + length xs) l.

(** [append(s, xs...)] *)
Definition append `{Growth} h s (xs : list A) : GoSlice * Heap A :=
  let n := (s_len s + length xs)%nat in
  if decide (n ≤ s_cap s)%nat then
    (mkSlice (s_arr s) (s_off s) n (s_cap s),
     mkHeap (<[s_arr s := write_at (s_off s + s_len s) xs (cells h s)]> (h_arrays h)) (h_next h))
  else
    (mkSlice (h_next h) 0 n (grow n),
     mkHeap (<[h_next h := contents h s ++ xs]> (h_arrays h)) (S (h_next h))).

(** A slice whose cells exist in the heap. *)
Record valid h s : Prop := {
  v_arr : (s_arr s < h_next h)%nat;
  v_len : (s_len s ≤ s_cap s)%nat;
  v_cells : (s_off s + s_len s ≤ length (cells h s))%nat
}.

(** Nothing was ever appended to the array beyond the end of [s]. *)
Definition at_end h s : Prop := length (cells h s) = (s_off s + s_len s)%nat.
End ops.

(** ** Lemmas *)

Section lemmas.
Context {A : Type} `{Growth}.
Implicit Types (h : Heap A) (s : GoSlice).

Lemma length_contents h s : valid h s → length (contents h s) = s_len s.
Proof. intros []. unfold contents. rewrite length_take, length_drop. lia. Qed.

Lemma make_of_contents h l s h' : make_of h l = (s, h') → contents h' s = l ∧ valid h' s.
Proof.
  intros [= <- <-]. assert (cells (mkHeap (<[h_next h := l]> (h_arrays h)) (S (h_next h)))
    (mkSlice (h_next h) 0 (length l) (length l)) = l) as Hc.
  { unfold cells. simpl. by rewrite lookup_insert_eq. }
  split; [|split; rewrite ?Hc; simpl; lia].
  unfold contents. rewrite Hc. simpl. rewrite drop_0, take_ge; [done|lia].
Qed.

Lemma write_at_take (p : nat) (xs l : list A) :
  (p ≤ length l)%nat → take (p + length xs) (write_at p xs l) = take p l ++ xs.
Proof.
  intros Hp. unfold write_at. rewrite app_assoc, take_app_le.
  - rewrite take_ge; [done|]. rewrite length_app, length_take. lia.
  - rewrite length_app, length_take. lia.
Qed.

Lemma write_at_prefix (p n : nat) (xs l : list A) :
  (n ≤ p)%nat → (p ≤ length l)%nat → take n (write_at p xs l) = take n l.
Proof.
  intros Hn Hp. unfold write_at. rewrite take_app_le by (rewrite length_take; lia).
  rewrite take_take. f_equal. lia.
Qed.

(** [append] returns the elements of both. *)
Lemma append_contents h s xs s' h' :
  valid h s → append h s xs = (s', h') → contents h' s' = contents h s ++ xs ∧ valid h' s'.
Proof.
  intros Hv. pose proof (length_contents h s Hv) as Hlen. destruct Hv as [Ha Hl Hc].
  unfold append. case_decide as Hcap; intros [= <- <-].
  - assert (cells (mkHeap (<[s_arr s := write_at (s_off s + s_len s) xs (cells h s)]> (h_arrays h)) (h_next h))
      (mkSlice (s_arr s) (s_off s) (s_len s + length xs) (s_cap s))
      = write_at (s_off s + s_len s) xs (cells h s)) as Hcells.
    { unfold cells at 1. simpl. by rewrite lookup_insert_eq. }
    split; [|split; rewrite ?Hcells; simpl; try lia].
    + unfold contents at 1. rewrite Hcells. simpl.
      rewrite take_drop_commute, Nat.add_assoc, write_at_take by lia.
      rewrite drop_app_le by (rewrite length_take; lia).
      unfold contents. by rewrite take_drop_commute.
    + unfold write_at. rewrite !length_app, length_take, length_drop. lia.
  - assert (cells (mkHeap (<[h_next h := contents h s ++ xs]> (h_arrays h)) (S (h_next h)))
      (mkSlice (h_next h) 0 (s_len s + length xs) (grow (s_len s + length xs)))
      = contents h s ++ xs) as Hcells.
    { unfold cells at 1. simpl. by rewrite lookup_insert_eq. }
    pose proof (grow_enough (s_len s + length xs)).
    split; [|split; rewrite ?Hcells; simpl; rewrite ?length_app; lia].
    unfold contents at 1. rewrite Hcells. simpl. rewrite drop_0, take_ge; [done|].
    rewrite length_app. lia.
Qed.

(** Appending at the end of an array changes no element seen through another slice. *)
Lemma append_frame h s xs s' h' t :
  valid h s → at_end h s → valid h t → append h s xs = (s', h') →
  contents h' t = contents h t ∧ valid h' t.
Proof.
  intros [Ha Hl Hc] Hend [Ha' Hl' Hc'] Happ. unfold append in Happ.
  case_decide as Hcap; injection Happ as <- <-; unfold contents, cells in *; simpl in *.
  - destruct (decide (s_arr t = s_arr s)) as [E|Hne].
    + rewrite E in *. split; [|split]; unfold cells; simpl; rewrite ?E, ?lookup_insert_eq; simpl;
        [|done|done|].
      * rewrite !take_drop_commute, write_at_prefix; [done|unfold at_end, cells in Hend; lia|lia].
      * unfold write_at. rewrite !length_app, length_take, length_drop. lia.
    + rewrite lookup_insert_ne by done. split; [done|].
      split; unfold cells; simpl; rewrite ?lookup_insert_ne by done; lia.
  - rewrite lookup_insert_ne by lia. split; [done|].
    split; unfold cells; simpl; rewrite ?lookup_insert_ne by lia; lia.
Qed.

(** After an append at the end, the result ends its array. *)
Lemma append_at_end h s xs s' h' :
  valid h s → at_end h s → append h s xs = (s', h') → at_end h' s'.
Proof.
  intros Hv Hend Happ. pose proof (length_contents h s Hv) as Hlen. destruct Hv as [Ha Hl Hc].
  unfold append in Happ. unfold at_end, cells in *.
  case_decide as Hcap; injection Happ as <- <-; simpl; rewrite lookup_insert_eq; simpl.
  - unfold write_at. rewrite !length_app, length_take, length_drop. lia.
  - rewrite length_app. lia.
Qed.
End lemmas.
