(* ===== verification/ToyInstance.v ===== *)
(** * A concrete instance of the interfaces

    Transactions are their data with signature values; applying a message moves its value
    between two accounts inside a snapshot, logs one event, and reverts when its data is
    not empty; data that starts with the opcode of SLOAD shows it with an empty stack.  The upstream node answers every request with a value computed from its
    arguments.  The instance shows that the hypotheses of the library hold together, and
    the examples evaluate the model on it. *)
From S2P Require Import Prelude BigInt Geth World OverlayState OverlayStateDB VmStateDB Chain.
From S2P Require Import GoSlice.

Module ToyCore.
Export Toy.

#[export] Instance AccessTuple_eq_dec : EqDecision AccessTuple.
Proof. solve_decision. Defined.

#[export] Instance TxData_eq_dec : EqDecision TxData.
Proof. solve_decision. Defined.

Record tx := mkTx { t_data : TxData; t_sig : Z * Z * Z }.

#[export] Instance tx_eq_dec : EqDecision tx.
Proof. solve_decision. Defined.

Definition d_to (d : TxData) := match d with
  | LegacyTx t _ _ _ _ _ | AccessListTx t _ _ _ _ _ _ _ | DynamicFeeTx t _ _ _ _ _ _ _ _ => t end.
Definition d_nonce (d : TxData) := match d with
  | LegacyTx _ n _ _ _ _ | AccessListTx _ _ n _ _ _ _ _ | DynamicFeeTx _ _ n _ _ _ _ _ _ => n end.
Definition d_gas (d : TxData) := match d with
  | LegacyTx _ _ g _ _ _ | AccessListTx _ _ _ g _ _ _ _ | DynamicFeeTx _ _ _ g _ _ _ _ _ => g end.
Definition d_value (d : TxData) := match d with
  | LegacyTx _ _ _ _ v _ | AccessListTx _ _ _ _ _ v _ _ | DynamicFeeTx _ _ _ _ _ _ v _ _ => default 0 v end.
Definition d_data (d : TxData) := match d with
  | LegacyTx _ _ _ _ _ c | AccessListTx _ _ _ _ _ _ c _ | DynamicFeeTx _ _ _ _ _ _ _ c _ => c end.
Definition d_price (d : TxData) := match d with
  | LegacyTx _ _ _ p _ _ | AccessListTx _ _ _ _ p _ _ _ | DynamicFeeTx _ _ _ _ p _ _ _ _ => default 0 p end.
Definition d_type (d : TxData) := match d with LegacyTx _ _ _ _ _ _ => 0
  | AccessListTx _ _ _ _ _ _ _ _ => 1 | DynamicFeeTx _ _ _ _ _ _ _ _ _ => 2 end.
Definition d_chain (d : TxData) := match d with LegacyTx _ _ _ _ _ _ => 0
  | AccessListTx _ c _ _ _ _ _ _ | DynamicFeeTx _ c _ _ _ _ _ _ _ => default 0 c end.
Definition d_al (d : TxData) := match d with LegacyTx _ _ _ _ _ _ => []
  | AccessListTx _ _ _ _ _ _ _ l | DynamicFeeTx _ _ _ _ _ _ _ _ l => l end.

(** A signer that recovers no sender. *)
Definition no_signer : Signer tx := mkSigner (λ _ _, inl "none") (λ _, inl "none") 0 (λ _, Hash_zero).

Definition sender_of (sg : Signer tx) (t : tx) : Address :=
  match Sender sg t with inr a => a | inl _ => Address_zero end.

Definition message (t : tx) (sg : Signer tx) : Message :=
  let d := t_data t in
  NewMessage (sender_of sg t) (d_to d) (d_nonce d) (d_value d) (d_gas d) (d_price d) (d_price d)
    (d_price d) (d_data d) (d_al d) false.

Definition event (m : Message) : Log := mkLog (m_From m) [] (m_Data m).

Definition apply (ctx : BlockValues) (cid : Z) (m : Message) (gas : Z)
    : TracedProg ((Err + ExecutionResult) * Z) :=
  if Z.ltb gas (m_Gas m) then TDone (inl "gas limit reached", gas) else
  let to := default Address_zero (m_To m) in
  TInvoke OpSnapshot (λ r,
  TInvoke (OpSubBalance (m_From m) (m_Value m)) (λ _,
  TInvoke (OpAddBalance to (m_Value m)) (λ _,
  TInvoke (OpSetNonce (m_From m) (m_Nonce m + 1)) (λ _,
  TStep (mkStep SLOAD to 100 (match m_Data m with x54 :: _ => [] | _ => [7] end) (mkMemory 0 [] 0))
  (TInvoke (OpGetState to (hash 7)) (λ _,
  TInvoke (OpAddLog (event m)) (λ _,
  match m_Data m, r with
  | [], _ | _, RUnit => TDone (inr (mkExecutionResult 21000 None false [] []), gas - 21000)
  | c, RInt id =>
      TInvoke (OpRevertToSnapshot id) (λ _,
      TDone (inr (mkExecutionResult 30000 (Some "execution reverted") true c []), gas - 30000))
  | _, _ => TDone (inr (mkExecutionResult 21000 None false [] []), gas - 21000)
  end))))))).

#[export] Instance core : Core := {|
  Transaction := tx;
  NewTx d := mkTx d (0, 0, 0);
  tx_Hash t := hash (d_nonce (t_data t) + 256 * (t_sig t).1.2);
  tx_Type t := d_type (t_data t);
  tx_To t := d_to (t_data t);
  tx_Value t := d_value (t_data t);
  tx_Data t := d_data (t_data t);
  tx_Nonce t := d_nonce (t_data t);
  tx_Gas t := d_gas (t_data t);
  tx_GasPrice t := d_price (t_data t);
  tx_GasFeeCap t := d_price (t_data t);
  tx_GasTipCap t := d_price (t_data t);
  tx_ChainId t := d_chain (t_data t);
  tx_Protected t := false;
  tx_AccessList t := d_al (t_data t);
  RawSignatureValues := t_sig;
  WithSignature t sg sig :=
    match SignatureValues sg t sig with
    | inr (r, s, v) => inr (mkTx (t_data t) (v, r, s))
    | inl e => inl e
    end;
  AsMessage := message;
  UnmarshalBinary l := match l with [] => inl "eof" | _ => inr (mkTx (LegacyTx None 0 0 None None l) (0, 0, 0)) end;
  types_Sender sg t := Sender sg t;
  NewLondonSigner _ := no_signer;
  LatestSignerForChainID _ := no_signer;
  HomesteadSigner := no_signer;
  ApplyMessage := apply;
  CreateAddress a n := BytesToAddress (Address_Bytes a ++ Bytes n);
  GetPtr m o n := if Z.eqb n 0 || Z.leb (mem_len m) o then Some [] else slice (mem_array m) o (o + n);
  Block := Header * list tx;
  block_Header := fst;
  block_Hash b := hash (hd_Number b.1);
  block_Size b := 100;
  block_Transactions := snd;
  block_Uncles _ := [];
  NewBlock h l := (h, l);
  header_Hash h := hash (hd_Number h);
  header_Size _ := 50;
  UnpackRevert l := match l with [] => None | _ => Some "reason" end;
  ForeignTracer := list Z;
  NewForeignTracer s _ _ := if decide (s = "") then inl "unknown tracer" else inr [];
  NewStructLogger _ := [];
  foreign_step ev t := t ++ [st_ContractGas ev];
  foreign_result t := (Bytes (Z.of_nat (length t)), None);
  StructLogs t := (λ g, mkStructLog 0 "OP" g 1 1 "" None None None) <$> t
|}.

Lemma apply_disciplined ctx cid m gas : disciplined (frames_of m) (erase (apply ctx cid m gas)).
Proof.
  pose proof (frames_of_pos m) as Hpos. intros S HS. unfold apply. destruct (Z.ltb gas (m_Gas m)).
  { eexists _, _, []. split; [reflexivity|]. split_and!; [done..|lia]. }
  cbn [erase spec_prog spec_op a_depth mbind option_bind].
  assert (Z.ltb (a_depth S + 1) (2 ^ 63) = true) as -> by (apply Z.ltb_lt; lia).
  cbn [erase spec_prog spec_op a_depth mbind option_bind fst snd].
  destruct (m_Data m) as [|c l]; cbn [erase spec_prog spec_op].
  - eexists _, _, [_]. split; [reflexivity|]. cbn. split_and!; [reflexivity| |lia].
    constructor; [cbn; lia|done].
  - cbn [with_obs with_logs with_dead a_saved find_saved]. rewrite Z.eqb_refl.
    eexists _, _, []. split; [reflexivity|]. cbn. split_and!; [done..|lia].
Qed.

#[export] Instance core_laws : CoreLaws.
Proof.
  split; simpl.
  - intros t sg sig r s v ->. eexists. split; [reflexivity|]. done.
  - intros t sg a E. unfold message, sender_of. simpl. by rewrite E.
  - done.
  - done.
  - intros. apply apply_disciplined.
Qed.

#[export] Instance growth : Growth.
Proof. refine {| grow n := (2 * n)%nat |}. intros. lia. Defined.

(** ** A transaction and a pool *)

Definition a1 : Address := addr 1.
Definition a2 : Address := addr 2.
Definition tx_of (nonce value : Z) (data : bytes) : Transaction (Core:=core) :=
  mkTx (LegacyTx (Some a2) nonce 100000 None (Some value) data) (1, SetBytes (Address_Bytes a1), 0).
End ToyCore.
