(* ===== verification/TxPool.v ===== *)
(** * mfertxpool/txpool.go: the pool of executed transactions

    The pool holds two Go slices of the same length, the transactions and the results of
    their execution.  [GetPoolTxs] hands out the slices themselves, so the model keeps the
    backing arrays.  The section [spec] states the pool as a list of pairs. *)
From S2P Require Import Prelude BigInt Geth World OverlayState OverlayStateDB VmStateDB Chain.
From S2P Require Import GoSlice ToyInstance.

(** ** The pool *)

Section pool.
Context `{Core} `{Growth}.

Record MferTxPool := mkPool {
  txs : GoSlice;
  execResults : GoSlice;
  tx_heap : Heap Transaction;
  res_heap : Heap (option Err)
}.

(** The heaps of a program that has allocated no slice yet. *)
Definition heap0 {A} : Heap A := mkHeap ∅ 0.

Definition NewMferTxPool : MferTxPool :=
  let '(t, th) := make_empty heap0 in
  let '(r, rh) := make_empty heap0 in
  mkPool t r th rh.

Definition AddTx (pool : MferTxPool) (tx : Transaction) (execResult : option Err) : MferTxPool :=
  let '(t, th) := append (tx_heap pool) (txs pool) [tx] in
  let '(r, rh) := append (res_heap pool) (execResults pool) [execResult] in
  mkPool t r th rh.

(** The argument is a slice the caller made. *)
Definition SetResults (pool : MferTxPool) (results : list (option Err)) : MferTxPool :=
  let '(r, rh) := make_of (res_heap pool) results in
  mkPool (txs pool) r (tx_heap pool) rh.

Definition Reset (pool : MferTxPool) : Z * MferTxPool :=
  let n := Z.of_nat (s_len (txs pool)) in
  let '(t, th) := make_empty (tx_heap pool) in
  let '(r, rh) := make_empty (res_heap pool) in
  (n, mkPool t r th rh).

(** The loop over the pool: the first index whose transaction has the hash. *)
Fixpoint find_hash (h : Hash) (i : nat) (l : list Transaction) : option (nat * Transaction) :=
  match l with
  | [] => None
  | tx :: l => if decide (tx_Hash tx = h) then Some (i, tx) else find_hash h (S i) l
  end.

(** The index is 0 when no transaction has the hash.  [None]: a slice bound is out of
    range, the call panics. *)
Definition RemoveTxByHash (pool : MferTxPool) (txHash : Hash) : option MferTxPool :=
  if decide (s_len (txs pool) < 1)%nat then Some pool else
  let txIndex := default 0%nat (fst <$> find_hash txHash 0 (contents (tx_heap pool) (txs pool))) in
  head ← reslice (txs pool) 0 txIndex;
  tail ← reslice (txs pool) (txIndex + 1) (s_len (txs pool));
  let '(t, th) := append (tx_heap pool) head (contents (tx_heap pool) tail) in
  let pool := mkPool t (execResults pool) th (res_heap pool) in
  resHead ← reslice (execResults pool) 0 txIndex;
  resTail ← reslice (execResults pool) (txIndex + 1) (s_len (execResults pool));
  let '(r, rh) := append (res_heap pool) resHead (contents (res_heap pool) resTail) in
  Some (mkPool (txs pool) r (tx_heap pool) rh).

(** The slices themselves are returned, not copies. *)
Definition GetPoolTxs (pool : MferTxPool) : GoSlice * GoSlice := (txs pool, execResults pool).

Definition GetTransactionByHash (pool : MferTxPool) (txHash : Hash) : nat * option Transaction :=
  match find_hash txHash 0 (contents (tx_heap pool) (txs pool)) with
  | Some (i, tx) => (i, Some tx)
  | None => (0%nat, None)
  end.

(** The elements a caller of [GetPoolTxs] sees in its two slices. *)
Definition seen (pool : MferTxPool) (s : GoSlice * GoSlice) : list Transaction * list (option Err) :=
  (contents (tx_heap pool) s.1, contents (res_heap pool) s.2).

(** Well-formedness: both slices are valid and as long as each other, and nothing was
    appended beyond them. *)
Record pool_ok (pool : MferTxPool) : Prop := {
  ok_txs : valid (tx_heap pool) (txs pool);
  ok_res : valid (res_heap pool) (execResults pool);
  ok_tx_end : at_end (tx_heap pool) (txs pool);
  ok_res_end : at_end (res_heap pool) (execResults pool);
  ok_len : s_len (txs pool) = s_len (execResults pool)
}.

(** The histories of calls the node makes. *)
Inductive PoolOp :=
| PAddTx (tx : Transaction) (r : option Err)
| PSetResults (rs : list (option Err))
| PReset.

Definition pool_op (pool : MferTxPool) (op : PoolOp) : MferTxPool :=
  match op with
  | PAddTx tx r => AddTx pool tx r
  | PSetResults rs => SetResults pool rs
  | PReset => (Reset pool).2
  end.

(** [ReExecTxPool] sets as many results as there are transactions. *)
Definition op_ok (pool : MferTxPool) (op : PoolOp) : Prop :=
  match op with PSetResults rs => length rs = s_len (txs pool) | _ => True end.

Inductive pool_reachable : MferTxPool → Prop :=
| reach_new : pool_reachable NewMferTxPool
| reach_op pool op : pool_reachable pool → op_ok pool op → pool_reachable (pool_op pool op).

(** ** Specification: a list of transactions with their results *)

Definition entries (pool : MferTxPool) : list (Transaction * option Err) :=
  zip (seen pool (GetPoolTxs pool)).1 (seen pool (GetPoolTxs pool)).2.

Definition spec_pool (l : list (Transaction * option Err)) (op : PoolOp) : list (Transaction * option Err) :=
  match op with
  | PAddTx tx r => l ++ [(tx, r)]
  | PSetResults rs => zip l.*1 rs
  | PReset => []
  end.
End pool.

(** ** Lemmas *)

Section lemmas.
Context `{Core} `{Growth}.
Implicit Types pool : MferTxPool.

Lemma make_empty_ok {A} (h : Heap A) s h' :
  make_empty h = (s, h') → valid h' s ∧ at_end h' s ∧ contents h' s = [] ∧ s_len s = 0%nat.
Proof.
  intros [= <- <-]. unfold at_end, contents, cells. simpl. rewrite lookup_insert_eq.
  split_and!; try done. split; unfold cells; simpl; rewrite ?lookup_insert_eq; simpl; lia.
Qed.

Lemma append_len {A} (h : Heap A) s xs s' h' :
  append h s xs = (s', h') → s_len s' = (s_len s + length xs)%nat.
Proof. unfold append. case_decide; by intros [= <- <-]. Qed.

Lemma AddTx_ok pool tx r :
  pool_ok pool → pool_ok (AddTx pool tx r) ∧
  seen (AddTx pool tx r) (GetPoolTxs (AddTx pool tx r)) =
    ((seen pool (GetPoolTxs pool)).1 ++ [tx], (seen pool (GetPoolTxs pool)).2 ++ [r]).
Proof.
  intros []. unfold AddTx, seen, GetPoolTxs.
  destruct (append (tx_heap pool) _ _) as [t th] eqn:Ht.
  destruct (append (res_heap pool) _ _) as [e rh] eqn:He. simpl.
  destruct (append_contents _ _ _ _ _ ok_txs0 Ht) as [-> ?].
  destruct (append_contents _ _ _ _ _ ok_res0 He) as [-> ?]. split; [|done]. split; simpl; try done.
  - exact (append_at_end _ _ _ _ _ ok_txs0 ok_tx_end0 Ht).
  - exact (append_at_end _ _ _ _ _ ok_res0 ok_res_end0 He).
  - by rewrite (append_len _ _ _ _ _ Ht), (append_len _ _ _ _ _ He), ok_len0.
Qed.

Lemma pool_op_ok pool op : pool_ok pool → op_ok pool op → pool_ok (pool_op pool op).
Proof.
  intros Hok Hop. destruct op as [tx r|rs|]; cbn [pool_op op_ok] in *;
    [by apply AddTx_ok|..]; destruct Hok.
  - unfold SetResults. destruct (make_of (res_heap pool) rs) as [r rh] eqn:Hr.
    destruct (make_of_contents _ _ _ _ Hr). injection Hr as <- <-. split; try done.
    unfold at_end, cells. simpl. by rewrite lookup_insert_eq.
  - unfold Reset. destruct (make_empty (tx_heap pool)) as [t th] eqn:Ht.
    destruct (make_empty (res_heap pool)) as [e rh] eqn:He.
    destruct (make_empty_ok _ _ _ Ht) as (? & ? & _ & Hl1).
    destruct (make_empty_ok _ _ _ He) as (? & ? & _ & Hl2).
    split; simpl; try done.
    congruence.
Qed.

Lemma pool_reachable_ok pool : pool_reachable pool → pool_ok pool.
Proof.
  induction 1 as [|pool op _ IH Hop]; [|by apply pool_op_ok].
  unfold NewMferTxPool. split; simpl; try done; unfold heap0; split; simpl; try lia;
    unfold cells; simpl; rewrite lookup_insert_eq; simpl; lia.
Qed.

Lemma seen_length pool :
  pool_ok pool →
  length (seen pool (GetPoolTxs pool)).1 = s_len (txs pool) ∧
  length (seen pool (GetPoolTxs pool)).2 = s_len (txs pool).
Proof. intros []. simpl. rewrite !length_contents by done. done. Qed.

Lemma find_hash_Some h i l j tx :
  find_hash h i l = Some (j, tx) ↔
  (i ≤ j)%nat ∧ l !! (j - i)%nat = Some tx ∧ tx_Hash tx = h ∧
  ∀ k tx', (k < j - i)%nat → l !! k = Some tx' → tx_Hash tx' ≠ h.
Proof.
  revert i. induction l as [|x l IH]; intros i; simpl; [by split; [|intros (? & ? & ?)]|].
  case_decide as Hx.
  - split.
    + intros [= <- <-]. rewrite Nat.sub_diag. split_and!; try done; lia.
    + intros (Hij & Hl & Htx & Hmin). destruct (decide (j = i)) as [->|Hne].
      * rewrite Nat.sub_diag in Hl. injection Hl as <-. done.
      * exfalso. by apply (Hmin 0%nat x); [lia|done|].
  - rewrite IH. split; intros (Hij & Hl & Htx & Hmin).
    + replace (j - i)%nat with (S (j - S i))%nat by lia. split_and!; try done; [lia|].
      intros [|k] tx' Hk; simpl; [by intros [= <-]|]. apply Hmin. lia.
    + destruct (decide (j = i)) as [->|Hne]; [rewrite Nat.sub_diag in Hl; by simplify_eq/=|].
      replace (j - i)%nat with (S (j - S i))%nat in Hl by lia. split_and!; try done; [lia|].
      intros k tx' Hk Hl'. apply (Hmin (S k) tx'); [lia|done].
Qed.

Lemma find_hash_None h i l : find_hash h i l = None ↔ h ∉ tx_Hash <$> l.
Proof.
  revert i. induction l as [|x l IH]; intros i; simpl; [split; [by intros _ ?%elem_of_nil|done]|].
  rewrite not_elem_of_cons. case_decide as Hx; [split; [done|]; intros [? _]; congruence|].
  rewrite IH. split; [intros; split; [congruence|done]|by intros []].
Qed.

(** The two slices split at an index and joined in place. *)
Lemma cut_append {A} (h : Heap A) s (i : nat) head tail s' h' :
  valid h s → (i < s_len s)%nat → reslice s 0 i = Some head →
  reslice s (i + 1) (s_len s) = Some tail → append h head (contents h tail) = (s', h') →
  contents h' s' = delete i (contents h s) ∧ s_arr s' = s_arr s ∧ s_off s' = s_off s ∧
  cells h' s = take (s_off s + i) (cells h s) ++ contents h tail ++
               drop (s_off s + s_len s - 1) (cells h s).
Proof.
  intros [Ha Hl Hc] Hi Hhead Htail Happ. unfold reslice in *. repeat case_decide; simplify_eq.
  assert (contents h (mkSlice (s_arr s) (s_off s + (i + 1)) (s_len s - (i + 1)) (s_cap s - (i + 1)))
    = drop (i + 1) (contents h s)) as Htl.
  { unfold contents, cells. simpl. rewrite skipn_firstn_comm, drop_drop. do 2 f_equal. }
  assert (length (contents h s) = s_len s) as Hlen by (apply length_contents; split; done).
  unfold append in Happ. simpl in Happ. rewrite Htl, length_drop, Hlen in Happ. simpl in *.
  rewrite decide_True in Happ by lia. injection Happ as <- <-.
  rewrite Htl. clear Htl. unfold contents, cells in *. simpl. rewrite !lookup_insert_eq. simpl.
  set (C := default [] (h_arrays h !! s_arr s)) in *.
  set (tl := drop (i + 1) (take (s_len s) (drop (s_off s) C))) in *.
  assert (length tl = (s_len s - (i + 1))%nat) as Htl by (unfold tl; rewrite length_drop; lia).
  rewrite !Nat.add_0_r, !Nat.sub_0_r. split_and!; try done.
  - rewrite take_drop_commute.
    replace (s_off s + (i + (s_len s - (i + 1))))%nat with (s_off s + i + length tl)%nat by lia.
    rewrite write_at_take by lia. rewrite drop_app_le by (rewrite length_take; lia).
    rewrite delete_take_drop. f_equal; [|unfold tl; f_equal; lia].
    rewrite take_take, take_drop_commute. do 2 f_equal. lia.
  - unfold write_at. rewrite Htl. do 3 f_equal. lia.
Qed.
End lemmas.

(** ** Properties *)

Section removal.
Context `{Core} `{Growth}.
Implicit Types pool : MferTxPool.

(** Where [RemoveTxByHash] cuts: 0 when the hash is absent. *)
Definition cut_index pool (h : Hash) : nat :=
  default 0%nat (fst <$> find_hash h 0 (seen pool (GetPoolTxs pool)).1).

Lemma cut_index_lt pool h :
  pool_ok pool → (0 < s_len (txs pool))%nat → (cut_index pool h < s_len (txs pool))%nat.
Proof.
  intros Hok Hn. unfold cut_index. destruct (find_hash h 0 _) as [[j tx]|] eqn:Hf; simpl; [|lia].
  apply find_hash_Some in Hf as (_ & Hl & _). apply lookup_lt_Some in Hl.
  rewrite (proj1 (seen_length _ Hok)) in Hl. lia.
Qed.

(** A window of an array whose tail was moved one cell to the left. *)
Lemma window_shift {A} (C : list A) (o n i : nat) :
  let l := take n (drop o C) in
  (i < n)%nat → (o + n ≤ length C)%nat →
  take n (drop o (take (o + i) C ++ drop (i + 1) l ++ drop (o + n - 1) C)) =
  delete i l ++ drop (n - 1) l.
Proof.
  intros l Hi Hn. assert (length l = n) as Hl by (unfold l; rewrite length_take, length_drop; lia).
  assert (C = take o C ++ l ++ drop (o + n) C) as HC.
  { unfold l. rewrite <-drop_drop, take_drop. by rewrite take_drop. }
  assert (length (take o C) = o) as Ho by (rewrite length_take; lia).
  clearbody l. revert Ho HC. generalize (take o C) as A0, (drop (o + n) C) as B. intros A0 B Ho ->.
  assert (take (o + i) (A0 ++ l ++ B) = A0 ++ take i l) as ->.
  { rewrite take_app, Ho, (take_ge A0) by lia. rewrite take_app_le by lia. do 2 f_equal. lia. }
  assert (drop (o + n - 1) (A0 ++ l ++ B) = drop (n - 1) l ++ B) as ->.
  { rewrite drop_app, Ho, (drop_ge A0) by lia. simpl. rewrite drop_app_le by lia. do 2 f_equal. lia. }
  rewrite <-(app_assoc A0), drop_app_length' by done.
  rewrite delete_take_drop, Nat.add_1_r, !app_assoc, take_app_le, take_ge.
  - done.
  - rewrite !length_app, length_take, !length_drop. lia.
  - rewrite !length_app, length_take, !length_drop. lia.
Qed.

(** A slice cut at an index is a delete, in place. *)
Lemma reslice_cut {A} (h : Heap A) s i :
  valid h s → (i < s_len s)%nat → ∃ head tail,
    reslice s 0 i = Some head ∧ reslice s (i + 1) (s_len s) = Some tail ∧
    ∃ s' h', append h head (contents h tail) = (s', h') ∧
      contents h' s' = delete i (contents h s) ∧
      contents h' s = delete i (contents h s) ++ drop (s_len s - 1) (contents h s).
Proof.
  intros Hv Hi. pose proof (length_contents _ _ Hv) as Hlen. pose proof Hv as [Ha Hl Hc].
  eexists _, _. split; [by apply decide_True; lia|]. split; [by apply decide_True; lia|].
  destruct (append _ _ _) as [s' h'] eqn:Happ. exists s', h'. split; [done|].
  assert (reslice s 0 i = Some (mkSlice (s_arr s) (s_off s + 0) (i - 0) (s_cap s - 0)))
    as Hh by (apply decide_True; lia).
  assert (reslice s (i + 1) (s_len s) = Some (mkSlice (s_arr s) (s_off s + (i + 1))
    (s_len s - (i + 1)) (s_cap s - (i + 1)))) as Ht by (apply decide_True; lia).
  destruct (cut_append _ _ _ _ _ _ _ Hv Hi Hh Ht Happ) as (Hdel & _ & _ & Hcells).
  split; [done|]. unfold contents at 1. rewrite Hcells.
  assert (contents h (mkSlice (s_arr s) (s_off s + (i + 1)) (s_len s - (i + 1)) (s_cap s - (i + 1)))
    = drop (i + 1) (contents h s)) as ->.
  { unfold contents, cells. simpl. rewrite skipn_firstn_comm, drop_drop. do 2 f_equal. }
  by apply window_shift.
Qed.

Lemma entries_seen pool :
  pool_ok pool →
  (entries pool).*1 = (seen pool (GetPoolTxs pool)).1 ∧
  (entries pool).*2 = (seen pool (GetPoolTxs pool)).2.
Proof.
  intros Hok. destruct (seen_length _ Hok). unfold entries. split; [apply fst_zip|apply snd_zip]; lia.
Qed.

(** One call keeps what every valid pair of slices shows. *)
Lemma pool_op_stable pool op sl :
  pool_ok pool → valid (tx_heap pool) sl.1 → valid (res_heap pool) sl.2 →
  seen (pool_op pool op) sl = seen pool sl ∧
  valid (tx_heap (pool_op pool op)) sl.1 ∧ valid (res_heap (pool_op pool op)) sl.2.
Proof.
  intros [] Hv1 Hv2.
  assert (∀ A (h : Heap A) (l : list A) s' h' s, make_of h l = (s', h') → valid h s →
    contents h' s = contents h s ∧ valid h' s) as Hmake.
  { intros A h l s' h' s [= <- <-] []. unfold contents, cells in *. simpl.
    rewrite lookup_insert_ne by lia. split; [done|]. split; unfold cells; simpl; try lia.
    rewrite lookup_insert_ne by lia. done. }
  destruct op as [tx r|rs|]; cbn [pool_op]; unfold AddTx, SetResults, Reset, seen.
  - destruct (append (tx_heap pool) _ _) as [t th] eqn:Ht.
    destruct (append (res_heap pool) _ _) as [e rh] eqn:He. simpl.
    destruct (append_frame _ _ _ _ _ _ ok_txs0 ok_tx_end0 Hv1 Ht) as [-> ?].
    destruct (append_frame _ _ _ _ _ _ ok_res0 ok_res_end0 Hv2 He) as [-> ?]. done.
  - destruct (make_of (res_heap pool) rs) as [r rh] eqn:Hr. simpl.
    destruct (Hmake _ _ _ _ _ _ Hr Hv2) as [-> ?]. done.
  - destruct (make_empty (tx_heap pool)) as [t th] eqn:Ht.
    destruct (make_empty (res_heap pool)) as [e rh] eqn:He. simpl.
    destruct (Hmake _ _ [] _ _ _ Ht Hv1) as [-> ?], (Hmake _ _ [] _ _ _ He Hv2) as [-> ?]. done.
Qed.

(** C31: every reachable pool implements the list of transactions paired with their
    results: both slices stay as long as each other, adding appends one pair, setting the
    results replaces the second components, and [Reset] returns the number of entries and
    empties the pool. *)
Theorem pool_refines_list pool op :
  pool_reachable pool → op_ok pool op →
  entries (pool_op pool op) = spec_pool (entries pool) op ∧
  length (seen pool (GetPoolTxs pool)).2 = length (seen pool (GetPoolTxs pool)).1 ∧
  (Reset pool).1 = Z.of_nat (length (entries pool)).
Proof.
  intros Hok%pool_reachable_ok Hop. destruct (seen_length _ Hok) as [H1' H2'].
  destruct (entries_seen _ Hok) as [Hfst _]. split_and!; [|congruence|].
  - destruct op as [tx r|rs|]; cbn [pool_op spec_pool op_ok] in *.
    + destruct (AddTx_ok _ tx r Hok) as [_ Heq]. unfold entries. rewrite Heq. cbn [fst snd].
      rewrite zip_with_app by congruence. done.
    + rewrite Hfst. unfold entries, SetResults.
      destruct (make_of (res_heap pool) rs) as [r rh] eqn:Hr. simpl.
      by destruct (make_of_contents _ _ _ _ Hr) as [-> _].
    + unfold entries, Reset. destruct (make_empty (tx_heap pool)) as [t th] eqn:Ht.
      destruct (make_empty (res_heap pool)) as [e rh] eqn:He. simpl.
      by destruct (make_empty_ok _ _ _ Ht) as (_ & _ & -> & _).
  - unfold Reset, entries. cbn [make_empty fst]. rewrite length_zip_with. lia.
Qed.

(** The slices that [GetPoolTxs] handed out keep their elements through any later
    sequence of [AddTx], [SetResults] and [Reset]: a reader that iterates over them without
    a lock never sees them change. *)
Theorem pool_slices_stable pool ops :
  pool_reachable pool →
  (∀ i op, ops !! i = Some op → op_ok (foldl pool_op pool (take i ops)) op) →
  seen (foldl pool_op pool ops) (GetPoolTxs pool) = seen pool (GetPoolTxs pool).
Proof.
  intros Hok%pool_reachable_ok Hops.
  assert (valid (tx_heap pool) (GetPoolTxs pool).1 ∧ valid (res_heap pool) (GetPoolTxs pool).2)
    as [Hv1 Hv2] by (by destruct Hok).
  revert Hv1 Hv2. generalize (GetPoolTxs pool) as sl. revert pool Hok Hops.
  induction ops as [|op ops IH]; intros pool Hok Hops sl Hv1 Hv2; [done|]. simpl.
  destruct (pool_op_stable _ op sl Hok Hv1 Hv2) as (<- & Hv1' & Hv2').
  apply IH; [|intros i op' Hi; apply (Hops (S i) op' Hi)|done|done].
  apply pool_op_ok; [done|]. apply (Hops 0%nat). done.
Qed.

(** [GetTransactionByHash] returns the first pooled transaction with the hash and its
    position, and no transaction exactly when the pool has none. *)
Theorem GetTransactionByHash_spec pool h i tx :
  GetTransactionByHash pool h = (i, tx) →
  match tx with
  | Some t => (seen pool (GetPoolTxs pool)).1 !! i = Some t ∧ tx_Hash t = h ∧
      ∀ k t', (k < i)%nat → (seen pool (GetPoolTxs pool)).1 !! k = Some t' → tx_Hash t' ≠ h
  | None => i = 0%nat ∧ h ∉ tx_Hash <$> (seen pool (GetPoolTxs pool)).1
  end.
Proof.
  unfold GetTransactionByHash. destruct (find_hash h 0 _) as [[j t]|] eqn:Hf; intros [= <- <-].
  - apply find_hash_Some in Hf as (_ & Hl & Ht & Hmin). rewrite Nat.sub_0_r in *. done.
  - by apply find_hash_None in Hf.
Qed.

(** [RemoveTxByHash] never panics on a reachable pool; it deletes the first entry with
    the hash from both slices, and the entry at position 0 when no transaction has it
    (unless the pool is empty). *)
Theorem RemoveTxByHash_spec pool h :
  pool_reachable pool →
  ∃ pool', RemoveTxByHash pool h = Some pool' ∧
    entries pool' = delete (cut_index pool h) (entries pool).
Proof.
  intros Hok%pool_reachable_ok. unfold RemoveTxByHash. pose proof (seen_length _ Hok) as [Hn Hn'].
  case_decide as H1'.
  { exists pool. split; [done|].
    assert (entries pool = []) as ->; [|done].
    apply nil_length_inv. unfold entries. rewrite length_zip_with. lia. }
  pose proof (cut_index_lt _ h Hok ltac:(lia)) as Hi. unfold cut_index in *. simpl in *.
  set (i := default 0%nat (fst <$> _)) in *. destruct Hok.
  destruct (reslice_cut _ _ i ok_txs0 Hi) as (hd & tl & -> & -> & t & th & Ht & Hdel & _).
  rewrite ok_len0 in Hi.
  destruct (reslice_cut _ _ i ok_res0 Hi) as (hd' & tl' & Hh & Htl & r & rh & Hr & Hdel' & _).
  simpl. rewrite Ht. simpl. rewrite Hh, Htl. simpl. rewrite Hr. eexists. split; [done|].
  unfold entries. simpl. rewrite Hdel, Hdel', !delete_take_drop, zip_with_app.
  - by rewrite zip_with_take, zip_with_drop.
  - rewrite !length_take. lia.
Qed.

(** [RemoveTxByHash] rewrites the array in place: a slice of transactions handed out
    before shows the shortened list followed by its last transaction once more. *)
Theorem RemoveTxByHash_corrupts pool h pool' :
  pool_reachable pool → (0 < s_len (txs pool))%nat → RemoveTxByHash pool h = Some pool' →
  (seen pool' (GetPoolTxs pool)).1 =
    (seen pool' (GetPoolTxs pool')).1 ++ drop (s_len (txs pool) - 1) (seen pool (GetPoolTxs pool)).1.
Proof.
  intros Hok%pool_reachable_ok Hpos. unfold RemoveTxByHash. case_decide; [lia|].
  pose proof (cut_index_lt _ h Hok Hpos) as Hi. unfold cut_index in *. simpl in *.
  set (i := default 0%nat (fst <$> _)) in *. destruct Hok.
  destruct (reslice_cut _ _ i ok_txs0 Hi) as (hd & tl & -> & -> & t & th & Ht & Hdel & Hold).
  rewrite ok_len0 in Hi.
  destruct (reslice_cut _ _ i ok_res0 Hi) as (hd' & tl' & Hh & Htl & r & rh & Hr & _).
  simpl. rewrite Ht. simpl. rewrite Hh, Htl. simpl. rewrite Hr. intros [= <-]. simpl.
  by rewrite Hdel.
Qed.
End removal.

(** ** Witnesses *)

Import ToyInstance.ToyCore.

Definition toy_pool : MferTxPool :=
  AddTx (AddTx (AddTx NewMferTxPool (tx_of 0 5 []) None) (tx_of 1 6 []) (Some "reverted"))
    (tx_of 2 7 []) None.

Lemma toy_pool_reachable : pool_reachable toy_pool.
Proof.
  apply (reach_op _ (PAddTx _ _)); [|done]. apply (reach_op _ (PAddTx _ _)); [|done].
  apply (reach_op _ (PAddTx _ _)); [|done]. apply reach_new.
Defined.

Lemma pool_refines_list_witness :
  (entries (SetResults toy_pool [None; None; None]) = spec_pool (entries toy_pool) (PSetResults [None; None; None])) ∧
  entries toy_pool = [(tx_of 0 5 [], None); (tx_of 1 6 [], Some "reverted"); (tx_of 2 7 [], None)].
Proof.
  split; [|vm_compute; reflexivity].
  apply (pool_refines_list toy_pool (PSetResults [None; None; None])); [apply toy_pool_reachable|reflexivity].
Defined.

Lemma pool_slices_stable_witness :
  seen (foldl pool_op toy_pool [PAddTx (tx_of 3 8 []) None; PReset; PAddTx (tx_of 4 9 []) None])
    (GetPoolTxs toy_pool) = seen toy_pool (GetPoolTxs toy_pool).
Proof.
  apply (pool_slices_stable toy_pool); [apply toy_pool_reachable|].
  intros [|[|[|i]]] op Hi; simpl in Hi; simplify_eq; exact I.
Defined.

Lemma GetTransactionByHash_witness :
  (seen toy_pool (GetPoolTxs toy_pool)).1 !! 1%nat = Some (tx_of 1 6 []) ∧
  tx_Hash (tx_of 1 6 []) = tx_Hash (tx_of 1 9 []).
Proof.
  destruct (GetTransactionByHash_spec toy_pool (tx_Hash (tx_of 1 9 [])) 1 (Some (tx_of 1 6 [])))
    as (Hl & Hh & _); [vm_compute; reflexivity|]. split; assumption.
Defined.

(** An absent hash removes the oldest transaction. *)
Lemma RemoveTxByHash_witness :
  ∃ pool', RemoveTxByHash toy_pool (tx_Hash (tx_of 9 9 [])) = Some pool' ∧
    entries pool' = [(tx_of 1 6 [], Some "reverted"); (tx_of 2 7 [], None)].
Proof.
  destruct (RemoveTxByHash_spec toy_pool (tx_Hash (tx_of 9 9 [])) toy_pool_reachable) as (p & Hr & He).
  exists p. split; [assumption|]. rewrite He. vm_compute. reflexivity.
Defined.

Lemma toy_removed :
  match RemoveTxByHash toy_pool (tx_Hash (tx_of 0 5 [])) with Some _ => true | None => false end = true.
Proof. vm_compute. reflexivity. Defined.

Lemma RemoveTxByHash_corrupts_witness :
  match RemoveTxByHash toy_pool (tx_Hash (tx_of 0 5 [])) with
  | Some pool' => (seen pool' (GetPoolTxs toy_pool)).1 =
      (seen pool' (GetPoolTxs pool')).1 ++
      drop (s_len (txs toy_pool) - 1) (seen toy_pool (GetPoolTxs toy_pool)).1
  | None => False
  end.
Proof.
  pose proof toy_removed as Hr. revert Hr.
  destruct (RemoveTxByHash toy_pool (tx_Hash (tx_of 0 5 []))) as [p|] eqn:E; [intros _|discriminate].
  refine (RemoveTxByHash_corrupts toy_pool (tx_Hash (tx_of 0 5 [])) p toy_pool_reachable _ E).
  apply (bool_decide_unpack _). vm_compute. exact I.
Defined.
