(* ===== verification/Signer.v ===== *)
(** * mfersigner/signer.go and mferstate/slotkey.go: values packed into bytes

    The signer of the node hides the impersonated sender in the R value of a signature; a
    [SlotKey] packs an account with a storage key. *)
From S2P Require Import Prelude BigInt Geth World OverlayState OverlayStateDB VmStateDB Chain.
From S2P Require Import GoSlice ToyInstance.

(** ** The impersonating signer *)

Section signer.
Context `{Core}.

(** package constant. *)
Definition MFERSIGNER_S : Z := SetBytes (str "mferSigner").

Definition SetFrom_SignatureValues (tx : Transaction) (sig : bytes) : Err + (Z * Z * Z) :=
  inr (SetBytes sig, MFERSIGNER_S, 1).

Definition SetFrom_Sender (tx : Transaction) : Err + Address :=
  let '(_, R, _) := RawSignatureValues tx in inr (BigToAddress R).

Definition SetFrom_ChainID (chainID : Z) : Z := i64 chainID.

Definition SetFrom_Hash (tx : Transaction) : Hash := Hash_zero.

(** Every signer is equal to this one. *)
Definition SetFrom_Equal (signer2 : Signer Transaction) : bool := true.

Definition NewSigner (chainID : Z) : Signer Transaction :=
  mkSigner SetFrom_SignatureValues SetFrom_Sender (SetFrom_ChainID chainID) SetFrom_Hash.
End signer.

(** ** Slot keys *)

Section slotkey.
Context `{Geth}.

(** [SlotKey] is an array of 52 bytes. *)
Definition SlotKey : Type := bytes.

Definition calcSlotKey (acc : Address) (key : Hash) : SlotKey := Address_Bytes acc ++ Hash_Bytes key.
Definition SlotKey_Account (k : SlotKey) : Address := BytesToAddress (take 20 k).
Definition SlotKey_Key (k : SlotKey) : Hash := BytesToHash (take 32 (drop 20 k)).
Definition SlotKey_Extract (k : SlotKey) : Address * Hash := (SlotKey_Account k, SlotKey_Key k).
End slotkey.

(** ** Properties *)

Section props.
Context `{CoreLaws} `{!GethLaws}.

Lemma Sender_signed cid tx tx' a :
  WithSignature tx (NewSigner cid) (Address_Bytes a) = inr tx' →
  RawSignatureValues tx' = (1, SetBytes (Address_Bytes a), MFERSIGNER_S) ∧
  SetFrom_Sender tx' = inr a.
Proof.
  intros Hs. destruct (WithSignature_ok tx (NewSigner cid) (Address_Bytes a)
    (SetBytes (Address_Bytes a)) MFERSIGNER_S 1 eq_refl) as (t & Ht & Hraw & _).
  rewrite Hs in Ht. injection Ht as <-. split; [done|].
  unfold SetFrom_Sender. by rewrite Hraw, BigToAddress_SetBytes.
Qed.

(** Signing with the address of any account always succeeds, keeps the transaction's
    destination, value, data, nonce and gas, and the sender recovered afterwards (by a
    signer for any chain) is that account. *)
Theorem NewSigner_roundtrip cid cid' tx a :
  ∃ tx', WithSignature tx (NewSigner cid) (Address_Bytes a) = inr tx' ∧
    Sender (NewSigner cid') tx' = inr a ∧
    tx_To tx' = tx_To tx ∧ tx_Value tx' = tx_Value tx ∧ tx_Data tx' = tx_Data tx ∧
    tx_Nonce tx' = tx_Nonce tx ∧ tx_Gas tx' = tx_Gas tx.
Proof.
  destruct (WithSignature_ok tx (NewSigner cid) (Address_Bytes a)
    (SetBytes (Address_Bytes a)) MFERSIGNER_S 1 eq_refl) as (t & Ht & Hraw & Hrest).
  exists t. split; [done|]. split; [|done].
  exact (proj2 (Sender_signed _ _ _ _ Ht)).
Qed.

(** A slot key is 52 bytes, and extracting it gives back the account and the key. *)
Theorem calcSlotKey_roundtrip acc key :
  length (calcSlotKey acc key) = 52%nat ∧ SlotKey_Extract (calcSlotKey acc key) = (acc, key).
Proof.
  unfold calcSlotKey, SlotKey_Extract, SlotKey_Account, SlotKey_Key.
  pose proof (length_Address_Bytes acc) as Ha. pose proof (length_Hash_Bytes key) as Hk. split.
  - rewrite length_app. lia.
  - rewrite take_app_length', drop_app_length', BytesToAddress_Address_Bytes by done.
    rewrite take_ge by lia. by rewrite BytesToHash_Hash_Bytes.
Qed.
End props.

Import ToyInstance.ToyCore.

Lemma NewSigner_roundtrip_witness :
  ∃ tx', WithSignature (tx_of 0 5 []) (NewSigner 1) (Address_Bytes a1) = inr tx' ∧
    Sender (NewSigner 1) tx' = inr a1.
Proof.
  destruct (NewSigner_roundtrip (H0:=core) 1 1 (tx_of 0 5 []) a1) as (t & Ht & Hs & _).
  exists t. split; assumption.
Defined.

Lemma calcSlotKey_roundtrip_witness : SlotKey_Extract (calcSlotKey a1 (hash 7)) = (a1, hash 7).
Proof. apply (calcSlotKey_roundtrip a1 (hash 7)). Defined.
