(* ===== verification/Multisend.v ===== *)
(** * multisend/: batching transactions through a Gnosis Safe

    [BuildTransaction] packs a transaction for the MultiSendCallOnly contract, and
    [genApproveHashSigs] builds the signatures of owners that approved a hash on chain.
    The ABI encoder and the contract bindings are generated code: they are the operations
    of the classes [Abi] and [SafeContract].  [decode_multisend] is a specification of the
    packed format, as the documentation of the MultiSend contract gives it, and [owner_sig]
    one of the signature of an owner that approved; the packers are proved against them. *)
From Stdlib Require Import Sorting.Sorted.
From stdpp Require Import sorting.
From S2P Require Import Prelude BigInt Geth World OverlayState OverlayStateDB VmStateDB Chain.
From S2P Require Import GoSlice ToyInstance.

(** ** Interfaces *)

Section interfaces.
Context `{Geth}.

(** [Inputs.Pack] of the two methods used. *)
Class Abi := {
  Pack_multiSend : bytes → Err + bytes;
  (** to, value, data, operation, safeTxGas, baseGas, gasPrice, gasToken,
      refundReceiver, signatures *)
  Pack_execTransaction :
    Address → Z → bytes → Z → Z → Z → Z → Address → Address → bytes → Err + bytes
}.

(** The generated bindings: what the [n]-th request to the contract of an address
    returns. *)
Class SafeContract := {
  NewGnosisSafe : Address → Err + unit;
  call_Nonce : nat → Address → Err + Z;
  call_EncodeTransactionData : nat → Address →
    Address → Z → bytes → Z → Z → Z → Z → Address → Address → Z → Err + bytes;
  call_GetThreshold : nat → Address → Err + Z;
  call_GetOwners : nat → Address → Err + list Address;
  (** the hash of the transaction that sends [approveHash] without options: nothing for a panic *)
  send_ApproveHash : nat → Address → Hash → option (Err + Hash)
}.
End interfaces.

(** ** Packing transactions *)

Section multisend.
Context `{Core} `{!Abi}.

Definition MultiSendCallOnlyContractAddress : Address :=
  BytesToAddress (Hex2Bytes (str "40A2aCCbd92BCA938b02010E17A5b8929b49130D")).

(** [None]: the call panics, on a contract creation ([tx.To()] is nil) or on a value that
    does not fit in 32 bytes. *)
Definition BuildTransaction (tx : Transaction) : option bytes :=
  to ← tx_To tx;
  valueB ← FillBytes 32 (tx_Value tx);
  let data := tx_Data tx in
  dataLenB ← FillBytes 32 (i64 (Z.of_nat (length data)));
  Some ([x00] ++ Address_Bytes to ++ valueB ++ dataLenB ++ data).

Fixpoint multisend_args (txs : list Transaction) : option bytes :=
  match txs with
  | [] => Some []
  | tx :: txs => b ← BuildTransaction tx; rest ← multisend_args txs; Some (b ++ rest)
  end.

(** A packing error panics as well. *)
Definition BuildTransactions (txs : list Transaction) : option bytes :=
  multisendArgs ← multisend_args txs;
  let selector := Hex2Bytes (str "8d80ff0a") in
  match Pack_multiSend multisendArgs with
  | inr ret => Some (selector ++ ret)
  | inl _ => None
  end.
End multisend.

(** ** Approvals by the owners of a safe *)

Section safe.
Context `{Geth} `{!Abi} `{!SafeContract}.

Definition Call : Z := 0.
Definition DelegateCall : Z := 1.

Definition safeTxGas : Z := 0.
Definition baseGas : Z := 0.
Definition gasPrice : Z := 0.
Definition gasToken : Address := Address_zero.
Definition refundReceiver : Address := Address_zero.

(** Packs a call and writes it to the debug log. *)
Definition GenerateSafeExecTx (safeAddr to : Address) (value : Z) (data : bytes) (operation : Z)
    (signatures : bytes) : M World unit :=
  match Pack_execTransaction to value data operation safeTxGas baseGas gasPrice gasToken
          refundReceiver signatures with
  | inl err => panic err
  | inr encoded => mret tt
  end.

Record MultisendSafe := mkMultisendSafe {
  ms_safe : Address;       (* the binding is bound to this address *)
  ms_value : Z;
  ms_calldata : bytes;
  ms_to : Address
}.

Definition NewMultisendSafe (safeAddr multisendAddr : Address) (calldata : bytes) (value : Z)
    : Err + MultisendSafe :=
  match NewGnosisSafe safeAddr with
  | inl e => inl e
  | inr _ => inr (mkMultisendSafe safeAddr value calldata multisendAddr)
  end.

(** One request through the bindings. *)
Definition contract_call {A} (f : nat → A) : M World A := λ w, (Ok (f (w_calls w)), with_call w).

Definition GetNonce_ (s : MultisendSafe) : M World (Err + Z) :=
  contract_call (λ n, call_Nonce n (ms_safe s)).

Definition GetSafe (s : MultisendSafe) : Address := ms_safe s.

Definition GetSafeTxHash (s : MultisendSafe) (nonce : Z) : M World (Err + bytes) :=
  contract_call (λ n, call_EncodeTransactionData n (ms_safe s) (ms_to s) (ms_value s)
    (ms_calldata s) DelegateCall safeTxGas baseGas gasPrice gasToken refundReceiver (i64 nonce)).

Definition GetTxDataHash (s : MultisendSafe) (nonce : Z) : M World (Err + Hash) :=
  r ← GetSafeTxHash s nonce;
  mret (match r with inl e => inl e | inr txData => inr (Keccak256Hash txData) end).

Definition GenSafeCalldataWithoutSignature (s : MultisendSafe) (nonce nOfSig : Z)
    : option (Err + bytes) :=
  (* make panics on a negative length *)
  if Z.ltb (i64 (65 * nOfSig)) 0 then None else
  let signaturesPadding := replicate (Z.to_nat (i64 (65 * nOfSig))) x00 in
  Some (Pack_execTransaction (ms_to s) (ms_value s) (ms_calldata s) DelegateCall safeTxGas
    baseGas gasPrice gasToken refundReceiver signaturesPadding).

(** [copy(buf[p:], src)] *)
Definition copy_at (p : nat) (src buf : bytes) : bytes :=
  take p buf ++ take (length buf - p) src ++ drop (p + length src) buf.

(** One round of the loop; the position is in range, so the store does not panic. *)
Definition write_sig (buf : bytes) (i : nat) (addr : Address) : bytes :=
  <[(i * 65 + 64)%nat := x01]> (copy_at (i * 65) (Hash_Bytes (Address_Hash addr)) buf).

Fixpoint sigs_loop (buf : bytes) (i : nat) (addrs : list Address) : bytes :=
  match addrs with
  | [] => buf
  | addr :: addrs => sigs_loop (write_sig buf i addr) (S i) addrs
  end.

Definition genApproveHashSigs (addrs : list Address) : bytes :=
  sigs_loop (replicate (65 * length addrs) x00) 0 addrs.

(** The order of [sort.Slice]: by the number of the address. *)
Definition addr_le (a b : Address) : Prop := Hash_Big (Address_Hash a) ≤ Hash_Big (Address_Hash b).

#[global] Instance addr_le_dec a b : Decision (addr_le a b).
Proof. unfold addr_le. apply _. Defined.

(** [sort.Slice] sorts [participants] in place: the sorted slice is returned with the
    calldata. *)
Definition GenSafeCalldataWithApproveHash (s : MultisendSafe) (participants : list Address)
    : list Address * (Err + bytes) :=
  let participants := merge_sort addr_le participants in
  let signatures := genApproveHashSigs participants in
  let selector := Hex2Bytes (str "6a761202") in
  (participants,
   match Pack_execTransaction (ms_to s) (ms_value s) (ms_calldata s) DelegateCall safeTxGas
           baseGas gasPrice gasToken refundReceiver signatures with
   | inl e => inl e
   | inr encoded => inr (selector ++ encoded)
   end).

(** No options are passed; the answer is dropped. *)
Definition CommitApproveHash (s : MultisendSafe) (approveHash : Hash) : M World unit :=
  r ← contract_call (λ n, send_ApproveHash n (ms_safe s) approveHash);
  _ ← deref (λ _, r);
  mret tt.
End safe.

(** ** The packed format *)

Section readers.
Context `{Geth}.

(** One sub-transaction of a batch. *)
Record MultiOp := mkMultiOp { mo_op : Z; mo_to : Address; mo_value : Z; mo_data : bytes }.

(** A specification of the documented format, not code of this repository: one operation
    byte, 20 bytes of address, 32 of value, 32 of length, then the data, again and again. *)
Fixpoint decode_multisend (fuel : nat) (l : bytes) : option (list MultiOp) :=
  match l with
  | [] => Some []
  | _ =>
      match fuel with
      | O => None
      | S fuel =>
          if decide (85 ≤ length l)%nat then
            let n := Z.to_nat (SetBytes (take 32 (drop 53 l))) in
            if decide (85 + n ≤ length l)%nat then
              rest ← decode_multisend fuel (drop (85 + n) l);
              Some (mkMultiOp (SetBytes (take 1 l)) (BytesToAddress (take 20 (drop 1 l)))
                      (SetBytes (take 32 (drop 21 l))) (take n (drop 85 l)) :: rest)
            else None
          else None
      end
  end.

(** The signature of an owner that approved the hash on chain: the 32-byte word of its
    address, a word that is not used, and the kind 1. *)
Definition owner_sig (a : Address) : bytes :=
  replicate 12 x00 ++ Address_Bytes a ++ replicate 32 x00 ++ [x01].
End readers.

(** ** Lemmas *)

Section lemmas.
Context `{CoreLaws} `{!GethLaws} `{!Abi} `{!SafeContract}.

(** The operation the contract should see for a transaction. *)
Definition op_of (to : Address) (tx : Transaction) : MultiOp :=
  mkMultiOp 0 to (Z.abs (tx_Value tx)) (tx_Data tx).

Lemma BuildTransaction_Some tx b :
  BuildTransaction tx = Some b → ∃ to v n, tx_To tx = Some to ∧
    b = [x00] ++ Address_Bytes to ++ v ++ n ++ tx_Data tx ∧ length v = 32%nat ∧
    SetBytes v = Z.abs (tx_Value tx) ∧ length n = 32%nat ∧
    SetBytes n = Z.abs (i64 (Z.of_nat (length (tx_Data tx)))).
Proof.
  unfold BuildTransaction. intros Hb.
  apply bind_Some in Hb as (to & Hto & Hb). apply bind_Some in Hb as (v & Hv & Hb).
  apply bind_Some in Hb as (n & Hn & Hb). injection Hb as <-.
  apply FillBytes_Some in Hv as []. apply FillBytes_Some in Hn as [].
  by exists to, v, n.
Qed.

(** The packed form of one transaction is read back in front of any other bytes. *)
Lemma decode_one fuel tx b rest :
  BuildTransaction tx = Some b → Z.of_nat (length (tx_Data tx)) < 2 ^ 63 →
  ∃ to, tx_To tx = Some to ∧
    decode_multisend (S fuel) (b ++ rest) =
      (λ ops, op_of to tx :: ops) <$> decode_multisend fuel rest.
Proof.
  intros (to & v & n & Hto & -> & Hv & Hvs & Hn & Hns)%BuildTransaction_Some Hlen.
  exists to. split; [done|]. rewrite i64_id, Z.abs_eq in Hns by lia.
  pose proof (length_Address_Bytes to) as Ha.
  assert (∀ l, length ([x00] ++ Address_Bytes to ++ v ++ n ++ l) = (85 + length l)%nat) as Hl85.
  { intros l. rewrite !length_app, Ha, Hv, Hn. simpl. lia. }
  rewrite <-!app_assoc.
  assert (∀ l : bytes, drop 1 ([x00] ++ l) = l) as D1 by done.
  assert (∀ l, drop 21 ([x00] ++ Address_Bytes to ++ l) = l) as D21.
  { intros l. rewrite app_assoc. apply drop_app_length'. rewrite length_app, Ha. done. }
  assert (∀ l, drop 53 ([x00] ++ Address_Bytes to ++ v ++ l) = l) as D53.
  { intros l. rewrite !app_assoc. apply drop_app_length'. rewrite !length_app, Ha, Hv. done. }
  assert (∀ l, drop 85 ([x00] ++ Address_Bytes to ++ v ++ n ++ l) = l) as D85.
  { intros l. rewrite !app_assoc. apply drop_app_length'. rewrite !length_app, Ha, Hv, Hn. done. }
  cbn [decode_multisend]. simpl app at 1. cbn iota.
  change (x00 :: ?l) with ([x00] ++ l).
  rewrite Hl85, length_app, D53, D21, D1, !take_app_length' by done.
  rewrite Hns, Nat2Z.id, Hvs, <-drop_drop, D85, BytesToAddress_Address_Bytes.
  rewrite decide_True by lia. rewrite decide_True by lia.
  rewrite take_app_length, drop_app_length.
  by destruct (decode_multisend fuel rest).
Qed.

Lemma decode_args txs l fuel :
  multisend_args txs = Some l → Forall (λ tx, Z.of_nat (length (tx_Data tx)) < 2 ^ 63) txs →
  (length txs ≤ fuel)%nat →
  ∃ ops, decode_multisend fuel l = Some ops ∧
    Forall2 (λ tx op, ∃ to, tx_To tx = Some to ∧ op = op_of to tx) txs ops.
Proof.
  revert l fuel. induction txs as [|tx txs IH]; intros l fuel Hargs Hlen Hfuel.
  - injection Hargs as <-. exists []. by destruct fuel.
  - apply Forall_cons in Hlen as [Hx Hxs]. simpl in Hargs, Hfuel.
    apply bind_Some in Hargs as (b & Hb & Hargs).
    apply bind_Some in Hargs as (rest & Hrest & [= <-]).
    destruct fuel as [|fuel]; [lia|].
    destruct (IH _ fuel Hrest Hxs ltac:(lia)) as (ops & Hops & Hall).
    destruct (decode_one fuel _ _ rest Hb Hx) as (to & Hto & Hdec).
    exists (op_of to tx :: ops). rewrite Hdec, Hops. split; [done|].
    constructor; [by exists to|done].
Qed.

Lemma length_multisend_args txs l : multisend_args txs = Some l → (length txs ≤ length l)%nat.
Proof.
  revert l. induction txs as [|tx txs IH]; intros l Hl; simpl in *; [lia|].
  apply bind_Some in Hl as (b & Hb & Hl). apply bind_Some in Hl as (rest & Hrest & [= <-]).
  apply IH in Hrest. apply BuildTransaction_Some in Hb as (? & ? & ? & ? & -> & _).
  rewrite length_app. simpl. lia.
Qed.

Lemma Hash_Bytes_Address_Hash a : Hash_Bytes (Address_Hash a) = replicate 12 x00 ++ Address_Bytes a.
Proof.
  unfold Address_Hash. pose proof (length_Address_Bytes a) as Ha.
  rewrite Hash_Bytes_BytesToHash, crop_left_id by lia. unfold pad_left. by rewrite Ha.
Qed.

Lemma owner_sig_word a : owner_sig a = Hash_Bytes (Address_Hash a) ++ replicate 32 x00 ++ [x01].
Proof. by rewrite Hash_Bytes_Address_Hash, <-!app_assoc. Qed.

Lemma length_owner_sig a : length (owner_sig a) = 65%nat.
Proof. rewrite owner_sig_word, !length_app, length_Hash_Bytes. done. Qed.

Lemma write_sig_spec pre (i : nat) a n :
  length pre = (i * 65)%nat → (1 ≤ n)%nat →
  write_sig (pre ++ replicate (65 * n) x00) i a =
    (pre ++ owner_sig a) ++ replicate (65 * (n - 1)) x00.
Proof.
  intros Hpre Hn. unfold write_sig, copy_at. pose proof (length_Hash_Bytes (Address_Hash a)) as Hh.
  rewrite take_app_length' by done. rewrite (take_ge (Hash_Bytes _)) by
    (rewrite length_app, length_replicate, Hh; lia).
  rewrite drop_app, drop_ge, Hpre, Hh by lia. rewrite drop_replicate, app_nil_l.
  replace (65 * n - (i * 65 + 32 - i * 65))%nat with (32 + S (65 * (n - 1)))%nat by lia.
  generalize (65 * (n - 1))%nat as k. intros k.
  rewrite replicate_add, insert_app_r_alt by lia. rewrite <-!app_assoc. f_equal.
  rewrite insert_app_r_alt by lia. rewrite owner_sig_word, <-!app_assoc. f_equal.
  rewrite insert_app_r_alt by (rewrite length_replicate; lia). f_equal.
  rewrite length_replicate, Hh, Hpre. by replace (i * 65 + 64 - i * 65 - 32 - 32)%nat with 0%nat by lia.
Qed.

Lemma sigs_loop_spec pre i addrs :
  length pre = (i * 65)%nat →
  sigs_loop (pre ++ replicate (65 * length addrs) x00) i addrs = pre ++ (addrs ≫= owner_sig).
Proof.
  revert pre i. induction addrs as [|a addrs IH]; intros pre i Hpre; cbn [sigs_loop length]; [done|].
  rewrite write_sig_spec by lia. replace (S (length addrs) - 1)%nat with (length addrs) by lia.
  rewrite IH by (rewrite length_app, length_owner_sig; lia). by rewrite <-app_assoc.
Qed.

Lemma genApproveHashSigs_spec addrs : genApproveHashSigs addrs = addrs ≫= owner_sig.
Proof. apply (sigs_loop_spec [] 0). done. Qed.

(** The order on addresses is total and antisymmetric. *)
#[global] Instance addr_le_total : Total addr_le.
Proof. intros a b. unfold addr_le. lia. Qed.

#[global] Instance addr_le_trans : Transitive addr_le.
Proof. intros a b c. unfold addr_le. lia. Qed.

#[global] Instance addr_le_antisymm : AntiSymm (=) addr_le.
Proof.
  intros a b Hab Hba. apply SetBytes_Address_Bytes_inj. unfold addr_le in *.
  rewrite !Hash_Big_Address_Hash in *. lia.
Qed.

(** Sorting does not depend on the order it starts from. *)
Lemma sort_Permutation l l' : l ≡ₚ l' → merge_sort addr_le l = merge_sort addr_le l'.
Proof.
  intros Hl. apply (Sorted_unique addr_le).
  - apply StronglySorted_Sorted, StronglySorted_merge_sort; apply _.
  - apply StronglySorted_Sorted, StronglySorted_merge_sort; apply _.
  - by rewrite !merge_sort_Permutation.
Qed.

(** A sorted list without duplicates is strictly increasing. *)
Lemma sorted_strict l :
  StronglySorted addr_le l → NoDup l →
  StronglySorted (λ a b, SetBytes (Address_Bytes a) < SetBytes (Address_Bytes b)) l.
Proof.
  induction 1 as [|a l Hs IH Hle]; intros Hnd; [constructor|]. apply NoDup_cons in Hnd as [Hn Hnd].
  constructor; [by apply IH|]. rewrite Forall_forall in Hle |- *. intros b Hb.
  specialize (Hle b Hb). unfold addr_le in Hle. rewrite !Hash_Big_Address_Hash in Hle.
  destruct (decide (SetBytes (Address_Bytes a) = SetBytes (Address_Bytes b))) as [E|]; [|lia].
  apply SetBytes_Address_Bytes_inj in E as <-. done.
Qed.
End lemmas.

(** ** Properties *)

Section props.
Context `{CoreLaws} `{!GethLaws} `{!Abi} `{!SafeContract}.

(** C32: what [BuildTransactions] packs is read back by the loop of the
    MultiSendCallOnly contract as the list of transactions: same order, plain calls, same
    destinations, values and data, with nothing left over. *)
Theorem BuildTransactions_decode txs l :
  multisend_args txs = Some l → Forall (λ tx, Z.of_nat (length (tx_Data tx)) < 2 ^ 63) txs →
  ∃ ops, decode_multisend (length l) l = Some ops ∧
    Forall2 (λ tx op, ∃ to, tx_To tx = Some to ∧
      op = mkMultiOp 0 to (Z.abs (tx_Value tx)) (tx_Data tx)) txs ops.
Proof.
  intros Hl Hlen. apply (decode_args _ _ _ Hl Hlen). by apply length_multisend_args.
Qed.

(** Packing panics exactly when some transaction creates a contract or has a value of
    more than 32 bytes. *)
Theorem BuildTransactions_panics txs :
  Forall (λ tx, Z.of_nat (length (tx_Data tx)) < 2 ^ 63) txs →
  multisend_args txs = None ↔
  Exists (λ tx, tx_To tx = None ∨ 256 ^ 32 ≤ Z.abs (tx_Value tx)) txs.
Proof.
  induction txs as [|tx txs IH]; intros Hlen; simpl.
  { split; [done|]. by intros ?%Exists_nil. }
  apply Forall_cons in Hlen as [Hx Hxs]. rewrite Exists_cons, <-(IH Hxs).
  assert (BuildTransaction tx = None ↔ tx_To tx = None ∨ 256 ^ 32 ≤ Z.abs (tx_Value tx)) as Hb.
  { unfold BuildTransaction. destruct (tx_To tx) as [to|]; simpl; [|by split; [left|]].
    pose proof (FillBytes_is_Some 32 (tx_Value tx)) as Hv.
    pose proof (FillBytes_is_Some 32 (i64 (Z.of_nat (length (tx_Data tx))))) as Hn.
    rewrite i64_id in * by lia. rewrite Z.abs_eq in Hn by lia.
    destruct (FillBytes 32 (tx_Value tx)) as [v|]; simpl.
    - assert (is_Some (FillBytes 32 (Z.of_nat (length (tx_Data tx))))) as [n ->] by (apply Hn; lia).
      simpl. split; [done|]. intros [|Hge]; [done|]. apply proj1 in Hv. specialize (Hv ltac:(done)). lia.
    - split; [|done]. intros _. right. destruct (decide (Z.abs (tx_Value tx) < 256 ^ 32)) as [Hlt|];
        [|lia]. apply Hv in Hlt as [? ?]. done. }
  rewrite <-Hb. destruct (BuildTransaction tx); simpl; [|by split; [left|]].
  destruct (multisend_args txs); simpl; by split; intros; auto; destruct_or?.
Qed.

(** C33: the call data for a safe transaction whose owners approved its hash on chain.  It is
    the selector of [execTransaction] and the encoding of a delegate call of the batch without
    refunds, which carries, in increasing order of the owners' addresses, the signature of
    each of them: its address as a word, an empty word, and the kind 1.  The owners are the
    given ones, each as often as it was given, so strictly increasing when they are
    different, and in whatever order they are given the same call data comes out; an error of
    the encoder is passed on. *)
Theorem GenSafeCalldata_signs s participants :
  let sorted := (GenSafeCalldataWithApproveHash s participants).1 in
  sorted ≡ₚ participants ∧ StronglySorted addr_le sorted ∧
  (NoDup participants → StronglySorted (λ a b, SetBytes (Address_Bytes a) < SetBytes (Address_Bytes b)) sorted) ∧
  (GenSafeCalldataWithApproveHash s participants).2 =
    match Pack_execTransaction (ms_to s) (ms_value s) (ms_calldata s) 1 0 0 0 Address_zero Address_zero
        (sorted ≫= owner_sig) with
    | inl err => inl err
    | inr encoded => inr (Hex2Bytes (str "6a761202") ++ encoded)
    end ∧
  ∀ participants', participants' ≡ₚ participants →
    GenSafeCalldataWithApproveHash s participants' = GenSafeCalldataWithApproveHash s participants.
Proof.
  intros sorted.
  assert (sorted ≡ₚ participants) as Hp by apply merge_sort_Permutation.
  assert (StronglySorted addr_le sorted) as Hs by (apply StronglySorted_merge_sort; apply _).
  split_and!; [done|done| | |].
  - intros Hnd. apply sorted_strict; [done|by rewrite Hp].
  - rewrite <-genApproveHashSigs_spec. unfold sorted, GenSafeCalldataWithApproveHash. reflexivity.
  - intros l Hl. unfold GenSafeCalldataWithApproveHash. by rewrite (sort_Permutation l participants Hl).
Qed.
End props.

(** ** Witnesses *)

Module ToySafe.
Export ToyInstance.ToyCore.

#[export] Instance abi : Abi := {|
  Pack_multiSend l := inr l;
  Pack_execTransaction _ _ _ _ _ _ _ _ _ sigs := inr sigs
|}.

#[export] Instance safe : SafeContract := {|
  NewGnosisSafe _ := inr tt;
  call_Nonce _ _ := inr 3;
  call_EncodeTransactionData _ _ to v c _ _ _ _ _ _ n := inr (Bytes (v + n) ++ c);
  call_GetThreshold _ _ := inr 2;
  call_GetOwners _ _ := inr [addr 9; addr 4; addr 6];
  send_ApproveHash _ _ _ := None
|}.
End ToySafe.
Import ToySafe.

Lemma BuildTransactions_decode_witness :
  ∃ l ops, multisend_args [tx_of 0 5 [x01; x02]; tx_of 1 6 []] = Some l ∧
    decode_multisend (length l) l = Some ops ∧ length ops = 2%nat.
Proof.
  destruct (multisend_args [tx_of 0 5 [x01; x02]; tx_of 1 6 []]) as [l|] eqn:E.
  - destruct (BuildTransactions_decode (H0:=core) _ _ E) as (ops & Hd & Hall).
    { repeat constructor; vm_compute; reflexivity. }
    exists l, ops. split; [reflexivity|]. split; [assumption|].
    rewrite <-(Forall2_length _ _ _ Hall). reflexivity.
  - exfalso. apply (f_equal (λ o, match o with Some _ => true | None => false end)) in E.
    vm_compute in E. discriminate.
Defined.

Lemma BuildTransactions_panics_witness : multisend_args [tx_of 0 (2 ^ 256) []] = None.
Proof.
  apply (BuildTransactions_panics (H0:=core)).
  - repeat constructor; vm_compute; reflexivity.
  - constructor. right. vm_compute. discriminate.
Defined.

(** Three owners, given in another order: their signatures come out sorted. *)
Lemma GenSafeCalldata_signs_witness :
  let q := GenSafeCalldataWithApproveHash (mkMultisendSafe a1 0 [] a2) [addr 9; addr 4; addr 6] in
  StronglySorted (λ a b, SetBytes (Address_Bytes a) < SetBytes (Address_Bytes b)) q.1 ∧
  q.2 = inr (Hex2Bytes (str "6a761202") ++ owner_sig (addr 4) ++ owner_sig (addr 6) ++ owner_sig (addr 9)) ∧
  GenSafeCalldataWithApproveHash (mkMultisendSafe a1 0 [] a2) [addr 6; addr 9; addr 4] = q.
Proof.
  destruct (GenSafeCalldata_signs (mkMultisendSafe a1 0 [] a2) [addr 9; addr 4; addr 6])
    as (_ & _ & Hstrict & Hq & Hany).
  split; [|split].
  - apply Hstrict, (bool_decide_unpack _). vm_compute. exact I.
  - rewrite Hq. vm_compute. reflexivity.
  - apply Hany. apply (bool_decide_unpack _). vm_compute. exact I.
Defined.
