(* ===== verification/Clones.v ===== *)
(** * Databases over shared layers

    A new database, a clone, a clone from the root and a database reset to its root are
    all one fresh layer over existing layers.  This file proves that each of them refines
    the state it should start from, and that whatever runs on one database leaves the
    others that share its layers as they were. *)
From S2P Require Import Prelude BigInt Geth World OverlayState Fetch StateSpec OverlayStateDB.
From S2P Require Import VmStateDB Refinement.

(** ** Definitions *)

Section defs.
Context `{Geth} `{!Upstream}.
Variable answer : BatchElem → option RpcValue.

(** Every object was allocated below the next free location. *)
Record fresh_world (w : World) : Prop := {
  fw_states l : is_Some (w_states w !! l) → (l < w_next w)%nat;
  fw_dbs d : is_Some (w_dbs w !! d) → (d < w_next w)%nat;
  fw_receipts l : is_Some (w_receipts w !! l) → (l < w_next w)%nat
}.

(** The root caches only what the node has at block [b]. *)
Definition clean (b : Z) (w : World) (r : loc) : Prop :=
  ∀ a act key v, pad w r !! scratchpadKey a act key = Some v → v = remote_at answer b a act key.

(** The accounts whose entries the root caches are those it would fetch again. *)
Definition tracked (w : World) (r : loc) : Prop :=
  ∀ a act key, act ≠ GET_STATE → is_Some (pad w r !! scratchpadKey a act key) → accessed w r a.

(** The state a fresh layer starts from. *)
Definition start_abs (F : Frame) (depth : Z) : Abs :=
  mkAbs (mkFrame (f_obs F) (λ _, false) (f_logs F) (f_receipts F) (f_tx F)) depth [] 0.

(** What putting a database on a fresh layer over its root leaves as it was. *)
Record repinned (r d : loc) (db : OverlayStateDB) (w w' : World) : Prop := {
  rp_db : w_dbs w' !! d = Some (set_state (Some (w_next w)) db);
  rp_u64 : w_u64 w' = w_u64 w;
  rp_bigs : w_bigs w' = w_bigs w;
  rp_root : (λ st, (deriveCnt st, txLogs st, bn st)) <$> w_states w' !! r =
            (λ st, (deriveCnt st, txLogs st, bn st)) <$> w_states w !! r;
  rp_calls : (w_calls w ≤ w_calls w')%nat
}.

(** The pinned block itself: no local change. *)
Definition pinned_frame (b : Z) : Frame :=
  mkFrame (remote_at answer b) (λ _, false) (λ _, []) (λ _, None) Hash_zero.

(** What a root shows, as a frame; its receipts are not looked at. *)
Definition frame_of (b : Z) (w : World) (r : loc) (tx : Hash) : Frame :=
  mkFrame (observe answer b w [r]) (dead_in w r) (chain_logs w [r]) (λ _, None) tx.
End defs.

(** ** Lemmas *)

Section lemmas.
Context `{GethLaws} `{!Upstream}.
Context (answer : BatchElem → option RpcValue) (N : nat) (HN : Reliable answer N).
Implicit Types w : World.

Lemma frame_of_shows b w r st :
  w_states w !! r = Some st → shows answer b w r [r] (frame_of answer b w r (currentTxHash st)).
Proof. intros Hst. split; try done. simpl. by rewrite Hst. Qed.

Lemma clean_agrees b r P w w' : agrees answer b r P w w' → clean answer b w r → clean answer b w' r.
Proof.
  intros Hag Hcl a act key v Hv. unfold pad in *.
  destruct (w_states w !! r) as [st|] eqn:Hst.
  - destruct (agrees_root_lookup _ _ _ _ _ _ _ Hag Hst) as (st' & Hst' & Hle).
    rewrite Hst' in Hv. simpl in Hv. destruct (proj2 (le_pad _ _ _ Hle) _ _ _ _ Hv) as [Hv2|[_ Hv2]]; [|done].
    apply Hcl. unfold pad. rewrite Hst. done.
  - pose proof (ag_root _ _ _ _ _ _ Hag) as Hr. rewrite Hst in Hr. inversion Hr as [|E1 E2].
    rewrite <-E2 in Hv. simpl in Hv. by rewrite lookup_empty in Hv.
Qed.

Lemma tracked_agrees b r P w w' : agrees answer b r P w w' → tracked w r → tracked w' r.
Proof.
  intros Hag Ht a act key Hact Hv. unfold pad in Hv.
  destruct (w_states w !! r) as [st|] eqn:Hst.
  - destruct (agrees_root_lookup _ _ _ _ _ _ _ Hag Hst) as (st' & Hst' & Hle).
    rewrite Hst' in Hv. simpl in Hv. exists st'. split; [done|].
    destruct (le_tracked _ _ _ Hle _ _ _ Hact Hv) as [Hv2|?]; [|done].
    destruct (Ht a act key Hact) as (st2 & Hst2 & Ha); [by rewrite (pad_lookup _ _ _ Hst)|].
    simplify_eq. by apply (le_accessed _ _ _ Hle).
  - pose proof (ag_root _ _ _ _ _ _ Hag) as Hr. rewrite Hst in Hr. inversion Hr as [|E1 E2].
    rewrite <-E2 in Hv. simpl in Hv. rewrite lookup_empty in Hv. by destruct Hv.
Qed.

(** A clean root shows the pinned block. *)
Lemma clean_observe b w r a act key :
  clean answer b w r → observe answer b w [r] a act key = remote_at answer b a act key.
Proof.
  intros Hcl. unfold observe. rewrite view_cons. simpl. rewrite lookup_empty.
  destruct (pad w r !! _) as [v|] eqn:Hv; [|done]. simpl. by apply Hcl in Hv.
Qed.

(** A change elsewhere keeps the refinement. *)
Lemma refines_frame own base r b w w' d A :
  refines answer own base r b w d A → agrees answer b r (.∈ own ++ base) w w' →
  w_dbs w' !! d = w_dbs w !! d → fresh_world w' → refines answer own base r b w' d A.
Proof.
  intros [(db & s & Hdb & Hs & Hhd & Hg & Hov) Hb Hfr Hfd Hfc Htw Hwf] Hag Hd [Hf1 Hf2 Hf3].
  destruct own as [|s' own]; [done|]. simpl in Hhd. injection Hhd as ->.
  split; [|done..| |].
  - exists db, s. rewrite Hd. split_and!; try done. by eapply agrees_overlay.
  - destruct Hov as (Hc & Hl & _). by eapply agrees_tower.
  - intros l Hl Hne. unfold pad. rewrite (ag_layers _ _ _ _ _ _ Hag) by done. by apply Hwf.
Qed.

Lemma refines_fresh own base r b w d A : refines answer own base r b w d A → fresh_world w.
Proof. intros []. by split. Qed.

Lemma refines_members own base r b w d A l :
  refines answer own base r b w d A → l ∈ own ++ base → (l < w_next w)%nat.
Proof.
  intros [(db & s & _ & _ & _ & _ & Hc & _) _ Hfr _ _ _ _] Hl.
  eapply chain_bounded in Hl; [|done]. apply chain_lookup in Hc. apply Hfr in Hc. lia.
Qed.

(** What is confined to the layers of another database keeps this one. *)
Lemma confined_frame own base r b w w' d A c own1 own2 :
  refines answer own base r b w d A → confined answer b r c own1 w own2 w' → c ≠ d →
  (∀ l, l ∈ own1 → l ∉ own ++ base) → fresh_world w' → refines answer own base r b w' d A.
Proof.
  intros Href [] Hcd Hdisj Hf. pose proof (refines_fresh _ _ _ _ _ _ _ Href) as Hfr.
  eapply refines_frame; [done| | |done].
  2:{ apply cf_dbs; [done|]. destruct (rf_db _ _ _ _ _ _ _ _ Href) as (db & _ & Hdb & _). by eapply fw_dbs, mk_is_Some. }
  eapply agrees_mono; [|exact cf_layers]. intros l Hl. split; [by intros ?%Hdisj|].
  by eapply refines_members.
Qed.

(** ** One fresh layer *)

(** The world [w'] after a layer [n] with content [st'] was put over layer [s] and the
    database [d] made to point to it. *)
Record layered (w w' : World) (s n d : loc) (db : OverlayStateDB) : Prop := {
  ly_new st' : w_states w' !! n = Some st' →
    parent st' = Some s ∧ scratchPad st' = ∅ ∧ txLogs st' = ∅ ∧ receipts st' = ∅ ∧
    currentTxHash <$> w_states w !! s = Some (currentTxHash st') ∧
    deriveCnt st' = i64 (default 0 (deriveCnt <$> w_states w !! s) + 1);
  ly_some : is_Some (w_states w' !! n);
  ly_others l : l ≠ n → w_states w' !! l = w_states w !! l;
  ly_n : n = w_next w;
  ly_next : (w_next w < w_next w')%nat;
  ly_u64 : w_u64 w' = w_u64 w;
  ly_receipts : w_receipts w' = w_receipts w;
  ly_db : w_dbs w' !! d = Some db;
  ly_state : state db = Some n;
  ly_dbs d' : is_Some (w_dbs w' !! d') → (d' < w_next w')%nat
}.

Lemma layered_agrees b r w w' s n d db (P : loc → Prop) :
  layered w w' s n d db → (∀ l, P l → (l < w_next w)%nat) → (r < w_next w)%nat →
  agrees answer b r P w w'.
Proof.
  intros [] HP Hr. split; [|rewrite ly_others0 by lia; done|done|rewrite ly_receipts0; by eauto].
  intros l Hl%HP _. apply ly_others0. lia.
Qed.

Lemma layered_fresh w w' s n d db :
  layered w w' s n d db → fresh_world w → fresh_world w'.
Proof.
  intros [] [Hf _ Hfc]. split; [|done|].
  - intros l Hl. destruct (decide (l = n)) as [->|Hne]; [lia|].
    rewrite ly_others0 in Hl by done. apply Hf in Hl. lia.
  - intros l. rewrite ly_receipts0. intros Hl%Hfc. lia.
Qed.

Lemma layered_refines b r w w' s n d db ls F st :
  layered w w' s n d db → fresh_world w → overlay w s ls r b → shows answer b w s ls F →
  w_states w !! s = Some st → 0 ≤ deriveCnt st → deriveCnt st + 1 < 2 ^ 63 →
  (∀ l, l ∈ ls → l ≠ r → wf_pad (pad w l)) →
  refines answer [n] ls r b w' d
    (mkAbs (mkFrame (f_obs F) (λ _, false) (f_logs F) (f_receipts F) (f_tx F)) (deriveCnt st + 1) [] (refundGas db)).
Proof.
  intros Hly Hf (Hc & Hl & Hr) Hsh Hst H0' Hd Hwf.
  pose proof (layered_fresh _ _ _ _ _ _ Hly Hf) as Hf'.
  assert (∀ l, l ∈ ls → (l < w_next w)%nat) as Hin.
  { intros l Hin. eapply chain_bounded in Hin; [|done].
    pose proof (fw_states _ Hf s (mk_is_Some _ _ Hst)). lia. }
  assert (r ∈ ls) as Hrin by by apply last_Some_elem_of.
  assert (agrees answer b r (.∈ ls) w w') as Hag by (eapply layered_agrees; eauto).
  destruct Hly as [Hnew [st' Hst'] Hoth Hn Hnx Hu Hrc Hdb Hs Hdbs].
  destruct (Hnew _ Hst') as (Hp & Hpad & Hlg & Hrcs & Htx & Hdc). rewrite Hst in Htx, Hdc. simpl in Htx, Hdc.
  assert (n ∉ ls) as Hnin by (intros ?%Hin; lia).
  rewrite i64_id in Hdc by lia. split.
  - exists db, n. split_and!; try done. split; [|split].
    + eapply chain_step; [exact Hst'|exact Hp| |by eapply agrees_chain].
      pose proof (fw_states _ Hf s (mk_is_Some _ _ Hst)). lia.
    + simpl. by destruct ls.
    + by eapply agrees_root_ready.
  - intros ->. by apply elem_of_nil in Hrin.
  - apply Hf'.
  - apply Hf'.
  - apply Hf'.
  - cbn [a_depth a_frame a_saved tower app]. split; [|split; [rewrite Hst'; simpl; congruence|lia]].
    eapply (fresh_layer_shows answer b w w' n st (set_scratchPad id st')); try done.
    all: try (simpl; congruence).
    assert (set_scratchPad id st' = st') as -> by by destruct st'.
    apply map_eq. intros l. rewrite lookup_insert. case_decide; [by subst|]. by apply Hoth.
  - intros l Hl' Hne. apply elem_of_cons in Hl' as [->|Hl'].
    + rewrite (pad_lookup _ _ _ Hst'), Hpad. by intros k [? ?].
    + unfold pad. rewrite Hoth by (by intros ->). by apply Hwf.
Qed.

Lemma wf_root w r l : l ∈ [r] → l ≠ r → wf_pad (pad w l).
Proof. by intros ->%list_elem_of_singleton. Qed.

(** What [Derive] followed by recording the layer in a database achieves. *)
Lemma derive_layered why w w1 w' s d db st :
  w_states w !! s = Some st → Derive s why w = (Ok (w_next w), w1) →
  w_states w' = w_states w1 → w_u64 w' = w_u64 w1 → w_receipts w' = w_receipts w1 → (w_next w1 ≤ w_next w')%nat →
  w_dbs w' !! d = Some db → state db = Some (w_next w) →
  (∀ d', is_Some (w_dbs w' !! d') → (d' < w_next w')%nat) →
  layered w w' s (w_next w) d db.
Proof.
  intros Hst Hrun Hs' Hu' Hr' Hn' Hdb Hsd Hdbs.
  destruct (Derive_run s why w st Hst) as (st' & w1' & Hrun' & Hst1 & Hnx & _ & Hrc & Hu & _ & _ &
    Hp & Hpad & Hlg & Hrcs & Htx & Hdc & _).
  rewrite Hrun' in Hrun. injection Hrun as ->. rewrite Hst1 in Hs'.
  split; rewrite ?Hs', ?lookup_insert_eq; try done; try lia; try congruence.
  - intros st0 [= <-]. rewrite Hst. simpl. split_and!; try done. by rewrite Htx.
  - intros l Hl. by rewrite lookup_insert_ne.
Qed.
(** ** The four ways to a fresh layer *)

(** [Derive] and [new_db]: the record [db n] points to the new layer [n]. *)
Lemma derive_new_db why w s st (mk : loc → OverlayStateDB) :
  w_states w !! s = Some st → fresh_world w → (∀ n, state (mk n) = Some n) →
  let n := w_next w in
  ∃ w', (n' ← Derive s why; new_db (mk n')) w = (Ok (S n), w') ∧
    layered w w' s n (S n) (mk n) ∧ (∀ d', d' ≠ S n → w_dbs w' !! d' = w_dbs w !! d') ∧
    w_receipts w' = w_receipts w ∧ w_bigs w' = w_bigs w ∧ w_files w' = w_files w ∧
    w_calls w' = w_calls w.
Proof.
  intros Hst Hf Hmk n. destruct (Derive_run s why w st Hst) as
    (st' & w1 & Hrun & Hst1 & Hnx & Hdbs & Hrc & Hu & Hbg & Hfl & _ & _ & _ & _ & _ & _ & Hcl).
  set (w' := with_next (with_dbs <[S n := mk n]> w1)).
  assert (∀ d', d' ≠ S n → w_dbs w' !! d' = w_dbs w !! d') as Hoth.
  { intros d' Hd. simpl. by rewrite lookup_insert_ne, Hdbs. }
  exists w'. split; [|split; [|done]].
  - rewrite (bind_Ok _ _ _ _ _ Hrun). unfold new_db. rewrite Hnx. done.
  - eapply derive_layered; [done|exact Hrun|done|done|done|simpl; lia|by simpl; rewrite lookup_insert_eq|done|].
    intros d'. simpl. rewrite Hnx. destruct (decide (d' = S n)) as [->|Hne]; [lia|].
    rewrite lookup_insert_ne, Hdbs by done. intros Hd%Hf. lia.
Qed.

(** What [Derive] and [new_db] touch. *)
Lemma layered_confined b r w w' s n db :
  layered w w' s n (S n) db → (r < w_next w)%nat →
  (∀ d', d' ≠ S n → w_dbs w' !! d' = w_dbs w !! d') → w_receipts w' = w_receipts w →
  w_bigs w' = w_bigs w → w_files w' = w_files w → w_calls w' = w_calls w →
  confined answer b r (S n) [] w [n] w'.
Proof.
  intros Hly Hr Hd Hrc Hbg Hfl Hcl. pose proof Hly as []. split; try done; try lia.
  - eapply layered_agrees; [done| |done]. by intros l [_ ?].
  - intros d' Hd' _. by apply Hd.
  - intros l _. by rewrite Hrc.
  - intros l ->%list_elem_of_singleton. right. lia.
Qed.

Lemma clone_step own base r b w d A :
  refines answer own base r b w d A → a_depth A + 1 < 2 ^ 63 →
  ∃ w', Clone d w = (Ok (S (w_next w)), w') ∧
    refines answer [w_next w] (own ++ base) r b w' (S (w_next w))
      (start_abs (a_frame A) (a_depth A + 1)) ∧
    refines answer own base r b w' d A ∧ agrees answer b r (.∈ own ++ base) w w' ∧ d ≠ S (w_next w) ∧
    confined answer b r (S (w_next w)) [] w [w_next w] w'.
Proof.
  intros Href Hd. pose proof (refines_fresh _ _ _ _ _ _ _ Href) as Hf.
  destruct (refines_top _ _ _ _ _ _ _ _ Href) as
    (db & s & own' & st & -> & Hdb & Hs & Hst & Hg & Hov & Hsh & Hdep & Hsr & Hlt).
  destruct (derive_new_db "clone" w s st (λ n, mkOverlayStateDB "" 0 0 (Some n) None) Hst Hf
    (λ _, eq_refl)) as (w' & Hrun & Hly & Hoth & Hrec & Hbig & Hfile & Hcalls).
  assert (d ≠ S (w_next w)) as Hne.
  { intros ->. pose proof (fw_dbs _ Hf (S (w_next w)) (mk_is_Some _ _ Hdb)). lia. }
  pose proof (layered_fresh _ _ _ _ _ _ Hly Hf) as Hf'.
  assert (agrees answer b r (.∈ (s :: own') ++ base) w w') as Hag.
  { destruct Hov as (_ & Hl & _). eapply layered_agrees; [exact Hly| |].
    - intros l Hl'. by eapply refines_members.
    - eapply refines_members; [done|]. by apply last_Some_elem_of. }
  pose proof (tower_depth _ _ _ _ _ _ _ _ (rf_tower _ _ _ _ _ _ _ _ Href)) as H0'.
  assert (r < w_next w)%nat as Hrlt.
  { destruct Hov as (_ & Hl & _). eapply refines_members; [done|]. by apply last_Some_elem_of. }
  exists w'. split; [|split; [|split; [|split; [|split]]]]; try done; try (by eapply layered_confined).
  - unfold Clone. by rewrite (bind_Ok _ _ _ _ _ (top_run _ _ _ _ Hdb Hs)).
  - rewrite <-Hdep. apply (layered_refines b r _ _ _ _ _ _ _ _ _ Hly Hf Hov Hsh Hst); [lia..|apply Href].
  - eapply refines_frame; [done|exact Hag|by apply Hoth|done].
Qed.

(** The root as a chain of its own. *)
Lemma overlay_root w s ls r b :
  overlay w s ls r b → overlay w r [r] r b.
Proof.
  intros (Hc & Hl & Hr). pose proof Hr as (st & p & Hst & Hp & _). split; [by eapply chain_root|].
  done.
Qed.

Lemma clone_root_step own base r b w d A st :
  refines answer own base r b w d A → w_states w !! r = Some st → 0 ≤ deriveCnt st →
  deriveCnt st + 1 < 2 ^ 63 →
  ∃ w', CloneFromRoot d w = (Ok (S (w_next w)), w') ∧
    refines answer [w_next w] [r] r b w' (S (w_next w))
      (start_abs (frame_of answer b w r (currentTxHash st)) (deriveCnt st + 1)) ∧
    refines answer own base r b w' d A ∧ agrees answer b r (.∈ own ++ base) w w' ∧ d ≠ S (w_next w) ∧
    confined answer b r (S (w_next w)) [] w [w_next w] w'.
Proof.
  intros Href Hr H0' Hd. pose proof (refines_fresh _ _ _ _ _ _ _ Href) as Hf.
  destruct (refines_top _ _ _ _ _ _ _ _ Href) as
    (db & s & own' & st1 & -> & Hdb & Hs & Hst & Hg & Hov & Hsh & Hdep & Hsr & Hlt).
  destruct (derive_new_db "from root" w r st (λ n, mkOverlayStateDB "" 0 0 (Some n) None) Hr Hf
    (λ _, eq_refl)) as (w' & Hrun & Hly & Hoth & Hrec & Hbig & Hfile & Hcalls).
  assert (d ≠ S (w_next w)) as Hne.
  { intros ->. pose proof (fw_dbs _ Hf (S (w_next w)) (mk_is_Some _ _ Hdb)). lia. }
  pose proof (layered_fresh _ _ _ _ _ _ Hly Hf) as Hf'.
  assert (agrees answer b r (.∈ (s :: own') ++ base) w w') as Hag.
  { destruct Hov as (_ & Hl & _). eapply layered_agrees; [exact Hly| |].
    - intros l Hl'. by eapply refines_members.
    - eapply refines_members; [done|]. by apply last_Some_elem_of. }
  assert (r < w_next w)%nat as Hrlt.
  { destruct Hov as (_ & Hl & _). eapply refines_members; [done|]. by apply last_Some_elem_of. }
  exists w'. split; [|split; [|split; [|split; [|split]]]]; try done; try (by eapply layered_confined).
  - unfold CloneFromRoot. rewrite (bind_Ok _ _ _ _ _ (top_run _ _ _ _ Hdb Hs)).
    destruct Hov as (Hc & Hl & _). unfold DeriveFromRoot. rewrite bind_assoc.
    by rewrite (bind_Ok _ _ _ _ _ (getRootState_spec _ _ _ _ Hc Hl)).
  - eapply (layered_refines b r _ _ _ _ _ _ [r] _ st Hly Hf); try done.
    + by eapply overlay_root.
    + by apply frame_of_shows.
    + intros l. apply wf_root.
  - eapply refines_frame; [done|exact Hag|by apply Hoth|done].
Qed.

(** [InitState] without a fetch: the database is put on a fresh layer over its root. *)
Lemma init_false_step own base r b w d A st db p bz clear :
  refines answer own base r b w d A → w_states w !! r = Some st → 0 ≤ deriveCnt st →
  deriveCnt st + 1 < 2 ^ 63 → w_dbs w !! d = Some db → stateBN db = Some p → w_u64 w !! p = Some bz →
  ∃ w', InitState d false clear w = (Ok tt, w') ∧
    refines answer [w_next w] [r] r b w' d
      (with_refund (a_refund A) (start_abs (frame_of answer b w r (currentTxHash st)) (deriveCnt st + 1))) ∧
    agrees answer b r (.∈ own ++ base) w w' ∧ repinned r d db w w'.
Proof.
  intros Href Hr H0' Hd Hdb Hbn Hu64. pose proof (refines_fresh _ _ _ _ _ _ _ Href) as Hf.
  destruct (refines_top _ _ _ _ _ _ _ _ Href) as
    (db' & s & own' & st1 & -> & Hdb' & Hs & Hst & Hg & Hov & Hsh & Hdep & Hsr & Hlt).
  rewrite Hdb in Hdb'. injection Hdb' as <-. pose proof Hov as (Hc & Hl & _).
  set (w1 := with_dbs (alter (set_state (Some r)) d) w).
  destruct (Derive_run r "reset and protect underlying" w1 st Hr) as
    (st' & w2 & Hrun & Hst2 & Hnx & Hdbs & _ & Hu & Hbg & _ & _ & _ & _ & _ & _ & _ & Hcl).
  set (w3 := with_dbs (alter (set_state (Some (w_next w))) d) w2).
  assert (w_dbs w1 !! d = Some (set_state (Some r) db)) as Hdb1.
  { simpl. by rewrite lookup_alter_eq, Hdb. }
  assert (w_dbs w3 !! d = Some (set_state (Some (w_next w)) db)) as Hdb3.
  { simpl. by rewrite lookup_alter_eq, Hdbs, Hdb1. }
  assert (layered w1 w3 r (w_next w) d (set_state (Some (w_next w)) db)) as Hly1.
  { eapply (derive_layered _ w1 w2 w3); [done|exact Hrun|done|done|done|simpl; lia|done|done|].
    intros d'. simpl. rewrite Hnx, lookup_alter_is_Some, Hdbs. simpl.
    rewrite lookup_alter_is_Some. intros Hd'%Hf. lia. }
  assert (layered w w3 r (w_next w) d (set_state (Some (w_next w)) db)) as Hly.
  { destruct Hly1. by split. }
  assert (agrees answer b r (.∈ (s :: own') ++ base) w w3) as Hag.
  { eapply layered_agrees; [exact Hly| |].
    - intros l Hl'. by eapply refines_members.
    - eapply refines_members; [done|]. by apply last_Some_elem_of. }
  exists w3. split; [|split; [|split]]; try done.
  - unfold InitState. rewrite (bind_Ok _ _ _ _ _ (top_run _ _ _ _ Hdb Hs)).
    rewrite (bind_Ok _ _ _ _ _ (getRootState_spec _ _ _ _ Hc Hl)).
    rewrite (bind_Ok (update_db d (set_state (Some r))) _ w tt w1) by done.
    assert (StateBlockNumber d w1 = (Ok bz, w1)) as Hbn1.
    { unfold StateBlockNumber. rewrite (bind_Ok _ _ _ _ _ (get_db_Some _ _ _ Hdb1)). simpl.
      rewrite Hbn. unfold non_nil, get_u64, mbind, M_bind, deref. simpl. by rewrite Hu64. }
    rewrite (bind_Ok _ _ _ _ _ Hbn1), bind_mret.
    rewrite (bind_Ok _ _ _ _ _ (top_run d w1 _ r Hdb1 eq_refl)).
    by rewrite (bind_Ok _ _ _ _ _ Hrun).
  - pose proof (layered_refines b r w w3 r (w_next w) d (set_state (Some (w_next w)) db) [r]
      (frame_of answer b w r (currentTxHash st)) st Hly Hf (overlay_root _ _ _ _ _ Hov)
      (frame_of_shows _ _ _ _ Hr) Hr H0' Hd (wf_root w r)) as Hres.
    simpl in Hres. rewrite Hg in Hres. exact Hres.
  - split; [done|by simpl; rewrite Hu|by simpl; rewrite Hbg| |by simpl; rewrite Hcl].
    by rewrite (ly_others _ _ _ _ _ _ Hly) by (pose proof (fw_states _ Hf r (mk_is_Some _ _ Hr)); lia).
Qed.

(** A freshly built database shows the pinned block. *)
Lemma new_db_step w p b path maxk batch :
  fresh_world w → w_u64 w !! p = Some b → 1 ≤ batch →
  ∃ w', NewOverlayStateDB (Some p) path maxk batch w = (Ok (S (S (w_next w))), w') ∧
    refines answer [S (w_next w)] [w_next w] (w_next w) b w' (S (S (w_next w)))
      (start_abs (pinned_frame answer b) 1) ∧
    clean answer b w' (w_next w) ∧ tracked w' (w_next w) ∧
    w_dbs w' !! S (S (w_next w)) = Some (mkOverlayStateDB path maxk 0 (Some (S (w_next w))) (Some p)) ∧
    w_u64 w' !! p = Some b ∧ w_bigs w' = w_bigs w ∧ w_calls w' = w_calls w ∧
    ∃ st, w_states w' !! w_next w = Some st ∧ deriveCnt st = 0 ∧ txLogs st = ∅ ∧ bn st = Some p.
Proof.
  intros Hf Hp Hb. set (r := w_next w).
  unfold NewOverlayStateDB, NewOverlayState.
  set (rst := mkOverlayState None _ _ _ _ _ _ _ _ _ _ _ _).
  set (w1 := with_next (with_states <[r := rst]> w)).
  assert (w_states w1 !! r = Some rst) as Hr by (simpl; by rewrite lookup_insert_eq).
  assert (fresh_world w1) as Hf1.
  { split; simpl; [intros l|intros d|intros l].
    - destruct (decide (l = r)) as [->|]; [lia|]. rewrite lookup_insert_ne by done.
      intros Hl%Hf. lia.
    - intros Hd%Hf. lia.
    - intros Hl%Hf. lia. }
  rewrite (bind_Ok (new_state rst) _ w r w1) by done.
  destruct (derive_new_db "protect underlying" w1 r rst
    (λ n, mkOverlayStateDB path maxk 0 (Some n) (Some p)) Hr Hf1 (λ _, eq_refl))
    as (w' & -> & Hly & _ & _ & Hbg & _ & Hcl).
  change (w_next w1) with (S r) in *. exists w'. split; [done|].
  assert (overlay w1 r [r] r b) as Hov.
  { split; [by eapply chain_root|]. split; [done|]. by exists rst, p. }
  assert (w_states w' !! r = Some rst) as Hr' by (rewrite (ly_others _ _ _ _ _ _ Hly); [done|lia]).
  assert (pad w' r = ∅) as Hpad by by rewrite (pad_lookup _ _ _ Hr').
  split; [|split; [|split; [|split]]].
  - apply (layered_refines b r _ _ _ _ _ _ [r] (pinned_frame answer b) rst Hly Hf1 Hov); try done; [|by intros l ->%list_elem_of_singleton].
    split; try done.
    + intros a act key. simpl. unfold observe. simpl. rewrite (pad_lookup _ _ _ Hr). simpl.
      by rewrite lookup_union, !lookup_empty.
    + intros a. unfold dead_in. by rewrite (pad_lookup _ _ _ Hr).
    + intros h. simpl. by rewrite lookup_insert_eq.
    + simpl. by rewrite lookup_insert_eq.
  - intros a act key v. by rewrite Hpad, lookup_empty.
  - intros a act key _. rewrite Hpad, lookup_empty. by intros [].
  - apply Hly.
  - rewrite (ly_u64 _ _ _ _ _ _ Hly). split_and!; [done..|by exists rst].
Qed.
End lemmas.
