(* ===== verification/Reset.v ===== *)
(** * Re-pinning the state to a block

    [InitState] with a fetch rebuilds the root's cache for the current block: every cached
    storage slot, the slots named in the key-cache file, and every account fetched so far
    are requested again.  This file proves that no value of an earlier block survives. *)
From S2P Require Import Prelude BigInt Geth World OverlayState Fetch StateSpec OverlayStateDB.
From S2P Require Import VmStateDB Refinement Clones.

(** ** Folds of updates *)

Section folds.
Context `{GethLaws} `{!Upstream}.
Context (answer : BatchElem → option RpcValue).

Lemma store_slot_lookup rs m k v :
  foldl store_slot m rs !! k = Some v →
  (m !! k = Some v ∧ ∀ r, r ∈ rs → calcStateKey (sr_Address r) (sr_Key r) ≠ k) ∨
  ∃ r, r ∈ rs ∧ calcStateKey (sr_Address r) (sr_Key r) = k ∧ v = Hash_Bytes (sr_Value r).
Proof.
  revert m. induction rs as [|r rs IH]; intros m; simpl.
  { intros. left. split; [done|]. by intros r ?%elem_of_nil. }
  intros [[Hm Hrs]|(r' & Hr' & Hk & Hv)]%IH.
  - unfold store_slot in Hm. rewrite lookup_insert in Hm. case_decide as Hk.
    + injection Hm as <-. right. exists r. split_and!; [by left|done|done].
    + left. split; [done|]. intros r' [->|]%elem_of_cons; [done|by apply Hrs].
  - right. exists r'. split_and!; [by right|done|done].
Qed.

Lemma store_slot_other rs m a act key :
  act ≠ GET_STATE → foldl store_slot m rs !! scratchpadKey a act key = m !! scratchpadKey a act key.
Proof.
  intros Hact. revert m. induction rs as [|r rs IH]; intros m; simpl; [done|].
  rewrite IH. unfold store_slot. apply lookup_insert_ne.
  intros E. by apply (scratchpadKey_inj _ GET_STATE) in E as (_ & <- & _).
Qed.

(** The remote entry of an account. *)
Lemma store_account_lookup hbn a' a m act key :
  store_account a' (remote_account answer hbn a') m !! scratchpadKey a act key =
  if decide (a = a' ∧ act ≠ GET_STATE) then Some (remote answer hbn a act key)
  else m !! scratchpadKey a act key.
Proof.
  assert (∀ act0 (v : bytes) (m0 : gmap bytes bytes), act0 ≠ GET_STATE →
    <[scratchpadKey a' act0 Hash_zero := v]> m0 !! scratchpadKey a act key
    = if decide (a = a' ∧ act = act0) then Some v else m0 !! scratchpadKey a act key) as Hins.
  { intros act0 v m0 Hact0. rewrite lookup_insert. case_decide as E.
    - apply scratchpadKey_inj in E as (<- & <- & _). by rewrite decide_True.
    - rewrite decide_False; [done|]. intros [<- <-]. apply E. by destruct act. }
  unfold store_account.
  rewrite (Hins GET_CODEHASH), (Hins GET_CODE), (Hins GET_NONCE), (Hins GET_BALANCE) by done.
  destruct (decide (a = a')) as [<-|Hne].
  - destruct act; repeat (rewrite decide_False by (intros []; congruence));
      rewrite ?decide_True by done; done.
  - by rewrite !decide_False by (intros []; congruence).
Qed.

Lemma store_accounts_lookup hbn l m a act key :
  foldl (λ m p, store_account p.1 p.2 m) m (zip l (remote_account answer hbn <$> l))
    !! scratchpadKey a act key =
  if decide (a ∈ l ∧ act ≠ GET_STATE) then Some (remote answer hbn a act key)
  else m !! scratchpadKey a act key.
Proof.
  revert m. induction l as [|a' l IH]; intros m.
  { cbn [fmap list_fmap zip_with foldl]. rewrite decide_False; [done|]. by intros [?%elem_of_nil _]. }
  cbn [fmap list_fmap zip_with foldl fst snd].
  rewrite IH, store_account_lookup.
  destruct (decide (act = GET_STATE)) as [->|Hact]; [by rewrite !decide_False by (intros []; congruence)|].
  destruct (decide (a ∈ l)) as [Hl|Hl].
  { rewrite !decide_True; [done| |done]. split; [by right|done]. }
  rewrite (decide_False (P := a ∈ l ∧ _)) by (intros []; congruence).
  destruct (decide (a = a')) as [->|Hne].
  - rewrite !decide_True; [done| |done]. split; [by left|done].
  - rewrite !decide_False; [done| |intros []; congruence].
    intros [[?|?]%elem_of_cons _]; congruence.
Qed.

(** The keys read from the file are storage keys, or never read. *)
Lemma add_cached_other lines m a act key :
  act ≠ GET_STATE →
  foldl add_cached_key m lines !! scratchpadKey a act key = m !! scratchpadKey a act key.
Proof.
  intros Hact. revert m. induction lines as [|line lines IH]; intros m; simpl; [done|].
  rewrite IH. unfold add_cached_key. apply lookup_insert_ne. intros E.
  pose proof tags_distinct as Htags. destruct_and!.
  destruct act; try done; simpl in E; unfold calcKey in E;
    apply app_inj_1 in E as [E _]; rewrite ?length_Hash_Bytes; try done;
    by apply Hash_Bytes_inj in E.
Qed.

(** A storage key of the pad is among the requests, with its account and slot. *)
Lemma state_key_req a key : is_state_key (calcStateKey a key) = true ∧
  key_req (calcStateKey a key) = mkStorageReq a key Hash_zero.
Proof.
  unfold is_state_key, key_req. rewrite length_calcStateKey. unfold calcStateKey, calcKey.
  pose proof (length_Hash_Bytes STATE_KEY) as Hk. pose proof (length_Address_Bytes a) as Ha.
  rewrite <-app_assoc, take_app_length', BytesToHash_Hash_Bytes by done. split.
  { by rewrite !bool_decide_eq_true_2. }
  rewrite drop_app_length' by done. rewrite take_app_length', BytesToAddress_Address_Bytes by done.
  rewrite app_assoc, drop_app_length' by (rewrite length_app; lia).
  by rewrite BytesToHash_Hash_Bytes.
Qed.
End folds.

(** ** The reset *)

Section reset.
Context `{GethLaws} `{!Upstream}.
Context (answer : BatchElem → option RpcValue) (N : nat) (HN : Reliable answer N).
Implicit Types w : World.

(** A run that leaves the databases, the numbers and every layer but the root. *)
Record root_only (r : loc) (w w' : World) : Prop := {
  ro_dbs : w_dbs w' = w_dbs w;
  ro_u64 : w_u64 w' = w_u64 w;
  ro_next : w_next w' = w_next w;
  ro_bigs : w_bigs w' = w_bigs w;
  ro_receipts : w_receipts w' = w_receipts w;
  ro_calls : (w_calls w ≤ w_calls w')%nat;
  ro_others l : l ≠ r → w_states w' !! l = w_states w !! l;
  ro_parent : parent <$> w_states w' !! r = parent <$> w_states w !! r;
  ro_bn : bn <$> w_states w' !! r = bn <$> w_states w !! r;
  ro_batch : batchSize <$> w_states w' !! r = batchSize <$> w_states w !! r;
  ro_logs : txLogs <$> w_states w' !! r = txLogs <$> w_states w !! r;
  ro_tx : currentTxHash <$> w_states w' !! r = currentTxHash <$> w_states w !! r;
  ro_depth : deriveCnt <$> w_states w' !! r = deriveCnt <$> w_states w !! r
}.

#[global] Instance root_only_preorder r : PreOrder (root_only r).
Proof.
  split; [by intros w; split; auto with lia|]. intros x y z [] []. split; try congruence; try lia.
  intros l Hl. by rewrite ro_others1, ro_others0.
Qed.

Lemma evolves_root_only R r w w' : evolves R r w w' → root_only r w w'.
Proof. intros []. split; try done; by destruct ev_root as [? ? []|]; simpl; try congruence. Qed.

Lemma update_root_only r f w :
  (∀ st, parent (f st) = parent st ∧ bn (f st) = bn st ∧ batchSize (f st) = batchSize st ∧
    txLogs (f st) = txLogs st ∧ currentTxHash (f st) = currentTxHash st ∧
    deriveCnt (f st) = deriveCnt st) →
  root_only r w (with_states (alter f r) w).
Proof.
  intros Hf. split; try done; simpl; rewrite ?lookup_alter_eq;
    try (destruct (w_states w !! r); simpl; [f_equal; apply Hf|done]).
  intros l Hl. by rewrite lookup_alter_ne.
Qed.

Lemma root_only_ready r w w' b : root_only r w w' → root_ready w r b → root_ready w' r b.
Proof.
  intros [] (st & p & Hst & Hp & Hbn & Hb & Hn). rewrite Hst in *. simpl in *.
  destruct (w_states w' !! r) as [st'|] eqn:Hst'; [|done]. simpl in *.
  exists st', p. split_and!; congruence.
Qed.

Lemma touch_reqs r (reqs : list StorageReq) w :
  ∃ w', for_each (λ q, update_state r (set_accessedAccounts <[sr_Address q := true]>)) reqs w = (Ok tt, w') ∧
    evolves eq r w w' ∧ w_calls w' = w_calls w.
Proof.
  destruct (touch_accounts answer N HN r (sr_Address <$> reqs) w) as (w' & Hrun & Hev & Hc & _).
  exists w'. split; [|done]. rewrite <-Hrun. clear. revert w.
  induction reqs as [|q l IH]; intros w; [done|]. apply IH.
Qed.

Lemma map_keys_elem {K V} `{Countable K} (m : gmap K V) k : k ∈ (map_to_list m).*1 ↔ is_Some (m !! k).
Proof.
  rewrite list_elem_of_fmap. split.
  - intros ([k' v] & -> & Hkv). apply elem_of_map_to_list in Hkv. eauto.
  - intros [v Hv]. exists (k, v). split; [done|]. by apply elem_of_map_to_list.
Qed.

(** The pad after a reset, from the pad with the file's keys added and the accounts. *)
Definition reset_pad (hbn : string) (m : gmap bytes bytes) (reqs : list StorageReq)
    (accounts : list Address) : gmap bytes bytes :=
  foldl (λ m p, store_account p.1 p.2 m)
    (foldl store_slot m ((λ q, mkStorageReq (sr_Address q) (sr_Key q)
        (remote_slot answer hbn (sr_Address q) (sr_Key q))) <$> reqs))
    (zip accounts (remote_account answer hbn <$> accounts)).

(** Every entry of the new pad that a read can reach is the node's, provided the accounts
    cover those of the old pad. *)
Lemma reset_pad_clean hbn m reqs accounts a act key v :
  (∀ k, is_state_key k = true → is_Some (m !! k) → key_req k ∈ reqs) →
  (∀ a' act' key', act' ≠ GET_STATE → is_Some (m !! scratchpadKey a' act' key') → a' ∈ accounts) →
  reset_pad hbn m reqs accounts !! scratchpadKey a act key = Some v → v = remote answer hbn a act key.
Proof.
  intros Hreqs Hacc. unfold reset_pad. rewrite store_accounts_lookup. case_decide as Hd; [by intros [= <-]|].
  intros Hv. destruct (decide (act = GET_STATE)) as [->|Hact].
  - apply store_slot_lookup in Hv as [[Hm Hnone]|(q & Hq & Hk & ->)].
    + destruct (state_key_req a key) as [Hs Hk]. exfalso.
      specialize (Hreqs _ Hs (mk_is_Some _ _ Hm)). rewrite Hk in Hreqs.
      eapply (Hnone (mkStorageReq a key (remote_slot answer hbn a key))); [|done].
      apply list_elem_of_fmap. by exists (mkStorageReq a key Hash_zero).
    + apply list_elem_of_fmap in Hq as (q0 & -> & _). simpl in *.
      by apply calcStateKey_inj in Hk as [-> ->].
  - rewrite store_slot_other in Hv by done. destruct Hd. split; [|done]. eapply Hacc; eauto.
Qed.
Lemma root_pad_update r f w st :
  w_states w !! r = Some st → pad (with_states (alter (set_scratchPad f) r) w) r = f (pad w r).
Proof. intros Hst. unfold pad. simpl. by rewrite lookup_alter_eq, Hst. Qed.

Lemma evolves_eq_pad r w w' st :
  evolves eq r w w' → w_states w !! r = Some st →
  pad w' r = pad w r ∧ ∃ st', w_states w' !! r = Some st' ∧ layer_evolves eq st st'.
Proof.
  intros Hev Hst. destruct (evolves_state_lookup _ _ _ _ _ Hev Hst) as (st' & Hst' & Hle).
  split; [|eauto]. by rewrite (pad_lookup _ _ _ Hst), (pad_lookup _ _ _ Hst'), (le_pad _ _ _ Hle).
Qed.

(** The account phase: the pad is completed with every account the root remembers. *)
Lemma account_phase r b w st m reqs :
  root_ready w r b → (N ≤ w_calls w)%nat → w_states w !! r = Some st →
  scratchPad st = foldl store_slot m ((λ q, mkStorageReq (sr_Address q) (sr_Key q)
        (remote_slot answer (EncodeBig (i64 b)) (sr_Address q) (sr_Key q))) <$> reqs) →
  let accounts := (map_to_list (accessedAccounts st)).*1 in
  ∃ w', (r' ← loadAccountBatchRPC r accounts;
         match r' with
         | None => mret tt
         | Some accountResults =>
             update_state r (set_scratchPad (λ m,
               foldl (λ m p, store_account p.1 p.2 m) m (zip accounts accountResults)))
         end) w = (Ok tt, w') ∧ root_only r w w' ∧
    pad w' r = reset_pad (EncodeBig (i64 b)) m reqs accounts ∧
    ∀ a, a ∈ accounts → accessed w' r a.
Proof.
  intros Hready Hn Hst Hpad accounts.
  destruct (loadAccountBatchRPC_spec answer N HN r b accounts w Hready)
    as (w1 & o & Hrun & Hev & _ & Hrec & Hres & Hacc).
  destruct (Hrec Hn) as [rs ->]. rewrite (Hres rs eq_refl) in Hrun.
  destruct (evolves_eq_pad _ _ _ _ Hev Hst) as (Hp1 & st1 & Hst1 & _).
  eexists. split; [by rewrite (bind_Ok _ _ _ _ _ Hrun)|]. split; [|split].
  - etrans; [by eapply evolves_root_only|]. by apply update_root_only.
  - rewrite (root_pad_update _ _ _ _ Hst1), Hp1, (pad_lookup _ _ _ Hst), Hpad. done.
  - intros a (st2 & Hst2 & Ha)%Hacc. eexists. simpl. rewrite lookup_alter_eq, Hst2. split; [done|].
    exact Ha.
Qed.

(** Clearing the cache leaves nothing to be clean. *)
Lemma cleared_phase r b w st f :
  w_states w !! r = Some st →
  let w' := with_files f (with_states (alter (set_accessedAccounts (λ _, ∅)) r)
    (with_states (alter (set_scratchPad (λ _, ∅)) r) w)) in
  root_only r w w' ∧ clean answer b w' r ∧ tracked w' r.
Proof.
  intros Hst w'. set (w1 := with_states (alter (set_scratchPad (λ _, ∅)) r) w).
  set (w2 := with_states (alter (set_accessedAccounts (λ _, ∅)) r) w1).
  assert (pad w' r = ∅) as Hpad.
  { change (pad w2 r = ∅). unfold pad. simpl. by rewrite !lookup_alter_eq, Hst. }
  split; [|split].
  - transitivity w1; [by apply update_root_only|].
    transitivity w2; [by apply update_root_only|by split].
  - intros a act key v. by rewrite Hpad, lookup_empty.
  - intros a act key _. rewrite Hpad, lookup_empty. by intros [].
Qed.

(** The storage phase: the slots asked for are fetched at the new block. *)
Lemma storage_phase r b w st reqs f :
  root_ready w r b → (N ≤ w_calls w)%nat → w_states w !! r = Some st →
  ∃ w' st', (∀ k : M World unit,
      (for_each (λ q, update_state r (set_accessedAccounts <[sr_Address q := true]>)) reqs ;;
       r' ← loadStateBatchRPC r reqs;
       match r' with
       | None => panic "loadStateBatchRPC"
       | Some results =>
           modify (with_files f) ;; update_state r (set_scratchPad (λ m, foldl store_slot m results)) ;; k
       end) w = k w') ∧
    w_states w' !! r = Some st' ∧
    scratchPad st' = foldl store_slot (scratchPad st) ((λ q, mkStorageReq (sr_Address q) (sr_Key q)
      (remote_slot answer (EncodeBig (i64 b)) (sr_Address q) (sr_Key q))) <$> reqs) ∧
    dom (accessedAccounts st) ⊆ dom (accessedAccounts st') ∧
    root_only r w w' ∧ (w_calls w ≤ w_calls w')%nat.
Proof.
  intros Hready Hn Hst. destruct (touch_reqs r reqs w) as (w2 & Hrun2 & Hev2 & Hc2).
  destruct (loadStateBatchRPC_spec answer N HN r b reqs w2 (root_ready_evolves _ _ _ _ _ Hev2 Hready))
    as (w3 & o & Hrun3 & Hev3 & _ & Hrec & Hres & _).
  destruct Hrec as [rs ->]; [by rewrite Hc2|]. specialize (Hres rs eq_refl).
  assert (evolves eq r w w3) as Hev by by etrans.
  destruct (evolves_eq_pad _ _ _ _ Hev Hst) as (_ & st3 & Hst3 & Hle).
  eexists _, _. split; [|split; [|split; [|split; [|split]]]].
  - intros k. rewrite (bind_Ok _ _ _ _ _ Hrun2), (bind_Ok _ _ _ _ _ Hrun3), bind_modify. reflexivity.
  - simpl. by rewrite lookup_alter_eq, Hst3.
  - simpl. by rewrite Hres, <-(le_pad _ _ _ Hle).
  - apply (le_accessed _ _ _ Hle).
  - etrans; [by eapply evolves_root_only|]. transitivity (with_files f w3); [by split|]. by apply update_root_only.
  - simpl. apply (ev_calls _ _ _ _ Hev).
Qed.

(** The pad that results holds the node's values only, and remembers its accounts. *)
Lemma reset_pad_spec r b w m reqs accounts :
  pad w r = reset_pad (EncodeBig (i64 b)) m reqs accounts →
  (∀ k, is_state_key k = true → is_Some (m !! k) → key_req k ∈ reqs) →
  (∀ a act key, act ≠ GET_STATE → is_Some (m !! scratchpadKey a act key) → a ∈ accounts) →
  (∀ a, a ∈ accounts → accessed w r a) → clean answer b w r ∧ tracked w r.
Proof.
  intros Hpad Hreqs Hcover Hacc. split.
  - intros a act key v. rewrite Hpad. by apply reset_pad_clean.
  - intros a act key Hact. rewrite Hpad. unfold reset_pad.
    rewrite store_accounts_lookup, store_slot_other by done. case_decide as Hd.
    + intros _. apply Hacc, Hd.
    + intros Hm. apply Hacc. by eapply Hcover.
Qed.

(** A reset succeeds once the node is back, and leaves no entry of another block. *)
Lemma resetScratchPad_spec d db r b clear w :
  w_dbs w !! d = Some db → state db = Some r → root_ready w r b → tracked w r →
  (N ≤ w_calls w)%nat →
  ∃ w', resetScratchPad d clear w = (Ok tt, w') ∧ root_only r w w' ∧
    clean answer b w' r ∧ tracked w' r.
Proof.
  intros Hdb Hs Hready Ht Hn. pose proof Hready as (st & p & Hst & Hp & _).
  unfold resetScratchPad.
  rewrite (bind_Ok _ _ _ _ _ (get_db_Some _ _ _ Hdb)), Hs.
  rewrite (bind_Ok (non_nil (Some r)) _ w r w) by done.
  rewrite (bind_Ok _ _ _ _ _ (get_state_Some _ _ _ Hst)), Hp, bind_mret, bind_gets.
  destruct clear; [eexists; split; [reflexivity|by eapply cleared_phase]|].
  set (lines := take (Z.to_nat (maxKeyCache db)) _).
  set (w1 := with_states (alter (set_scratchPad (λ m, foldl add_cached_key m lines)) r) w).
  set (st1 := set_scratchPad (λ m, foldl add_cached_key m lines) st).
  rewrite (bind_Ok (update_state r _) _ w tt w1) by done.
  assert (w_states w1 !! r = Some st1) as Hst1 by (simpl; by rewrite lookup_alter_eq, Hst).
  assert (root_only r w w1) as Hro1 by by apply update_root_only.
  rewrite (bind_Ok _ _ _ _ _ (get_state_Some _ _ _ Hst1)).
  set (keys := filter _ _). set (reqs := key_req <$> keys).
  destruct (storage_phase r b w1 st1 reqs (<[cacheFilePath db := keys ≫= λ k, Bytes2Hex (drop 32 k) ++ [x0a]]>)
    (root_only_ready _ _ _ _ Hro1 Hready) Hn Hst1) as (w5 & st5 & Hrun5 & Hst5 & Hpad5 & Hdom5 & Hro5 & Hc5).
  rewrite Hrun5, (bind_Ok _ _ _ _ _ (get_state_Some _ _ _ Hst5)).
  assert (root_only r w w5) as Hro by by etrans. change (w_calls w1) with (w_calls w) in Hc5.
  destruct (account_phase r b w5 st5 (scratchPad st1) reqs (root_only_ready _ _ _ _ Hro Hready)) as
    (w' & Hrun' & Hro' & Hpad' & Hacc'); [lia|done|done|].
  exists w'. split; [exact Hrun'|]. split; [by etrans|]. eapply reset_pad_spec; [exact Hpad'| | |exact Hacc'].
  - intros k Hk Hm. apply list_elem_of_fmap. exists k. split; [done|].
    apply list_elem_of_filter. split; [done|]. by apply map_keys_elem.
  - intros a act key Hact Hm. simpl in Hm. rewrite add_cached_other in Hm by done.
    destruct (Ht a act key Hact) as (st0 & Hst0 & Ha); [by rewrite (pad_lookup _ _ _ Hst)|]. simplify_eq.
    apply map_keys_elem, elem_of_dom, Hdom5, Ha.
Qed.

(** What the root keeps of itself when it is refreshed. *)
Lemma root_only_kept r w w' st :
  root_only r w w' → w_states w !! r = Some st →
  ∃ st', w_states w' !! r = Some st' ∧ deriveCnt st' = deriveCnt st ∧ txLogs st' = txLogs st ∧
    currentTxHash st' = currentTxHash st ∧ parent st' = parent st ∧ bn st' = bn st.
Proof.
  intros Hro Hst. pose proof (ro_parent _ _ _ Hro) as Ep. pose proof (ro_depth _ _ _ Hro) as E1.
  pose proof (ro_tx _ _ _ Hro) as E2. pose proof (ro_logs _ _ _ Hro) as E3. pose proof (ro_bn _ _ _ Hro) as E4.
  rewrite Hst in Ep, E1, E2, E3, E4. destruct (w_states w' !! r) as [st'|]; [|done].
  exists st'. simpl in *. split_and!; congruence.
Qed.

Lemma root_only_fresh r w w' : root_only r w w' → is_Some (w_states w !! r) → fresh_world w → fresh_world w'.
Proof.
  intros Hro Hr Hf. split; rewrite (ro_next _ _ _ Hro).
  - intros l. destruct (decide (l = r)) as [->|Hne]; [intros _; by apply Hf|].
    rewrite (ro_others _ _ _ Hro) by done. apply Hf.
  - intros d. rewrite (ro_dbs _ _ _ Hro). apply Hf.
  - intros l. rewrite (ro_receipts _ _ _ Hro). apply Hf.
Qed.

Lemma fresh_alter_db d f w : fresh_world w → fresh_world (with_dbs (alter f d) w).
Proof. intros []. split; [done| |done]. intros d'. simpl. rewrite lookup_alter_is_Some. auto. Qed.

(** The run of [InitState]: the root [r] is refreshed, and a layer derived from it. *)
Lemma init_true_run d db s ls r b clear w p bz st :
  overlay w s ls r b → w_dbs w !! d = Some db → state db = Some s → stateBN db = Some p →
  w_u64 w !! p = Some bz → tracked w r → (N ≤ w_calls w)%nat → w_states w !! r = Some st →
  ∃ w2 w3 st2, let w1 := with_dbs (alter (set_state (Some r)) d) w in
    let n := w_next w2 in let w4 := with_dbs (alter (set_state (Some n)) d) w3 in
    root_only r w1 w2 ∧ clean answer b w2 r ∧ tracked w2 r ∧ w_states w2 !! r = Some st2 ∧
    Derive r "reset and protect underlying" w2 = (Ok n, w3) ∧
    InitState d true clear w = (Ok tt, w4) ∧ w_dbs w4 !! d = Some (set_state (Some n) db).
Proof.
  intros (Hc & Hl & Hready) Hdb Hs Hbn Hu64 Ht Hn Hst.
  set (w1 := with_dbs (alter (set_state (Some r)) d) w).
  assert (w_dbs w1 !! d = Some (set_state (Some r) db)) as Hdb1 by (simpl; by rewrite lookup_alter_eq, Hdb).
  destruct (resetScratchPad_spec d _ r b clear w1 Hdb1 eq_refl Hready Ht Hn) as (w2 & Hrun2 & Hro & Hcl & Htr).
  destruct (root_only_kept r w1 w2 st Hro Hst) as (st2 & Hst2 & _).
  destruct (Derive_run r "reset and protect underlying" w2 st2 Hst2) as (st' & w3 & Hrun & _ & _ & Hdbs & _).
  assert (w_dbs w2 !! d = Some (set_state (Some r) db)) as Hdb2 by by rewrite (ro_dbs _ _ _ Hro).
  exists w2, w3, st2. split_and!; [done..| |simpl; by rewrite lookup_alter_eq, Hdbs, Hdb2].
  unfold InitState. rewrite (bind_Ok _ _ _ _ _ (top_run _ _ _ _ Hdb Hs)).
  rewrite (bind_Ok _ _ _ _ _ (getRootState_spec _ _ _ _ Hc Hl)).
  rewrite (bind_Ok (update_db d (set_state (Some r))) _ w tt w1) by done.
  assert (StateBlockNumber d w1 = (Ok bz, w1)) as Hbn1.
  { unfold StateBlockNumber. rewrite (bind_Ok _ _ _ _ _ (get_db_Some _ _ _ Hdb1)). simpl.
    rewrite Hbn. unfold non_nil, get_u64, mbind, M_bind, deref. simpl. by rewrite Hu64. }
  rewrite (bind_Ok _ _ _ _ _ Hbn1), (bind_Ok _ _ _ _ _ Hrun2).
  rewrite (bind_Ok _ _ _ _ _ (top_run d w2 _ r Hdb2 eq_refl)).
  by rewrite (bind_Ok _ _ _ _ _ Hrun).
Qed.

(** Putting a database on a fresh layer over its root, after the root was refreshed. *)
Lemma init_true_step d db s ls r b clear w st p bz :
  overlay w s ls r b → fresh_world w → w_dbs w !! d = Some db → state db = Some s →
  stateBN db = Some p → w_u64 w !! p = Some bz → tracked w r → (N ≤ w_calls w)%nat →
  w_states w !! r = Some st → 0 ≤ deriveCnt st → deriveCnt st + 1 < 2 ^ 63 →
  ∃ w', InitState d true clear w = (Ok tt, w') ∧
    refines answer [w_next w] [r] r b w' d
      (with_refund (refundGas db) (start_abs
        (mkFrame (remote_at answer b) (λ _, false) (chain_logs w [r]) (λ _, None) (currentTxHash st))
        (deriveCnt st + 1))) ∧
    clean answer b w' r ∧ tracked w' r ∧ repinned r d db w w'.
Proof.
  intros Hov Hf Hdb Hs Hbn Hu64 Ht Hn Hst H0' Hd. pose proof Hov as (_ & _ & Hready).
  destruct (init_true_run d db s ls r b clear w p bz st Hov Hdb Hs Hbn Hu64 Ht Hn Hst)
    as (w2 & w3 & st2 & Hro & Hcl & Htr & Hst2 & Hrun & Hinit & Hdb4).
  set (w1 := with_dbs (alter (set_state (Some r)) d) w) in *. set (n := w_next w2) in *.
  set (w4 := with_dbs (alter (set_state (Some n)) d) w3) in *.
  destruct (root_only_kept r w1 w2 st Hro Hst) as (st2' & E & Hdc & Hlg & Htx & Hpa & Hbn2).
  rewrite Hst2 in E. injection E as <-.
  destruct (Derive_run r "reset and protect underlying" w2 st2 Hst2) as
    (st' & w3' & Hrun' & _ & Hnx & Hdbs & _ & Hu & Hbg & _ & _ & _ & _ & _ & _ & _ & Hcalls).
  rewrite Hrun in Hrun'. injection Hrun' as <-.
  assert (fresh_world w2) as Hf2 by (eapply root_only_fresh; [exact Hro|eauto|by apply fresh_alter_db]).
  pose proof (fw_states _ Hf2 r (mk_is_Some _ _ Hst2)) as Hlt.
  assert (layered w2 w4 r n d (set_state (Some n) db)) as Hly.
  { eapply (derive_layered _ w2 w3 w4); [done|exact Hrun|done|done|done|simpl; lia|done|done|].
    intros d'. simpl. rewrite Hnx, lookup_alter_is_Some, Hdbs. intros Hd'%Hf2. lia. }
  assert (overlay w2 r [r] r b) as Hov2.
  { pose proof (root_only_ready _ _ _ _ Hro Hready) as Hr2.
    split; [|by split]. eapply chain_root; [done|]. destruct Hr2 as (? & ? & ? & ? & _). congruence. }
  assert (agrees answer b r (.∈ [r]) w2 w4) as Hag.
  { eapply layered_agrees; [exact Hly| |done]. by intros l ->%list_elem_of_singleton. }
  assert (n = w_next w) as Hnw by apply (ro_next _ _ _ Hro).
  exists w4. rewrite <-Hnw. split; [exact Hinit|]. split; [|split; [|split]].
  - rewrite <-Hdc. apply (layered_refines answer b r w2 w4 r n d (set_state (Some n) db) [r]
      (mkFrame (remote_at answer b) (dead_in w2 r) (chain_logs w [r]) (λ _, None) (currentTxHash st)) st2
      Hly Hf2 Hov2); [|done|lia|lia|by intros l ->%list_elem_of_singleton].
    split; simpl; try done; [intros; by apply clean_observe| |by rewrite Hst2, <-Htx].
    intros h. by rewrite Hst2, Hst; simpl; rewrite Hlg.
  - by eapply clean_agrees.
  - by eapply tracked_agrees.
  - split; [by rewrite <-Hnw| | | |simpl; rewrite Hcalls; apply (ro_calls _ _ _ Hro)].
    + simpl. rewrite Hu. apply (ro_u64 _ _ _ Hro).
    + simpl. rewrite Hbg. apply (ro_bigs _ _ _ Hro).
    + rewrite (ly_others _ _ _ _ _ _ Hly) by lia. rewrite Hst2, Hst. simpl. congruence.
Qed.
End reset.
