(* ===== verification/Merge.v ===== *)
(** * Logs, receipts, merging and the state difference

    The operations of the database that walk the whole chain of layers: [GetLogs] and
    [GetReceipt] collect what the layers recorded, [MergeTo] folds the upper layers into a
    lower one, and [GetStateDiff] turns the layers above the root into an override of the
    pinned block. *)
From S2P Require Import Prelude BigInt Geth World OverlayState Fetch StateSpec OverlayStateDB.
From S2P Require Import VmStateDB Refinement Clones.

Section walks.
Context `{GethLaws} `{!Upstream}.
Context (answer : BatchElem → option RpcValue).
Implicit Types w : World.

(** ** Logs *)

Lemma logs_loop_spec fuel w s ls h logs :
  chain w s ls → (length ls < fuel)%nat →
  logs_loop fuel h (Some s) logs w = (Ok (chain_logs w ls h ++ logs), w).
Proof.
  intros Hc. revert fuel logs.
  induction Hc as [s st Hst Hp|s st p ls Hst Hp Hlt Hc IH]; intros [|fuel] logs Hf; simpl in Hf; try lia;
    cbn [logs_loop]; rewrite (bind_Ok _ _ _ _ _ (get_state_Some _ _ _ Hst)), Hp;
    cbn [chain_logs foldr]; rewrite Hst; cbn [mbind option_bind].
  - destruct fuel as [|fuel]; [lia|]. cbn [logs_loop]. by destruct (txLogs st !! h).
  - rewrite IH by lia. destruct (txLogs st !! h); simpl; by rewrite <-?app_assoc, ?app_nil_r.
Qed.

(** The record of the database and its chain. *)
Definition on_chain (w : World) (d s : loc) (ls : list loc) : Prop :=
  ∃ db, w_dbs w !! d = Some db ∧ state db = Some s ∧ chain w s ls.

Lemma refines_on_chain own base r b w d A :
  refines answer own base r b w d A → ∃ s own', own = s :: own' ∧ on_chain w d s (own ++ base).
Proof.
  intros Href. destruct (refines_top _ _ _ _ _ _ _ _ Href) as
    (db & s & own' & st & -> & Hdb & Hs & _ & _ & (Hc & _) & _).
  exists s, own'. split; [done|]. by exists db.
Qed.

Lemma GetLogs_run w d s ls h :
  on_chain w d s ls → GetLogs d h w = (Ok (chain_logs w ls h), w).
Proof.
  intros (db & Hdb & Hs & Hc). unfold GetLogs.
  rewrite (bind_Ok _ _ _ _ _ (get_db_Some _ _ _ Hdb)), Hs. cbn [default].
  rewrite (logs_loop_spec _ w s ls) by (done || (apply chain_length in Hc; simpl; lia)).
  by rewrite app_nil_r.
Qed.

(** ** Receipts *)

Lemma receipt_loop_spec fuel w d s0 ls0 s ls h :
  on_chain w d s0 ls0 → chain w s ls → (length ls ≤ fuel)%nat →
  receipt_loop fuel d h s w =
    match find_receipt w ls h with
    | Some r => (Ok (Some r), with_receipts (alter (set_Logs (Some (chain_logs w ls0 h))) r) w)
    | None => (Ok None, w)
    end.
Proof.
  intros Hd Hc. revert fuel.
  induction Hc as [s st Hst Hp|s st p ls Hst Hp Hlt Hc IH]; intros [|fuel] Hf; simpl in Hf; try lia;
    cbn [receipt_loop]; rewrite (bind_Ok _ _ _ _ _ (get_state_Some _ _ _ Hst)), Hp; [done|].
  pose proof (chain_head _ _ _ Hc) as [ls' ->]. cbn [find_receipt]. rewrite Hst. cbn [mbind option_bind].
  destruct (receipts st !! h) as [r|].
  - by rewrite (bind_Ok _ _ _ _ _ (GetLogs_run _ _ _ _ _ Hd)).
  - apply IH. lia.
Qed.

(** ** Merging *)

Lemma merge_step w s p ls st :
  w_states w !! s = Some st → parent st = Some p → chain w p (p :: ls) → (p < s)%nat →
  let w' := with_states (alter (set_scratchPad (λ m, scratchPad st ∪ m)) p) w in
  chain w' p (p :: ls) ∧ view w' (p :: ls) = view w (s :: p :: ls) ∧
  (∀ l, deriveCnt <$> w_states w' !! l = deriveCnt <$> w_states w !! l) ∧ w_dbs w' = w_dbs w.
Proof.
  intros Hst Hp Hc Hlt w'. pose proof (chain_lookup _ _ _ Hc) as [pst Hpst].
  pose proof (chain_not_in_tail _ _ _ Hc) as Hnin. split; [|split; [|split]].
  - eapply chain_ext; [|exact Hc]. intros l st0 _ Hst0. simpl. rewrite lookup_alter.
    case_decide; [subst; rewrite Hst0; by eexists|eauto].
  - change (pad w' p ∪ view w' ls = pad w s ∪ (pad w p ∪ view w ls)).
    unfold w'. rewrite view_alter_other by done.
    rewrite (pad_alter _ _ _ _ Hpst). simpl.
    rewrite (pad_lookup _ _ _ Hst), (pad_lookup _ _ _ Hpst). by rewrite map_union_assoc.
  - intros l. simpl. rewrite lookup_alter. case_decide; [subst|done]. by destruct (w_states w !! l).
  - done.
Qed.

(** The run of [MergeTo] stops at layer [t], whose pad has then absorbed those above. *)
Lemma merge_loop_spec fuel d id s up t rest w :
  chain w s (up ++ t :: rest) → (length up < fuel)%nat →
  deriveCnt <$> w_states w !! t = Some id →
  Forall (λ l, deriveCnt <$> w_states w !! l ≠ Some id) up →
  ∃ w1, merge_loop fuel d id s w = (Ok tt, with_dbs (alter (set_state (Some t)) d) w1) ∧
    chain w1 t (t :: rest) ∧ view w1 (t :: rest) = view w (up ++ t :: rest) ∧ w_dbs w1 = w_dbs w ∧
    w_u64 w1 = w_u64 w ∧ w_next w1 = w_next w.
Proof.
  revert fuel s w. induction up as [|l up IH]; intros fuel s w Hc Hf Ht Hup; (destruct fuel as [|fuel]; [simpl in Hf; lia|]).
  - pose proof (chain_head _ _ _ Hc) as [? [= -> ->]]. pose proof (chain_lookup _ _ _ Hc) as [st Hst].
    cbn [merge_loop]. rewrite (bind_Ok _ _ _ _ _ (get_state_Some _ _ _ Hst)).
    rewrite Hst in Ht. simpl in Ht. injection Ht as ->. rewrite Z.eqb_refl. by exists w.
  - pose proof (chain_head _ _ _ Hc) as [? [= -> _]]. apply Forall_cons in Hup as [Hl Hup].
    cbn [app] in *. inversion Hc as [? ? Hst Hp Heq|? st p ls Hst Hp Hlt Hcp]; simplify_eq.
    { by destruct up. }
    rewrite Hst in Hl. simpl in Hl. cbn [merge_loop].
    rewrite (bind_Ok _ _ _ _ _ (get_state_Some _ _ _ Hst)).
    rewrite (proj2 (Z.eqb_neq _ _)) by congruence.
    rewrite Hp, (bind_Ok (non_nil (Some p)) _ w p w) by done.
    unfold update_state. rewrite bind_modify.
    pose proof (chain_head _ _ _ Hcp) as [ls' Els]. rewrite Els in Hcp.
    destruct (merge_step w s p ls' st Hst Hp Hcp Hlt) as (Hc1 & Hv1 & Hd1 & Hdb1).
    set (w1 := with_states _ w) in *. rewrite <-Els in Hc1, Hv1. simpl in Hf.
    destruct (IH fuel p w1 Hc1) as (w2 & Hrun & Hc2 & Hv2 & Hdb2 & Hu2 & Hn2); [lia|by rewrite Hd1| |].
    { eapply Forall_impl; [exact Hup|]. intros l Hne. by rewrite Hd1. }
    exists w2. split_and!; try done. rewrite Hv2, Hv1, Els. done.
Qed.
End walks.
