(* ===== verification/StateDiff.v ===== *)
(** * The state difference

    [GetStateDiff] overrides the pinned block with exactly the entries of the layers above
    the root: applying the override to the root's view gives back what the database
    shows. *)
From S2P Require Import Prelude BigInt Geth World OverlayState Fetch StateSpec OverlayStateDB.
From S2P Require Import VmStateDB Refinement Clones Merge.

(** ** Fields of an override *)

Section fields.
Context `{Geth}.

(** The value a read of the given kind returns for the stored bytes. *)
Definition val_of (act : RequestType) (v : bytes) : Res :=
  match act with
  | GET_BALANCE => RInt (SetBytes v)
  | GET_NONCE => RInt (Uint64 (SetBytes v))
  | GET_CODE | GET_CODEHASH => RBytes v
  | GET_STATE => RHash (BytesToHash v)
  end.

(** The field of an override for a read; overrides have no code hash. *)
Definition ov_get (o : OverrideAccount) (act : RequestType) (key : Hash) : option Res :=
  match act with
  | GET_BALANCE => RInt <$> ov_Balance o
  | GET_NONCE => RInt <$> ov_Nonce o
  | GET_CODE => RBytes <$> ov_Code o
  | GET_CODEHASH => None
  | GET_STATE => RHash <$> (ov_StateDiff o ≫= (.!! key))
  end.

Definition ov_upd (o : OverrideAccount) (act : RequestType) (key : Hash) (v : bytes) : OverrideAccount :=
  match act with
  | GET_BALANCE => set_ov_Balance (SetBytes v) o
  | GET_NONCE => set_ov_Nonce (Uint64 (SetBytes v)) o
  | GET_CODE => set_ov_Code v o
  | GET_CODEHASH => o
  | GET_STATE => set_ov_StateDiff key (BytesToHash v) o
  end.

Lemma ov_get_upd o act0 key0 v act key :
  act ≠ GET_CODEHASH →
  ov_get (ov_upd o act0 key0 v) act key =
  if decide (act = act0 ∧ (act = GET_STATE → key = key0)) then Some (val_of act v) else ov_get o act key.
Proof.
  intros Hact. destruct act0, act; try done; try (by rewrite decide_False by (intros []; congruence));
    try (by rewrite decide_True by done).
  simpl. rewrite lookup_insert. case_decide as E.
  - subst. by rewrite decide_True.
  - rewrite decide_False by (intros [_ E']; by rewrite E' in E).
    by destruct (ov_StateDiff o).
Qed.
End fields.

(** ** One round of the loop *)

Section loop.
Context `{GethLaws} `{!Upstream}.
Context (answer : BatchElem → option RpcValue).
Implicit Types w : World.

Lemma slice_app_l {A} (l1 l2 l3 : list A) :
  slice (l1 ++ l2 ++ l3) (Z.of_nat (length l1)) (Z.of_nat (length l1 + length l2)) = Some l2.
Proof.
  unfold slice. rewrite decide_True by (rewrite !length_app; lia).
  rewrite Nat2Z.id, drop_app_length. f_equal.
  replace (Z.to_nat _) with (length l2) by lia. by rewrite take_app_length.
Qed.

Lemma subslice_app (l1 l2 l3 : bytes) b e w :
  b = Z.of_nat (length l1) → e = Z.of_nat (length l1 + length l2) →
  subslice (l1 ++ l2 ++ l3) b e w = (Ok l2, w).
Proof. intros -> ->. unfold subslice. by rewrite slice_app_l. Qed.

(** The clone's top layer holds the merged pad. *)
Definition holds (w : World) (c : loc) (merged : gmap bytes bytes) : Prop :=
  ∃ db n st p, w_dbs w !! c = Some db ∧ state db = Some n ∧ w_states w !! n = Some st ∧
    parent st = Some p ∧ scratchPad st = merged.

Lemma holds_read w c merged a act key v :
  holds w c merged → merged !! scratchpadKey a act key = Some v → read c a act key w = (Ok v, w).
Proof.
  intros (db & n & st & p & Hdb & Hs & Hst & Hp & <-) Hv. unfold read.
  rewrite (bind_Ok _ _ _ _ _ (top_run _ _ _ _ Hdb Hs)). unfold get. cbn [get_].
  rewrite (bind_Ok _ _ _ _ _ (get_state_Some _ _ _ Hst)), Hp, Hv. done.
Qed.

(** The head of [diff_key]: the tag and the account of a key. *)
Lemma diff_key_head w c accounts op a rest :
  diff_key c accounts (calcKey op a ++ rest) w =
  (let override := default override_empty (accounts !! a) in
   if decide (op = BALANCE_KEY) then
     balance ← GetBalance c a; mret (<[a := set_ov_Balance balance override]> accounts)
   else if decide (op = NONCE_KEY) then
     nonce ← GetNonce c a; mret (<[a := set_ov_Nonce nonce override]> accounts)
   else if decide (op = CODE_KEY) then
     code ← GetCode c a; mret (<[a := set_ov_Code code override]> accounts)
   else if decide (op = STATE_KEY) then
     sb ← subslice (calcKey op a ++ rest) 52 84;
     v ← GetState c a (BytesToHash sb);
     mret (<[a := set_ov_StateDiff (BytesToHash sb) v override]> accounts)
   else mret (<[a := override]> accounts)) w.
Proof.
  unfold diff_key. pose proof (length_Hash_Bytes op) as Hh. pose proof (length_Address_Bytes a) as Ha.
  assert (subslice (calcKey op a ++ rest) 0 32 w = (Ok (Hash_Bytes op), w)) as E1.
  { unfold calcKey. rewrite <-app_assoc. apply (subslice_app []); simpl; lia. }
  assert (subslice (calcKey op a ++ rest) 32 52 w = (Ok (Address_Bytes a), w)) as E2.
  { unfold calcKey. rewrite <-app_assoc. apply subslice_app; lia. }
  rewrite (bind_Ok _ _ _ _ _ E1), (bind_Ok _ _ _ _ _ E2).
  by rewrite BytesToHash_Hash_Bytes, BytesToAddress_Address_Bytes.
Qed.

Lemma diff_key_run w c merged accounts a act key v :
  holds w c merged → merged !! scratchpadKey a act key = Some v →
  diff_key c accounts (scratchpadKey a act key) w =
  (Ok (<[a := ov_upd (default override_empty (accounts !! a)) act key v]> accounts), w).
Proof.
  intros Hh Hv. pose proof tags_distinct as Ht. destruct_and!.
  pose proof (λ act key E, holds_read _ _ _ a act key v Hh E) as Hread.
  destruct act; simpl in Hv |- *.
  1-4: rewrite <-(app_nil_r (calcKey _ a)), diff_key_head, ?decide_False, ?decide_True by congruence.
  - unfold GetBalance. rewrite bind_assoc.
    by rewrite (bind_Ok _ _ _ _ _ (Hread GET_BALANCE Hash_zero Hv)).
  - unfold GetNonce. rewrite bind_assoc.
    by rewrite (bind_Ok _ _ _ _ _ (Hread GET_NONCE Hash_zero Hv)).
  - unfold GetCode. by rewrite (bind_Ok _ _ _ _ _ (Hread GET_CODE Hash_zero Hv)).
  - done.
  - unfold calcStateKey at 1. rewrite diff_key_head. cbn zeta.
    rewrite decide_False by congruence. rewrite decide_False by congruence.
    rewrite decide_False by congruence. rewrite decide_True by done.
    assert (subslice (calcKey STATE_KEY a ++ Hash_Bytes key) 52 84 w = (Ok (Hash_Bytes key), w)) as E.
    { pose proof (subslice_app (calcKey STATE_KEY a) (Hash_Bytes key) [] 52 84 w) as E.
      rewrite app_nil_r in E. apply E; rewrite ?length_calcKey, ?length_Hash_Bytes; lia. }
    rewrite (bind_Ok _ _ _ _ _ E), BytesToHash_Hash_Bytes.
    unfold GetState, GetCommittedState. rewrite bind_assoc.
    by rewrite (bind_Ok _ _ _ _ _ (Hread GET_STATE key Hv)).
Qed.

Lemma diff_key_suicide w c accounts a :
  diff_key c accounts (calcKey SUICIDE_KEY a) w =
  (Ok (<[a := default override_empty (accounts !! a)]> accounts), w).
Proof.
  pose proof tags_distinct as Ht. destruct_and!.
  rewrite <-(app_nil_r (calcKey _ a)), diff_key_head. cbn zeta.
  by rewrite !decide_False by congruence.
Qed.

(** ** The whole loop *)

(** The entries of [merged] among the keys already visited. *)
Definition visited (merged : gmap bytes bytes) (ks : list bytes) (k : bytes) : option bytes :=
  if decide (k ∈ ks) then merged !! k else None.

Definition reflects (merged : gmap bytes bytes) (ks : list bytes)
    (accounts : gmap Address OverrideAccount) : Prop :=
  ∀ a act key, act ≠ GET_CODEHASH →
    ov_get (default override_empty (accounts !! a)) act key =
    val_of act <$> visited merged ks (scratchpadKey a act key).

Lemma visited_snoc merged ks k k' :
  visited merged (ks ++ [k]) k' = if decide (k' = k) then merged !! k' else visited merged ks k'.
Proof.
  unfold visited. destruct (decide (k' = k)) as [->|Hne].
  - rewrite decide_True; [done|]. apply elem_of_app. right. by left.
  - destruct (decide (k' ∈ ks)) as [Hin|Hin].
    + rewrite decide_True; [done|]. apply elem_of_app. by left.
    + rewrite decide_False; [done|]. rewrite elem_of_app, list_elem_of_singleton. tauto.
Qed.

Lemma reflects_step merged ks accounts a act key v :
  reflects merged ks accounts → merged !! scratchpadKey a act key = Some v →
  reflects merged (ks ++ [scratchpadKey a act key])
    (<[a := ov_upd (default override_empty (accounts !! a)) act key v]> accounts).
Proof.
  intros Hr Hv a' act' key' Hact'. rewrite visited_snoc, lookup_insert.
  destruct (decide (scratchpadKey a' act' key' = scratchpadKey a act key)) as [E|E].
  - rewrite E, Hv. apply scratchpadKey_inj in E as (-> & -> & Hkey).
    rewrite decide_True by done. simpl. rewrite ov_get_upd by done. by rewrite decide_True.
  - case_decide as Ha; [subst a'|by apply Hr]. simpl. rewrite ov_get_upd by done.
    rewrite decide_False; [by apply Hr|]. intros [-> Hkey]. apply E.
    destruct act; try done. simpl. by rewrite Hkey.
Qed.

Lemma diff_loop w c merged ks ks' accounts :
  holds w c merged → (∀ k, is_Some (merged !! k) → wf_key k) →
  (∀ k, k ∈ ks' → is_Some (merged !! k)) → reflects merged ks accounts →
  ∃ accounts', fold_m (diff_key c) accounts ks' w = (Ok accounts', w) ∧
    reflects merged (ks ++ ks') accounts'.
Proof.
  intros Hh Hwf. revert ks accounts. induction ks' as [|k ks' IH]; intros ks accounts Hin Hr.
  { exists accounts. by rewrite app_nil_r. }
  destruct (Hin k ltac:(left)) as [v Hv]. cbn [fold_m].
  replace (ks ++ k :: ks') with ((ks ++ [k]) ++ ks') by by rewrite <-app_assoc.
  destruct (Hwf k ltac:(eauto)) as [(a & act & key & ->)|[a ->]].
  - rewrite (bind_Ok _ _ _ _ _ (diff_key_run _ _ _ accounts _ _ _ _ Hh Hv)).
    apply IH; [intros; apply Hin; by right|]. by apply reflects_step.
  - rewrite (bind_Ok _ _ _ _ _ (diff_key_suicide w c accounts a)).
    apply IH; [intros; apply Hin; by right|]. intros a' act' key' Hact'.
    rewrite visited_snoc, decide_False by (intros E; by apply (suicide_key_separate a a' act' key')).
    rewrite lookup_insert. case_decide as Ha; [subst|]; by apply Hr.
Qed.

(** ** The merged pad *)

Lemma merged_loop_spec fuel w s ls r m :
  chain w s (ls ++ [r]) → (length ls < fuel)%nat →
  merged_loop fuel s m w = (Ok (m ∪ view w ls), w).
Proof.
  revert fuel s m. induction ls as [|l ls IH]; intros fuel s m Hc Hf;
    (destruct fuel as [|fuel]; [simpl in Hf; lia|]); cbn [app] in Hc.
  - pose proof (chain_last _ _ _ Hc) as (r' & st & [= <-] & Hst & Hp).
    pose proof (chain_head _ _ _ Hc) as [? [= -> _]].
    cbn [merged_loop]. rewrite (bind_Ok _ _ _ _ _ (get_state_Some _ _ _ Hst)), Hp.
    simpl. by rewrite map_union_empty.
  - pose proof (chain_head _ _ _ Hc) as [? [= -> _]].
    inversion Hc as [? ? Hst Hp Heq|? st p ls' Hst Hp Hlt Hcp]; simplify_eq; [by destruct ls|].
    cbn [merged_loop]. rewrite (bind_Ok _ _ _ _ _ (get_state_Some _ _ _ Hst)), Hp.
    rewrite IH by (done || (simpl in Hf; lia)). do 2 f_equal.
    change (m ∪ scratchPad st ∪ view w ls = m ∪ (pad w s ∪ view w ls)).
    by rewrite (pad_lookup _ _ _ Hst), map_union_assoc.
Qed.

Lemma view_app_root w ls r k :
  view w (ls ++ [r]) !! k = match view w ls !! k with Some v => Some v | None => view w [r] !! k end.
Proof.
  induction ls as [|l ls IH]; [simpl; by rewrite lookup_empty|].
  cbn [app]. rewrite (view_cons w l (ls ++ [r])), (view_cons w l ls), IH.
  by destruct (pad w l !! k).
Qed.

Lemma view_wf own base r b w d A ls :
  refines answer own base r b w d A → own ++ base = ls ++ [r] → wf_pad (view w ls).
Proof.
  intros Href Els. destruct (refines_top _ _ _ _ _ _ _ _ Href) as (? & ? & own' & ? & -> & _ & _ & _ & _ & (Hc & _) & _).
  pose proof (chain_NoDup _ _ _ Hc) as Hnd.
  change (x0 :: own' ++ base) with ((x0 :: own') ++ base) in Hnd. rewrite Els in Hnd.
  apply NoDup_app in Hnd as (_ & Hr & _).
  assert (∀ l, l ∈ ls → wf_pad (pad w l)) as Hall.
  { intros l Hl. apply (rf_wf _ _ _ _ _ _ _ _ Href); [rewrite Els; apply elem_of_app; by left|].
    intros ->. apply (Hr r Hl). by left. }
  clear -Hall. induction ls as [|l ls IH]; [by intros k [? Hk]|].
  intros k Hk. rewrite view_cons in Hk. destruct (pad w l !! k) eqn:E; [apply (Hall l); [left|by eexists]|].
  apply IH; [|done]. intros l' Hl'. apply Hall. by right.
Qed.

(** All keys, in the order of the map. *)
Lemma diff_all w c merged :
  holds w c merged → (∀ k, is_Some (merged !! k) → wf_key k) →
  ∃ D, fold_m (diff_key c) ∅ (map_to_list merged).*1 w = (Ok D, w) ∧ ∀ a act key, act ≠ GET_CODEHASH →
    ov_get (default override_empty (D !! a)) act key = val_of act <$> merged !! scratchpadKey a act key.
Proof.
  intros Hh Hwf. destruct (diff_loop w c merged [] (map_to_list merged).*1 ∅ Hh Hwf) as (D & HD & Hrefl).
  - intros k. rewrite list_elem_of_fmap. intros ([k' v] & -> & Hkv). apply elem_of_map_to_list in Hkv. simpl. eauto.
  - intros a act key Hact. rewrite lookup_empty. unfold visited. rewrite decide_False by apply not_elem_of_nil.
    by destruct act.
  - exists D. split; [exact HD|]. intros a act key Hact. rewrite (Hrefl a act key Hact). f_equal.
    unfold visited. case_decide as Hk; [done|]. symmetry. apply eq_None_not_Some. intros [v Hv].
    apply Hk. simpl. apply list_elem_of_fmap. eexists (_, v). split; [done|]. by apply elem_of_map_to_list.
Qed.

(** A layer that a clone has to itself can be overwritten. *)
Lemma agrees_alter b r n f w (P : loc → Prop) :
  (r < n)%nat → (∀ l, P l → (l < n)%nat) → agrees answer b r P w (with_states (alter f n) w).
Proof.
  intros Hr HP. split; [intros l Hl%HP _|simpl; rewrite lookup_alter_ne; [done|lia]|done|by eauto].
  simpl. rewrite lookup_alter_ne; [done|lia].
Qed.

(** [GetStateDiff] on a database that shows a state. *)
Lemma GetStateDiff_step own base r b d w A ls st :
  refines answer own base r b w d A → own ++ base = ls ++ [r] → w_states w !! r = Some st →
  0 ≤ deriveCnt st → deriveCnt st + 1 < 2 ^ 63 →
  ∃ D w', GetStateDiff d w = (Ok D, w') ∧ refines answer own base r b w' d A ∧
    confined answer b r d own w own w' ∧
    ∀ a act key, act ≠ GET_CODEHASH →
      ov_get (default override_empty (D !! a)) act key = val_of act <$> view w ls !! scratchpadKey a act key ∧
      default (val_of act (observe answer b w [r] a act key))
        (ov_get (default override_empty (D !! a)) act key) = val_of act (f_obs (a_frame A) a act key).
Proof.
  intros Href Els Hst H0' Hd.
  assert (wf_pad (view w ls)) as Hwf by by eapply view_wf.
  destruct (refines_top _ _ _ _ _ _ _ _ Href) as
    (db & s & own' & sst & -> & Hdb & Hs & Hsst & _ & (Hc & _) & Hsh & _).
  destruct (clone_root_step answer _ base r b w d A st Href Hst H0' Hd) as (w1 & Hrun1 & Hc1 & Hd1 & _ & Hne & Hconf).
  set (c := S (w_next w)) in *. set (n := w_next w) in *. set (merged := view w ls).
  destruct (refines_top _ _ _ _ _ _ _ _ Hc1) as
    (cdb & n' & ? & nst & [= <- <-] & Hcdb & Hcs & Hnst & _ & (Hcc & _) & _).
  set (w2 := with_states (alter (set_scratchPad (λ _, merged)) n) w1).
  assert (holds w2 c merged) as Hh.
  { inversion Hcc as [? ? E1 E2|? ? p ? E1 E2]; simplify_eq.
    exists cdb, n, (set_scratchPad (λ _, merged) nst), p. split_and!; try done.
    simpl. by rewrite lookup_alter_eq, Hnst. }
  destruct (diff_all w2 c merged Hh Hwf) as (D & HD & Hov).
  assert (∀ l, l ∈ (s :: own') ++ base → (l < n)%nat) as Hlow by (intros l; by eapply refines_members).
  assert (r < n)%nat as Hrn by (apply Hlow; rewrite Els; apply elem_of_app; right; by left).
  pose proof (λ P, agrees_alter b r n (set_scratchPad (λ _, merged)) w1 P Hrn) as Hag2. fold w2 in Hag2.
  exists D, w2. split; [|split; [|split]].
  - unfold GetStateDiff, getMergedScratchPad. rewrite bind_assoc.
    rewrite (bind_Ok _ _ _ _ _ (top_run _ _ _ _ Hdb Hs)). cbn [app] in Els. rewrite Els in Hc.
    assert (merged_loop (S s) s ∅ w = (Ok merged, w)) as Hm.
    { rewrite (merged_loop_spec _ w s ls r) by (done || (apply chain_length in Hc; rewrite length_app in Hc; simpl in Hc; lia)).
      by rewrite map_empty_union. }
    rewrite (bind_Ok _ _ _ _ _ Hm), (bind_Ok _ _ _ _ _ Hrun1).
    rewrite (bind_Ok _ _ _ _ _ (top_run _ _ _ _ Hcdb Hcs)).
    by rewrite (bind_Ok (update_state n _) _ w1 tt w2).
  - eapply refines_frame; [exact Hd1| |done|].
    + apply Hag2. intros l Hl. by apply Hlow.
    + destruct (refines_fresh _ _ _ _ _ _ _ _ Hd1) as [F1 F2 F3]. split; [|done|done].
      intros l. simpl. rewrite lookup_alter_is_Some. apply F1.
  - destruct Hconf. split; try done.
    + etrans; [eapply agrees_mono; [|exact cf_layers]|apply Hag2; by intros l [_ ?]].
      intros l [_ Hl]. split; [by intros ?%elem_of_nil|done].
    + intros d' _ Hd'. apply cf_dbs; [|done]. unfold c. lia.
    + by left.
    + intros Hlt. f_equal. by apply cf_dbs.
  - intros a act key Hact. split; [by apply Hov|]. rewrite Hov by done. rewrite <-(sh_obs _ _ _ _ _ _ Hsh). cbn [app] in Els. rewrite Els.
    unfold observe. rewrite view_app_root. unfold merged. by destruct (view w ls !! _).
Qed.
End loop.
