(* ===== verification/ToyNode.v ===== *)
(** * A concrete node

    An upstream node that fails its first round trip and then answers every request, a
    world with one block number, and the state database built on it.  The examples of the
    property files run on it. *)
From S2P Require Import Prelude BigInt Geth World OverlayState Fetch StateSpec OverlayStateDB.
From S2P Require Import VmStateDB Refinement Clones Chain GoSlice ToyInstance.

Module ToyNode.
Export ToyInstance.ToyCore.

(** Balance 1000, nonce 7, one byte of code; a slot holds its own key. *)
Definition answer (e : BatchElem) : option RpcValue :=
  if decide (Method e = "eth_getBalance") then Some (ValBig 1000)
  else if decide (Method e = "eth_getTransactionCount") then Some (ValUint64 7)
  else if decide (Method e = "eth_getCode") then Some (ValBytes [x60])
  else match Args e with _ :: ArgHash k :: _ => Some (ValHash k) | _ => None end.

#[export] Instance upstream : Upstream := {|
  batch_call n reqs := match n with O => None | S _ => Some (answer <$> reqs) end;
  storage_at n a k z := Some (Hash_Bytes k);
  rand_uint64 n := Z.of_nat n;
  patience := 3;
  start_time_rich := [x01];
  start_time_rand := [x02]
|}.

Lemma reliable : Reliable answer 1.
Proof.
  split; simpl.
  - intros [|n] reqs vs; [discriminate|]. intros E. injection E as <-. reflexivity.
  - intros [|n] reqs Hn; [lia|]. eexists. reflexivity.
  - lia.
Defined.

(** Block 100, at location 0. *)
Definition w0 : World := mkWorld ∅ ∅ ∅ {[0%nat := 100]} ∅ 1 0 0 ∅.

Lemma w0_fresh : fresh_world w0.
Proof.
  split; intros l Hl; exfalso; unfold w0 in Hl; simpl in Hl; rewrite lookup_empty in Hl;
    destruct Hl as [x Hx]; discriminate Hx.
Defined.

(** The database is at location 3, over the root 1 with the layer 2. *)
Definition w1 : World := (NewOverlayStateDB (Some 0%nat) "keys" 10 2 w0).2.

Lemma w1_run : NewOverlayStateDB (Some 0%nat) "keys" 10 2 w0 = (Ok 3%nat, w1).
Proof. reflexivity. Defined.

Definition A1 : Abs := start_abs (pinned_frame answer 100) 1.

Lemma w1_ready : refines answer [2%nat] [1%nat] 1%nat 100 w1 3%nat A1 ∧
  clean answer 100 w1 1%nat ∧ tracked w1 1%nat ∧
  w_dbs w1 !! 3%nat = Some (mkOverlayStateDB "keys" 10 0 (Some 2%nat) (Some 0%nat)) ∧
  w_u64 w1 !! 0%nat = Some 100.
Proof.
  destruct (new_db_step answer w0 0%nat 100 "keys" 10 2 w0_fresh eq_refl ltac:(lia))
    as (w' & Hrun & H1 & H2 & H3 & H4 & H5 & _).
  change (w_next w0) with 1%nat in *. rewrite w1_run in Hrun.
  assert (w' = w1) as Ew by (injection Hrun; intros; congruence). subst w'. split_and!; assumption.
Defined.

Lemma w1_refines : refines answer [2%nat] [1%nat] 1%nat 100 w1 3%nat A1.
Proof. exact (proj1 w1_ready). Defined.
End ToyNode.
