(* ===== verification/StateProps.v ===== *)
(** * The properties of the layered state

    The theorems about mferstate, each with an example on the concrete node: the contract
    of the state database, isolation of clones, snapshots, the pinned block and its
    replacement, logs, receipts, merging, the state difference, and the limits of the
    encodings. *)
From S2P Require Import Prelude BigInt Geth World OverlayState Fetch StateSpec OverlayStateDB.
From S2P Require Import VmStateDB Refinement Clones Reset Merge StateDiff Chain GoSlice.
From S2P Require Import ToyInstance ToyNode.

(** ** The contract *)

Section contract.
Context `{GethLaws} `{!Upstream}.
Context (answer : BatchElem → option RpcValue) (N : nat) (HN : Reliable answer N).
Implicit Types w : World.

(** C6: the database implements the contract of [vm.StateDB].  Whatever sequence of calls
    the EVM makes, depending on earlier results, it gets the results of the abstract
    state; the database ends in a state that refines the abstract one; and nothing was
    touched but its own layers, new layers and the root's cache. *)
Theorem evm_program_refines {X} (p : EvmProg X) own base r b d w A x A' :
  refines answer own base r b w d A → spec_prog p A = Some (x, A') →
  ∃ w' own', exec d p w = (Ok x, w') ∧ refines answer own' base r b w' d A' ∧
    confined answer b r d own w own' w'.
Proof. exact (exec_refines answer N HN base r b d p own w A x A'). Qed.

(** C18: code run on a clone gets the results of the abstract state it was cloned from, and
    leaves the original database showing exactly what it showed. *)
Theorem clone_isolated {X} (p : EvmProg X) own base r b d w A x A' :
  refines answer own base r b w d A → a_depth A + 1 < 2 ^ 63 →
  spec_prog p (start_abs (a_frame A) (a_depth A + 1)) = Some (x, A') →
  ∃ w', (c ← Clone d; exec c p) w = (Ok x, w') ∧ refines answer own base r b w' d A.
Proof.
  intros Href Hd Hp.
  destruct (clone_step answer own base r b w d A Href Hd) as (w1 & Hrun & Hc & Hd1 & _ & Hne & _).
  destruct (exec_refines _ N HN _ _ _ _ p _ _ _ _ _ Hc Hp) as (w2 & own2 & Hrun2 & Hc2 & Hconf).
  exists w2. rewrite (bind_Ok _ _ _ _ _ Hrun). split; [done|].
  eapply confined_frame; [exact Hd1|exact Hconf|congruence| |by eapply refines_fresh].
  intros l Hl Hin. apply list_elem_of_singleton in Hl as ->.
  eapply refines_members in Hin; [|exact Href]. lia.
Qed.

(** C19: a snapshot taken before a program and reverted after it restores everything the
    database showed (accounts, storage, suicides and logs) and the snapshots that
    were live before; the refund counter is not restored. *)
Theorem snapshot_revert {X} (p : EvmProg X) n own base r b d w A :
  refines answer own base r b w d A → a_depth A + 1 + n < 2 ^ 63 → 0 ≤ n → disciplined n p →
  ∃ x w' own' g,
    (id ← Snapshot d; x ← exec d p; RevertToSnapshot d id ;; mret x) w = (Ok x, w') ∧
    refines answer own' base r b w' d (mkAbs (a_frame A) (a_depth A) (a_saved A) g) ∧
    confined answer b r d own w own' w'.
Proof.
  intros Href Hd Hn Hdis.
  destruct (snapshot_step answer base r b d own w A Href ltac:(lia)) as (w1 & Hrun1 & Href1 & Hconf1).
  set (S1 := mkAbs _ _ _ _) in Href1.
  destruct (Hdis S1) as (x & S2 & new & Hp & Hsaved & Hnew & _); [simpl; lia|].
  destruct (exec_refines answer N HN base r b d p _ _ _ _ _ Href1 Hp) as (w2 & own2 & Hrun2 & Href2 & Hconf2).
  assert (find_saved (a_depth A + 1) (a_saved S2) = Some (a_frame A, a_saved A)) as Hfind.
  { rewrite Hsaved. simpl in Hnew |- *. clear -Hnew. induction Hnew as [|[i F] l Hi _ IH]; simpl.
    - by rewrite Z.eqb_refl.
    - simpl in Hi. by rewrite (proj2 (Z.eqb_neq _ _)) by lia. }
  destruct (revert_step answer base r b d _ _ _ _ _ _ Href2 Hfind) as (w3 & own3 & Hrun3 & Href3 & Hconf3).
  exists x, w3, own3, (a_refund S2).
  rewrite (bind_Ok _ _ _ _ _ Hrun1), (bind_Ok _ _ _ _ _ Hrun2), (bind_Ok _ _ _ _ _ Hrun3).
  split; [done|]. replace (a_depth A + 1 - 1) with (a_depth A) in Href3 by lia. split; [done|].
  eapply confined_trans; [exact Hconf1|]. by eapply confined_trans.
Qed.

(** C39: reverting undoes no refund: the counter keeps what was added after the snapshot,
    and subtracting more than it holds wraps around modulo 2^64. *)
Theorem refund_survives_revert own base r b d w A n m :
  refines answer own base r b w d A → a_depth A + 1 < 2 ^ 62 →
  ∃ w', (id ← Snapshot d; AddRefund d n ;; SubRefund d m ;; RevertToSnapshot d id ;; GetRefund d) w =
    (Ok (u64 (u64 (a_refund A + n) - m)), w').
Proof.
  intros Href Hd.
  destruct (snapshot_step answer base r b d own w A Href ltac:(lia)) as (w1 & Hrun1 & Href1 & _).
  set (S1 := mkAbs _ _ _ _) in Href1.
  destruct (run_op_refines answer N HN base r b d _ w1 S1 (OpAddRefund n) _ _ Href1 eq_refl)
    as (w2 & own2 & Hrun2 & Href2 & _).
  destruct (run_op_refines answer N HN base r b d _ w2 _ (OpSubRefund m) _ _ Href2 eq_refl)
    as (w3 & own3 & Hrun3 & Href3 & _).
  assert (spec_op (OpRevertToSnapshot (a_depth A + 1)) (with_refund (u64 (u64 (a_refund A + n) - m)) S1)
    = Some (RUnit, mkAbs (a_frame A) (a_depth A + 1 - 1) (a_saved A) (u64 (u64 (a_refund A + n) - m)))) as Hsp.
  { simpl. by rewrite Z.eqb_refl. }
  destruct (run_op_refines answer N HN base r b d _ w3 _ _ _ _ Href3 Hsp) as (w4 & own4 & Hrun4 & Href4 & _).
  destruct (run_op_refines answer N HN base r b d _ w4 _ OpGetRefund _ _ Href4 eq_refl)
    as (w5 & own5 & Hrun5 & _).
  exists w5. cbn [run_op] in *.
  apply bind_Ok_inv in Hrun2 as (? & ? & Hrun2 & [= ->]). apply bind_Ok_inv in Hrun3 as (? & ? & Hrun3 & [= ->]).
  apply bind_Ok_inv in Hrun4 as (? & ? & Hrun4 & [= ->]). apply bind_Ok_inv in Hrun5 as (? & ? & Hrun5 & [= -> ->]).
  by rewrite (bind_Ok _ _ _ _ _ Hrun1), (bind_Ok _ _ _ _ _ Hrun2), (bind_Ok _ _ _ _ _ Hrun3),
    (bind_Ok _ _ _ _ _ Hrun4).
Qed.

(** A suicide is forgotten by the next snapshot: the mark is looked up in the top
    layer only, so an account destroyed before an inner call counts as alive inside. *)
Theorem suicide_hidden_by_snapshot own base r b d w A a :
  refines answer own base r b w d A → a_depth A + 1 < 2 ^ 62 →
  ∃ w', (_ ← Suicide d a; s1 ← HasSuicided d a; _ ← Snapshot d; s2 ← HasSuicided d a; mret (s1, s2)) w =
    (Ok (true, false), w').
Proof.
  intros Href Hd.
  assert (∀ own w A op res A', refines answer own base r b w d A → spec_op op A = Some (res, A') →
    ∃ w' own', run_op d op w = (Ok res, w') ∧ refines answer own' base r b w' d A') as Hstep.
  { intros own0 w0' A0 op res A' Hr Hs.
    destruct (run_op_refines answer N HN base r b d _ _ _ _ _ _ Hr Hs) as (? & ? & ? & ? & _). eauto. }
  destruct (Hstep _ _ _ (OpSuicide a) _ _ Href eq_refl) as (w1 & own1 & Hrun1 & Href1).
  destruct (Hstep _ _ _ (OpHasSuicided a) _ _ Href1 eq_refl) as (w2 & own2 & Hrun2 & Href2).
  destruct (snapshot_step answer base r b d _ _ _ Href2) as (w3 & Hrun3 & Href3 & _); [simpl; lia|].
  destruct (Hstep _ _ _ (OpHasSuicided a) _ _ Href3 eq_refl) as (w4 & own4 & Hrun4 & _).
  exists w4. cbn [run_op] in *. simpl in Hrun2. rewrite decide_True in Hrun2 by done. simpl in Hrun4.
  apply bind_Ok_inv in Hrun1 as (? & ? & Hrun1 & [= -> ->]). apply bind_Ok_inv in Hrun2 as (? & ? & Hrun2 & [= -> ->]).
  apply bind_Ok_inv in Hrun4 as (? & ? & Hrun4 & [= -> ->]).
  by rewrite (bind_Ok _ _ _ _ _ Hrun1), (bind_Ok _ _ _ _ _ Hrun2), (bind_Ok _ _ _ _ _ Hrun3),
    (bind_Ok _ _ _ _ _ Hrun4).
Qed.
End contract.

(** ** Reads and the pinned block *)

Section pinned.
Context `{GethLaws} `{!Upstream}.
Context (answer : BatchElem → option RpcValue) (N : nat) (HN : Reliable answer N).
Implicit Types w : World.

(** C20: a read returns the value of the nearest layer that wrote it and otherwise the
    node's value at the pinned block, whatever the root has cached and through any outage
    shorter than the model's patience; it changes nothing but the root's cache. *)
Theorem get_observes s ls r b a act key w :
  overlay w s ls r b →
  ∃ w', get s a act key w = (Ok (observe answer b w ls a act key), w') ∧
    evolves (grows answer b) r w w'.
Proof. exact (get_spec answer N HN s ls r b a act key w). Qed.

(** Reads are stable: whatever reads other clients make in between, reading again
    through any chain over the same root returns the same value. *)
Theorem get_stable s ls s' ls' r b a act key a' act' key' w w1 v :
  overlay w s ls r b → overlay w s' ls' r b →
  get s' a' act' key' w = (Ok v, w1) →
  ∃ w2, get s a act key w1 = (Ok (observe answer b w ls a act key), w2).
Proof.
  intros Hov Hov' Hrun.
  destruct (get_spec answer N HN _ _ _ _ a' act' key' _ Hov') as (w1' & Hrun' & Hev).
  rewrite Hrun in Hrun'. injection Hrun' as -> <-.
  pose proof (evolves_agrees answer b r (.∈ ls) _ _ Hev) as Hag.
  destruct (get_spec answer N HN s ls r b a act key w1) as (w2 & Hrun2 & _); [by eapply agrees_overlay|].
  exists w2. rewrite Hrun2. destruct Hov as (Hc & Hl & _). by erewrite observe_agrees.
Qed.

(** C37: every pending storage request of the server gets the node's value for its own
    account and slot, and none waits forever; requests for accounts likewise. *)
Theorem timeSlot_routes r b pending accounts w :
  root_ready w r b →
  (∃ w', timeSlot_storage r pending w =
     (Ok ((λ q, mkStorageReq (sr_Address q) (sr_Key q)
        (remote_slot answer (EncodeBig (i64 b)) (sr_Address q) (sr_Key q))) <$> pending), w')) ∧
  (∃ w', timeSlot_account r accounts w =
     (Ok (remote_account answer (EncodeBig (i64 b)) <$> accounts), w')).
Proof.
  intros Hready. split.
  - destruct (timeSlot_storage_spec answer N HN r b pending w Hready) as (w' & Hrun & _). eauto.
  - destruct (timeSlot_account_spec answer N HN r b accounts w Hready) as (w' & Hrun & _ & _). eauto.
Qed.

End pinned.

(** ** Batches of a bad size *)

Section bad_size.
Context `{Geth} `{!Upstream}.
Context (r p : loc) (k : Z).
Implicit Types w : World.

(** The root is set to batches of [k] requests. *)
Definition batches w : Prop :=
  ∃ st, w_states w !! r = Some st ∧ bn st = Some p ∧ batchSize st = k ∧ is_Some (w_u64 w !! p).

(** A round trip that returns, and keeps the setting. *)
Definition asks (call : nat → list BatchElem → M World (option (list (option RpcValue) * nat))) : Prop :=
  ∀ budget reqs w, batches w → ∃ o w', call budget reqs w = (Ok o, w') ∧ batches w'.

Lemma call_retrying_asks : asks call_retrying.
Proof.
  intros budget. induction budget as [|budget IH]; intros reqs w Hw; cbn [call_retrying];
    rewrite (bind_Ok _ _ _ _ _ (eq_refl : BatchCallContext reqs w = (Ok _, with_call w)));
    destruct (batch_call (w_calls w) reqs); eauto.
Qed.

Lemma call_once_asks : asks call_once.
Proof. intros budget reqs w Hw. by eexists _, (with_call w). Qed.

(** A load that sends at least one request in batches. *)
Definition loads {A} (m : nat → M World (option A)) : Prop :=
  ∀ w, batches w → ∃ call reqs budget (f : list (option RpcValue) → A) w1, asks call ∧ reqs ≠ [] ∧ batches w1 ∧
    ∀ fuel, m fuel w = (o ← batch_loop fuel call k reqs 0 budget []; mret (f <$> o)) w1.

Lemma update_batches f w :
  (∀ st, bn (f st) = bn st ∧ batchSize (f st) = batchSize st) → batches w →
  batches (with_states (alter f r) w).
Proof.
  intros Hf (st & Hst & Hp & Hk & Hb). exists (f st). destruct (Hf st) as [E1 E2].
  simpl. rewrite lookup_alter_eq, Hst, E1, E2. done.
Qed.

Lemma hexBN_batches w : batches w → ∃ hbn, hexBN r w = (Ok hbn, w).
Proof.
  intros (st & Hst & Hp & _ & [b Hb]). exists (EncodeBig (i64 b)). unfold hexBN.
  rewrite (bind_Ok _ _ _ _ _ (get_state_Some _ _ _ Hst)), Hp.
  unfold non_nil, get_u64, mbind, M_bind, deref. by rewrite Hb.
Qed.

Lemma touch_batches accounts w :
  batches w → ∃ w', for_each (λ a, update_state r (set_accessedAccounts <[a := true]>)) accounts w = (Ok tt, w') ∧
    batches w'.
Proof.
  revert w. induction accounts as [|a l IH]; intros w Hw; [by exists w|]. apply IH. by apply update_batches.
Qed.

Lemma account_loads accounts : accounts ≠ [] → loads (λ fuel, loadAccountBatchRPC_ fuel r accounts).
Proof.
  intros Hne w Hw. destruct (hexBN_batches w Hw) as [hbn Hhex].
  destruct (touch_batches accounts w Hw) as (w1 & Hrun & Hw1). pose proof Hw1 as (st & Hst & _ & <- & _).
  exists call_retrying, (accounts ≫= account_reqs hbn), 5%nat, account_results, w1.
  split_and!; [apply call_retrying_asks|by destruct accounts|done|]. intros fuel. unfold loadAccountBatchRPC_.
  rewrite (bind_Ok _ _ _ _ _ Hhex), (bind_Ok _ _ _ _ _ Hrun).
  by rewrite (bind_Ok _ _ _ _ _ (get_state_Some _ _ _ Hst)).
Qed.

Lemma state_loads pending : pending ≠ [] → loads (λ fuel, loadStateBatchRPC_ fuel r pending).
Proof.
  intros Hne w Hw. pose proof (update_batches incr_rpcCnt w (λ st, conj eq_refl eq_refl) Hw) as Hw1.
  destruct (hexBN_batches _ Hw1) as [hbn Hhex]. pose proof Hw1 as (st & Hst & _ & <- & _).
  eexists call_once, (storage_req hbn <$> pending), 0%nat, (zip_with set_value pending), _.
  split_and!; [apply call_once_asks|by destruct pending|exact Hw1|]. intros fuel. unfold loadStateBatchRPC_.
  unfold update_state at 1. rewrite bind_modify.
  by rewrite (bind_Ok _ _ _ _ _ Hhex), (bind_Ok _ _ _ _ _ (get_state_Some _ _ _ Hst)).
Qed.

(** Empty batches: the loop makes no progress. *)
Lemma batch_loop_zero fuel call reqs budget acc w :
  k = 0 → asks call → reqs ≠ [] → batches w →
  ∃ o w', batch_loop fuel call k reqs 0 budget acc w = (o, w') ∧ batches w' ∧ (o = Diverge ∨ o = Ok None).
Proof.
  intros -> Hcall Hne. assert (0 < Z.of_nat (length reqs)) as Hlen by (destruct reqs; simpl; [done|lia]).
  revert budget acc w. induction fuel as [|fuel IH]; intros budget acc w Hw; cbn [batch_loop];
    rewrite (proj2 (Z.ltb_lt _ _) Hlen); [by eexists _, w; split_and!; [..|by left]|].
  rewrite (proj2 (Z.ltb_ge _ _)) by lia. change (slice reqs 0 (0 + 0)) with (slice reqs 0 0).
  unfold slice. rewrite decide_True by lia.
  destruct (Hcall budget (take (Z.to_nat (0 - 0)) (drop (Z.to_nat 0) reqs)) w Hw) as (o & w1 & Hrun & Hw1).
  rewrite (bind_Ok _ _ _ _ _ Hrun). destruct o as [[vs budget']|]; [by apply IH|].
  exists (Ok None), w1. split_and!; [done|done|by right].
Qed.

Lemma loads_zero {A} (m : nat → M World (option A)) retries fuel w :
  k = 0 → loads m → batches w → (retry_forever retries (m fuel) w).1 = Diverge.
Proof.
  intros Hk Hm. revert w. induction retries as [|retries IH]; intros w Hw; cbn [retry_forever]; [done|].
  destruct (Hm w Hw) as (call & reqs & budget & f & w1 & Hcall & Hne & Hw1 & Hrun).
  destruct (batch_loop_zero fuel call reqs budget [] w1 Hk Hcall Hne Hw1) as (o & w2 & Hloop & Hw2 & Ho).
  unfold mbind at 1, M_bind. rewrite Hrun. destruct Ho as [-> | ->].
  - unfold mbind, M_bind. by rewrite Hloop.
  - rewrite (bind_Ok _ _ _ _ _ Hloop). by apply IH.
Qed.

(** Batches of a negative size: the first slice is out of range. *)
Lemma loads_negative {A} (m : nat → M World (option A)) retries fuel w :
  k < 0 → loads m → batches w → (retry_forever (S retries) (m (S fuel)) w).1 = Panic "slice bounds out of range".
Proof.
  intros Hk Hm Hw. destruct (Hm w Hw) as (call & reqs & budget & f & w1 & _ & Hne & _ & Hrun).
  assert (0 < Z.of_nat (length reqs)) as Hlen by (destruct reqs; simpl; [done|lia]).
  cbn [retry_forever]. unfold mbind at 1, M_bind. rewrite Hrun. cbn [batch_loop].
  rewrite (proj2 (Z.ltb_lt _ _) Hlen), (proj2 (Z.ltb_ge _ _)) by lia.
  unfold slice. by rewrite decide_False by lia.
Qed.
End bad_size.

Section bad_size_property.
Context `{Geth} `{!Upstream}.

(** C40: with no batch size, or a negative one, nothing is loaded any more.  The loops of the
    server goroutine are run here with a number of rounds for the loop over the batches and a
    number of retries.  When the batch size is zero, a load of at least one account or slot
    uses up every number of both, whatever the upstream node answers: it never ends, neither
    with a result nor with an error nor with a panic.  When it is negative, it panics at the first
    batch. *)
Theorem loads_bad_size r w st p b :
  w_states w !! r = Some st → bn st = Some p → w_u64 w !! p = Some b → batchSize st ≤ 0 →
  ∀ accounts pending, accounts ≠ [] → pending ≠ [] →
  if Z.eqb (batchSize st) 0 then
    ∀ retries fuel, (retry_forever retries (loadAccountBatchRPC_ fuel r accounts) w).1 = Diverge ∧
      (retry_forever retries (loadStateBatchRPC_ fuel r pending) w).1 = Diverge
  else
    ∀ retries fuel, (retry_forever (S retries) (loadAccountBatchRPC_ (S fuel) r accounts) w).1 =
        Panic "slice bounds out of range" ∧
      (retry_forever (S retries) (loadStateBatchRPC_ (S fuel) r pending) w).1 = Panic "slice bounds out of range".
Proof.
  intros Hst Hp Hb Hk accounts pending Ha Hq.
  assert (batches r p (batchSize st) w) as Hw by by exists st.
  pose proof (account_loads r p (batchSize st) accounts Ha) as Hla.
  pose proof (state_loads r p (batchSize st) pending Hq) as Hls.
  destruct (Z.eqb_spec (batchSize st) 0); intros retries fuel; split.
  - by apply (loads_zero r p (batchSize st) (λ fuel, loadAccountBatchRPC_ fuel r accounts)).
  - by apply (loads_zero r p (batchSize st) (λ fuel, loadStateBatchRPC_ fuel r pending)).
  - apply (loads_negative r p (batchSize st) (λ fuel, loadAccountBatchRPC_ fuel r accounts)); [lia|done..].
  - apply (loads_negative r p (batchSize st) (λ fuel, loadStateBatchRPC_ fuel r pending)); [lia|done..].
Qed.
End bad_size_property.

(** ** Pinning the block *)

Section pinning.
Context `{GethLaws} `{!Upstream}.
Context (answer : BatchElem → option RpcValue) (N : nat) (HN : Reliable answer N).
Implicit Types w : World.

(** A newly built database shows exactly the pinned block: every account and slot as
    the node has it, no suicide, no log, depth 1. *)
Theorem NewOverlayStateDB_pinned w p b path maxk batch :
  fresh_world w → w_u64 w !! p = Some b → 1 ≤ batch →
  ∃ w' d s r, NewOverlayStateDB (Some p) path maxk batch w = (Ok d, w') ∧
    refines answer [s] [r] r b w' d (start_abs (pinned_frame answer b) 1) ∧
    clean answer b w' r ∧ tracked w' r.
Proof.
  intros Hf Hp Hb. destruct (new_db_step answer w p b path maxk batch Hf Hp Hb)
    as (w' & Hrun & Href & Hcl & Htr & _). eauto 10.
Qed.

(** C21: re-pinning.  Once the node is reachable, [InitState] with a fetch returns for any
    state of the root's cache (values of other blocks included) and of the key-cache
    file, and afterwards the database shows exactly the block its number points to: no
    value read at an earlier block, and no local change, is left. *)
Theorem InitState_repins d db s ls r b clear w st p bz :
  overlay w s ls r b → fresh_world w → w_dbs w !! d = Some db → state db = Some s →
  stateBN db = Some p → w_u64 w !! p = Some bz → tracked w r → (N ≤ w_calls w)%nat →
  w_states w !! r = Some st → 0 ≤ deriveCnt st → deriveCnt st + 1 < 2 ^ 63 →
  ∃ w' n A, InitState d true clear w = (Ok tt, w') ∧ refines answer [n] [r] r b w' d A ∧
    (∀ a act key, f_obs (a_frame A) a act key = remote_at answer b a act key) ∧
    (∀ a, f_dead (a_frame A) a = false) ∧ a_depth A = deriveCnt st + 1 ∧ a_saved A = [] ∧
    clean answer b w' r ∧ tracked w' r.
Proof.
  intros Hov Hf Hdb Hs Hbn Hu Ht Hn Hst H0' Hd.
  destruct (init_true_step answer N HN d db s ls r b clear w st p bz Hov Hf Hdb Hs Hbn Hu Ht Hn Hst H0' Hd)
    as (w' & Hrun & Href & Hcl & Htr & _).
  exists w', (w_next w). eexists. split; [exact Hrun|]. split; [exact Href|]. done.
Qed.

(** Resetting to the root without a fetch discards every local change of the database
    and shows the pinned block again; the refund counter is carried over. *)
Theorem InitState_discards own base r b d w A st db p bz clear :
  refines answer own base r b w d A → clean answer b w r → w_states w !! r = Some st →
  0 ≤ deriveCnt st → deriveCnt st + 1 < 2 ^ 63 →
  w_dbs w !! d = Some db → stateBN db = Some p → w_u64 w !! p = Some bz →
  ∃ w' n A', InitState d false clear w = (Ok tt, w') ∧ refines answer [n] [r] r b w' d A' ∧
    (∀ a act key, f_obs (a_frame A') a act key = remote_at answer b a act key) ∧
    a_depth A' = deriveCnt st + 1 ∧ a_refund A' = a_refund A.
Proof.
  intros Href Hcl Hst H0' Hd Hdb Hbn Hu.
  destruct (init_false_step answer own base r b w d A st db p bz clear Href Hst H0' Hd Hdb Hbn Hu)
    as (w' & Hrun & Href' & _).
  exists w', (w_next w). eexists. split; [exact Hrun|]. split; [exact Href'|]. split; [|done].
  intros a act key. simpl. by apply clean_observe.
Qed.

(** A clone carries no block number: asking it for one, or resetting it, panics. *)
Theorem clone_has_no_block own base r b d w A fetch clear :
  refines answer own base r b w d A → a_depth A + 1 < 2 ^ 63 →
  (c ← Clone d; StateBlockNumber c) w = (Panic "invalid memory address or nil pointer dereference",
    (Clone d w).2) ∧
  ∃ w', (c ← Clone d; InitState c fetch clear) w =
    (Panic "invalid memory address or nil pointer dereference", w').
Proof.
  intros Href Hd. destruct (clone_step answer own base r b w d A Href Hd) as (w1 & Hrun & Hc & _).
  destruct (refines_top _ _ _ _ _ _ _ _ Hc) as (db & s & own' & st & _ & Hdb & Hs & Hst & _ & (Hch & Hl & _) & _).
  assert (stateBN db = None) as Hbn.
  { clear -Href Hrun Hdb. destruct (refines_top _ _ _ _ _ _ _ _ Href) as
      (db0 & s0 & ? & st0 & _ & Hdb0 & Hs0 & Hst0 & _).
    unfold Clone in Hrun. rewrite (bind_Ok _ _ _ _ _ (top_run _ _ _ _ Hdb0 Hs0)) in Hrun.
    destruct (Derive_run s0 "clone" w st0 Hst0) as (? & w2 & Hd2 & _ & Hn2 & _).
    rewrite (bind_Ok _ _ _ _ _ Hd2) in Hrun. injection Hrun as _ <-. rewrite Hn2 in Hdb.
    simpl in Hdb. rewrite lookup_insert_eq in Hdb. by injection Hdb as <-. }
  split.
  - rewrite (bind_Ok _ _ _ _ _ Hrun). unfold StateBlockNumber.
    rewrite (bind_Ok _ _ _ _ _ (get_db_Some _ _ _ Hdb)), Hbn, Hrun. done.
  - rewrite (bind_Ok _ _ _ _ _ Hrun). unfold InitState.
    rewrite (bind_Ok _ _ _ _ _ (top_run _ _ _ _ Hdb Hs)).
    rewrite (bind_Ok _ _ _ _ _ (getRootState_spec _ _ _ _ Hch Hl)).
    set (w2 := with_dbs (alter (set_state (Some r)) (S (w_next w))) w1).
    rewrite (bind_Ok (update_db _ _) _ w1 tt w2) by done. exists w2.
    apply bind_Panic. unfold StateBlockNumber.
    assert (w_dbs w2 !! S (w_next w) = Some (set_state (Some r) db)) as Hdb2.
    { simpl. by rewrite lookup_alter_eq, Hdb. }
    rewrite (bind_Ok _ _ _ _ _ (get_db_Some _ _ _ Hdb2)). simpl. by rewrite Hbn.
Qed.

(** When the node reports an error for one element of a batch, the zero value is taken
    for the account's balance and stays cached as if the node had answered it. *)
Theorem element_error_reads_zero own base r b d w A a :
  refines answer own base r b w d A →
  view w (own ++ base) !! scratchpadKey a GET_BALANCE Hash_zero = None →
  answer (mkBatchElem "eth_getBalance" [ArgAddress a; ArgString (EncodeBig (i64 b))]) = None →
  ∃ w', GetBalance d a w = (Ok 0, w') ∧ refines answer own base r b w' d A.
Proof.
  intros Href Hv He.
  destruct (read_step answer N HN base r b d own w A a GET_BALANCE Hash_zero Href) as (w' & Hrun & Href' & _).
  exists w'. split; [|done]. unfold GetBalance. rewrite (bind_Ok _ _ _ _ _ Hrun).
  destruct (refines_top _ _ _ _ _ _ _ _ Href) as (? & s & own' & st & -> & _ & _ & _ & _ & _ & Hsh & _).
  rewrite <-(sh_obs _ _ _ _ _ _ Hsh). unfold observe. cbn [app] in Hv. rewrite Hv. simpl.
  unfold remote_at, remote, remote_account, account_result. simpl. by rewrite He.
Qed.
End pinning.

(** ** Logs, receipts, merging and the difference *)

Section walks.
Context `{GethLaws} `{!Upstream}.
Context (answer : BatchElem → option RpcValue) (N : nat) (HN : Reliable answer N).
Implicit Types w : World.

(** [GetLogs] returns the logs of a transaction in the order they were added, across
    all snapshots still live, and changes nothing. *)
Theorem GetLogs_spec own base r b d w A h :
  refines answer own base r b w d A → GetLogs d h w = (Ok (f_logs (a_frame A) h), w).
Proof.
  intros Href. destruct (refines_on_chain _ _ _ _ _ _ _ _ Href) as (s & own' & -> & Hon).
  rewrite (GetLogs_run _ _ _ _ h Hon).
  destruct (refines_top _ _ _ _ _ _ _ _ Href) as (? & s' & own2 & st & E & _ & _ & _ & _ & _ & Hsh & _).
  injection E as <- <-. by rewrite <-(sh_logs _ _ _ _ _ _ Hsh).
Qed.

(** [GetReceipt] returns the receipt of the nearest layer that has one for the
    transaction (the root's are ignored), after replacing its logs by all the logs of the
    transaction; it finds none exactly when no layer above the root has one. *)
Theorem GetReceipt_spec w d s ls h :
  on_chain w d s ls →
  GetReceipt d h w =
    match find_receipt w ls h with
    | Some r => (Ok (Some r), with_receipts (alter (set_Logs (Some (chain_logs w ls h))) r) w)
    | None => (Ok None, w)
    end.
Proof.
  intros Hon. pose proof Hon as (db & Hdb & Hs & Hc). unfold GetReceipt.
  rewrite (bind_Ok _ _ _ _ _ (top_run _ _ _ _ Hdb Hs)).
  eapply receipt_loop_spec; [done|done|]. by eapply chain_length.
Qed.

(** [MergeTo] a layer of the chain ends with the database on that layer and showing
    what it showed before: for every key, the merged layer and those below it hold the
    value the whole chain held. *)
Theorem MergeTo_preserves w d s up t rest id a act key b :
  on_chain w d s (up ++ t :: rest) → deriveCnt <$> w_states w !! t = Some id →
  Forall (λ l, deriveCnt <$> w_states w !! l ≠ Some id) up →
  ∃ w', MergeTo d id w = (Ok tt, w') ∧ on_chain w' d t (t :: rest) ∧
    observe answer b w' (t :: rest) a act key = observe answer b w (up ++ t :: rest) a act key.
Proof.
  intros (db & Hdb & Hs & Hc) Ht Hup.
  destruct (merge_loop_spec (S s) d id s up t rest w Hc) as (w1 & Hrun & Hc1 & Hv & Hdb1 & _); [|done|done|].
  { apply chain_length in Hc. rewrite length_app in Hc. simpl in Hc. lia. }
  eexists. split; [|split].
  - unfold MergeTo. by rewrite (bind_Ok _ _ _ _ _ (top_run _ _ _ _ Hdb Hs)), Hrun.
  - exists (set_state (Some t) db). simpl. rewrite lookup_alter_eq, Hdb1, Hdb. split_and!; try done.
    eapply chain_ext; [|exact Hc1]. intros l st _ Hst. exists st. by split.
  - unfold observe. change (view (with_dbs _ w1) (t :: rest)) with (view w1 (t :: rest)). by rewrite Hv.
Qed.

(** C30: [GetStateDiff] overrides the root's view with exactly the local changes: for
    every account, a field is set iff a layer above the root wrote it, and applying the
    fields to the root's view gives back what the database shows.  Code hashes have no
    field.  The database itself is left as it was. *)
Theorem GetStateDiff_spec own base r b d w A ls st :
  refines answer own base r b w d A → own ++ base = ls ++ [r] → w_states w !! r = Some st →
  0 ≤ deriveCnt st → deriveCnt st + 1 < 2 ^ 63 →
  ∃ D w', GetStateDiff d w = (Ok D, w') ∧ refines answer own base r b w' d A ∧
    ∀ a act key, act ≠ GET_CODEHASH →
      ov_get (default override_empty (D !! a)) act key = val_of act <$> view w ls !! scratchpadKey a act key ∧
      default (val_of act (observe answer b w [r] a act key))
        (ov_get (default override_empty (D !! a)) act key) = val_of act (f_obs (a_frame A) a act key).
Proof.
  intros Href Els Hst H0' Hd.
  destruct (GetStateDiff_step answer own base r b d w A ls st Href Els Hst H0' Hd) as
    (D & w' & Hrun & Href' & _ & Hov). by exists D, w'.
Qed.
End walks.

(** ** Encodings *)

Section encodings.
Context `{GethLaws} `{!Upstream}.
Context (answer : BatchElem → option RpcValue) (N : nat) (HN : Reliable answer N).
Implicit Types w : World.

(** Two reads or writes share a scratch-pad entry only if they name the same kind of
    data, the same account and, for storage, the same slot; the suicide marks share no
    entry with any of them. *)
Theorem scratchpadKey_separates a act key a' act' key' :
  (scratchpadKey a act key = scratchpadKey a' act' key' ↔
     a = a' ∧ act = act' ∧ (act = GET_STATE → key = key')) ∧
  calcKey SUICIDE_KEY a' ≠ scratchpadKey a act key.
Proof.
  split; [split; [apply scratchpadKey_inj|]|apply suicide_key_separate].
  intros (<- & <- & Hkey). destruct act; simpl; try done. by rewrite Hkey.
Qed.

(** A nonce of at most 2^63 written through the database is read back; a larger one
    is read back as 2^64 minus it, because the [uint64] passes through [int64]. *)
Theorem SetNonce_GetNonce own base r b d w A a n :
  refines answer own base r b w d A → is_u64 n →
  ∃ w', (SetNonce d a n ;; GetNonce d a) w = (Ok (if decide (n ≤ 2 ^ 63) then n else 2 ^ 64 - n), w').
Proof.
  intros Href Hn.
  destruct (put_step answer base r b d own w A a GET_NONCE Hash_zero (Bytes (i64 n)) Href) as (w1 & Hrun1 & Href1 & _).
  destruct (read_step answer N HN base r b d own w1 _ a GET_NONCE Hash_zero Href1) as (w2 & Hrun2 & _).
  exists w2. cbn [scratchpadKey] in Hrun1. unfold SetNonce, GetNonce.
  rewrite (bind_Ok _ _ _ _ _ Hrun1), (bind_Ok _ _ _ _ _ Hrun2). simpl. unfold upd_obs.
  rewrite decide_True by done. rewrite SetBytes_Bytes. unfold mret, M_ret. do 2 f_equal.
  unfold Uint64. rewrite Z.abs_idemp, i64_of_u64 by done. unfold is_u64 in Hn.
  repeat case_decide; rewrite u64_id; unfold is_u64; lia.
Qed.

(** Balances do not go negative: subtracting more than an account has leaves it with
    the absolute difference, so [AddBalance] of the same amount does not undo it. *)
Theorem SubBalance_abs own base r b d w A a delta :
  refines answer own base r b w d A →
  ∃ w', (SubBalance d a delta ;; GetBalance d a) w = (Ok (Z.abs (a_balance A a - delta)), w').
Proof.
  intros Href.
  destruct (run_op_refines answer N HN base r b d own w A (OpSubBalance a delta) _ _ Href eq_refl)
    as (w1 & own1 & Hrun1 & Href1 & _).
  destruct (run_op_refines answer N HN base r b d own1 w1 _ (OpGetBalance a) _ _ Href1 eq_refl)
    as (w2 & own2 & Hrun2 & _).
  exists w2. cbn [run_op] in *.
  apply bind_Ok_inv in Hrun1 as ([] & ? & Hrun1 & [= <-]). apply bind_Ok_inv in Hrun2 as (v & ? & Hrun2 & [= Hv <-]).
  rewrite (bind_Ok _ _ _ _ _ Hrun1), Hrun2. rewrite Hv. unfold a_balance at 1. simpl. unfold upd_obs.
  rewrite decide_True by done. by rewrite SetBytes_Bytes.
Qed.
End encodings.

(** ** Witnesses *)

Import ToyNode.ToyNode.

(** Pays, snapshots, pays again, reverts, and reads the balance and a slot. *)
Definition demo : EvmProg (Res * Res) :=
  Invoke (OpAddBalance a1 5) (λ _,
  Invoke OpSnapshot (λ r,
  Invoke (OpAddBalance a1 7) (λ _,
  match r with
  | RInt id =>
      Invoke (OpRevertToSnapshot id) (λ _,
      Invoke (OpGetBalance a1) (λ v, Invoke (OpGetState a2 (hash 7)) (λ s, Done (v, s))))
  | _ => Done (RUnit, RUnit)
  end))).

Lemma demo_spec : ∃ A', spec_prog demo A1 = Some ((RInt 1005, RHash (hash 7)), A').
Proof.
  assert (fst <$> spec_prog demo A1 = Some (RInt 1005, RHash (hash 7))) as E by (reflexivity).
  destruct (spec_prog demo A1) as [[x A']|]; [|discriminate].
  exists A'. simpl in E. injection E as ->. reflexivity.
Defined.

Lemma demo_disciplined : disciplined 0 (Invoke (OpAddBalance a1 5) (λ _, Done tt)).
Proof. intros S HS. eexists tt, _, []. split_and!; [reflexivity|reflexivity|constructor|cbn; lia]. Defined.

Lemma evm_program_refines_witness :
  ∃ w' own' A', exec 3%nat demo w1 = (Ok (RInt 1005, RHash (hash 7)), w') ∧
    refines answer own' [1%nat] 1%nat 100 w' 3%nat A'.
Proof.
  destruct demo_spec as [A' HA'].
  destruct (evm_program_refines answer 1 reliable demo _ _ _ _ _ _ _ _ _ w1_refines HA')
    as (w' & own' & Hrun & Href & _).
  exists w', own', A'. split; assumption.
Defined.

Lemma clone_isolated_witness :
  ∃ w', (c ← Clone 3%nat; exec c (Invoke (OpSetNonce a1 9) (λ _, Invoke (OpGetNonce a1) Done))) w1
      = (Ok (RInt 9), w') ∧ refines answer [2%nat] [1%nat] 1%nat 100 w' 3%nat A1.
Proof.
  apply (clone_isolated answer 1 reliable _ _ _ _ _ _ _ _ _
    (with_obs (λ f, upd_obs f a1 GET_NONCE Hash_zero (Bytes 9)) (start_abs (a_frame A1) 2)) w1_refines).
  - reflexivity.
  - reflexivity.
Defined.

Lemma snapshot_revert_witness :
  ∃ w' own' g, (id ← Snapshot 3%nat;
      x ← exec 3%nat (Invoke (OpAddBalance a1 5) (λ _, Done tt));
      RevertToSnapshot 3%nat id ;; mret x) w1 = (Ok tt, w') ∧
    refines answer own' [1%nat] 1%nat 100 w' 3%nat (mkAbs (a_frame A1) 1 [] g).
Proof.
  destruct (snapshot_revert answer 1 reliable _ 0 _ _ _ _ _ _ _ w1_refines ltac:(reflexivity)
    ltac:(discriminate) demo_disciplined) as ([] & w' & own' & g & Hrun & Href & _).
  exists w', own', g. split; assumption.
Defined.

Lemma refund_survives_revert_witness :
  ∃ w', (id ← Snapshot 3%nat; AddRefund 3%nat 4 ;; SubRefund 3%nat 5 ;;
         RevertToSnapshot 3%nat id ;; GetRefund 3%nat) w1 = (Ok (2 ^ 64 - 1), w').
Proof.
  exact (refund_survives_revert answer 1 reliable _ _ _ _ _ _ _ 4 5 w1_refines ltac:(reflexivity)).
Defined.

Lemma suicide_hidden_witness :
  ∃ w', (_ ← Suicide 3%nat a1; s1 ← HasSuicided 3%nat a1; _ ← Snapshot 3%nat;
         s2 ← HasSuicided 3%nat a1; mret (s1, s2)) w1 = (Ok (true, false), w').
Proof.
  exact (suicide_hidden_by_snapshot answer 1 reliable _ _ _ _ _ _ _ a1 w1_refines ltac:(reflexivity)).
Defined.

Lemma w1_overlay : overlay w1 2%nat [2%nat; 1%nat] 1%nat 100.
Proof.
  destruct (rf_db _ _ _ _ _ _ _ _ w1_refines) as (db & s & _ & _ & Hs & _ & Hov).
  injection Hs as <-. exact Hov.
Defined.

Lemma get_observes_witness :
  ∃ w', get 2%nat a1 GET_BALANCE Hash_zero w1 = (Ok (Bytes 1000), w').
Proof.
  destruct (get_observes answer 1 reliable _ _ _ _ a1 GET_BALANCE Hash_zero _ w1_overlay) as (w' & Hrun & _).
  exists w'. rewrite Hrun. reflexivity.
Defined.

Lemma get_stable_witness :
  ∃ wa wb, get 2%nat a1 GET_NONCE Hash_zero w1 = (Ok (Bytes 7), wa) ∧
    get 2%nat a2 GET_BALANCE Hash_zero wa = (Ok (Bytes 1000), wb).
Proof.
  destruct (get 2%nat a1 GET_NONCE Hash_zero w1) as [o wa] eqn:E.
  assert (o = Ok (Bytes 7)) as -> by (apply (f_equal fst) in E; vm_compute in E; symmetry; exact E).
  destruct (get_stable answer 1 reliable _ _ _ _ _ _ a2 GET_BALANCE Hash_zero _ _ _ _ _ _
    w1_overlay w1_overlay E) as (wb & Hrun).
  exists wa, wb. split; [reflexivity|exact Hrun].
Defined.

Lemma timeSlot_routes_witness :
  ∃ w', timeSlot_storage 1%nat [mkStorageReq a1 (hash 3) Hash_zero; mkStorageReq a2 (hash 4) Hash_zero] w1 =
    (Ok [mkStorageReq a1 (hash 3) (hash 3); mkStorageReq a2 (hash 4) (hash 4)], w').
Proof.
  destruct (timeSlot_routes answer 1 reliable 1%nat 100
    [mkStorageReq a1 (hash 3) Hash_zero; mkStorageReq a2 (hash 4) Hash_zero] [] w1) as ((w' & Hrun) & _).
  { destruct w1_overlay as (_ & _ & Hr). exact Hr. }
  exists w'. exact Hrun.
Defined.

(** The batch size of the root set to zero. *)
Definition w1_zero : World := (SetBatchSize 3%nat 0 w1).2.

Lemma loads_bad_size_witness :
  (retry_forever 9 (loadAccountBatchRPC_ 7 1%nat [a1]) w1_zero).1 = Diverge ∧
  (retry_forever 9 (loadStateBatchRPC_ 7 1%nat [mkStorageReq a1 (hash 3) Hash_zero]) w1_zero).1 = Diverge.
Proof.
  assert ((λ st, (bn st, batchSize st)) <$> w_states w1_zero !! 1%nat = Some (Some 0%nat, 0)) as Hf by reflexivity.
  destruct (w_states w1_zero !! 1%nat) as [st|] eqn:E; [|discriminate].
  simpl in Hf. assert (bn st = Some 0%nat ∧ batchSize st = 0) as [Hbn Hn] by (split; congruence).
  pose proof (loads_bad_size 1%nat w1_zero st 0%nat 100 E Hbn eq_refl ltac:(lia) [a1]
    [mkStorageReq a1 (hash 3) Hash_zero] ltac:(discriminate) ltac:(discriminate)) as H.
  rewrite Hn in H. exact (H 9%nat 7%nat).
Defined.

Lemma NewOverlayStateDB_pinned_witness :
  ∃ w' d s r, NewOverlayStateDB (Some 0%nat) "keys" 10 2 w0 = (Ok d, w') ∧
    refines answer [s] [r] r 100 w' d (start_abs (pinned_frame answer 100) 1).
Proof.
  destruct (NewOverlayStateDB_pinned answer w0 0%nat 100 "keys" 10 2 w0_fresh eq_refl ltac:(lia))
    as (w' & d & s & r & Hrun & Href & _).
  exists w', d, s, r. split; assumption.
Defined.

(** The node is back, and the block number was moved from 100 to 101. *)
Definition w1_moved : World := with_u64 <[0%nat := 101]> (at_calls 1 w1).

Lemma w1_moved_facts :
  overlay w1_moved 2%nat [2%nat; 1%nat] 1%nat 101 ∧ fresh_world w1_moved ∧ tracked w1_moved 1%nat ∧
  ∃ st, w_states w1_moved !! 1%nat = Some st ∧ deriveCnt st = 0.
Proof.
  destruct w1_ready as (Href & _ & Htr & _). destruct w1_overlay as (Hc & Hl & Hr).
  split; [|split; [|split]].
  - split; [eapply chain_ext; [|exact Hc]; intros l st _ E; exists st; by split|].
    split; [exact Hl|]. destruct Hr as (st & p & Hst & Hp & Hbn & _ & Hn).
    exists st, p. split; [exact Hst|]. split; [exact Hp|]. split; [exact Hbn|]. split; [|exact Hn].
    assert (bn <$> w_states w1 !! 1%nat = Some (Some 0%nat)) as E by (reflexivity).
    rewrite Hst in E. simpl in E. assert (p = 0%nat) as -> by congruence. reflexivity.
  - destruct (refines_fresh _ _ _ _ _ _ _ _ Href) as [F1 F2 F3]. split; assumption.
  - exact Htr.
  - assert (deriveCnt <$> w_states w1 !! 1%nat = Some 0) as E by (reflexivity).
    destruct Hr as (st & _ & Hst & _). exists st. split; [exact Hst|]. rewrite Hst in E. simpl in E. congruence.
Defined.

Lemma InitState_repins_witness :
  ∃ w' n A, InitState 3%nat true false w1_moved = (Ok tt, w') ∧
    refines answer [n] [1%nat] 1%nat 101 w' 3%nat A.
Proof.
  destruct w1_moved_facts as (Hov & Hf & Ht & st & Hst & Hd).
  destruct w1_ready as (_ & _ & _ & Hdb & _).
  destruct (InitState_repins answer 1 reliable 3%nat _ 2%nat _ 1%nat 101 false w1_moved st 0%nat 101
    Hov Hf Hdb eq_refl eq_refl eq_refl Ht ltac:(vm_compute; lia) Hst ltac:(lia) ltac:(rewrite Hd; reflexivity))
    as (w' & n & A & Hrun & Href & _).
  exists w', n, A. split; assumption.
Defined.

Lemma InitState_discards_witness :
  ∃ w' n A', InitState 3%nat false false w1 = (Ok tt, w') ∧
    refines answer [n] [1%nat] 1%nat 100 w' 3%nat A' ∧ a_depth A' = 1.
Proof.
  destruct w1_moved_facts as (_ & _ & _ & st & Hst & Hd). change (w_states w1_moved) with (w_states w1) in Hst.
  destruct w1_ready as (Href & Hcl & _ & Hdb & Hu).
  destruct (InitState_discards answer _ _ _ _ _ _ _ st _ 0%nat 100 false Href Hcl Hst ltac:(lia)
    ltac:(rewrite Hd; reflexivity) Hdb eq_refl Hu) as (w' & n & A' & Hrun & Href' & _ & Hdep & _).
  exists w', n, A'. split; [assumption|]. split; [assumption|]. rewrite Hdep, Hd. reflexivity.
Defined.

Lemma clone_has_no_block_witness :
  ∃ w', (c ← Clone 3%nat; InitState c true false) w1 =
    (Panic "invalid memory address or nil pointer dereference", w').
Proof.
  exact (proj2 (clone_has_no_block answer _ _ _ _ _ _ _ true false w1_refines ltac:(reflexivity))).
Defined.

(** The same node, but the balance of account 1 is an error. *)
Definition answer_err (e : BatchElem) : option RpcValue :=
  if decide (Method e = "eth_getBalance") then None else answer e.

Definition upstream_err : Upstream := {|
  batch_call n reqs := Some (answer_err <$> reqs);
  storage_at n a k z := None;
  rand_uint64 n := 0; patience := 1; start_time_rich := []; start_time_rand := []
|}.

Lemma reliable_err : @Reliable _ upstream_err answer_err 0.
Proof.
  split; simpl.
  - intros n reqs vs E. injection E as <-. reflexivity.
  - intros n reqs _. eexists. reflexivity.
  - lia.
Defined.

Lemma element_error_witness : ∃ w d w', @GetBalance _ upstream_err d a1 w = (Ok 0, w').
Proof.
  destruct (new_db_step (H1:=upstream_err) answer_err w0 0%nat 100 "keys" 10 2 w0_fresh eq_refl ltac:(lia))
    as (w & Hrun & Href & _).
  destruct (element_error_reads_zero (H1:=upstream_err) answer_err 0 reliable_err _ _ _ _ _ _ _ a1 Href)
    as (w' & Hget & _).
  - assert (w = (@NewOverlayStateDB _ upstream_err (Some 0%nat) "keys" 10 2 w0).2) as -> by (by rewrite Hrun).
    reflexivity.
  - reflexivity.
  - exists w, (S (S (w_next w0))), w'. exact Hget.
Defined.

Lemma GetLogs_spec_witness : GetLogs 3%nat (hash 1) w1 = (Ok [], w1).
Proof. exact (GetLogs_spec answer _ _ _ _ _ _ _ (hash 1) w1_refines). Defined.

Lemma w1_on_chain : on_chain w1 3%nat 2%nat [2%nat; 1%nat].
Proof.
  destruct w1_ready as (_ & _ & _ & Hdb & _). destruct w1_overlay as (Hc & _).
  eexists. split; [exact Hdb|]. split; [reflexivity|exact Hc].
Defined.

Lemma GetReceipt_spec_witness : GetReceipt 3%nat (hash 1) w1 = (Ok None, w1).
Proof.
  rewrite (GetReceipt_spec w1 3%nat 2%nat _ (hash 1) w1_on_chain).
  assert (find_receipt w1 [2%nat; 1%nat] (hash 1) = None) as -> by (reflexivity). reflexivity.
Defined.


(** The balance of account 1 set to 42 in the layer above the root. *)
Lemma w1_put : ∃ w', SetBalance 3%nat a1 42 w1 = (Ok tt, w') ∧ on_chain w' 3%nat 2%nat [2%nat; 1%nat] ∧
  refines answer [2%nat] [1%nat] 1%nat 100 w' 3%nat
    (with_obs (λ f, upd_obs f a1 GET_BALANCE Hash_zero (Bytes 42)) A1).
Proof.
  destruct (put_step answer _ _ _ _ _ _ _ a1 GET_BALANCE Hash_zero (Bytes 42) w1_refines)
    as (w' & Hrun & Href & _).
  exists w'. split; [exact Hrun|]. split; [|exact Href].
  destruct (refines_on_chain _ _ _ _ _ _ _ _ Href) as (s & own' & E & Hon).
  assert (s = 2%nat) as -> by congruence. exact Hon.
Defined.

Definition w1_42 : World := (SetBalance 3%nat a1 42 w1).2.

Lemma MergeTo_preserves_witness :
  ∃ w', MergeTo 3%nat 0 w1_42 = (Ok tt, w') ∧ on_chain w' 3%nat 1%nat [1%nat] ∧
    observe answer 100 w' [1%nat] a1 GET_BALANCE Hash_zero = Bytes 42.
Proof.
  destruct w1_put as (w' & Hrun & Hon & Href).
  assert (w' = w1_42) as -> by (unfold w1_42; rewrite Hrun; reflexivity).
  destruct (MergeTo_preserves answer w1_42 3%nat 2%nat [2%nat] 1%nat [] 0 a1 GET_BALANCE Hash_zero 100 Hon)
    as (w2 & Hm & Hon2 & Hobs).
  - reflexivity.
  - repeat constructor. vm_compute. discriminate.
  - exists w2. split; [exact Hm|]. split; [exact Hon2|]. rewrite Hobs. reflexivity.
Defined.

Lemma GetStateDiff_spec_witness :
  ∃ D w', GetStateDiff 3%nat w1_42 = (Ok D, w') ∧
    ov_get (default override_empty (D !! a1)) GET_BALANCE Hash_zero = Some (RInt 42) ∧
    ov_get (default override_empty (D !! a2)) GET_BALANCE Hash_zero = None.
Proof.
  destruct w1_put as (w' & Hrun & Hon & Href).
  assert (w' = w1_42) as -> by (unfold w1_42; rewrite Hrun; reflexivity).
  assert (deriveCnt <$> w_states w1_42 !! 1%nat = Some 0) as Hd by (reflexivity).
  destruct (w_states w1_42 !! 1%nat) as [st|] eqn:Hst; [|discriminate].
  simpl in Hd. assert (deriveCnt st = 0) as Hd0 by congruence.
  destruct (GetStateDiff_spec answer _ _ _ _ _ _ _ [2%nat] st Href eq_refl Hst ltac:(lia) ltac:(rewrite Hd0; reflexivity))
    as (D & w2 & HD & _ & Hov).
  exists D, w2. split; [exact HD|]. split.
  - rewrite (proj1 (Hov a1 GET_BALANCE Hash_zero ltac:(discriminate))). reflexivity.
  - rewrite (proj1 (Hov a2 GET_BALANCE Hash_zero ltac:(discriminate))). reflexivity.
Defined.

Lemma scratchpadKey_separates_witness :
  scratchpadKey a1 GET_NONCE (hash 1) = scratchpadKey a1 GET_NONCE (hash 2) ∧
  calcKey SUICIDE_KEY a2 ≠ scratchpadKey a1 GET_STATE (hash 1).
Proof.
  split.
  - apply (scratchpadKey_separates a1 GET_NONCE (hash 1) a1 GET_NONCE (hash 2)).
    split; [reflexivity|]. split; [reflexivity|discriminate].
  - exact (proj2 (scratchpadKey_separates a1 GET_STATE (hash 1) a2 GET_STATE (hash 2))).
Defined.

Lemma SetNonce_GetNonce_witness :
  ∃ w', (SetNonce 3%nat a1 (2 ^ 63 + 1) ;; GetNonce 3%nat a1) w1 = (Ok (2 ^ 63 - 1), w').
Proof.
  exact (SetNonce_GetNonce answer 1 reliable _ _ _ _ _ _ _ a1 (2 ^ 63 + 1) w1_refines
    ltac:(unfold is_u64; lia)).
Defined.

Lemma SubBalance_abs_witness :
  ∃ w', (SubBalance 3%nat a1 1500 ;; GetBalance 3%nat a1) w1 = (Ok 500, w').
Proof. exact (SubBalance_abs answer 1 reliable _ _ _ _ _ _ _ a1 1500 w1_refines). Defined.
