(* ===== verification/Tracers.v ===== *)
(** * mfertracer/: the keccak tracer and the state tracer

    A tracer is shown every step of the EVM.  [KeccakTracer] records hash, storage and gas
    operations; [StateTracer] the last value of every slot touched.  On a load both ask
    the state database for the value, so they run in the world.  They index the stack and
    slice the memory without a check, and the EVM also shows the steps that fail: [stops]
    says where a run makes its tracer panic.  [exec_traced] runs EVM code under a tracer. *)
From S2P Require Import Prelude BigInt Geth World OverlayState Fetch StateSpec OverlayStateDB.
From S2P Require Import VmStateDB Refinement Clones Chain GoSlice ToyInstance ToyNode.

(** ** The tracers *)

Section tracers.
Context `{Core} `{!Upstream}.

(** A slice of the EVM's memory: the tracer keeps a reference, not a copy. *)
Record MemSlice := mkMemSlice { ms_id : nat; ms_offset : Z; ms_size : Z }.

Inductive TraceOp :=
| KeccakOp (Contract : Address) (Preimage : MemSlice) (h : Hash)
| StorageOp (Contract : Address) (Key Value : Hash) (IsWrite : bool)
| GasOp (Contract : Address) (GasRemain : Z).

(** The tracer's [env] gives the database the EVM runs on, once [CaptureStart] was called. *)
Record KeccakTracer := mkKeccakTracer { kt_env : option loc; traceOps : list TraceOp }.

Definition NewKeccakTracer : KeccakTracer := mkKeccakTracer None [].

(** [stack[len(stack)-n]], which panics on a shorter stack. *)
Definition stack_at (stack : list Z) (n : nat) : M World Z :=
  match (if decide (n ≤ length stack)%nat then stack !! (length stack - n)%nat else None) with
  | Some v => mret v
  | None => panic "index out of range"
  end.

(** The bytes [memory.GetPtr] finds. *)
Definition get_ptr (m : Memory) (offset size : Z) : M World bytes :=
  match GetPtr m offset size with
  | Some data => mret data
  | None => panic "slice bounds out of range"
  end.

(** [common.Hash(key.Bytes32())] *)
Definition word_Hash (z : Z) : Hash := BytesToHash (pad_left 32 (Bytes (z mod 2 ^ 256))).

(** [int64(x.Uint64())] of a 256-bit word. *)
Definition word_int64 (z : Z) : Z := i64 (u64 z).

Definition record_op (t : KeccakTracer) (op : TraceOp) : KeccakTracer :=
  mkKeccakTracer (kt_env t) (traceOps t ++ [op]).

Definition Keccak_CaptureStart (d : loc) (t : KeccakTracer) : KeccakTracer :=
  mkKeccakTracer (Some d) (traceOps t).

Definition Keccak_CaptureState (ev : Step) (t : KeccakTracer) : M World KeccakTracer :=
  let contract := st_Contract ev in
  match st_Op ev with
  | KECCAK256 =>
      offset ← stack_at (st_Stack ev) 1;
      size ← stack_at (st_Stack ev) 2;
      data ← get_ptr (st_Memory ev) (word_int64 offset) (word_int64 size);
      let hasherBuf := Keccak256Hash data in
      mret (record_op t (KeccakOp contract
        (mkMemSlice (mem_ID (st_Memory ev)) (word_int64 offset) (Z.of_nat (length data))) hasherBuf))
  | REVERT =>
      offset ← stack_at (st_Stack ev) 1;
      size ← stack_at (st_Stack ev) 2;
      _ ← get_ptr (st_Memory ev) (word_int64 offset) (word_int64 size);
      mret t
  | SLOAD =>
      key ← stack_at (st_Stack ev) 1;
      let keyHash := word_Hash key in
      d ← non_nil (kt_env t);
      val ← GetState d contract keyHash;
      mret (record_op t (StorageOp contract keyHash val false))
  | SSTORE =>
      key ← stack_at (st_Stack ev) 1;
      value ← stack_at (st_Stack ev) 2;
      mret (record_op t (StorageOp contract (word_Hash key) (word_Hash value) true))
  | GAS => mret (record_op t (GasOp contract (st_ContractGas ev)))
  | ORIGIN | OTHER_OP => mret t
  end.

Definition Keccak_GetResult (t : KeccakTracer) : list TraceOp := traceOps t.
Definition Keccak_Reset (t : KeccakTracer) : KeccakTracer := mkKeccakTracer (kt_env t) [].

Record StateTracer := mkStateTracer {
  stt_env : option loc;
  slotAccessed : gmap Address (gmap Hash Hash)
}.

Definition NewStateTracer : StateTracer := mkStateTracer None ∅.

Definition State_CaptureStart (d : loc) (t : StateTracer) : StateTracer :=
  mkStateTracer (Some d) (slotAccessed t).

(** [tracer.slotAccessed[contract][key] = v] *)
Definition set_slot (contract : Address) (key v : Hash) (m : gmap Address (gmap Hash Hash)) :=
  <[contract := <[key := v]> (default ∅ (m !! contract))]> m.

Definition State_CaptureState (ev : Step) (t : StateTracer) : M World StateTracer :=
  let contract := st_Contract ev in
  let m := match slotAccessed t !! contract with
           | Some _ => slotAccessed t
           | None => <[contract := ∅]> (slotAccessed t)
           end in
  match st_Op ev with
  | SLOAD =>
      key ← stack_at (st_Stack ev) 1;
      let keyHash := word_Hash key in
      d ← non_nil (stt_env t);
      val ← GetState d contract keyHash;
      mret (mkStateTracer (stt_env t) (set_slot contract keyHash val m))
  | SSTORE =>
      key ← stack_at (st_Stack ev) 1;
      value ← stack_at (st_Stack ev) 2;
      mret (mkStateTracer (stt_env t) (set_slot contract (word_Hash key) (word_Hash value) m))
  | _ => mret (mkStateTracer (stt_env t) m)
  end.

Definition State_GetResult (t : StateTracer) : gmap Address (gmap Hash Hash) := slotAccessed t.
Definition State_Reset (t : StateTracer) : StateTracer := mkStateTracer (stt_env t) ∅.

(** ** Running code under a tracer *)

(** The values of the interface [vm.EVMLogger] the node uses. *)
Inductive Tracer :=
| TrKeccak (t : KeccakTracer)
| TrState (t : StateTracer)
| TrForeign (t : ForeignTracer).

Definition CaptureStart (d : loc) (t : Tracer) : Tracer :=
  match t with
  | TrKeccak t => TrKeccak (Keccak_CaptureStart d t)
  | TrState t => TrState (State_CaptureStart d t)
  | TrForeign t => TrForeign t
  end.

Definition CaptureState (ev : Step) (t : Tracer) : M World Tracer :=
  match t with
  | TrKeccak t => t' ← Keccak_CaptureState ev t; mret (TrKeccak t')
  | TrState t => t' ← State_CaptureState ev t; mret (TrState t')
  | TrForeign t => mret (TrForeign (foreign_step ev t))
  end.

Fixpoint trace_loop {A} (d : loc) (p : TracedProg A) (t : Tracer) : M World (A * Tracer) :=
  match p with
  | TDone a => mret (a, t)
  | TInvoke op k => r ← run_op d op; trace_loop d (k r) t
  | TStep ev k => t ← CaptureState ev t; trace_loop d k t
  end.

(** The EVM calls [CaptureStart] first. *)
Definition exec_traced {A} (d : loc) (p : TracedProg A) (t : Tracer) : M World (A * Tracer) :=
  trace_loop d p (CaptureStart d t).
End tracers.

(** ** What a traced run does, on the abstract state *)

Section spec.
Context `{Core} `{!Upstream}.

(** The value of a slot. *)
Definition slot_value (A : Abs) (c : Address) (k : Hash) : Hash :=
  BytesToHash (f_obs (a_frame A) c GET_STATE k).

Record Access := mkAccess { ac_contract : Address; ac_key : Hash; ac_value : Hash; ac_write : bool }.

(** The storage access a step makes. *)
Definition access_of (ev : Step) (A : Abs) : option Access :=
  match st_Op ev, rev (st_Stack ev) with
  | SLOAD, k :: _ =>
      Some (mkAccess (st_Contract ev) (word_Hash k) (slot_value A (st_Contract ev) (word_Hash k)) false)
  | SSTORE, k :: v :: _ => Some (mkAccess (st_Contract ev) (word_Hash k) (word_Hash v) true)
  | _, _ => None
  end.

(** The storage accesses of a run, in order. *)
Fixpoint accesses {X} (p : TracedProg X) (A : Abs) : list Access :=
  match p with
  | TDone _ => []
  | TInvoke op k => match spec_op op A with Some (r, A') => accesses (k r) A' | None => [] end
  | TStep ev k => option_list (access_of ev A) ++ accesses k A
  end.

(** The value the last of the accesses to a slot saw or wrote. *)
Definition noted (c : Address) (k : Hash) (o : option Hash) (x : Access) : option Hash :=
  if decide (ac_contract x = c ∧ ac_key x = k) then Some (ac_value x) else o.

Definition last_value (c : Address) (k : Hash) (l : list Access) : option Hash := foldl (noted c k) None l.

(** What a step adds to the keccak tracer's list. *)
Definition trace_op (ev : Step) (A : Abs) : option TraceOp :=
  match st_Op ev, rev (st_Stack ev) with
  | KECCAK256, o :: n :: _ =>
      (λ data, KeccakOp (st_Contract ev)
         (mkMemSlice (mem_ID (st_Memory ev)) (word_int64 o) (Z.of_nat (length data))) (Keccak256Hash data))
        <$> GetPtr (st_Memory ev) (word_int64 o) (word_int64 n)
  | GAS, _ => Some (GasOp (st_Contract ev) (st_ContractGas ev))
  | _, _ => (λ x, StorageOp (ac_contract x) (ac_key x) (ac_value x) (ac_write x)) <$> access_of ev A
  end.

Fixpoint trace_ops {X} (p : TracedProg X) (A : Abs) : list TraceOp :=
  match p with
  | TDone _ => []
  | TInvoke op k => match spec_op op A with Some (r, A') => trace_ops (k r) A' | None => [] end
  | TStep ev k => option_list (trace_op ev A) ++ trace_ops k A
  end.

(** The value a tracer holds for a slot. *)
Definition slot_of (m : gmap Address (gmap Hash Hash)) (c : Address) (k : Hash) : option Hash :=
  (m !! c) ≫= (.!! k).

(** The effect of one step on each tracer. *)
Definition note_access (x : Access) (m : gmap Address (gmap Hash Hash)) :=
  set_slot (ac_contract x) (ac_key x) (ac_value x) m.
Definition ensure (c : Address) (m : gmap Address (gmap Hash Hash)) :=
  match m !! c with Some _ => m | None => <[c := ∅]> m end.
Definition shown (ev : Step) (A : Abs) (t : Tracer) : Tracer :=
  match t with
  | TrKeccak t => TrKeccak (mkKeccakTracer (kt_env t) (traceOps t ++ option_list (trace_op ev A)))
  | TrState t => TrState (mkStateTracer (stt_env t)
      (from_option note_access id (access_of ev A) (ensure (st_Contract ev) (slotAccessed t))))
  | TrForeign t => TrForeign (foreign_step ev t)
  end.

Fixpoint shown_all {X} (p : TracedProg X) (A : Abs) (t : Tracer) : Tracer :=
  match p with
  | TDone _ => t
  | TInvoke op k => match spec_op op A with Some (r, A') => shown_all (k r) A' t | None => t end
  | TStep ev k => shown_all k A (shown ev A t)
  end.

(** Whether the tracer finds on the stack and in the memory what it reads at a step. *)
Definition finds_memory (ev : Step) : bool :=
  match rev (st_Stack ev) with
  | o :: n :: _ => bool_decide (is_Some (GetPtr (st_Memory ev) (word_int64 o) (word_int64 n)))
  | _ => false
  end.

Definition readable (t : Tracer) (ev : Step) : bool :=
  match t, st_Op ev with
  | TrForeign _, _ => true
  | TrKeccak _, (KECCAK256 | REVERT) => finds_memory ev
  | _, SLOAD => Nat.leb 1 (length (st_Stack ev))
  | _, SSTORE => Nat.leb 2 (length (st_Stack ev))
  | _, _ => true
  end.

(** The state at the first step of a run that the tracer cannot read, if there is one. *)
Fixpoint stops {X} (t : Tracer) (p : TracedProg X) (A : Abs) : option Abs :=
  match p with
  | TDone _ => None
  | TInvoke op k => match spec_op op A with Some (r, A') => stops t (k r) A' | None => None end
  | TStep ev k => if readable t ev then stops t k A else Some A
  end.

(** The tracer was started on database [d]. *)
Definition started (d : loc) (t : Tracer) : Prop :=
  match t with
  | TrKeccak t => kt_env t = Some d
  | TrState t => stt_env t = Some d
  | TrForeign _ => True
  end.
End spec.

Abbreviation keccak_stops := (stops (TrKeccak NewKeccakTracer)).
Abbreviation state_stops := (stops (TrState NewStateTracer)).

(** ** Lemmas *)

Section lemmas.
Context `{Core} `{!GethLaws} `{!Upstream}.
Context (answer : BatchElem → option RpcValue) (N : nat) (HN : Reliable answer N).
Context (base : list loc) (r : loc) (b : Z) (d : loc).
Implicit Types w : World.

Lemma stack_top_run stack x l w : rev stack = x :: l → stack_at stack 1 w = (Ok x, w).
Proof.
  intros E. apply (f_equal (@rev _)) in E. rewrite rev_involutive in E. subst stack. simpl.
  unfold stack_at. rewrite length_app, length_rev. simpl.
  rewrite decide_True, lookup_app_r by (rewrite ?length_rev; lia).
  rewrite length_rev. by replace (length l + 1 - 1 - length l)%nat with 0%nat by lia.
Qed.

Lemma stack_second_run stack x y l w : rev stack = x :: y :: l → stack_at stack 2 w = (Ok y, w).
Proof.
  intros E. apply (f_equal (@rev _)) in E. rewrite rev_involutive in E. subst stack. simpl.
  unfold stack_at. rewrite !length_app, length_rev. simpl.
  rewrite decide_True, <-app_assoc, lookup_app_r by (rewrite ?length_rev; lia).
  rewrite length_rev. by replace (length l + 1 + 1 - 2 - length l)%nat with 0%nat by lia.
Qed.

Lemma GetState_run own w A c k :
  refines answer own base r b w d A →
  ∃ w', GetState d c k w = (Ok (slot_value A c k), w') ∧
    refines answer own base r b w' d A ∧ confined answer b r d own w own w'.
Proof.
  intros Href. destruct (read_step answer N HN base r b d own w A c GET_STATE k Href)
    as (w' & Hrun & Hrest).
  exists w'. split; [|done]. unfold GetState, GetCommittedState. cbn [scratchpadKey] in Hrun.
  by rewrite (bind_Ok _ _ _ _ _ Hrun).
Qed.

Lemma stack_top_short stack w : rev stack = [] → stack_at stack 1 w = (Panic "index out of range", w).
Proof. intros E. apply (f_equal (@rev _)) in E. rewrite rev_involutive in E. by subst. Qed.

Lemma stack_second_short stack x w : rev stack = [x] → stack_at stack 2 w = (Panic "index out of range", w).
Proof. intros E. apply (f_equal (@rev _)) in E. rewrite rev_involutive in E. by subst. Qed.

#[local] Ltac split_stack := repeat match goal with
  | Hlen : context [length (rev (st_Stack ?ev))] |- context [st_Stack ?ev] =>
      let E := fresh "Estk" in destruct (rev (st_Stack ev)) as [|? [|? ?]] eqn:E; simpl in Hlen
  end.
#[local] Ltac read_stack := repeat match goal with
  | E : rev ?s = ?x :: _ |- context [stack_at ?s 1] =>
      rewrite ?bind_assoc, (bind_Ok _ _ _ _ _ (stack_top_run _ _ _ _ E)); cbv beta
  | E : rev ?s = ?x :: ?y :: _ |- context [stack_at ?s 2] =>
      rewrite ?bind_assoc, (bind_Ok _ _ _ _ _ (stack_second_run _ _ _ _ _ E)); cbv beta
  end.

(** A step is shown to the tracer as the abstract state says; the world only warms up. *)
Lemma capture_step own w A ev t :
  refines answer own base r b w d A → readable t ev = true → started d t →
  ∃ w', CaptureState ev t w = (Ok (shown ev A t), w') ∧
    refines answer own base r b w' d A ∧ confined answer b r d own w own w'.
Proof.
  intros Href Hwf Hst.
  pose proof (confined_refl answer r b d own w) as Hrefl.
  assert (length (rev (st_Stack ev)) = length (st_Stack ev)) as Hlen by apply length_rev.
  destruct t as [t|t|t]; simpl in Hst; [| |exists w; by split_and!].
  all: unfold readable, finds_memory in Hwf; unfold CaptureState, Keccak_CaptureState, State_CaptureState, shown,
    trace_op, access_of; destruct (st_Op _) eqn:Eop; split_stack; rewrite <-?Hlen in Hwf; try discriminate Hwf;
    read_stack; try rewrite Hst.
  all: try (apply bool_decide_eq_true_1 in Hwf as [data Hdata]; unfold get_ptr; rewrite ?Hdata).
  all: lazymatch goal with
    | Href : refines _ _ _ _ _ ?w0 _ ?A |- context [GetState _ ?c ?k] =>
        destruct (GetState_run _ _ _ c k Href) as (w' & Hget & ? & ?);
        unfold non_nil; rewrite ?bind_assoc, (bind_deref (λ _, Some d) _ w0 d eq_refl), ?bind_assoc,
          (bind_Ok _ _ _ _ _ Hget); exists w'; split_and!; [|assumption|assumption]
    | |- ∃ w', _ ?w0 = _ ∧ _ => exists w0; split_and!; [|assumption|assumption]
    end.
  all: destruct t; cbn in *; rewrite ?app_nil_r; subst; reflexivity.
Qed.

(** A step that cannot be read makes the tracer panic, before it touches anything. *)
Lemma capture_stops w ev t : readable t ev = false → ∃ err, CaptureState ev t w = (Panic err, w).
Proof.
  intros Hwf. assert (length (rev (st_Stack ev)) = length (st_Stack ev)) as Hlen by apply length_rev.
  destruct t as [t|t|t]; [| |done].
  all: unfold readable, finds_memory in Hwf; unfold CaptureState, Keccak_CaptureState, State_CaptureState;
    destruct (st_Op _) eqn:Eop; split_stack; rewrite <-?Hlen in Hwf; try discriminate Hwf; read_stack;
    rewrite ?bind_assoc.
  all: try (apply bool_decide_eq_false_1 in Hwf; unfold get_ptr; destruct (GetPtr _ _ _); [by destruct Hwf; eexists|];
    eexists; rewrite ?bind_assoc; by apply bind_Panic).
  all: eexists; first [apply bind_Panic, stack_top_short; assumption | eapply bind_Panic, stack_second_short; eassumption].
Qed.

Lemma started_shown ev A t : started d t → started d (shown ev A t).
Proof. by destruct t. Qed.

(** What a tracer can read does not depend on what it has recorded. *)
Lemma stops_ext {X} (p : TracedProg X) t t' A :
  (∀ ev, readable t ev = readable t' ev) → stops t p A = stops t' p A.
Proof.
  intros Ht. revert A. induction p as [x|op k IH|ev k IH]; intros A; simpl; [done| |].
  - destruct (spec_op op A) as [[]|]; [apply IH|done].
  - rewrite Ht. destruct (readable t' ev); [apply IH|done].
Qed.

Lemma stops_state {X} (p : TracedProg X) t A : stops (TrState t) p A = state_stops p A.
Proof. by apply stops_ext. Qed.

Lemma stops_shown {X} (p : TracedProg X) ev A0 t A : stops (shown ev A0 t) p A = stops t p A.
Proof. apply stops_ext. by destruct t. Qed.

Lemma stops_start {X} (p : TracedProg X) d' t A : stops (CaptureStart d' t) p A = stops t p A.
Proof. apply stops_ext. by destruct t. Qed.

(** The tracers of go-ethereum read every step. *)
Lemma stops_foreign {X} (p : TracedProg X) t A : stops (TrForeign t) p A = None.
Proof.
  revert A. induction p as [x|op k IH|ev k IH]; intros A; simpl; [done| |apply IH].
  destruct (spec_op op A) as [[]|]; [apply IH|done].
Qed.

(** A whole traced run. *)
Lemma trace_run {X} (p : TracedProg X) own w A t x A' :
  refines answer own base r b w d A → stops t p A = None → started d t →
  spec_prog (erase p) A = Some (x, A') →
  ∃ w' own', trace_loop d p t w = (Ok (x, shown_all p A t), w') ∧
    refines answer own' base r b w' d A' ∧ confined answer b r d own w own' w'.
Proof.
  revert own w A t. induction p as [x0|op k IH|ev k IH]; intros own w A t Href Hwf Hst Hspec;
    cbn [erase spec_prog] in Hspec; cbn [trace_loop shown_all].
  - simplify_eq. exists w, own. split_and!; [done|done|apply confined_refl].
  - destruct (spec_op op A) as [[res A1]|] eqn:Hop; [|done]. simpl in Hspec.
    destruct (run_op_refines answer N HN base r b d _ _ _ _ _ _ Href Hop)
      as (w1 & own1 & Hrun & Href1 & Hconf1).
    simpl in Hwf. rewrite Hop in Hwf.
    destruct (IH res own1 w1 A1 t Href1 Hwf Hst Hspec) as (w2 & own2 & Hrun2 & Href2 & Hconf2).
    exists w2, own2. split_and!; [|done|by eapply confined_trans].
    by rewrite (bind_Ok _ _ _ _ _ Hrun).
  - simpl in Hwf. destruct (readable t ev) eqn:Hev; [|done].
    destruct (capture_step own w A ev t Href Hev Hst) as (w1 & Hrun & Href1 & Hconf1).
    destruct (IH own w1 A (shown ev A t) Href1) as (w2 & own2 & Hrun2 & Href2 & Hconf2);
      [by rewrite stops_shown|by apply started_shown|exact Hspec|].
    exists w2, own2. split_and!; [|done|by eapply confined_trans].
    by rewrite (bind_Ok _ _ _ _ _ Hrun).
Qed.

(** A traced run that stops panics in the state where it stops. *)
Lemma trace_stops {X} (p : TracedProg X) own w A t A1 :
  refines answer own base r b w d A → stops t p A = Some A1 → started d t →
  ∃ err w' own', trace_loop d p t w = (Panic err, w') ∧
    refines answer own' base r b w' d A1 ∧ confined answer b r d own w own' w'.
Proof.
  revert own w A t. induction p as [x0|op k IH|ev k IH]; intros own w A t Href Hstop Hst; simpl in Hstop;
    cbn [trace_loop]; [done| |].
  - destruct (spec_op op A) as [[res A2]|] eqn:Hop; [|done].
    destruct (run_op_refines answer N HN base r b d _ _ _ _ _ _ Href Hop) as (w1 & own1 & Hrun & Href1 & Hconf1).
    destruct (IH res own1 w1 A2 t Href1 Hstop Hst) as (err & w2 & own2 & Hrun2 & Href2 & Hconf2).
    exists err, w2, own2. split_and!; [by rewrite (bind_Ok _ _ _ _ _ Hrun)|done|by eapply confined_trans].
  - destruct (readable t ev) eqn:Hev.
    + destruct (capture_step own w A ev t Href Hev Hst) as (w1 & Hrun & Href1 & Hconf1).
      destruct (IH own w1 A (shown ev A t) Href1) as (err & w2 & own2 & Hrun2 & Href2 & Hconf2);
        [by rewrite stops_shown|by apply started_shown|].
      exists err, w2, own2. split_and!; [by rewrite (bind_Ok _ _ _ _ _ Hrun)|done|by eapply confined_trans].
    + injection Hstop as <-. destruct (capture_stops w ev t Hev) as [err Hrun].
      exists err, w, own. split_and!; [by apply bind_Panic|done|apply confined_refl].
Qed.

(** The keccak tracer appends what each step adds. *)
Lemma shown_all_keccak {X} (p : TracedProg X) A t :
  shown_all p A (TrKeccak t) =
  TrKeccak (mkKeccakTracer (kt_env t) (traceOps t ++ trace_ops p A)).
Proof.
  revert A t. induction p as [x0|op k IH|ev k IH]; intros A t; simpl.
  - rewrite app_nil_r. by destruct t.
  - destruct (spec_op op A) as [[res A1]|]; [apply IH|]. rewrite app_nil_r. by destruct t.
  - rewrite IH. cbn. by rewrite <-app_assoc.
Qed.

(** The state tracer keeps the last value of every slot. *)
Lemma slot_of_ensure m c c' k : slot_of (ensure c m) c' k = slot_of m c' k.
Proof.
  unfold ensure, slot_of. destruct (m !! c) eqn:E; [done|].
  destruct (decide (c = c')) as [->|]; [by rewrite lookup_insert_eq, E|by rewrite lookup_insert_ne].
Qed.

Lemma slot_of_note x m c k :
  slot_of (note_access x m) c k =
  if decide (ac_contract x = c ∧ ac_key x = k) then Some (ac_value x) else slot_of m c k.
Proof.
  unfold note_access, set_slot, slot_of.
  destruct (decide (ac_contract x = c)) as [E1|E1].
  - subst c. rewrite lookup_insert_eq. cbn. destruct (decide (ac_key x = k)) as [E2|E2].
    + subst k. by rewrite lookup_insert_eq, decide_True.
    + rewrite lookup_insert_ne, decide_False by tauto. by destruct (m !! ac_contract x).
  - by rewrite lookup_insert_ne, decide_False by tauto.
Qed.

Lemma shown_all_state {X} (p : TracedProg X) A t :
  ∃ t', shown_all p A (TrState t) = TrState t' ∧ ∀ c k,
    slot_of (slotAccessed t') c k = foldl (noted c k) (slot_of (slotAccessed t) c k) (accesses p A).
Proof.
  revert A t. induction p as [x0|op k0 IH|ev k0 IH]; intros A t; simpl; eauto.
  - destruct (spec_op op A) as [[res A1]|]; eauto.
  - match goal with |- context [shown_all k0 A (TrState ?t1)] => destruct (IH A t1) as (t' & -> & Hs) end.
    exists t'; split; [done|]. intros c k. rewrite Hs, foldl_app. f_equal. cbn [slotAccessed].
    destruct (access_of ev A) as [x|]; simpl; [|apply slot_of_ensure].
    unfold noted. by rewrite slot_of_note, slot_of_ensure.
Qed.
End lemmas.

(** ** Properties *)

Section properties.
Context `{Core} `{!GethLaws} `{!Upstream}.
Context (answer : BatchElem → option RpcValue) (N : nat) (HN : Reliable answer N).

(** The tracers of this repository. *)
Definition own_tracer (t : KeccakTracer + StateTracer) : Tracer :=
  match t with inl t => TrKeccak t | inr t => TrState t end.

(** C34: tracing is transparent, or it panics.  Code run under the keccak tracer or the state
    tracer gets the results it gets without one, although the tracer reads the database at
    every load, and the database ends in a state that refines the same abstract state;
    unless the code shows a step that the tracer cannot read, a hash, a revert, a load or a
    store without its operands on the stack, or a hash or a revert whose slice of the memory is
    out of bounds.  Then the tracer panics at the first of them.  Nothing but the layers of
    the database and the root's cache was touched in either case. *)
Theorem tracing_transparent {X} (p : TracedProg X) tracer own base r b d w A x A' :
  refines answer own base r b w d A → spec_prog (erase p) A = Some (x, A') →
  let t := own_tracer tracer in
  match stops t p A with
  | None => ∃ t' w' own', exec_traced d p t w = (Ok (x, t'), w') ∧
      refines answer own' base r b w' d A' ∧ confined answer b r d own w own' w'
  | Some A1 => ∃ err w' own', exec_traced d p t w = (Panic err, w') ∧
      refines answer own' base r b w' d A1 ∧ confined answer b r d own w own' w'
  end.
Proof.
  intros Href Hp t. assert (started d (CaptureStart d t)) as Hst by (by destruct tracer).
  destruct (stops t p A) as [A1|] eqn:Hstop.
  - apply (trace_stops answer N HN base r b d p _ _ _ _ _ Href); [by rewrite stops_start|done].
  - destruct (trace_run answer N HN base r b d p _ _ _ (CaptureStart d t) x A' Href) as (w' & own' & ? & ? & ?);
      [by rewrite stops_start|done|done|].
    by exists (shown_all p A (CaptureStart d t)), w', own'.
Qed.

(** The state tracer ends with exactly the slots the run loaded or stored, each with
    the value the last of these accesses loaded or stored. *)
Theorem StateTracer_records {X} (p : TracedProg X) own base r b d w A x A' :
  refines answer own base r b w d A → state_stops p A = None → spec_prog (erase p) A = Some (x, A') →
  ∃ t' w', exec_traced d p (TrState NewStateTracer) w = (Ok (x, TrState t'), w') ∧
    ∀ c k, slot_of (State_GetResult t') c k = last_value c k (accesses p A).
Proof.
  intros Href Hwf Hp. set (t0 := State_CaptureStart d NewStateTracer).
  assert (stops (TrState t0) p A = None) as Hwf0 by by rewrite <-Hwf, <-(stops_start p d (TrState NewStateTracer)).
  destruct (trace_run answer N HN base r b d p _ _ _ (TrState t0) x A' Href Hwf0 eq_refl Hp) as (w' & own' & Hrun & _ & _).
  destruct (shown_all_state p A t0) as (t' & E & Hs). rewrite E in Hrun.
  exists t', w'. by split.
Qed.

(** The keccak tracer lists, in order, every hash with the hashed memory, every load
    with the value it read, every store and every gas reading of the run. *)
Theorem KeccakTracer_records {X} (p : TracedProg X) own base r b d w A x A' :
  refines answer own base r b w d A → keccak_stops p A = None → spec_prog (erase p) A = Some (x, A') →
  ∃ t' w', exec_traced d p (TrKeccak NewKeccakTracer) w = (Ok (x, TrKeccak t'), w') ∧
    Keccak_GetResult t' = trace_ops p A.
Proof.
  intros Href Hwf Hp. set (t0 := Keccak_CaptureStart d NewKeccakTracer).
  assert (stops (TrKeccak t0) p A = None) as Hwf0 by by rewrite <-Hwf, <-(stops_start p d (TrKeccak NewKeccakTracer)).
  destruct (trace_run answer N HN base r b d p _ _ _ (TrKeccak t0) x A' Href Hwf0 eq_refl Hp) as (w' & own' & Hrun & _ & _).
  rewrite shown_all_keccak in Hrun. eexists _, w'. by split; [exact Hrun|].
Qed.
End properties.

(** ** Examples *)

Module TracersExamples.
Import ToyNode.

(** Stores 9 at slot 7 of [a1], loads it back, hashes the first two bytes of the memory and
    loads slot 8. *)
Definition prog : TracedProg Hash :=
  TStep (mkStep SLOAD a1 50 [7] (mkMemory 0 [] 0)) (TInvoke (OpGetState a1 (word_Hash 7)) (λ _,
  TStep (mkStep SSTORE a1 40 [9; 7] (mkMemory 0 [] 0)) (TInvoke (OpSetState a1 (word_Hash 7) (word_Hash 9)) (λ _,
  TStep (mkStep KECCAK256 a1 30 [2; 0] (mkMemory 5 [x01; x02; x03] 3))
  (TStep (mkStep SLOAD a1 20 [8] (mkMemory 5 [x01; x02; x03] 3)) (TInvoke (OpGetState a1 (word_Hash 8)) (λ _,
  TDone (word_Hash 9)))))))).

(** The same, but for a load that lacks its operand. *)
Definition prog_short : TracedProg Hash :=
  TInvoke (OpSetState a1 (word_Hash 7) (word_Hash 9)) (λ _,
  TStep (mkStep SLOAD a1 50 [] (mkMemory 0 [] 0)) (TDone (word_Hash 9))).

Lemma tracing_transparent_witness :
  let A2 := with_obs (λ f, upd_obs f a1 GET_STATE (word_Hash 7) (Hash_Bytes (word_Hash 9))) A1 in
  (∃ t' w' own', exec_traced 3%nat prog (TrState NewStateTracer) w1 = (Ok (word_Hash 9, t'), w') ∧
    refines answer own' [1%nat] 1%nat 100 w' 3%nat A2 ∧ confined answer 100 1%nat 3%nat [2%nat] w1 own' w') ∧
  ∃ err w' own', exec_traced 3%nat prog_short (TrKeccak NewKeccakTracer) w1 = (Panic err, w') ∧
    refines answer own' [1%nat] 1%nat 100 w' 3%nat A2 ∧ confined answer 100 1%nat 3%nat [2%nat] w1 own' w'.
Proof.
  split.
  - exact (tracing_transparent answer 1 reliable prog (inr NewStateTracer) _ _ _ _ _ _ _ _ _ w1_refines eq_refl).
  - exact (tracing_transparent answer 1 reliable prog_short (inl NewKeccakTracer) _ _ _ _ _ _ _ _ _ w1_refines eq_refl).
Defined.

Lemma StateTracer_records_witness :
  ∃ t' w', exec_traced 3%nat prog (TrState NewStateTracer) w1 = (Ok (word_Hash 9, TrState t'), w') ∧
    slot_of (State_GetResult t') a1 (word_Hash 7) = Some (word_Hash 9) ∧
    slot_of (State_GetResult t') a1 (word_Hash 8) = Some (word_Hash 8) ∧
    slot_of (State_GetResult t') a2 (word_Hash 8) = None.
Proof.
  destruct (StateTracer_records answer 1 reliable prog _ _ _ _ _ _ _ _ _ w1_refines eq_refl eq_refl)
    as (t' & w' & Hrun & Hslot).
  exists t', w'. split; [exact Hrun|]. rewrite !Hslot. split_and!; reflexivity.
Defined.

Lemma KeccakTracer_records_witness :
  ∃ t' w', exec_traced 3%nat prog (TrKeccak NewKeccakTracer) w1 = (Ok (word_Hash 9, TrKeccak t'), w') ∧
    Keccak_GetResult t' =
      [StorageOp a1 (word_Hash 7) (word_Hash 7) false; StorageOp a1 (word_Hash 7) (word_Hash 9) true;
       KeccakOp a1 (mkMemSlice 5 0 2) (Keccak256Hash [x01; x02]);
       StorageOp a1 (word_Hash 8) (word_Hash 8) false].
Proof.
  destruct (KeccakTracer_records (H0:=core) answer 1 reliable prog _ _ _ _ _ _ _ _ _ w1_refines eq_refl eq_refl)
    as (t' & w' & Hrun & Hops).
  exists t', w'. split; [exact Hrun|]. rewrite Hops. reflexivity.
Defined.
End TracersExamples.
