(* ===== verification/GoStd.v ===== *)
(** * Pieces of Go's standard library

    String splitting and searching, [strconv.Atoi], [time.ParseDuration] and
    [bytes.ReplaceAll], on byte sequences, as far as the program uses them. *)
From S2P Require Import Prelude BigInt.

(** ** strings and bytes *)

Section search.
Context {A : Type} `{!EqDecision A}.
Implicit Types l : list A.

Definition has_prefix (p l : list A) : bool := bool_decide (take (length p) l = p).

(** [strings.Split(l, sep)] for a separator of one byte. *)
Fixpoint split (sep : A) (l : list A) : list (list A) :=
  match l with
  | [] => [[]]
  | x :: l =>
      if decide (x = sep) then [] :: split sep l
      else match split sep l with
           | w :: ws => (x :: w) :: ws
           | [] => [[x]]
           end
  end.

(** [strings.LastIndex(l, sub)] *)
Fixpoint last_index (l sub : list A) : option nat :=
  match l with
  | [] => if has_prefix sub [] then Some 0%nat else None
  | x :: l' =>
      match last_index l' sub with
      | Some i => Some (S i)
      | None => if has_prefix sub l then Some 0%nat else None
      end
  end.

(** [bytes.ReplaceAll(l, old, new)] for an [old] that is not empty; [skip] counts the bytes
    of a match still to be dropped. *)
Fixpoint replace_from (old new : list A) (skip : nat) (l : list A) : list A :=
  match l with
  | [] => []
  | x :: l' =>
      match skip with
      | S n => replace_from old new n l'
      | O => if has_prefix old l then new ++ replace_from old new (length old - 1) l'
             else x :: replace_from old new 0 l'
      end
  end.
Definition replace_all (l old new : list A) : list A := replace_from old new 0 l.
End search.

(** ** strconv *)

Definition digit (b : byte) : option Z :=
  let z := Z_of_byte b in if decide (48 ≤ z ≤ 57) then Some (z - 48) else None.

Fixpoint digits (acc : Z) (l : bytes) : option Z :=
  match l with
  | [] => Some acc
  | b :: l => d ← digit b; digits (acc * 10 + d) l
  end.

(** [strconv.Atoi]: an optional sign and decimal digits, in the range of an [int]. *)
Definition Atoi (l : bytes) : option Z :=
  let '(neg, l) := match l with
                   | x2d :: l => (true, l)
                   | x2b :: l => (false, l)
                   | _ => (false, l)
                   end in
  match l with
  | [] => None
  | _ =>
      z ← digits 0 l;
      let z := if neg : bool then - z else z in
      if decide (- 2 ^ 63 ≤ z < 2 ^ 63) then Some z else None
  end.

(** ** time *)

(** The nanoseconds of a unit; the micro sign has two encodings. *)
Definition unit_ns (u : bytes) : option Z :=
  if decide (u = [x6e; x73]) then Some 1
  else if decide (u = [x75; x73] ∨ u = [xc2; xb5; x73] ∨ u = [xce; xbc; x73]) then Some (10 ^ 3)
  else if decide (u = [x6d; x73]) then Some (10 ^ 6)
  else if decide (u = [x73]) then Some (10 ^ 9)
  else if decide (u = [x6d]) then Some (60 * 10 ^ 9)
  else if decide (u = [x68]) then Some (3600 * 10 ^ 9)
  else None.

(** The leading digits, and the rest. *)
Fixpoint span_digits (acc : Z) (n : nat) (l : bytes) : Z * nat * bytes :=
  match l with
  | b :: l' =>
      match digit b with
      | Some d => span_digits (acc * 10 + d) (S n) l'
      | None => (acc, n, l)
      end
  | [] => (acc, n, [])
  end.

(** The bytes before the next dot or digit, and the rest. *)
Fixpoint span_unit (l : bytes) : bytes * bytes :=
  match l with
  | b :: l' =>
      if decide (b = x2e ∨ is_Some (digit b)) then ([], l)
      else let '(u, r) := span_unit l' in (b :: u, r)
  | [] => ([], [])
  end.

(** The sum of the number-unit pairs of a duration, in nanoseconds, rounded towards zero;
    [None] when one is malformed or the sum passes 2^63. *)
Fixpoint duration_loop (fuel : nat) (l : bytes) (acc : Z) : option Z :=
  match fuel, l with
  | _, [] => Some acc
  | O, _ => None
  | S fuel, _ =>
      let '(v, pre, l) := span_digits 0 0 l in
      let '(f, post, l) := match l with
                           | x2e :: l => span_digits 0 0 l
                           | _ => (0, 0%nat, l)
                           end in
      if decide (pre = 0%nat ∧ post = 0%nat) then None else
      let '(u, l) := span_unit l in
      match u, unit_ns u with
      | [], _ | _, None => None
      | _, Some unit =>
          let acc := acc + v * unit + f * unit / 10 ^ Z.of_nat post in
          if decide (acc ≤ 2 ^ 63) then duration_loop fuel l acc else None
      end
  end.

(** [time.ParseDuration]; every pair takes at least one byte. *)
Definition ParseDuration (l : bytes) : option Z :=
  let '(neg, l) := match l with
                   | x2d :: l => (true, l)
                   | x2b :: l => (false, l)
                   | _ => (false, l)
                   end in
  if decide (l = [x30]) then Some 0
  else if decide (l = []) then None
  else
    d ← duration_loop (length l) l 0;
    if neg : bool then Some (- d) else if decide (d < 2 ^ 63) then Some d else None.

Example Atoi_examples :
  Atoi [x31; x37] = Some 17 ∧ Atoi [x2d; x31] = Some (-1) ∧ Atoi [x61] = None ∧ Atoi [] = None.
Proof. done. Qed.

Example ParseDuration_examples :
  ParseDuration [x31; x2e; x35; x73] = Some 1500000000 ∧
  ParseDuration [x31; x68; x31; x6d] = Some (3660 * 10 ^ 9) ∧
  ParseDuration [x31] = None ∧ ParseDuration [x73] = None.
Proof. done. Qed.

(** ** Lemmas *)

Section lemmas.
Context {A : Type} `{!EqDecision A}.
Implicit Types l : list A.

Lemma split_cons_ne sep l : split sep l ≠ [].
Proof. destruct l as [|x l]; simpl; [done|]. case_decide; [done|]. by destruct (split sep l). Qed.

(** A part has no separator. *)
Lemma split_none sep l : sep ∉ l → split sep l = [l].
Proof.
  induction l as [|x l IH]; intros Hn; simpl; [done|].
  rewrite decide_False by (intros ->; apply Hn; left).
  rewrite IH; [done|]. intros Hin. apply Hn. by right.
Qed.

(** Splitting at the last separator. *)
Lemma split_last sep l r : sep ∉ r → last (split sep (l ++ sep :: r)) = Some r ∧
  (1 < length (split sep (l ++ sep :: r)))%nat.
Proof.
  intros Hr. induction l as [|x l [IH Hlen]]; simpl.
  - rewrite decide_True, split_none by done. simpl. split; [done|lia].
  - case_decide; [|destruct (split sep (l ++ sep :: r)) as [|w ws]; simpl in *; [lia|]].
    + destruct (split sep (l ++ sep :: r)); simpl in *; [lia|]. split; [done|lia].
    + destruct ws; simpl in *; [lia|]. done.
Qed.

Lemma has_prefix_app p l : has_prefix p (p ++ l) = true.
Proof. apply bool_decide_eq_true. by rewrite take_app_length. Qed.

Lemma last_index_short l sub : (length l < length sub)%nat → last_index l sub = None.
Proof.
  induction l as [|x l IH]; simpl; intros Hl.
  - unfold has_prefix. rewrite bool_decide_false; [done|]. rewrite take_nil. intros <-. simpl in Hl. lia.
  - rewrite IH by lia. unfold has_prefix. rewrite bool_decide_false; [done|].
    intros E. apply (f_equal length) in E. rewrite length_take in E. simpl in E. lia.
Qed.

Lemma last_index_end l sub : sub ≠ [] → last_index (l ++ sub) sub = Some (length l).
Proof.
  intros Hs. induction l as [|x l IH]; simpl; [|by rewrite IH].
  destruct sub as [|y sub]; [done|]. cbn [last_index]. rewrite last_index_short by (simpl; lia).
  pose proof (has_prefix_app (y :: sub) []) as E. rewrite app_nil_r in E. by rewrite E.
Qed.

(** Replacing by as many bytes keeps the length. *)
Lemma length_replace_from old new skip l :
  old ≠ [] → length new = length old → (length l < length old → skip ≤ length l)%nat →
  (skip ≤ length l)%nat →
  length (replace_from old new skip l) = (length l - skip)%nat.
Proof.
  intros Ho Hn. revert skip. induction l as [|x l IH]; intros skip _ Hs; simpl in *; [lia|].
  destruct skip as [|n]; [|rewrite IH; lia].
  destruct (has_prefix old (x :: l)) eqn:E.
  - apply bool_decide_eq_true in E. apply (f_equal length) in E. rewrite length_take in E. simpl in E.
    destruct old as [|o old]; [done|]. simpl in *.
    rewrite length_app, IH by lia. lia.
  - simpl. rewrite IH; lia.
Qed.
End lemmas.
