(* ===== verification/TxArgs.v ===== *)
(** * mferbackend/ethinternaltypes.go: arguments and representations of the RPC interface

    [TransactionArgs] holds what a client may leave out; [ToMessage] and [toTransaction]
    fill the gaps.  [newRPCTransaction], [RPCMarshalHeader] and [RPCMarshalBlock] build what
    is sent back; the JSON objects are maps from field names to [Value]s. *)
From S2P Require Import Prelude BigInt Geth World OverlayState OverlayStateDB VmStateDB Chain.
From S2P Require Import GoSlice ToyInstance.

(** ** Arguments *)

Section args.
Context `{Core}.

(** Every field is a pointer that may be nil. *)
Record TransactionArgs := mkTransactionArgs {
  From : option Address;
  To : option Address;
  Gas : option Z;
  GasPrice : option Z;
  MaxFeePerGas : option Z;
  MaxPriorityFeePerGas : option Z;
  Value_ : option Z;
  Nonce : option Z;
  Data : option bytes;
  Input : option bytes;
  AccessList_ : option (list AccessTuple);
  ChainID_ : option Z
}.

Definition from (arg : TransactionArgs) : Address := default Address_zero (From arg).

(** [input] is preferred to [data]. *)
Definition data (arg : TransactionArgs) : bytes :=
  match Input arg with
  | Some l => l
  | None => default [] (Data arg)
  end.

Definition BigMin (x y : Z) : Z := if Z.ltb y x then y else x.

(** [gas], from the caller's value and the cap; [math.MaxUint64 / 2] is the default. *)
Definition message_gas (globalGasCap : Z) (gas : option Z) : Z :=
  let g := if Z.eqb globalGasCap 0 then (2 ^ 64 - 1) / 2 else globalGasCap in
  let g := default g gas in
  if negb (Z.eqb globalGasCap 0) && Z.ltb globalGasCap g then globalGasCap else g.

(** [gasPrice], [gasFeeCap] and [gasTipCap]. *)
Definition message_fees (args : TransactionArgs) (baseFee : option Z) : Z * Z * Z :=
  match baseFee with
  | None => let gasPrice := default 0 (GasPrice args) in (gasPrice, gasPrice, gasPrice)
  | Some baseFee =>
      match GasPrice args with
      | Some gasPrice => (gasPrice, gasPrice, gasPrice)
      | None =>
          let gasFeeCap := default 0 (MaxFeePerGas args) in
          let gasTipCap := default 0 (MaxPriorityFeePerGas args) in
          (* BitLen() > 0 *)
          let gasPrice := if negb (Z.eqb gasFeeCap 0) || negb (Z.eqb gasTipCap 0)
                          then BigMin (gasTipCap + baseFee) gasFeeCap else 0 in
          (gasPrice, gasFeeCap, gasTipCap)
      end
  end.

Definition ToMessage (args : TransactionArgs) (globalGasCap : Z) (baseFee : option Z) : Err + Message :=
  match GasPrice args, MaxFeePerGas args, MaxPriorityFeePerGas args with
  | Some _, Some _, _ | Some _, _, Some _ =>
      inl "both gasPrice and (maxFeePerGas or maxPriorityFeePerGas) specified"
  | _, _, _ =>
      let addr := from args in
      let gas := message_gas globalGasCap (Gas args) in
      let '(gasPrice, gasFeeCap, gasTipCap) := message_fees args baseFee in
      let value := default 0 (Value_ args) in
      let accessList := default [] (AccessList_ args) in
      let nonce := default 0 (Nonce args) in
      inr (NewMessage addr (To args) nonce value gas gasPrice gasFeeCap gasTipCap (data args)
             accessList true)
  end.

(** [None]: the nonce or the gas is missing and the call panics. *)
Definition toTransaction (args : TransactionArgs) : option Transaction :=
  nonce ← Nonce args;
  gas ← Gas args;
  Some (NewTx
    match MaxFeePerGas args, AccessList_ args with
    | Some gasFeeCap, al =>
        DynamicFeeTx (To args) (ChainID_ args) nonce gas (Some gasFeeCap)
          (MaxPriorityFeePerGas args) (Value_ args) (data args) (default [] al)
    | None, Some al =>
        AccessListTx (To args) (ChainID_ args) nonce gas (GasPrice args) (Value_ args)
          (data args) al
    | None, None =>
        LegacyTx (To args) nonce gas (GasPrice args) (Value_ args) (data args)
    end).

Definition ToTransaction (args : TransactionArgs) : option Transaction := toTransaction args.

(** ** Errors *)

(** [revertError]: a message, and the data in hexadecimal. *)
Record revertError := mkRevertError { re_error : Err; re_reason : bytes }.

(** The message of [newRevertError] and of [ExecuteMsg]. *)
Definition revert_message (revert : bytes) : Err :=
  match UnpackRevert revert with
  | Some reason => ("execution reverted: " ++ reason)%string
  | None => "execution reverted"
  end.

Definition newRevertError (result : ExecutionResult) : revertError :=
  mkRevertError (revert_message (er_Revert result)) (str "0x" ++ Bytes2Hex (er_Revert result)).

(** ** Representations *)

Record RPCTransaction := mkRPCTransaction {
  rt_BlockHash : option Hash;
  rt_BlockNumber : option Z;
  rt_From : Address;
  rt_Gas : Z;
  rt_GasPrice : Z;
  rt_GasFeeCap : option Z;
  rt_GasTipCap : option Z;
  rt_Hash : Hash;
  rt_Input : bytes;
  rt_Nonce : Z;
  rt_To : option Address;
  rt_TransactionIndex : option Z;
  rt_Value : Z;
  rt_Type : Z;
  rt_Accesses : option (list AccessTuple);
  rt_ChainID : option Z;
  rt_V : Z; rt_R : Z; rt_S : Z
}.

Definition AccessListTxType : Z := 1.
Definition DynamicFeeTxType : Z := 2.

Definition newRPCTransaction (tx : Transaction) (blockHash : Hash) (blockNumber index : Z)
    (baseFee : option Z) : RPCTransaction :=
  let signer := if tx_Protected tx then LatestSignerForChainID (tx_ChainId tx) else HomesteadSigner in
  let from := match types_Sender signer tx with inr a => a | inl _ => Address_zero end in
  let '(v, r, s) := RawSignatureValues tx in
  let mined := bool_decide (blockHash ≠ Hash_zero) in
  let located {A} (a : A) : option A := if mined then Some a else None in
  let dynamic := Z.eqb (tx_Type tx) DynamicFeeTxType in
  let typed := Z.eqb (tx_Type tx) AccessListTxType || dynamic in
  {| rt_BlockHash := located blockHash;
     rt_BlockNumber := located blockNumber;
     rt_From := from;
     rt_Gas := tx_Gas tx;
     rt_GasPrice :=
       if dynamic then
         match baseFee with
         | Some baseFee => if mined then BigMin (tx_GasTipCap tx + baseFee) (tx_GasFeeCap tx)
                           else tx_GasFeeCap tx
         | None => tx_GasFeeCap tx
         end
       else tx_GasPrice tx;
     rt_GasFeeCap := if dynamic then Some (tx_GasFeeCap tx) else None;
     rt_GasTipCap := if dynamic then Some (tx_GasTipCap tx) else None;
     rt_Hash := tx_Hash tx;
     rt_Input := tx_Data tx;
     rt_Nonce := tx_Nonce tx;
     rt_To := tx_To tx;
     rt_TransactionIndex := located index;
     rt_Value := tx_Value tx;
     rt_Type := tx_Type tx;
     rt_Accesses := if typed then Some (tx_AccessList tx) else None;
     rt_ChainID := if typed then Some (tx_ChainId tx) else None;
     rt_V := v; rt_R := r; rt_S := s |}.
End args.

(** ** JSON objects *)

Section json.
Context `{Core}.

Inductive Value :=
| VNull
| VInt (z : Z)
| VBytes (l : bytes)
| VHash (h : Hash)
| VAddress (a : Address)
| VString (s : string)
| VHashes (l : list Hash)
| VLogs (l : list Log).

Definition VOptAddress (a : option Address) : Value := from_option VAddress VNull a.

Definition RPCMarshalHeader (head : Header) : gmap string Value :=
  let result : gmap string Value := list_to_map [
    ("number", VInt (hd_Number head));
    ("hash", VHash (header_Hash head));
    ("parentHash", VHash (hd_ParentHash head));
    ("nonce", VBytes (hd_Nonce head));
    ("mixHash", VHash (hd_MixDigest head));
    ("sha3Uncles", VHash (hd_UncleHash head));
    ("logsBloom", VBytes (hd_Bloom head));
    ("stateRoot", VHash (hd_Root head));
    ("miner", VAddress (hd_Coinbase head));
    ("difficulty", VInt (hd_Difficulty head));
    ("extraData", VBytes (hd_Extra head));
    ("size", VInt (header_Size head));
    ("gasLimit", VInt (hd_GasLimit head));
    ("gasUsed", VInt (hd_GasUsed head));
    ("timestamp", VInt (hd_Time head));
    ("transactionsRoot", VHash (hd_TxHash head));
    ("receiptsRoot", VHash (hd_ReceiptHash head))] in
  match hd_BaseFee head with
  | Some baseFee => <["baseFeePerGas" := VInt baseFee]> result
  | None => result
  end.

(** The loop over the transactions: full transactions are refused, so only a block
    without any survives [fullTx]. *)
Definition format_txs (fullTx : bool) (txs : list Transaction) : Err + list Hash :=
  if fullTx then match txs with [] => inr [] | _ => inl "cannot fetch full tx" end
  else inr (tx_Hash <$> txs).

Definition RPCMarshalBlock (block : Block) (inclTx fullTx : bool) : Err + gmap string Value :=
  let fields := <["size" := VInt (block_Size block)]> (RPCMarshalHeader (block_Header block)) in
  let uncles := VHashes (header_Hash <$> block_Uncles block) in
  if inclTx then
    match format_txs fullTx (block_Transactions block) with
    | inl err => inl err
    | inr transactions => inr (<["uncles" := uncles]> (<["transactions" := VHashes transactions]> fields))
    end
  else inr (<["uncles" := uncles]> fields).
End json.

(** ** Properties *)

Section properties.
Context `{Core}.

(** Numbers that arrive as 64-bit words and as non-negative big integers. *)
Record well_typed (args : TransactionArgs) : Prop := {
  wt_gas : from_option is_u64 True (Gas args);
  wt_nonce : from_option is_u64 True (Nonce args);
  wt_price : from_option (Z.le 0) True (GasPrice args);
  wt_cap : from_option (Z.le 0) True (MaxFeePerGas args);
  wt_tip : from_option (Z.le 0) True (MaxPriorityFeePerGas args);
  wt_value : from_option (Z.le 0) True (Value_ args)
}.

(** What the two styles of fees are. *)
Definition both_styles (args : TransactionArgs) : Prop :=
  is_Some (GasPrice args) ∧ (is_Some (MaxFeePerGas args) ∨ is_Some (MaxPriorityFeePerGas args)).

Lemma message_gas_range cap gas :
  is_u64 cap → from_option is_u64 True gas →
  is_u64 (message_gas cap gas) ∧ (cap ≠ 0 → message_gas cap gas ≤ cap) ∧
  (cap = 0 → message_gas cap gas = default (2 ^ 63 - 1) gas).
Proof.
  unfold message_gas, is_u64. change ((2 ^ 64 - 1) / 2) with (2 ^ 63 - 1). intros Hcap Hgas.
  destruct (Z.eqb_spec cap 0) as [->|Hne]; simpl.
  - destruct gas; simpl in *; [|split_and!; lia]. split_and!; lia.
  - destruct (Z.ltb_spec cap (default cap gas)); destruct gas; simpl in *; split_and!; lia.
Qed.

Lemma message_fees_range args baseFee gasPrice gasFeeCap gasTipCap :
  well_typed args → from_option (Z.le 0) True baseFee →
  message_fees args baseFee = (gasPrice, gasFeeCap, gasTipCap) →
  0 ≤ gasPrice ≤ gasFeeCap ∧ 0 ≤ gasTipCap ∧
  (∀ bf, baseFee = Some bf → GasPrice args = None → gasPrice ≤ gasTipCap + bf).
Proof.
  intros [_ _ Hp Hc Ht _] Hb. unfold message_fees, BigMin.
  destruct baseFee as [bf|]; [destruct (GasPrice args) as [p|]|]; simpl in *.
  - intros [= <- <- <-]. split_and!; try lia. intros ? ? ?. done.
  - destruct (MaxFeePerGas args) as [c|], (MaxPriorityFeePerGas args) as [tp|]; simpl in *;
      repeat (case_match; simpl in *); intros [= <- <- <-];
      rewrite ?Z.ltb_lt, ?Z.ltb_ge, ?orb_true_iff, ?orb_false_iff, ?negb_true_iff, ?negb_false_iff,
        ?Z.eqb_eq, ?Z.eqb_neq in *; split_and!; try lia; intros ? [= <-] _; lia.
  - destruct (GasPrice args); simpl in *; intros [= <- <- <-]; split_and!; try lia; done.
Qed.

Lemma ToMessage_refused args cap baseFee :
  (∃ err, ToMessage args cap baseFee = inl err) ↔ both_styles args.
Proof.
  unfold ToMessage, both_styles. destruct (message_fees args baseFee) as [[gp fc] tc].
  destruct (GasPrice args), (MaxFeePerGas args), (MaxPriorityFeePerGas args); split;
    try (by intros [? [=]]); try (by intros [[? [=]] _]); try (by intros [_ [[? [=]]|[? [=]]]]);
    intros _; rewrite ?is_Some_alt; eauto.
Qed.

Lemma ToMessage_inv args cap baseFee msg :
  ToMessage args cap baseFee = inr msg →
  ∃ gp fc tc, message_fees args baseFee = (gp, fc, tc) ∧
    msg = NewMessage (from args) (To args) (default 0 (Nonce args)) (default 0 (Value_ args))
      (message_gas cap (Gas args)) gp fc tc (data args) (default [] (AccessList_ args)) true.
Proof.
  unfold ToMessage. destruct (message_fees args baseFee) as [[gp fc] tc].
  destruct (GasPrice args), (MaxFeePerGas args), (MaxPriorityFeePerGas args); intros [= <-]; eauto.
Qed.

(** C38: a call's arguments become a well-typed message.  They are refused exactly when they
    give fees in both styles; otherwise the gas and the nonce are 64-bit numbers, the gas
    is within the cap, the price is between zero and the fee cap and at most the tip over
    the base fee, and the sender, the destination and the data are the caller's, with
    [input] before [data]. *)
Theorem ToMessage_typed args cap baseFee :
  well_typed args → is_u64 cap → from_option (Z.le 0) True baseFee →
  ((∃ err, ToMessage args cap baseFee = inl err) ↔ both_styles args) ∧
  ∀ msg, ToMessage args cap baseFee = inr msg →
    is_u64 (m_Gas msg) ∧ (cap ≠ 0 → m_Gas msg ≤ cap) ∧ is_u64 (m_Nonce msg) ∧ 0 ≤ m_Value msg ∧
    0 ≤ m_GasPrice msg ≤ m_GasFeeCap msg ∧
    (∀ bf, baseFee = Some bf → GasPrice args = None → m_GasPrice msg ≤ m_GasTipCap msg + bf) ∧
    m_From msg = default Address_zero (From args) ∧ m_To msg = To args ∧
    m_Data msg = match Input args, Data args with Some l, _ | None, Some l => l | None, None => [] end.
Proof.
  intros Hwt Hcap Hb. split; [apply ToMessage_refused|].
  intros msg (gp & fc & tc & Hf & ->)%ToMessage_inv.
  destruct (message_gas_range cap (Gas args) Hcap (wt_gas _ Hwt)) as (Hg1 & Hg2 & _).
  destruct (message_fees_range _ _ _ _ _ Hwt Hb Hf) as (Hf1 & Hf2 & Hf3).
  pose proof (wt_nonce _ Hwt) as Hn. pose proof (wt_value _ Hwt) as Hv. simpl.
  split_and!; try done; try lia.
  - destruct (Nonce args); simpl in *; unfold is_u64 in *; lia.
  - destruct (Value_ args); simpl in *; lia.
Qed.
End properties.

(** ** Example *)

Module ToyArgs.
Export ToyCore.

(** Gas over the cap, a fee cap of 30, a tip of 2 over a base fee of 20. *)
Definition args1 : TransactionArgs :=
  mkTransactionArgs (Some a1) (Some a2) (Some (2 ^ 63)) None (Some 30) (Some 2) None None (Some [x01])
    (Some [x02]) None None.

Lemma ToMessage_typed_witness :
  ∃ msg, ToMessage args1 50000000 (Some 20) = inr msg ∧ m_Gas msg ≤ 50000000 ∧ m_GasPrice msg ≤ 22 ∧
    m_Data msg = [x02].
Proof.
  destruct (ToMessage_typed args1 50000000 (Some 20)) as (_ & Hmsg).
  - split; simpl; unfold is_u64; lia.
  - unfold is_u64. lia.
  - simpl. lia.
  - eexists. split; [reflexivity|]. destruct (Hmsg _ eq_refl) as (_ & H1' & _ & _ & _ & H2' & _ & _ & H3').
    split_and!; [apply H1'; lia|apply (H2' 20); reflexivity|exact H3'].
Defined.
End ToyArgs.
