(* ===== verification/Evm.v ===== *)
(** * mferevm/evm.go: the EVM of the node

    [MferEVM] owns the state database, the block context, the gas pool and the pinned
    block number.  [EvmState] adds the world it lives in and the tracers, which are shared
    by pointer between the EVM and the handlers that set them.  The upstream node's other
    calls are the class [Remote]; [warm_schedule] is the interleaving of the goroutines
    that warm up the cache. *)
From S2P Require Import Prelude BigInt Geth World OverlayState OverlayStateDB VmStateDB Chain.
From S2P Require Import GoSlice GoStd ToyInstance Signer Tracers TxArgs.

(** ** Interfaces *)

Section interfaces.
Context `{Core}.

(** [filters.FilterCriteria] *)
Record FilterCriteria := mkFilterCriteria {
  fc_BlockHash : option Hash;
  fc_FromBlock : option Z;
  fc_ToBlock : option Z;
  fc_Addresses : list Address;
  fc_Topics : list (list Hash)
}.

(** What the [n]-th round trip returns. *)
Class Remote := {
  rpc_Dial : nat → bytes → bool;
  rpc_ChainID : nat → Err + Z;
  (** [eth_getBlockByNumber] decoded into a header; [None] when the call fails, returns
      nothing, or does not decode. *)
  rpc_Header : nat → string → option Header;
  rpc_BalanceAt : nat → Address → Z → Err + Z;
  rpc_NonceAt : nat → Address → Err + Z;
  rpc_BlockNumber : nat → Err + Z;
  rpc_BlockByNumber : nat → option Z → Err + Block;
  rpc_BlockByHash : nat → Hash → option Block;
  (** [eth_call]: the arguments, and the overrides when there are any. *)
  rpc_Call : nat → gmap string Value → gmap Address OverrideAccount → Err + bytes;
  (** [eth_getLogs] *)
  rpc_FilterLogs : nat → FilterCriteria → Err + list Log;
  (** Scheduling: which worker makes the next step, from a given round trip on. *)
  warm_schedule : nat → list nat
}.
End interfaces.

#[global] Hint Mode Remote - - : typeclass_instances.

(** ** State *)

Section state.
Context `{Core}.

(** [vm.BlockContext]; the numbers are pointers to [big.Int]s. *)
Record BlockContext := mkBlockContext {
  bc_Coinbase : Address;
  bc_GasLimit : Z;
  bc_BlockNumber : option loc;
  bc_Time : option loc;
  bc_Difficulty : option loc;
  bc_BaseFee : option loc
}.

Record MferEVM := mkMferEVM {
  RpcClient : bytes;                 (* the URL dialled *)
  StateDB : option loc;
  keyCacheFilePath : string;
  evm_maxKeyCache : Z;
  evm_batchSize : Z;
  vmContext : BlockContext;
  gasPool : option Z;
  chainConfig_ChainID : option Z;
  impersonatedAccount : Address;
  timeDelta : Z;
  blockNumberDelta : Z;
  tracer : option loc;
  blockNumber : option loc;
  pinBlock : bool
}.

Record EvmState := mkEvmState {
  es_world : World;
  es_evm : MferEVM;
  es_tracers : gmap loc Tracer;
  es_next : loc
}.

Definition set_world (w : World) (s : EvmState) : EvmState :=
  mkEvmState w (es_evm s) (es_tracers s) (es_next s).
Definition with_evm (f : MferEVM → MferEVM) (s : EvmState) : EvmState :=
  mkEvmState (es_world s) (f (es_evm s)) (es_tracers s) (es_next s).
Definition with_tracers (f : gmap loc Tracer → gmap loc Tracer) (s : EvmState) : EvmState :=
  mkEvmState (es_world s) (es_evm s) (f (es_tracers s)) (es_next s).

(** Field updates of the EVM. *)
Definition set_StateDB (d : loc) (e : MferEVM) : MferEVM :=
  mkMferEVM (RpcClient e) (Some d) (keyCacheFilePath e) (evm_maxKeyCache e) (evm_batchSize e)
    (vmContext e) (gasPool e) (chainConfig_ChainID e) (impersonatedAccount e) (timeDelta e)
    (blockNumberDelta e) (tracer e) (blockNumber e) (pinBlock e).
Definition set_vmContext_field (f : BlockContext → BlockContext) (e : MferEVM) : MferEVM :=
  mkMferEVM (RpcClient e) (StateDB e) (keyCacheFilePath e) (evm_maxKeyCache e) (evm_batchSize e)
    (f (vmContext e)) (gasPool e) (chainConfig_ChainID e) (impersonatedAccount e) (timeDelta e)
    (blockNumberDelta e) (tracer e) (blockNumber e) (pinBlock e).
Definition set_gasPool (g : Z) (e : MferEVM) : MferEVM :=
  mkMferEVM (RpcClient e) (StateDB e) (keyCacheFilePath e) (evm_maxKeyCache e) (evm_batchSize e)
    (vmContext e) (Some g) (chainConfig_ChainID e) (impersonatedAccount e) (timeDelta e)
    (blockNumberDelta e) (tracer e) (blockNumber e) (pinBlock e).
Definition set_ChainID (c : Z) (e : MferEVM) : MferEVM :=
  mkMferEVM (RpcClient e) (StateDB e) (keyCacheFilePath e) (evm_maxKeyCache e) (evm_batchSize e)
    (vmContext e) (gasPool e) (Some c) (impersonatedAccount e) (timeDelta e)
    (blockNumberDelta e) (tracer e) (blockNumber e) (pinBlock e).
Definition set_deltas (t b : Z) (e : MferEVM) : MferEVM :=
  mkMferEVM (RpcClient e) (StateDB e) (keyCacheFilePath e) (evm_maxKeyCache e) (evm_batchSize e)
    (vmContext e) (gasPool e) (chainConfig_ChainID e) (impersonatedAccount e) t b
    (tracer e) (blockNumber e) (pinBlock e).
Definition set_tracer_field (t : loc) (e : MferEVM) : MferEVM :=
  mkMferEVM (RpcClient e) (StateDB e) (keyCacheFilePath e) (evm_maxKeyCache e) (evm_batchSize e)
    (vmContext e) (gasPool e) (chainConfig_ChainID e) (impersonatedAccount e) (timeDelta e)
    (blockNumberDelta e) (Some t) (blockNumber e) (pinBlock e).
Definition set_block (p : loc) (pin : bool) (e : MferEVM) : MferEVM :=
  mkMferEVM (RpcClient e) (StateDB e) (keyCacheFilePath e) (evm_maxKeyCache e) (evm_batchSize e)
    (vmContext e) (gasPool e) (chainConfig_ChainID e) (impersonatedAccount e) (timeDelta e)
    (blockNumberDelta e) (tracer e) (Some p) pin.
End state.

(** A computation on the world; the EVM's fields. *)
Definition in_world `{Core} {A} (m : M World A) : M EvmState A := zoom es_world set_world m.
Definition the_evm `{Core} : M EvmState MferEVM := gets es_evm.
Definition update_evm `{Core} (f : MferEVM → MferEVM) : M EvmState unit := modify (with_evm f).

(** ** The block context *)

Section context.
Context `{Core} `{!Upstream} `{!Remote}.

(** One request to the upstream node. *)
Definition request {A} (f : nat → A) : M EvmState A :=
  in_world (λ w, (Ok (f (w_calls w)), with_call w)).

(** [fmt.Sprintf] of an integer with the verb x, after 0x. *)
Definition sprintf_hex (z : Z) : string :=
  if Z.ltb z 0
  then let d := EncodeBig (- z) in ("0x-" ++ String.substring 2 (String.length d - 2) d)%string
  else EncodeBig z.

Definition get_bigp (p : option loc) : M World Z := l ← non_nil p; get_big l.
Definition set_bigp (p : option loc) (z : Z) : M World unit := l ← non_nil p; set_big l z.

(** The numbers the EVM sees through a context. *)
Definition block_values (c : BlockContext) : M World BlockValues :=
  n ← get_bigp (bc_BlockNumber c);
  t ← get_bigp (bc_Time c);
  d ← get_bigp (bc_Difficulty c);
  f ← get_bigp (bc_BaseFee c);
  mret (mkBlockValues (bc_Coinbase c) (bc_GasLimit c) n t d f).

Definition GetBlockHeader (blockNumber : string) : M EvmState (option Header) :=
  request (λ n, rpc_Header n blockNumber).

Definition ChainID : M EvmState Z := deref (λ s, chainConfig_ChainID (es_evm s)).

Definition SetBlockNumber (bn : Z) : M EvmState unit :=
  e ← the_evm; in_world (p ← non_nil (blockNumber e); set_u64 p bn).

Definition AddGasPool : M EvmState unit :=
  e ← the_evm; update_evm (set_gasPool (bc_GasLimit (vmContext e))).

(** The method calls on [a.StateDB]. *)
Definition the_StateDB : M EvmState loc := e ← the_evm; in_world (non_nil (StateDB e)).

Definition ResetToRoot : M EvmState unit :=
  d ← the_StateDB;
  in_world (InitState d false false) ;;
  in_world (InitFakeAccounts d) ;;
  AddGasPool.

Definition SetTimeDelta (delta : Z) : M EvmState unit :=
  update_evm (λ e, set_deltas delta (blockNumberDelta e) e).
Definition GetTimeDelta : M EvmState Z := e ← the_evm; mret (timeDelta e).
Definition SetBlockNumberDelta (delta : Z) : M EvmState unit :=
  update_evm (λ e, set_deltas (timeDelta e) delta e).
Definition GetBlockNumberDelta : M EvmState Z := e ← the_evm; mret (blockNumberDelta e).

(** The struct is copied; the numbers are shared. *)
Definition GetVMContext : M EvmState BlockContext := e ← the_evm; mret (vmContext e).

Definition set_Coinbase (a : Address) (c : BlockContext) : BlockContext :=
  mkBlockContext a (bc_GasLimit c) (bc_BlockNumber c) (bc_Time c) (bc_Difficulty c) (bc_BaseFee c).
Definition set_GasLimit (g : Z) (c : BlockContext) : BlockContext :=
  mkBlockContext (bc_Coinbase c) g (bc_BlockNumber c) (bc_Time c) (bc_Difficulty c) (bc_BaseFee c).

(** [Time], [Difficulty] and [GasLimit] are set alike by the next two methods. *)
Definition set_context_tail (header : Header) : M EvmState unit :=
  e ← the_evm;
  in_world (set_bigp (bc_Time (vmContext e)) (i64 (u64 (hd_Time header + timeDelta e)))) ;;
  in_world (set_bigp (bc_Difficulty (vmContext e)) (hd_Difficulty header)) ;;
  update_evm (set_vmContext_field (set_GasLimit (hd_GasLimit header))).

Definition setVMContext : M EvmState (option Header) :=
  e ← the_evm;
  header ← (if pinBlock e
            then bn ← in_world (p ← non_nil (blockNumber e); get_u64 p);
                 GetBlockHeader (sprintf_hex bn)
            else GetBlockHeader "latest");
  match header with
  | None => mret None
  | Some h =>
      update_evm (set_vmContext_field (set_Coinbase (hd_Coinbase h))) ;;
      e ← the_evm;
      in_world (set_bigp (bc_BlockNumber (vmContext e))
        (i64 (u64 (Uint64 (hd_Number h) + 1 + blockNumberDelta e)))) ;;
      set_context_tail h ;;
      mret header
  end.

Definition SetVMContextByBlockHeader (header : Header) : M EvmState unit :=
  e ← the_evm;
  in_world (set_bigp (bc_BlockNumber (vmContext e)) (i64 (Uint64 (hd_Number header)))) ;;
  set_context_tail header.

Definition default_coinbase : Address :=
  BytesToAddress (Hex2Bytes (str "aabbccddaabbccddaabbccddaabbccddaabbccdd")).

(** The fresh block context of [Prepare]. *)
Definition fresh_context : M EvmState BlockContext :=
  f ← in_world (new_big 0); n ← in_world (new_big 0);
  t ← in_world (new_big 0); d ← in_world (new_big 0);
  mret (mkBlockContext default_coinbase 0 (Some n) (Some t) (Some d) (Some f)).

(** The configuration is the global one of the main network, whose chain id is replaced.
    [header.Number] panics when no header was found. *)
Definition Prepare : M EvmState (option Err) :=
  update_evm (λ e, set_ChainID (default 1 (chainConfig_ChainID e)) e) ;;
  r ← request rpc_ChainID;
  match r with
  | inl err => mret (Some err)
  | inr chainID =>
      update_evm (set_ChainID chainID) ;;
      c ← fresh_context;
      update_evm (set_vmContext_field (λ _, c)) ;;
      header ← setVMContext;
      h ← deref (λ _, header);
      SetBlockNumber (Uint64 (hd_Number h)) ;;
      e ← the_evm;
      (match StateDB e with
       | Some _ => mret tt
       | None =>
           d ← in_world (NewOverlayStateDB (blockNumber e) (keyCacheFilePath e) (evm_maxKeyCache e)
                 (evm_batchSize e));
           update_evm (set_StateDB d)
       end) ;;
      d ← the_StateDB;
      in_world (InitState d true false) ;;
      in_world (InitFakeAccounts d) ;;
      AddGasPool ;;
      mret None
  end.

(** *** Start *)

(** A URL may end in an at sign and the block to pin; [None]: the call panics. *)
Definition parse_url (rawurl : bytes) : option (bytes * option Z) :=
  let splittedRawUrl := split x40 rawurl in
  if decide (1 < length splittedRawUrl)%nat then
    bnStr ← last splittedRawUrl;
    bn ← Atoi bnStr;
    let lastIndex := default 0%nat (last_index rawurl (x40 :: bnStr)) in
    Some (take lastIndex rawurl, Some (u64 bn))
  else Some (rawurl, None).

(** The label DIAL: dialling and preparing are retried until both succeed. *)
Fixpoint dial_loop (fuel : nat) (rawurl : bytes) (specificBlock : option Z) : M EvmState unit :=
  match fuel with
  | O => diverge
  | S fuel =>
      ok ← request (λ n, rpc_Dial n rawurl);
      if ok : bool then
        p ← in_world (new_u64 0);
        update_evm (set_block p false) ;;
        (match specificBlock with
         | Some bn => SetBlockNumber bn ;; update_evm (set_block p true)
         | None => mret tt
         end) ;;
        err ← Prepare;
        match err with
        | Some _ => dial_loop fuel rawurl specificBlock
        | None => mret tt
        end
      else dial_loop fuel rawurl specificBlock
  end.

Definition no_context : BlockContext := mkBlockContext Address_zero 0 None None None None.

Definition NewMferEVM (rawurl : bytes) (account : Address) (path : string) (maxKey batch : Z)
    : M EvmState unit :=
  match parse_url rawurl with
  | None => panic "strconv.Atoi"
  | Some (rawurl, specificBlock) =>
      update_evm (λ _, mkMferEVM rawurl None path maxKey batch no_context None None account 0 0
        None None false) ;;
      dial_loop patience rawurl specificBlock ;;
      d ← the_StateDB;
      _ ← in_world (StateBlockNumber d);
      mret tt
  end.

(** *** The goroutine that follows the chain *)

(** The line logged after every tick reads three counters of the state database. *)
Definition log_update : M EvmState unit :=
  e ← the_evm;
  match StateDB e with
  | None => mret tt
  | Some d =>
      _ ← in_world (CacheSize d); _ ← in_world (StateBlockNumber d);
      _ ← in_world (RPCRequestCount d); mret tt
  end.

(** The round of [updatePendingBN] that looks for a node that lost the pinned block:
    [true] asks the node to execute its pool again.  [BalanceAt] returns a zero balance
    along with an error, so any error does. *)
Definition check_missing : M EvmState bool :=
  e ← the_evm;
  match StateDB e with
  | None => mret false
  | Some d =>
      stateHeight ← in_world (StateBlockNumber d);
      r ← request (λ n, rpc_BalanceAt n Address_zero (i64 stateHeight));
      let balance := match r with inr z => z | inl _ => 0 end in
      mret (Z.eqb (Z.sgn balance) 0)
  end.

(** The round that follows a new head or the poll timer. *)
Definition follow_head : M EvmState unit := _ ← setVMContext; log_update.
End context.

(** ** Executing transactions *)

Section execution.
Context `{Core} `{!Upstream} `{!Remote}.

Definition rootHash : Hash := Keccak256Hash (str "fake state root").
Definition blockHash : Hash := Keccak256Hash (str "fake block hash").

(** [a.tracer = t], for the tracer at a location. *)
Definition SetTracer (t : loc) : M EvmState unit := update_evm (set_tracer_field t).

(** A handler allocates a tracer. *)
Definition new_tracer (t : Tracer) : M EvmState loc := λ s,
  (Ok (es_next s),
   mkEvmState (es_world s) (es_evm s) (<[es_next s := t]> (es_tracers s)) (S (es_next s))).
Definition get_tracer (p : loc) : M EvmState Tracer := deref (λ s, es_tracers s !! p).

(** A signature with v = 1 and the marker as s carries an impersonated sender in r. *)
Definition impersonated (tx : Transaction) : bool :=
  let '(v, r, s) := RawSignatureValues tx in
  Z.eqb (Uint64 v) 1 && bool_decide (Bytes s = Bytes MFERSIGNER_S).

Definition tx_signer (chainID : Z) (tx : Transaction) : Signer Transaction :=
  if impersonated tx then NewSigner (Int64 chainID) else NewLondonSigner chainID.

(** The message of a transaction on a chain; the error of [AsMessage] is dropped. *)
Definition tx_message (chainID : Z) (tx : Transaction) : Message :=
  AsMessage tx (tx_signer chainID tx).

Definition TxToMessage (tx : Transaction) : M EvmState Message :=
  chainID ← ChainID; mret (tx_message chainID tx).

(** [vm.NewEVM] and [core.ApplyMessage] on the database at [d], with or without a
    tracer. *)
Definition apply_message (d : loc) (c : BlockContext) (chainID : Z) (msg : Message) (gas : Z)
    (t : option Tracer) : M World ((Err + ExecutionResult) * Z * option Tracer) :=
  bv ← block_values c;
  let p := ApplyMessage bv chainID msg gas in
  match t with
  | Some t => r ← exec_traced d p t; mret (r.1, Some r.2)
  | None => r ← exec d (erase p); mret (r, None)
  end.

(** *** Warming up the cache *)

(** A program whose result is dropped. *)
Fixpoint void {A} (p : EvmProg A) : EvmProg unit :=
  match p with
  | Done _ => Done tt
  | Invoke op k => Invoke op (λ r, void (k r))
  end.

Definition warm_prog (bv : BlockValues) (chainID : Z) (tx : Transaction) : EvmProg unit :=
  void (erase (ApplyMessage bv chainID (tx_message chainID tx) (2 ^ 64 - 1))).

(** A goroutine: its clone of the database, and what is left of the transaction it is
    executing. *)
Record Worker := mkWorker { wk_db : loc; wk_prog : EvmProg unit }.

(** One step of a goroutine: the next call of its transaction, or, when that is finished,
    the next transaction of the channel. *)
Definition worker_step (bv : BlockValues) (chainID : Z) (txCh : list Transaction) (wk : Worker)
    : M World (list Transaction * Worker) :=
  match wk_prog wk with
  | Invoke op k => r ← run_op (wk_db wk) op; mret (txCh, mkWorker (wk_db wk) (k r))
  | Done _ =>
      match txCh with
      | [] => mret (txCh, wk)
      | tx :: txCh =>
          StartLogCollection (wk_db wk) (tx_Hash tx) blockHash ;;
          mret (txCh, mkWorker (wk_db wk) (warm_prog bv chainID tx))
      end
  end.

(** The scheduled steps. *)
Fixpoint interleave (bv : BlockValues) (chainID : Z) (sched : list nat) (txCh : list Transaction)
    (ws : list Worker) : M World (list Transaction * list Worker) :=
  match sched with
  | [] => mret (txCh, ws)
  | k :: sched =>
      match ws !! k with
      | None => interleave bv chainID sched txCh ws
      | Some wk =>
          r ← worker_step bv chainID txCh wk;
          interleave bv chainID sched r.1 (<[k := r.2]> ws)
      end
  end.

(** After the schedule the goroutines finish one after the other, the first of them with
    the rest of the channel.  Any complete interleaving is a schedule after which nothing is
    left. *)
Definition finish (bv : BlockValues) (chainID : Z) (txCh : list Transaction) (ws : list Worker)
    : M World unit :=
  for_each (λ wk, exec (wk_db wk) (wk_prog wk)) ws ;;
  match ws with
  | [] => mret tt
  | wk :: _ =>
      for_each (λ tx, StartLogCollection (wk_db wk) (tx_Hash tx) blockHash ;;
                      exec (wk_db wk) (warm_prog bv chainID tx)) txCh
  end.

Definition warm_world (bv : BlockValues) (chainID : Z) (txs : list Transaction) (d : loc)
    : M World unit :=
  ws ← map_m (λ _, c ← Clone d; mret (mkWorker c (Done tt))) (seq 0 20);
  sched ← gets (λ w, warm_schedule (w_calls w));
  r ← interleave bv chainID sched txs ws;
  finish bv chainID r.1 r.2 ;;
  c ← CloneFromRoot d;
  _ ← CacheSize c;
  mret tt.

Definition WarmUpCache (txs : list Transaction) (d : loc) : M EvmState unit :=
  e ← the_evm;
  chainID ← ChainID;
  in_world (bv ← block_values (vmContext e); warm_world bv chainID txs d).

(** *** One transaction *)

(** The tracer of a transaction; [None]: the call panics.  The embedded logger
    configuration is a pointer that is nil when the request names none of its fields;
    setting a field of it then panics. *)
Definition make_tracer (config : option TraceConfig) (txctx : TracerContext)
    : option (Err + ForeignTracer) :=
  match config with
  | None =>
      match NewForeignTracer "callTracer" txctx [] with
      | inr t => Some (inr t)
      | inl _ => None
      end
  | Some c =>
      match tc_Tracer c with
      | Some name =>
          match tc_Timeout c with
          | Some s =>
              match ParseDuration (str s) with
              | Some _ => Some (NewForeignTracer name txctx (tc_TracerConfig c))
              | None => Some (inl ("time: invalid duration " ++ s)%string)
              end
          | None => Some (NewForeignTracer name txctx (tc_TracerConfig c))
          end
      | None =>
          lc ← tc_Config c;
          Some (inr (NewStructLogger (Some (mkLoggerConfig true (DisableStack lc) false true (Limit lc)))))
      end
  end.

(** [msgExecErr] *)
Definition exec_error (r : ExecutionResult) : option Err :=
  match er_Revert r, er_Err r with
  | [], None => None
  | _, _ => Some (revert_message (er_Revert r))
  end.

Definition trace_address : Address :=
  BytesToAddress (Hex2Bytes (str "3fe75afe000000003fe75afe000000003fe75afe")).

(** The log that carries the trace of a transaction. *)
Definition trace_log (traceResult : bytes) : Log :=
  mkLog trace_address [Keccak256Hash (str "TRACE")] traceResult.

(** [ReceiptStatusFailed] is 0 and [ReceiptStatusSuccessful] is 1; the block number of a
    receipt is the one of the context, shared. *)
Definition make_receipt (r : ExecutionResult) (msg : Message) (txHash : Hash) (txIndex : Z)
    (bn : loc) (logs : list Log) : Receipt :=
  mkReceipt (Hash_Bytes rootHash) (if er_Failed r then 0 else 1) (er_UsedGas r) (Some logs)
    txHash blockHash bn (er_UsedGas r)
    (match m_To msg with None => CreateAddress (m_From msg) (m_Nonce msg) | Some _ => Address_zero end)
    txIndex.

(** What follows a message that was applied: the receipt, and the trace as a log. *)
Definition record_result (d : loc) (c : BlockContext) (msg : Message) (txHash : Hash) (txIndex : Z)
    (msgResult : ExecutionResult) (traceResult : bytes) : M World (Z * option Err) :=
  txExecutionLogs ← GetLogs d txHash;
  bn ← non_nil (bc_BlockNumber c);
  let traceLogs := trace_log traceResult in
  receipt ← new_receipt (make_receipt msgResult msg txHash (u64 txIndex) bn (txExecutionLogs ++ [traceLogs]));
  AddLog d traceLogs ;;
  AddReceipt d txHash receipt ;;
  mret (er_UsedGas msgResult, exec_error msgResult).

Definition trace_result (t : option Tracer) : bytes :=
  match t with Some (TrForeign t) => (foreign_result t).1 | _ => [] end.

(** A configuration that is rejected leaves the snapshot's layer in place. *)
Definition ExecuteMsg (d : loc) (msg : Message) (txHash : Hash) (txIndex : Z)
    (config : option TraceConfig) : M EvmState (Z * option Err) :=
  in_world (SetCodeHash d (m_From msg) Hash_zero) ;;
  snapshot ← in_world (Snapshot d);
  tr ← deref (λ _, make_tracer config (mkTracerContext blockHash txIndex txHash));
  match tr with
  | inl err => mret (0, Some err)
  | inr tr =>
      e ← the_evm;
      chainID ← ChainID;
      in_world (StartLogCollection d txHash blockHash) ;;
      gp ← deref (λ s, gasPool (es_evm s));
      r ← in_world (apply_message d (vmContext e) chainID msg gp (Some (TrForeign tr)));
      update_evm (set_gasPool r.1.2) ;;
      match r.1.1 with
      | inl err => in_world (RevertToSnapshot d snapshot) ;; mret (0, Some err)
      | inr msgResult =>
          in_world (record_result d (vmContext e) msg txHash txIndex msgResult (trace_result r.2))
      end
  end.

(** The loop of [ExecuteTxs]: only the first hundred rounds warm up the cache, with all
    the transactions that are left. *)
Fixpoint execute_loop (i : Z) (txs : list Transaction) (d : loc) (config : option TraceConfig)
    : M EvmState (list (option Err)) :=
  match txs with
  | [] => mret []
  | tx :: rest =>
      (if Z.ltb i 100 then c ← in_world (Clone d); WarmUpCache txs c else mret tt) ;;
      msg ← TxToMessage tx;
      r ← ExecuteMsg d msg (tx_Hash tx) i config;
      execResults ← execute_loop (i + 1) rest d config;
      mret (r.2 :: execResults)
  end.

Definition ExecuteTxs (txs : list Transaction) (d : loc) (config : option TraceConfig)
    : M EvmState (list (option Err)) := execute_loop 0 txs d config.

(** *** A call *)

(** The error is wrapped, the result passed on. *)
Definition call_result (msg : Message) (r : Err + ExecutionResult) : Err + ExecutionResult :=
  match r with
  | inl err => inl ("err: " ++ err ++ " (supplied gas " ++ pretty (m_Gas msg) ++ ")")%string
  | inr result => inr result
  end.

(** The tracer is used in debug mode only, and written back to its object. *)
Definition DoCall (msg : Message) (debug : bool) (d : loc) : M EvmState (Err + ExecutionResult) :=
  e ← the_evm;
  in_world (SetCodeHash d (m_From msg) Hash_zero) ;;
  chainID ← ChainID;
  t ← (if debug then p ← deref (λ _, tracer e); t ← get_tracer p; mret (Some (p, t)) else mret None);
  r ← in_world (apply_message d (vmContext e) chainID msg (2 ^ 64 - 1) (snd <$> t));
  (match t, r.2 with
   | Some (p, _), Some t' => modify (with_tracers <[p := t']>)
   | _, _ => mret tt
   end) ;;
  mret (call_result msg r.1.1).
End execution.
