(* ===== verification/Warm.v ===== *)
(** * Lemmas on the goroutines that warm up the cache

    Every goroutine of [WarmUpCache] runs on a clone of its own.  Whatever the schedule,
    each of them stays in the contract of its own clone, and nothing that existed before is
    touched but for the root's cache: [warm_world_untouched]. *)
From S2P Require Import Prelude BigInt Geth World OverlayState Fetch StateSpec OverlayStateDB.
From S2P Require Import VmStateDB Refinement Clones Chain GoSlice GoStd ToyInstance Signer.
From S2P Require Import Tracers TxArgs Evm.

(** ** Definitions *)

Section defs.
Context `{Core} `{!Upstream} `{!Remote}.

(** The abstract state after [StartLogCollection]. *)
Definition with_tx (h : Hash) (A : Abs) : Abs :=
  mkAbs (mkFrame (f_obs (a_frame A)) (f_dead (a_frame A)) (f_logs (a_frame A))
    (f_receipts (a_frame A)) h)
    (a_depth A) (a_saved A) (a_refund A).

(** The snapshots a list of transactions may take. *)
Definition frames_total (chainID : Z) (txs : list Transaction) : Z :=
  foldr (λ tx n, frames_of (tx_message chainID tx) + n) 0 txs.

(** Nothing that existed in [w] was touched but for the root's cache. *)
Definition untouched (answer : BatchElem → option RpcValue) (b : Z) (r : loc) (w w' : World) : Prop :=
  ∀ d, confined answer b r d [] w [] w'.

(** What a goroutine's database shows. *)
Record Party := mkParty { py_db : loc; py_own : list loc; py_abs : Abs }.

Definition apart (p q : Party) : Prop :=
  py_db p ≠ py_db q ∧ ∀ l, l ∈ py_own p → l ∉ py_own q.
End defs.

(** ** Steps of a transaction outside the interface *)

Section steps.
Context `{CoreLaws} `{!GethLaws} `{!Upstream} `{!Remote}.
Context (answer : BatchElem → option RpcValue) (N : nat) (HN : Reliable answer N).
Context (base : list loc) (r : loc) (b : Z) (d : loc).
Implicit Types w : World.

(** An update of the top layer that neither its pad nor its place depend on. *)
Lemma top_field_step own w A s f h g :
  refines answer own base r b w d A → top d w = (Ok s, w) →
  (∀ st, parent (f st) = parent st ∧ deriveCnt (f st) = deriveCnt st ∧
         scratchPad (f st) = scratchPad st ∧ txLogs (f st) = txLogs st) →
  (∀ st, currentTxHash st = f_tx (a_frame A) → currentTxHash (f st) = h) →
  let w' := with_states (alter f s) w in
  (∀ st, w_states w !! s = Some st → ∀ h', shows_receipt w'
     (match receipts (f st) !! h' with Some x => Some x | None => find_receipt w (tail own ++ base) h' end) (g h')) →
  refines answer own base r b w' d
    (mkAbs (mkFrame (f_obs (a_frame A)) (f_dead (a_frame A)) (f_logs (a_frame A)) g h)
      (a_depth A) (a_saved A) (a_refund A)) ∧
  confined answer b r d own w own w'.
Proof.
  intros Href Htop Hf Hh w' Hg. destruct (refines_top _ _ _ _ _ _ _ _ Href) as
    (db & s' & own' & st & -> & Hdb & Hs & Hst & _ & (Hc & _ & _) & Hsh & _).
  rewrite (top_run _ _ _ _ Hdb Hs) in Htop. injection Htop as ->.
  apply chain_not_in_tail in Hc.
  assert (∀ st, parent (f st) = parent st ∧ deriveCnt (f st) = deriveCnt st) as Hf2
    by (intros st'; by destruct (Hf st') as (? & ? & _)).
  assert (f_tx (a_frame A) = currentTxHash st) as Htx.
  { pose proof (sh_tx _ _ _ _ _ _ Hsh) as E. rewrite Hst in E. by injection E. }
  assert (∀ st, wf_pad (scratchPad st) → wf_pad (scratchPad (f st))) as Hfw
    by (intros st'; by destruct (Hf st') as (_ & _ & -> & _)).
  destruct (Hf st) as (_ & _ & Hpad & Hlog).
  apply (update_top_step answer base r b d own' w A s f _ Href Hf2 Hfw). destruct Hsh.
  split; intros; cbn [f_obs f_dead f_logs f_receipts f_tx a_frame].
  - rewrite <-sh_obs. unfold observe. f_equal. cbn [app]. rewrite !view_cons.
    by rewrite (pad_alter _ _ _ _ Hst), (pad_lookup _ _ _ Hst), view_alter_other, Hpad.
  - rewrite <-sh_dead. unfold dead_in. by rewrite (pad_alter _ _ _ _ Hst), (pad_lookup _ _ _ Hst), Hpad.
  - rewrite <-sh_logs. simpl. rewrite lookup_alter_eq, Hst. simpl. rewrite Hlog.
    by rewrite (chain_logs_ext w _ (own' ++ base) h0) by
      (intros l' Hl'; simpl; rewrite lookup_alter_ne; [done|by intros ->]).
  - specialize (Hg st Hst h0). cbn [tail] in Hg.
    rewrite <-(find_receipt_ext w w' (own' ++ base) h0) in Hg by
      (intros l' Hl'; simpl; rewrite lookup_alter_ne; [done|by intros ->]).
    cbn [app]. rewrite find_receipt_cons by (pose proof (rf_base _ _ _ _ _ _ _ _ Href); by destruct own').
    simpl. by rewrite lookup_alter_eq, Hst.
  - simpl. rewrite lookup_alter_eq, Hst. simpl. by rewrite Hh.
Qed.

(** The receipts an abstract state has, along the chain. *)
Lemma top_receipts own w A s st h :
  refines answer own base r b w d A → top d w = (Ok s, w) → w_states w !! s = Some st →
  shows_receipt w (match receipts st !! h with Some x => Some x | None => find_receipt w (tail own ++ base) h end)
    (f_receipts (a_frame A) h).
Proof.
  intros Href Htop Hst. destruct (refines_top _ _ _ _ _ _ _ _ Href) as
    (db & s' & own' & st' & -> & Hdb & Hs & Hst' & _ & _ & Hsh & _).
  rewrite (top_run _ _ _ _ Hdb Hs) in Htop. injection Htop as ->. simplify_eq. cbn [tail].
  pose proof (sh_receipts _ _ _ _ _ _ Hsh h) as Hrc. cbn [app] in Hrc.
  rewrite find_receipt_cons in Hrc by (pose proof (rf_base _ _ _ _ _ _ _ _ Href); by destruct own').
  rewrite Hst in Hrc. exact Hrc.
Qed.

Lemma startlog_step own w A h blk :
  refines answer own base r b w d A →
  ∃ w', StartLogCollection d h blk w = (Ok tt, w') ∧
    refines answer own base r b w' d (with_tx h A) ∧ confined answer b r d own w own w' ∧
    w_bigs w' = w_bigs w.
Proof.
  intros Href. destruct (refines_top _ _ _ _ _ _ _ _ Href) as (db & s & _ & _ & _ & Hdb & Hs & _).
  pose proof (top_run _ _ _ _ Hdb Hs) as Htop. eexists. split.
  - unfold StartLogCollection. by rewrite (bind_Ok _ _ _ _ _ Htop).
  - destruct (top_field_step own w A s (set_current h blk) h (f_receipts (a_frame A)) Href Htop); [done|done| |done].
    intros st Hst h'. exact (top_receipts own w A s st h' Href Htop Hst).
Qed.

Lemma spec_void {X} (p : EvmProg X) A x A' :
  spec_prog p A = Some (x, A') → spec_prog (void p) A = Some (tt, A').
Proof.
  revert A. induction p as [a|op k IH]; intros A; simpl; [naive_solver|].
  destruct (spec_op op A) as [[res A1]|]; [|done]. simpl. apply IH.
Qed.

(** A transaction of the channel, run on an abstract state that is not too deep. *)
Lemma warm_prog_spec bv cid tx A :
  a_depth A + frames_of (tx_message cid tx) < 2 ^ 63 →
  ∃ A', spec_prog (warm_prog bv cid tx) A = Some (tt, A') ∧
    a_depth A' ≤ a_depth A + frames_of (tx_message cid tx).
Proof.
  intros Hd. destruct (ApplyMessage_disciplined bv cid (tx_message cid tx) (2 ^ 64 - 1) A Hd)
    as (x & A' & own & Hp & _ & _ & Hdep).
  exists A'. split; [by eapply spec_void|done].
Qed.

Lemma frames_total_nonneg cid txs : 0 ≤ frames_total cid txs.
Proof. induction txs as [|tx txs IH]; simpl; [lia|]. pose proof (frames_of_pos (tx_message cid tx)). lia. Qed.
End steps.

(** ** What is untouched *)

Section untouched.
Context `{CoreLaws} `{!GethLaws} `{!Upstream} `{!Remote}.
Context (answer : BatchElem → option RpcValue) (N : nat) (HN : Reliable answer N).
Context (r : loc) (b : Z).
Implicit Types w : World.

Lemma untouched_refl w : untouched answer b r w w.
Proof. intros d. apply confined_refl. Qed.

(** Runs on objects newer than [w0] leave [w0] untouched. *)
Lemma untouched_step w0 w w' c own own' :
  untouched answer b r w0 w → confined answer b r c own w own' w' → (w_next w0 ≤ c)%nat →
  (∀ l, l ∈ own → (w_next w0 ≤ l)%nat) → untouched answer b r w0 w'.
Proof.
  intros Hu [] Hc Hown d. destruct (Hu d). split; try congruence; try lia.
  - etrans; [exact cf_layers0|]. eapply agrees_mono; [|exact cf_layers].
    intros l [_ Hl]. split; [|lia]. intros ?%Hown. lia.
  - intros d' Hd' Hlt. rewrite cf_dbs by lia. by apply cf_dbs0.
  - intros l Hl. rewrite cf_receipts by lia. by apply cf_receipts0.
  - by intros l ?%elem_of_nil.
  - intros Hd. destruct (decide (d = c)) as [->|Hne]; [lia|].
    rewrite cf_dbs by lia. by apply cf_self0.
Qed.

Lemma untouched_refines w w' d own base A :
  untouched answer b r w w' → fresh_world w' → refines answer own base r b w d A →
  refines answer own base r b w' d A.
Proof.
  intros Hu Hf Href. eapply (confined_frame answer own base r b w w' d A (S d) [] []).
  - exact Href.
  - apply Hu.
  - lia.
  - by intros l ?%elem_of_nil.
  - exact Hf.
Qed.

(** A step of one database keeps every other one apart from it. *)
Lemma apart_step w w' base c own own' A A' q :
  refines answer own base r b w c A → confined answer b r c own w own' w' → fresh_world w' →
  refines answer (py_own q) base r b w (py_db q) (py_abs q) → apart (mkParty c own A) q →
  (∀ l, l ∈ own → l ∉ base) →
  refines answer (py_own q) base r b w' (py_db q) (py_abs q) ∧
  apart (mkParty c own' A') q ∧ (∀ l, l ∈ own' → l ∉ base).
Proof.
  intros Href Hconf Hf Hq [Hne Hd] Hb. simpl in *. split_and!.
  - eapply (confined_frame answer _ _ r b w w' _ _ c own own'); try done.
    intros l Hl [?|?]%elem_of_app; [by eapply Hd|by eapply Hb].
  - split; [done|]. simpl.
    intros l Hl Hin. apply (cf_own _ _ _ _ _ _ _ _ Hconf) in Hl as [Hl|Hl]; [by eapply Hd|].
    eapply refines_members in Hq; [|apply elem_of_app; left; exact Hin]. lia.
  - intros l Hl Hin. apply (cf_own _ _ _ _ _ _ _ _ Hconf) in Hl as [Hl|Hl]; [by eapply Hb|].
    eapply refines_members in Href; [|apply elem_of_app; right; exact Hin]. lia.
Qed.
End untouched.

(** ** The goroutines together *)

Section workers.
Context `{CoreLaws} `{!GethLaws} `{!Upstream} `{!Remote}.
Context (answer : BatchElem → option RpcValue) (N : nat) (HN : Reliable answer N).
Context (base : list loc) (r : loc) (b : Z) (w0 : World) (bv : BlockValues) (cid : Z).
Implicit Types w : World.

(** A goroutine in the middle of a transaction that its contract lets it finish, with
    room for the transactions left in the channel. *)
Record worker_ok (w : World) (room : Z) (wk : Worker) (p : Party) : Prop := {
  wo_db : wk_db wk = py_db p;
  wo_ref : refines answer (py_own p) base r b w (py_db p) (py_abs p);
  wo_prog : ∃ A', spec_prog (wk_prog wk) (py_abs p) = Some (tt, A') ∧ a_depth A' + room < 2 ^ 63;
  wo_new : (w_next w0 ≤ py_db p)%nat;
  wo_own l : l ∈ py_own p → (w_next w0 ≤ l)%nat ∧ l ∉ base
}.

Record workers_ok (w : World) (txs : list Transaction) (ws : list Worker) (ps : list Party)
    : Prop := {
  wk_each : Forall2 (worker_ok w (frames_total cid txs)) ws ps;
  wk_apart i j p q : i ≠ j → ps !! i = Some p → ps !! j = Some q → apart p q;
  wk_untouched : untouched answer b r w0 w;
  wk_fresh : fresh_world w
}.

Lemma apart_sym p q : apart p q → apart q p.
Proof. intros [? Hd]. split; [done|]. intros l Hl Hl'. by eapply Hd. Qed.

(** The contract of one goroutine allows a step: the others are as they were. *)
Lemma workers_step w w' txs txs' ws ps k wk wk' p own' A' :
  workers_ok w txs ws ps → ws !! k = Some wk → ps !! k = Some p →
  confined answer b r (py_db p) (py_own p) w own' w' →
  refines answer own' base r b w' (py_db p) A' → wk_db wk' = py_db p →
  (∃ A2, spec_prog (wk_prog wk') A' = Some (tt, A2) ∧ a_depth A2 + frames_total cid txs' < 2 ^ 63) →
  frames_total cid txs' ≤ frames_total cid txs →
  workers_ok w' txs' (<[k := wk']> ws) (<[k := mkParty (py_db p) own' A']> ps).
Proof.
  intros [Hall Hap Hun Hfr] Hwk Hp Hconf Href' Hdb Hprog Hroom.
  pose proof (Forall2_lookup_lr _ _ _ _ _ _ Hall Hwk Hp) as Hk.
  pose proof (refines_fresh _ _ _ _ _ _ _ _ Href') as Hf'.
  assert (∀ j q, j ≠ k → ps !! j = Some q →
    refines answer (py_own q) base r b w (py_db q) (py_abs q) →
    refines answer (py_own q) base r b w' (py_db q) (py_abs q) ∧
    apart (mkParty (py_db p) own' A') q) as Hother.
  { intros j q Hj Hq Hrq. destruct (apart_step answer r b w w' base (py_db p) (py_own p) own' (py_abs p) A' q)
      as (? & ? & _); [apply Hk|done|done|done| |apply Hk|].
    - by destruct (Hap k j p q (not_eq_sym Hj) Hp Hq) as [? ?].
    - done. }
  split; [|..].
  - apply Forall2_same_length_lookup_2; [by rewrite !length_insert; eapply Forall2_length|].
    intros j wk1 p1 E1 E2. destruct (decide (j = k)) as [->|Hj].
    + rewrite list_lookup_insert_eq in E1 by (by eapply lookup_lt_Some).
      rewrite list_lookup_insert_eq in E2 by (by eapply lookup_lt_Some).
      simplify_eq. destruct Hk. split; simpl; try done.
      intros l Hl. apply (cf_own _ _ _ _ _ _ _ _ Hconf) in Hl as [Hl|Hl]; [by apply wo_own0|].
      split; [pose proof (cf_next _ _ _ _ _ _ _ _ (Hun 0%nat)); lia|]. intros Hin.
      eapply refines_members in wo_ref0; [|apply elem_of_app; right; exact Hin]. lia.
    + rewrite list_lookup_insert_ne in E1 by done. rewrite list_lookup_insert_ne in E2 by done.
      destruct (Forall2_lookup_lr _ _ _ _ _ _ Hall E1 E2) as [? ? (A2 & ? & ?) ? ?].
      split; try done; [by eapply Hother|]. exists A2. split; [done|lia].
  - intros i j p1 p2 Hij E1 E2. destruct (decide (i = k)) as [->|Hi], (decide (j = k)) as [->|Hj];
      try done; rewrite ?list_lookup_insert_eq, ?list_lookup_insert_ne in E1 by (first [done | by eapply lookup_lt_Some]);
      rewrite ?list_lookup_insert_eq, ?list_lookup_insert_ne in E2 by (first [done | by eapply lookup_lt_Some]).
    + simplify_eq. destruct (lookup_lt_is_Some_2 ws j) as [wkj Hwj].
      { rewrite (Forall2_length _ _ _ Hall). by eapply lookup_lt_Some. }
      eapply Hother; [done..|]. by destruct (Forall2_lookup_lr _ _ _ _ _ _ Hall Hwj E2).
    + simplify_eq. destruct (lookup_lt_is_Some_2 ws i) as [wki Hwi].
      { rewrite (Forall2_length _ _ _ Hall). by eapply lookup_lt_Some. }
      apply apart_sym. eapply Hother; [done..|]. by destruct (Forall2_lookup_lr _ _ _ _ _ _ Hall Hwi E1).
    + exact (Hap i j p1 p2 Hij E1 E2).
  - eapply untouched_step; [done|exact Hconf|apply Hk|]. intros l Hl. by apply Hk.
  - done.
Qed.

(** One scheduled step. *)
Lemma worker_step_ok w txs ws ps k wk :
  workers_ok w txs ws ps → ws !! k = Some wk →
  ∃ txs' wk' w' ps', worker_step bv cid txs wk w = (Ok (txs', wk'), w') ∧
    workers_ok w' txs' (<[k := wk']> ws) ps' ∧ wk_db wk' = wk_db wk.
Proof.
  intros Hok Hwk. pose proof Hok as [Hall _ _ _].
  destruct (Forall2_lookup_l _ _ _ _ _ Hall Hwk) as (p & Hp & [Hdb Href (A' & Hprog & Hdep) _ _]).
  destruct wk as [c prog]. simpl in *. subst c. unfold worker_step; simpl.
  destruct prog as [[]|op kont].
  - simpl in Hprog. simplify_eq. destruct txs as [|tx txs].
    { exists [], (mkWorker (py_db p) (Done tt)), w, ps. split_and!; [done| |done].
      by rewrite list_insert_id. }
    destruct (startlog_step answer base r b (py_db p) _ w _ (tx_Hash tx) blockHash Href)
      as (w' & Hrun & Href' & Hconf & _).
    simpl in Hdep. destruct (warm_prog_spec bv cid tx (with_tx (tx_Hash tx) (py_abs p))) as (A2 & HA2 & Hd2).
    { pose proof (frames_total_nonneg cid txs). simpl. lia. }
    simpl in Hd2. eexists txs, _, w', _. split; [rewrite (bind_Ok _ _ _ _ _ Hrun); reflexivity|].
    split; [|done]. eapply workers_step; [exact Hok|exact Hwk|exact Hp|exact Hconf|exact Href'|done| |].
    + exists A2. split; [done|lia].
    + simpl. pose proof (frames_of_pos (tx_message cid tx)). lia.
  - simpl in Hprog. destruct (spec_op op (py_abs p)) as [[res A1]|] eqn:Hop; [|done].
    destruct (run_op_refines answer N HN base r b (py_db p) _ _ _ _ _ _ Href Hop)
      as (w' & own' & Hrun & Href' & Hconf).
    eexists txs, _, w', _. split; [rewrite (bind_Ok _ _ _ _ _ Hrun); reflexivity|].
    split; [|done]. eapply workers_step; [exact Hok|exact Hwk|exact Hp|exact Hconf|exact Href'|done| |lia].
    by exists A'.
Qed.

Lemma interleave_ok sched w txs ws ps :
  workers_ok w txs ws ps →
  ∃ txs' ws' w' ps', interleave bv cid sched txs ws w = (Ok (txs', ws'), w') ∧
    workers_ok w' txs' ws' ps' ∧ length ws' = length ws.
Proof.
  revert w txs ws ps. induction sched as [|k sched IH]; intros w txs ws ps Hok; cbn [interleave].
  - by exists txs, ws, w, ps.
  - destruct (ws !! k) as [wk|] eqn:Hwk; [|by eapply IH].
    destruct (worker_step_ok w txs ws ps k wk Hok Hwk) as (txs' & wk' & w' & ps' & Hrun & Hok' & _).
    destruct (IH _ _ _ _ Hok') as (txs2 & ws2 & w2 & ps2 & Hrun2 & Hok2 & Hlen).
    exists txs2, ws2, w2, ps2. rewrite (bind_Ok _ _ _ _ _ Hrun). simpl.
    split_and!; [done|done|]. by rewrite Hlen, length_insert.
Qed.

(** A goroutine finishes its transaction. *)
Lemma finish_one w txs ws ps k wk :
  workers_ok w txs ws ps → ws !! k = Some wk →
  ∃ w' ps', exec (wk_db wk) (wk_prog wk) w = (Ok tt, w') ∧
    workers_ok w' txs (<[k := mkWorker (wk_db wk) (Done tt)]> ws) ps'.
Proof.
  intros Hok Hwk. pose proof Hok as [Hall _ _ _].
  destruct (Forall2_lookup_l _ _ _ _ _ Hall Hwk) as (p & Hp & [Hdb Href (A' & Hprog & Hdep) _ _]).
  rewrite Hdb. destruct (exec_refines answer N HN base r b (py_db p) _ _ _ _ _ _ Href Hprog)
    as (w' & own' & Hrun & Href' & Hconf).
  eexists w', _. split; [exact Hrun|].
  eapply workers_step; [exact Hok|exact Hwk|exact Hp|exact Hconf|exact Href'|done| |done].
  by exists A'.
Qed.

Lemma finish_all rest w txs done_ ps :
  workers_ok w txs (done_ ++ rest) ps →
  ∃ w' ps', for_each (λ wk, exec (wk_db wk) (wk_prog wk)) rest w = (Ok tt, w') ∧
    workers_ok w' txs (done_ ++ ((λ wk, mkWorker (wk_db wk) (Done tt)) <$> rest)) ps'.
Proof.
  revert w done_ ps. induction rest as [|wk rest IH]; intros w done_ ps Hok; cbn [for_each].
  - by exists w, ps.
  - destruct (finish_one w txs _ ps (length done_) wk Hok) as (w1 & ps1 & Hrun & Hok1).
    { by rewrite list_lookup_middle. }
    rewrite (insert_app_r_alt _ _ (length done_)), Nat.sub_diag in Hok1 by done. simpl in Hok1.
    destruct (IH w1 (done_ ++ [mkWorker (wk_db wk) (Done tt)]) ps1) as (w2 & ps2 & Hrun2 & Hok2).
    { by rewrite <-app_assoc. }
    exists w2, ps2. rewrite (bind_Ok _ _ _ _ _ Hrun). split; [done|]. by rewrite <-app_assoc in Hok2.
Qed.

(** The first goroutine empties the channel. *)
Lemma drain_ok txs w wk ws ps :
  workers_ok w txs (mkWorker (wk_db wk) (Done tt) :: ws) ps →
  ∃ w' ps', for_each (λ tx, StartLogCollection (wk_db wk) (tx_Hash tx) blockHash ;;
                           exec (wk_db wk) (warm_prog bv cid tx)) txs w = (Ok tt, w') ∧
    workers_ok w' [] (mkWorker (wk_db wk) (Done tt) :: ws) ps'.
Proof.
  revert w ps. induction txs as [|tx txs IH]; intros w ps Hok; cbn [for_each]; [by exists w, ps|].
  destruct (worker_step_ok w (tx :: txs) _ ps 0 _ Hok eq_refl) as (txs' & wk' & w1 & ps1 & Hrun & Hok1 & _).
  unfold worker_step in Hrun. cbn [wk_prog wk_db] in Hrun.
  apply bind_Ok_inv in Hrun as ([] & w1' & Hlog & [= <- <- <-]).
  destruct (finish_one w1' txs _ ps1 0 _ Hok1 eq_refl) as (w2 & ps2 & Hrun2 & Hok2).
  destruct (IH w2 ps2 Hok2) as (w3 & ps3 & Hrun3 & Hok3).
  exists w3, ps3. rewrite bind_assoc, (bind_Ok _ _ _ _ _ Hlog). by rewrite (bind_Ok _ _ _ _ _ Hrun2).
Qed.

Lemma finish_ok w txs ws ps :
  workers_ok w txs ws ps → ws ≠ [] →
  ∃ w' ws' ps', finish bv cid txs ws w = (Ok tt, w') ∧ workers_ok w' [] ws' ps'.
Proof.
  intros Hok Hne. destruct (finish_all ws w txs [] ps Hok) as (w1 & ps1 & Hrun1 & Hok1).
  destruct ws as [|wk ws]; [done|]. simpl in Hok1.
  destruct (drain_ok txs w1 wk _ ps1 Hok1) as (w2 & ps2 & Hrun2 & Hok2).
  eexists w2, _, ps2. split; [|exact Hok2]. unfold finish. by rewrite (bind_Ok _ _ _ _ _ Hrun1).
Qed.
End workers.

(** ** The whole warm-up *)

Section warm.
Context `{CoreLaws} `{!GethLaws} `{!Upstream} `{!Remote}.
Context (answer : BatchElem → option RpcValue) (N : nat) (HN : Reliable answer N).
Context (r : loc) (b : Z) (bv : BlockValues) (cid : Z).
Implicit Types w : World.

(** One more goroutine takes its clone. *)
Lemma clone_worker own base d A w0 w txs ws ps :
  refines answer own base r b w d A → a_depth A + 1 + frames_total cid txs < 2 ^ 63 →
  workers_ok answer (own ++ base) r b w0 cid w txs ws ps →
  ∃ c w' ps', Clone d w = (Ok c, w') ∧ refines answer own base r b w' d A ∧
    workers_ok answer (own ++ base) r b w0 cid w' txs (ws ++ [mkWorker c (Done tt)]) ps'.
Proof.
  intros Href Hd [Hall Hap Hun Hfr]. pose proof (frames_total_nonneg cid txs) as Hnn.
  destruct (clone_step answer own base r b w d A Href) as
    (w' & Hrun & Hc & Href' & _ & _ & Hconf); [lia|].
  set (n := w_next w) in *. pose proof (refines_fresh _ _ _ _ _ _ _ _ Hc) as Hf'.
  pose proof (cf_next _ _ _ _ _ _ _ _ (Hun 0%nat)) as Hnx.
  set (p' := mkParty (S n) [n] (start_abs (a_frame A) (a_depth A + 1))).
  assert (∀ j q, ps !! j = Some q →
    refines answer (py_own q) (own ++ base) r b w' (py_db q) (py_abs q) ∧ apart p' q) as Hold.
  { intros j q Hq. destruct (lookup_lt_is_Some_2 ws j) as [wk Hwk].
    { rewrite (Forall2_length _ _ _ Hall). by eapply lookup_lt_Some. }
    destruct (Forall2_lookup_lr _ _ _ _ _ _ Hall Hwk Hq) as [_ Hq2 _ _ _].
    assert (py_db q < n)%nat as Hlt.
    { destruct (rf_db _ _ _ _ _ _ _ _ Hq2) as (db & _ & Hdb & _). by eapply fw_dbs, mk_is_Some. }
    split; [|split; simpl; [lia|]].
    - eapply (confined_frame answer _ _ r b w w' _ _ (S n) [] [n]); try done; [lia|].
      by intros l ?%elem_of_nil.
    - intros l ->%list_elem_of_singleton Hin. eapply refines_members in Hq2; [|apply elem_of_app; by left].
      unfold n in Hin. lia. }
  exists (S n), w', (ps ++ [p']). split; [done|]. split; [done|]. split.
  - apply Forall2_app.
    + apply Forall2_same_length_lookup_2; [by eapply Forall2_length|]. intros j wk q Hwk Hq.
      destruct (Forall2_lookup_lr _ _ _ _ _ _ Hall Hwk Hq). split; try done. by eapply Hold.
    + constructor; [|done]. split; simpl; try done; [|lia|].
      * exists (py_abs p'). split; [done|]. simpl. lia.
      * intros l ->%list_elem_of_singleton. split; [lia|]. intros Hin.
        eapply refines_members in Hin; [|exact Href]. lia.
  - intros i j p q Hij Hp Hq. pose proof (Forall2_length _ _ _ Hall) as Hlen.
    rewrite lookup_app in Hp, Hq.
    destruct (ps !! i) as [p1|] eqn:E1, (ps !! j) as [p2|] eqn:E2; simplify_eq.
    + by eapply (Hap i j).
    + apply list_lookup_singleton_Some in Hq as [_ <-]. apply apart_sym. by eapply Hold.
    + apply list_lookup_singleton_Some in Hp as [_ <-]. by eapply Hold.
    + apply list_lookup_singleton_Some in Hp as [Hi _]. apply list_lookup_singleton_Some in Hq as [Hj _].
      apply lookup_ge_None in E1, E2. lia.
  - eapply untouched_step; [exact Hun|exact Hconf|lia|]. by intros l ?%elem_of_nil.
  - done.
Qed.

Lemma clone_workers {X} (l : list X) own base d A w0 w txs ws ps :
  refines answer own base r b w d A → a_depth A + 1 + frames_total cid txs < 2 ^ 63 →
  workers_ok answer (own ++ base) r b w0 cid w txs ws ps →
  ∃ ws' w' ps', map_m (λ _, c ← Clone d; mret (mkWorker c (Done tt))) l w = (Ok ws', w') ∧
    length ws' = length l ∧ refines answer own base r b w' d A ∧
    workers_ok answer (own ++ base) r b w0 cid w' txs (ws ++ ws') ps'.
Proof.
  revert w ws ps. induction l as [|x l IH]; intros w ws ps Href Hd Hok; cbn [map_m].
  - exists [], w, ps. by rewrite app_nil_r.
  - destruct (clone_worker _ _ _ _ _ _ _ _ _ Href Hd Hok) as (c & w1 & ps1 & Hrun1 & Href1 & Hok1).
    destruct (IH w1 _ ps1 Href1 Hd Hok1) as (ws' & w2 & ps2 & Hrun2 & Hlen & Href2 & Hok2).
    exists (mkWorker c (Done tt) :: ws'), w2, ps2. rewrite bind_assoc, (bind_Ok _ _ _ _ _ Hrun1).
    rewrite bind_mret, (bind_Ok _ _ _ _ _ Hrun2). split; [done|]. simpl.
    split_and!; [by rewrite Hlen|done|]. by rewrite <-app_assoc in Hok2.
Qed.

(** The size of the cache is read through one more clone, of the root. *)
Lemma report_size own base d A w :
  refines answer own base r b w d A →
  ∃ w', (c ← CloneFromRoot d; _ ← CacheSize c; mret tt) w = (Ok tt, w') ∧
    untouched answer b r w w' ∧ fresh_world w'.
Proof.
  intros Href. pose proof (refines_fresh _ _ _ _ _ _ _ _ Href) as Hf.
  destruct (refines_top _ _ _ _ _ _ _ _ Href) as
    (db & s & own' & st & -> & Hdb & Hs & Hst & _ & Hov & _).
  pose proof Hov as (Hc & Hl & (str & p & Hstr & Hpar & _)).
  destruct (derive_new_db "from root" w r str (λ n, mkOverlayStateDB "" 0 0 (Some n) None) Hstr Hf
    (λ _, eq_refl)) as (w' & Hrun & Hly & Hoth & Hrec & Hbig & Hfile & Hcalls).
  set (n := w_next w) in *.
  assert (r < n)%nat as Hr by by eapply fw_states, mk_is_Some.
  pose proof (layered_confined answer b r w w' r n _ Hly Hr Hoth Hrec Hbig Hfile Hcalls) as Hconf.
  exists w'. split_and!.
  - unfold CloneFromRoot. rewrite bind_assoc, (bind_Ok _ _ _ _ _ (top_run _ _ _ _ Hdb Hs)).
    unfold DeriveFromRoot. rewrite !bind_assoc, (bind_Ok _ _ _ _ _ (getRootState_spec _ _ _ _ Hc Hl)).
    rewrite <-(bind_assoc (Derive r "from root")), (bind_Ok _ _ _ _ _ Hrun).
    destruct Hly as [Hnew [st' Hst'] Hother _ _ _ _ Hdb' _ _].
    assert (getRootState n w' = (Ok r, w')) as Hroot.
    { apply (getRootState_spec w' n [n; r] r); [|done].
      eapply chain_step; [exact Hst'|by apply Hnew|done|]. eapply chain_root; [|exact Hpar].
      rewrite Hother; [done|lia]. }
    unfold CacheSize. rewrite !bind_assoc, (bind_Ok _ _ _ _ _ (get_db_Some _ _ _ Hdb')). simpl.
    rewrite !bind_assoc, (bind_Ok _ _ _ _ _ Hroot), !bind_assoc.
    by rewrite (bind_Ok _ _ _ _ _ (get_state_Some _ _ _ (eq_trans (Hother r ltac:(lia)) Hstr))).
  - eapply (untouched_step answer r b w w w' (S n) []); [apply untouched_refl|done|lia|].
    by intros l ?%elem_of_nil.
  - by eapply layered_fresh.
Qed.

Lemma untouched_trans w w1 w2 :
  untouched answer b r w w1 → untouched answer b r w1 w2 → untouched answer b r w w2.
Proof. intros Hx Hy d. eapply confined_trans; [apply Hx|apply Hy]. Qed.

(** Whatever the schedule, the goroutines finish, and nothing that existed was touched but
    for the root's cache. *)
Lemma warm_world_untouched own base d A w txs :
  refines answer own base r b w d A → a_depth A + 1 + frames_total cid txs < 2 ^ 63 →
  ∃ w', warm_world bv cid txs d w = (Ok tt, w') ∧ untouched answer b r w w' ∧ fresh_world w'.
Proof.
  intros Href Hd. pose proof (refines_fresh _ _ _ _ _ _ _ _ Href) as Hf.
  assert (workers_ok answer (own ++ base) r b w cid w txs [] []) as Hok0.
  { split; [constructor|done|apply untouched_refl|done]. }
  destruct (clone_workers (seq 0 20) _ _ _ _ _ _ _ _ _ Href Hd Hok0)
    as (ws & w1 & ps1 & Hrun1 & Hlen & Href1 & Hok1). rewrite app_nil_l in Hok1.
  destruct (interleave_ok answer N HN _ _ _ w bv cid (warm_schedule (w_calls w1)) w1 txs ws ps1 Hok1)
    as (txs2 & ws2 & w2 & ps2 & Hrun2 & Hok2 & Hlen2).
  destruct (finish_ok answer N HN _ _ _ w bv cid w2 txs2 ws2 ps2 Hok2) as (w3 & ws3 & ps3 & Hrun3 & Hok3).
  { intros ->. by rewrite Hlen in Hlen2. }
  destruct Hok3 as [_ _ Hun3 Hf3].
  assert (refines answer own base r b w3 d A) as Href3 by by eapply untouched_refines.
  destruct (report_size _ _ _ _ _ Href3) as (w4 & Hrun4 & Hun4 & Hf4).
  exists w4. split; [|split; [by eapply untouched_trans|done]].
  unfold warm_world. rewrite (bind_Ok _ _ _ _ _ Hrun1), bind_gets, (bind_Ok _ _ _ _ _ Hrun2).
  cbn [fst snd]. by rewrite (bind_Ok _ _ _ _ _ Hrun3).
Qed.
End warm.
