(* ===== verification/EvmProps.v ===== *)
(** * Lemmas and properties of mferevm

    [spec_ExecuteMsg] and [spec_ExecuteTxs] say what executing transactions does to the
    abstract state of a database; the theorems show that the code, with its snapshots,
    tracers, receipts and the concurrent warm-up of the cache, does that. *)
From S2P Require Import Prelude BigInt Geth World OverlayState Fetch StateSpec OverlayStateDB.
From S2P Require Import VmStateDB Refinement Clones Merge Chain GoSlice GoStd ToyInstance Signer.
From S2P Require Import Tracers TxArgs Evm Warm ToyNode.

(** ** Specification *)

Section spec.
Context `{Core} `{!Upstream} `{!Remote}.

(** The code hash of the sender is cleared before its message is executed. *)
Definition before_msg (msg : Message) (A : Abs) : Abs :=
  with_obs (λ f, upd_obs f (m_From msg) GET_CODEHASH Hash_zero (Hash_Bytes Hash_zero)) A.

Definition snapshot_abs (A : Abs) : Abs :=
  mkAbs (mkFrame (f_obs (a_frame A)) (λ _, false) (f_logs (a_frame A)) (f_receipts (a_frame A)) (f_tx (a_frame A)))
    (a_depth A + 1) ((a_depth A + 1, a_frame A) :: a_saved A) (a_refund A).

(** The state a message is applied to. *)
Definition in_msg (msg : Message) (txHash : Hash) (A : Abs) : Abs :=
  with_tx txHash (snapshot_abs (before_msg msg A)).

Definition add_log (l : Log) (A : Abs) : Abs :=
  with_logs (λ f h, if decide (f_tx (a_frame A) = h) then f h ++ [l] else f h) A.

(** The results of [ExecuteMsg], the gas left in the pool, the state, and the result and
    the logs that go into the receipt, if there is one. *)
Record MsgOutcome := mkMsgOutcome {
  mo_out : Z * option Err;
  mo_pool : Z;
  mo_abs : Abs;
  mo_receipt : option (ExecutionResult * list Log)
}.

(** [None]: the tracer panics, or the message leaves the contract of the database. *)
Definition spec_ExecuteMsg (bv : BlockValues) (chainID gp : Z) (msg : Message) (txHash : Hash)
    (txIndex : Z) (config : option TraceConfig) (A : Abs) : option MsgOutcome :=
  tr ← make_tracer config (mkTracerContext blockHash txIndex txHash);
  match tr with
  | inl err => Some (mkMsgOutcome (0, Some err) gp (snapshot_abs (before_msg msg A)) None)
  | inr tr =>
      let S := in_msg msg txHash A in
      let p := ApplyMessage bv chainID msg gp in
      r ← spec_prog (erase p) S;
      match r.1.1 with
      | inl err =>
          Some (mkMsgOutcome (0, Some err) r.1.2
            (mkAbs (a_frame (before_msg msg A)) (a_depth A) (a_saved A) (a_refund r.2)) None)
      | inr res =>
          let trace := trace_log (trace_result (Some (shown_all p S (TrForeign tr)))) in
          Some (mkMsgOutcome (er_UsedGas res, exec_error res) r.1.2
            (with_receipt txHash (make_receipt res msg txHash (u64 txIndex) 0%nat []) (add_log trace r.2))
            (Some (res, f_logs (a_frame r.2) txHash ++ [trace])))
      end
  end.

(** One message after the other, without any warm-up. *)
Fixpoint spec_ExecuteTxs (bv : BlockValues) (chainID gp : Z) (i : Z) (txs : list Transaction)
    (config : option TraceConfig) (A : Abs) : option (list (option Err) * Z * Abs) :=
  match txs with
  | [] => Some ([], gp, A)
  | tx :: txs =>
      o ← spec_ExecuteMsg bv chainID gp (tx_message chainID tx) (tx_Hash tx) i config A;
      rest ← spec_ExecuteTxs bv chainID (mo_pool o) (i + 1) txs config (mo_abs o);
      Some ((mo_out o).2 :: rest.1.1, rest.1.2, rest.2)
  end.

(** The EVM was prepared: it has a chain id, gas, and the numbers of a block. *)
Record ready (es : EvmState) (bv : BlockValues) (chainID gp : Z) : Prop := {
  rd_pool : gasPool (es_evm es) = Some gp;
  rd_chain : chainConfig_ChainID (es_evm es) = Some chainID;
  rd_block : block_values (vmContext (es_evm es)) (es_world es) = (Ok bv, es_world es)
}.

(** The receipt of a transaction is in the top layer of a database. *)
Definition has_receipt (w : World) (d : loc) (txHash : Hash) (rc : Receipt) : Prop :=
  ∃ s st l, top d w = (Ok s, w) ∧ w_states w !! s = Some st ∧ receipts st !! txHash = Some l ∧
    w_receipts w !! l = Some rc.
End spec.

(** ** Lemmas *)

Section lemmas.
Context `{CoreLaws} `{!GethLaws} `{!Upstream} `{!Remote}.
Context (answer : BatchElem → option RpcValue) (N : nat) (HN : Reliable answer N).
Context (base : list loc) (r : loc) (b : Z) (d : loc).
Implicit Types w : World.

Lemma in_world_Ok {A} (m : M World A) es a w' :
  m (es_world es) = (Ok a, w') → in_world m es = (Ok a, set_world w' es).
Proof. apply zoom_Ok. Qed.

Lemma get_bigp_ext p w w1 w' z :
  w_bigs w' = w_bigs w → get_bigp p w = (Ok z, w1) → w1 = w ∧ get_bigp p w' = (Ok z, w').
Proof.
  intros Hb Hrun. unfold get_bigp in *. minv Hrun. apply non_nil_inv in Hrun0 as [-> ->].
  rewrite (bind_Ok (non_nil (Some a)) _ w' a w' eq_refl).
  unfold get_big, deref in *. rewrite Hb. destruct (w_bigs w !! a); by simplify_eq.
Qed.

Lemma block_values_ext c w w' bv :
  w_bigs w' = w_bigs w → block_values c w = (Ok bv, w) → block_values c w' = (Ok bv, w').
Proof.
  intros Hb Hrun. unfold block_values in *.
  do 4 (let Hr := fresh "Hr" in apply bind_Ok_inv in Hrun as (? & ? & Hr & Hrun);
    destruct (get_bigp_ext _ _ _ w' _ Hb Hr) as [-> Hr']; rewrite (bind_Ok _ _ _ _ _ Hr'); clear Hr').
  by injection Hrun as <-.
Qed.

Lemma block_values_bn c w bv : block_values c w = (Ok bv, w) → is_Some (bc_BlockNumber c).
Proof. destruct c as [cb gl [n|] ? ? ?]; [eauto|done]. Qed.

(** *** The receipt *)

Lemma refines_GetLogs own w A h :
  refines answer own base r b w d A → GetLogs d h w = (Ok (f_logs (a_frame A) h), w).
Proof.
  intros Href. destruct (refines_top _ _ _ _ _ _ _ _ Href) as
    (db & s & own' & st & -> & Hdb & Hs & _ & _ & (Hc & _) & Hsh & _).
  rewrite (GetLogs_run w d s _ h) by (by exists db). by rewrite (sh_logs _ _ _ _ _ _ Hsh).
Qed.

Lemma new_receipt_step own w A rc :
  refines answer own base r b w d A →
  ∃ w', new_receipt rc w = (Ok (w_next w), w') ∧ refines answer own base r b w' d A ∧
    confined answer b r d own w own w' ∧ w_receipts w' !! w_next w = Some rc ∧
    w_dbs w' = w_dbs w ∧ w_states w' = w_states w.
Proof.
  intros Href. eexists. split; [reflexivity|].
  set (w' := with_next _).
  assert (∀ P, agrees answer b r P w w') as Hag.
  { intros P. split; [done|reflexivity|done|]. intros l rc0 Hrc0. exists rc0. split; [|done]. simpl.
    rewrite lookup_insert_ne; [done|].
    pose proof (rf_fresh_receipt _ _ _ _ _ _ _ _ Href l (mk_is_Some _ _ Hrc0)). lia. }
  split_and!; [| |by simpl; rewrite lookup_insert_eq|done|done].
  - eapply refines_frame; [exact Href|apply Hag|done|]. destruct Href. split; simpl.
    + intros l Hl%rf_fresh. lia.
    + intros l Hl%rf_fresh_db. lia.
    + intros l. destruct (decide (w_next w = l)) as [<-|Hne]; [lia|].
      rewrite lookup_insert_ne by done. intros Hl%rf_fresh_receipt. lia.
  - split; [apply Hag|done| |done|done|simpl; lia|by left|done|done].
    intros l Hl. simpl. by rewrite lookup_insert_ne by lia.
Qed.

Lemma add_receipt_step own w A h l rc :
  refines answer own base r b w d A → w_receipts w !! l = Some rc →
  ∃ w', AddReceipt d h l w = (Ok tt, w') ∧ refines answer own base r b w' d (with_receipt h rc A) ∧
    confined answer b r d own w own w' ∧ w_receipts w' = w_receipts w ∧
    ∃ s st, top d w' = (Ok s, w') ∧ w_states w' !! s = Some st ∧ receipts st !! h = Some l.
Proof.
  intros Href Hrc. destruct (refines_top _ _ _ _ _ _ _ _ Href) as (db & s & _ & st & _ & Hdb & Hs & Hst & _).
  pose proof (top_run _ _ _ _ Hdb Hs) as Htop. eexists. split.
  - unfold AddReceipt. by rewrite (bind_Ok _ _ _ _ _ Htop).
  - destruct (top_field_step answer base r b d own w A s (set_receipts <[h := l]>) (f_tx (a_frame A))
      (f_receipts (a_frame (with_receipt h rc A))) Href Htop) as [Href' Hconf]; [done|done| |].
    { intros st' Hst' h'. simpl. rewrite lookup_insert. destruct (decide (h = h')) as [<-|Hne].
      - by exists rc.
      - exact (top_receipts answer base r b d own w A s st' h' Href Htop Hst'). }
    split_and!; [exact Href'|done|done|].
    { exists s, (set_receipts <[h := l]> st). split_and!.
      * by eapply top_run.
      * simpl. by rewrite lookup_alter_eq, Hst.
      * simpl. by rewrite lookup_insert_eq. }
Qed.

Lemma record_result_run own w A c msg h i res trace bn :
  refines answer own base r b w d A → bc_BlockNumber c = Some bn →
  ∃ w', record_result d c msg h i res trace w = (Ok (er_UsedGas res, exec_error res), w') ∧
    refines answer own base r b w' d (with_receipt h (make_receipt res msg h (u64 i) 0%nat []) (add_log (trace_log trace) A)) ∧
    confined answer b r d own w own w' ∧
    has_receipt w' d h (make_receipt res msg h (u64 i) bn (f_logs (a_frame A) h ++ [trace_log trace])).
Proof.
  intros Href Hbn.
  set (rc := make_receipt res msg h (u64 i) bn (f_logs (a_frame A) h ++ [trace_log trace])).
  destruct (new_receipt_step own w A rc Href) as (w1 & Hrun1 & Href1 & Hconf1 & Hrc & Hdb1 & Hst1).
  destruct (addlog_step answer base r b d own w1 A (trace_log trace) Href1) as (w2 & Hrun2 & Href2 & Hconf2).
  assert (w_receipts w2 !! w_next w = Some rc) as Hrc2.
  { rewrite (cf_receipts _ _ _ _ _ _ _ _ Hconf2); [done|]. injection Hrun1 as <-. simpl. lia. }
  destruct (add_receipt_step own w2 _ h (w_next w) rc Href2 Hrc2) as (w3 & Hrun3 & Href3 & Hconf3 & Hrc3 & s & st & Htop & Hst & Hl).
  exists w3. split_and!; [|exact Href3|by eauto using confined_trans|].
  - unfold record_result. rewrite (bind_Ok _ _ _ _ _ (refines_GetLogs own w A h Href)), Hbn.
    rewrite (bind_Ok (non_nil (Some bn)) _ w bn w) by done. cbv zeta.
    rewrite (bind_Ok _ _ _ _ _ Hrun1), (bind_Ok _ _ _ _ _ Hrun2). by rewrite (bind_Ok _ _ _ _ _ Hrun3).
  - exists s, st, (w_next w). split_and!; [done|done|done|]. rewrite Hrc3.
    exact Hrc2.
Qed.

(** *** A message *)

Lemma find_own {F saved} n (own : list (Z * Frame)) :
  Forall (λ q, n < q.1) own → find_saved n (own ++ (n, F) :: saved) = Some (F, saved).
Proof.
  induction 1 as [|[i G] l Hi _ IH]; simpl in *; [by rewrite Z.eqb_refl|].
  by rewrite (proj2 (Z.eqb_neq _ _)) by lia.
Qed.

(** Clearing the code hash of the sender, and the snapshot. *)
Lemma open_msg own w A msg :
  refines answer own base r b w d A → a_depth A + 1 < 2 ^ 63 →
  ∃ w', (SetCodeHash d (m_From msg) Hash_zero ;; Snapshot d) w = (Ok (a_depth A + 1), w') ∧
    ∃ own', refines answer own' base r b w' d (snapshot_abs (before_msg msg A)) ∧
      confined answer b r d own w own' w'.
Proof.
  intros Href Hd.
  destruct (run_op_refines answer N HN base r b d own w A (OpSetCodeHash (m_From msg) Hash_zero) _ _ Href eq_refl)
    as (w1 & own1 & Hrun1 & Href1 & Hconf1).
  cbn [run_op] in Hrun1. apply bind_Ok_inv in Hrun1 as ([] & w1' & Hrun1 & [= ->]).
  destruct (snapshot_step answer base r b d own1 w1 _ Href1) as (w2 & Hrun2 & Href2 & Hconf2); [done|].
  exists w2. rewrite (bind_Ok _ _ _ _ _ Hrun1). split; [exact Hrun2|].
  eexists. split; [exact Href2|]. by eapply confined_trans.
Qed.

(** The message under its tracer. *)
Lemma apply_run own w S bv cid msg gp c tr :
  refines answer own base r b w d S → block_values c w = (Ok bv, w) →
  a_depth S + frames_of msg < 2 ^ 63 →
  ∃ x S' new w' own',
    spec_prog (erase (ApplyMessage bv cid msg gp)) S = Some (x, S') ∧
    a_saved S' = new ++ a_saved S ∧ Forall (λ q, a_depth S < q.1) new ∧
    a_depth S' ≤ a_depth S + frames_of msg ∧
    apply_message d c cid msg gp (Some (TrForeign tr)) w =
      (Ok (x, Some (shown_all (ApplyMessage bv cid msg gp) S (TrForeign tr))), w') ∧
    refines answer own' base r b w' d S' ∧ confined answer b r d own w own' w'.
Proof.
  intros Href Hbv Hd.
  destruct (ApplyMessage_disciplined bv cid msg gp S Hd) as (x & S' & new & Hp & Hsaved & Hnew & Hdep).
  destruct (trace_run answer N HN base r b d (ApplyMessage bv cid msg gp) own w S (TrForeign tr) x S' Href)
    as (w' & own' & Hrun & Href' & Hconf); [apply stops_foreign|done|done|].
  exists x, S', new, w', own'. split_and!; try done.
  unfold apply_message. rewrite (bind_Ok _ _ _ _ _ Hbv). unfold exec_traced. cbn [CaptureStart].
  by rewrite (bind_Ok _ _ _ _ _ Hrun).
Qed.

(** What is shown after a rejected message: only the sender's code hash was cleared. *)
Definition rejected_shows (msg : Message) (A A' : Abs) : Prop :=
  f_obs (a_frame A') = f_obs (a_frame (before_msg msg A)) ∧ f_logs (a_frame A') = f_logs (a_frame A) ∧
  f_receipts (a_frame A') = f_receipts (a_frame A).

Lemma spec_ExecuteMsg_rejected bv cid gp msg h i config A o :
  spec_ExecuteMsg bv cid gp msg h i config A = Some o → mo_receipt o = None →
  is_Some (mo_out o).2 ∧ rejected_shows msg A (mo_abs o).
Proof.
  unfold spec_ExecuteMsg. intros ([err|tr] & _ & E)%bind_Some; [injection E as <-; split; [by eexists|done]|].
  apply bind_Some in E as ([[[err|res] g] S] & _ & E); injection E as <-; [|done]. split; [by eexists|done].
Qed.

(** What [ExecuteMsg] leaves of the EVM's own state. *)
Definition after_msg (es : EvmState) (w : World) (gp : Z) : EvmState :=
  with_evm (set_gasPool gp) (set_world w es).

Lemma ExecuteMsg_run own es A bv cid gp msg h i config tr :
  refines answer own base r b (es_world es) d A → ready es bv cid gp →
  make_tracer config (mkTracerContext blockHash i h) = Some tr →
  a_depth A + 1 + frames_of msg < 2 ^ 63 →
  ∃ o w' own', spec_ExecuteMsg bv cid gp msg h i config A = Some o ∧
    ExecuteMsg d msg h i config es = (Ok (mo_out o), after_msg es w' (mo_pool o)) ∧
    refines answer own' base r b w' d (mo_abs o) ∧ confined answer b r d own (es_world es) own' w' ∧
    a_depth (mo_abs o) ≤ a_depth A + 1 + frames_of msg ∧
    (∀ res logs, mo_receipt o = Some (res, logs) → ∃ bn, bc_BlockNumber (vmContext (es_evm es)) = Some bn ∧
       has_receipt w' d h (make_receipt res msg h (u64 i) bn logs)).
Proof.
  intros Href [Hgp Hcid Hbv] Htr Hd. pose proof (frames_of_pos msg) as Hpos.
  destruct (open_msg own _ A msg Href) as (w2 & Hopen & own2 & Href2 & Hconf2); [lia|].
  apply bind_Ok_inv in Hopen as ([] & w1 & Hset & Hsnap).
  unfold spec_ExecuteMsg, ExecuteMsg. rewrite Htr.
  rewrite (bind_Ok _ _ _ _ _ (in_world_Ok _ es _ _ Hset)).
  rewrite (bind_Ok _ _ _ _ _ (in_world_Ok _ (set_world w1 es) _ _ Hsnap)).
  rewrite (bind_deref (λ _, Some tr) _ _ tr eq_refl).
  destruct tr as [err|tr]; cbn [mbind option_bind].
  { eexists _, w2, own2. split; [done|]. split_and!; [|exact Href2|done|simpl; lia|done].
    unfold after_msg, mret, M_ret. simpl. f_equal. destruct es as [w e ? ?]. simpl in *.
    unfold with_evm, set_world; simpl. f_equal. destruct e. simpl in *. by subst. }
  destruct (startlog_step answer base r b d own2 w2 _ h blockHash Href2)
    as (w3 & Hlog & Href3 & Hconf3 & _).
  assert (block_values (vmContext (es_evm es)) w3 = (Ok bv, w3)) as Hbv3.
  { eapply block_values_ext; [|exact Hbv]. by rewrite (cf_bigs _ _ _ _ _ _ _ _ Hconf3), (cf_bigs _ _ _ _ _ _ _ _ Hconf2). }
  destruct (apply_run own2 w3 _ bv cid msg gp _ tr Href3 Hbv3) as
    (x & S' & new & w4 & own4 & Hp & Hsaved & Hnew & Hdep & Hrun & Href4 & Hconf4); [simpl; lia|].
  fold (in_msg msg h A) in Hp, Hsaved, Hnew, Hdep, Hrun. rewrite Hp. cbn [mbind option_bind fst snd].
  unfold the_evm, ChainID. rewrite bind_gets. cbn [es_evm set_world].
  rewrite (bind_deref (λ s, chainConfig_ChainID (es_evm s)) _ _ cid) by exact Hcid.
  rewrite (bind_Ok _ _ _ _ _ (in_world_Ok _ (set_world w2 (set_world w1 es)) _ _ Hlog)).
  rewrite (bind_deref (λ s, gasPool (es_evm s)) _ _ gp) by exact Hgp.
  rewrite (bind_Ok _ _ _ _ _ (in_world_Ok _ (set_world w3 (set_world w2 (set_world w1 es))) _ _ Hrun)).
  unfold update_evm. rewrite bind_modify. cbn [fst snd].
  destruct x as [[err|res] gp']; cbn [fst snd].
  - destruct (revert_step answer base r b d own4 w4 S' (a_depth A + 1) (a_frame (before_msg msg A)) (a_saved A) Href4)
      as (w5 & own5 & Hrev & Href5 & Hconf5).
    { rewrite Hsaved. simpl in Hnew |- *. by apply find_own. }
    eexists _, w5, own5. split; [done|]. cbn [mo_out mo_pool mo_abs mo_receipt].
    replace (a_depth A + 1 - 1) with (a_depth A) in Href5 by lia.
    split_and!; [|exact Href5| |simpl; lia|done].
    + rewrite (bind_Ok _ _ _ _ _ (in_world_Ok _ (with_evm (set_gasPool gp') (set_world w4 (set_world w3 (set_world w2 (set_world w1 es))))) _ _ Hrev)). done.
    + eauto using confined_trans.
  - destruct (block_values_bn _ _ _ Hbv) as [bn Hbn].
    destruct (record_result_run own4 w4 S' (vmContext (es_evm es)) msg h i res
      (trace_result (Some (shown_all (ApplyMessage bv cid msg gp) (in_msg msg h A) (TrForeign tr)))) bn Href4 Hbn)
      as (w5 & Hrec & Href5 & Hconf5 & Hhas).
    eexists _, w5, own4. split; [done|]. cbn [mo_out mo_pool mo_abs mo_receipt].
    split_and!; [|exact Href5| |simpl in Hdep |- *; lia|].
    + by rewrite (in_world_Ok _ (with_evm (set_gasPool gp') (set_world w4 (set_world w3 (set_world w2 (set_world w1 es))))) _ _ Hrec).
    + eauto using confined_trans.
    + intros res0 logs [= <- <-]. by exists bn.
Qed.

(** *** The loop *)

Lemma untouched_confined own w w' : untouched answer b r w w' → confined answer b r d own w own w'.
Proof.
  intros Hu. destruct (Hu d). split; try done; [|by left].
  eapply agrees_mono; [|exact cf_layers]. intros l [_ ?]. split; [by intros ?%elem_of_nil|done].
Qed.

Lemma warm_run own es A bv cid gp txs :
  refines answer own base r b (es_world es) d A → ready es bv cid gp →
  a_depth A + 2 + frames_total cid txs < 2 ^ 63 →
  ∃ w', (c ← in_world (Clone d); WarmUpCache txs c) es = (Ok tt, set_world w' es) ∧
    refines answer own base r b w' d A ∧ untouched answer b r (es_world es) w'.
Proof.
  intros Href [Hgp Hcid Hbv] Hd. pose proof (frames_total_nonneg cid txs) as Hnn.
  destruct (clone_step answer own base r b _ d A Href) as (w1 & Hrun & Hc & Href1 & _ & _ & Hconf); [lia|].
  assert (untouched answer b r (es_world es) w1) as Hu1.
  { eapply (untouched_step answer r b _ (es_world es) w1 _ []); [apply untouched_refl|exact Hconf|lia|].
    by intros l ?%elem_of_nil. }
  destruct (warm_world_untouched answer N HN r b bv cid _ _ _ _ w1 txs Hc) as (w2 & Hrun2 & Hu2 & Hf2);
    [simpl; lia|].
  exists w2. split_and!; [|by eapply untouched_refines|by eapply untouched_trans].
  rewrite (bind_Ok _ _ _ _ _ (in_world_Ok _ es _ _ Hrun)). unfold WarmUpCache, the_evm, ChainID.
  rewrite bind_gets. rewrite (bind_deref (λ s, chainConfig_ChainID (es_evm s)) _ _ cid) by exact Hcid.
  assert (block_values (vmContext (es_evm es)) w1 = (Ok bv, w1)) as Hbv1.
  { eapply block_values_ext; [|exact Hbv]. exact (cf_bigs _ _ _ _ _ _ _ _ Hconf). }
  apply (in_world_Ok _ (set_world w1 es)). cbn [es_world es_evm set_world]. by rewrite (bind_Ok _ _ _ _ _ Hbv1).
Qed.

(** The snapshots executing a list of transactions may take. *)
Definition exec_total (cid : Z) (txs : list Transaction) : Z :=
  foldr (λ tx n, 1 + frames_of (tx_message cid tx) + n) 0 txs.

Lemma exec_total_frames cid txs : 0 ≤ frames_total cid txs ≤ exec_total cid txs.
Proof.
  split; [apply frames_total_nonneg|]. induction txs as [|tx txs IH]; simpl; lia.
Qed.

Lemma ready_after es bv cid gp w gp' :
  ready es bv cid gp → w_bigs w = w_bigs (es_world es) → ready (after_msg es w gp') bv cid gp'.
Proof. intros [] Hb. split; [done|done|]. by eapply block_values_ext. Qed.

Lemma execute_loop_run txs own es A bv cid gp i config :
  refines answer own base r b (es_world es) d A → ready es bv cid gp →
  (∀ j h, is_Some (make_tracer config (mkTracerContext blockHash j h))) →
  a_depth A + 2 + exec_total cid txs < 2 ^ 63 →
  ∃ out gp' A' w' own', spec_ExecuteTxs bv cid gp i txs config A = Some (out, gp', A') ∧
    execute_loop i txs d config es = (Ok out, after_msg es w' gp') ∧
    refines answer own' base r b w' d A' ∧ confined answer b r d own (es_world es) own' w' ∧
    a_depth A' ≤ a_depth A + exec_total cid txs.
Proof.
  intros Href Hready Htr. revert own es A gp i Href Hready.
  induction txs as [|tx txs IH]; intros own es A gp i Href Hready Hd; cbn [execute_loop spec_ExecuteTxs].
  { eexists [], gp, A, (es_world es), own. split_and!; [done| |done|apply confined_refl|simpl; lia].
    destruct es as [w e ? ?], Hready as [Hgp _ _]. simpl in Hgp. unfold after_msg, with_evm, set_world. simpl.
    unfold mret, M_ret. do 2 f_equal. destruct e. simpl in *. by subst. }
  simpl in Hd. pose proof (exec_total_frames cid txs) as Hnn. pose proof (frames_of_pos (tx_message cid tx)) as Hpos.
  assert (∃ w1, (if Z.ltb i 100 then c ← in_world (Clone d); WarmUpCache (tx :: txs) c else mret tt) es
    = (Ok tt, set_world w1 es) ∧ refines answer own base r b w1 d A ∧ untouched answer b r (es_world es) w1)
    as (w1 & Hwarm & Href1 & Hu1).
  { destruct (Z.ltb i 100); [eapply warm_run; [done|done|simpl; lia]|].
    exists (es_world es). split_and!; [by destruct es|done|apply untouched_refl]. }
  rewrite (bind_Ok _ _ _ _ _ Hwarm).
  pose proof (untouched_confined own _ _ Hu1) as Hconf1.
  assert (ready (set_world w1 es) bv cid gp) as Hready1.
  { destruct Hready. split; [done|done|]. eapply block_values_ext; [|done]. apply (cf_bigs _ _ _ _ _ _ _ _ Hconf1). }
  unfold TxToMessage, ChainID. rewrite bind_assoc.
  rewrite (bind_deref (λ s, chainConfig_ChainID (es_evm s)) _ _ cid) by apply Hready1. rewrite bind_mret.
  destruct (Htr i (tx_Hash tx)) as [tr Htr1].
  destruct (ExecuteMsg_run own (set_world w1 es) A bv cid gp (tx_message cid tx) (tx_Hash tx) i config tr
    Href1 Hready1 Htr1) as (o & w2 & own2 & Hspec & Hrun & Href2 & Hconf2 & Hdep & _); [lia|].
  rewrite (bind_Ok _ _ _ _ _ Hrun), Hspec. cbn [mbind option_bind].
  destruct (IH own2 (after_msg (set_world w1 es) w2 (mo_pool o)) (mo_abs o) (mo_pool o) (i + 1) Href2)
    as (out & gp' & A' & w3 & own3 & Hspec3 & Hrun3 & Href3 & Hconf3 & Hdep3).
  { eapply ready_after; [done|]. apply (cf_bigs _ _ _ _ _ _ _ _ Hconf2). }
  { lia. }
  rewrite (bind_Ok _ _ _ _ _ Hrun3), Hspec3. cbn [mbind option_bind fst snd].
  eexists _, gp', A', w3, own3. split_and!; [done|done|done| |simpl; lia].
  eapply confined_trans; [exact Hconf1|]. by eapply confined_trans.
Qed.

(** *** A call *)

(** The tracers after a call. *)
Definition call_tracers (es : EvmState) (debug : bool) (p : TracedProg ((Err + ExecutionResult) * Z))
    (S : Abs) : gmap loc Tracer :=
  match debug, tracer (es_evm es) with
  | true, Some l =>
      match es_tracers es !! l with
      | Some t => <[l := shown_all p S (CaptureStart d t)]> (es_tracers es)
      | None => es_tracers es
      end
  | _, _ => es_tracers es
  end.

Lemma DoCall_run own es A bv cid gp msg debug :
  refines answer own base r b (es_world es) d A → ready es bv cid gp →
  let S := before_msg msg A in
  let p := ApplyMessage bv cid msg (2 ^ 64 - 1) in
  (debug = true → ∃ l t, tracer (es_evm es) = Some l ∧ es_tracers es !! l = Some t ∧ stops t p S = None) →
  a_depth A + frames_of msg < 2 ^ 63 →
  ∃ x S' w' own', spec_prog (erase p) S = Some (x, S') ∧
    DoCall msg debug d es =
      (Ok (call_result msg x.1), mkEvmState w' (es_evm es) (call_tracers es debug p S) (es_next es)) ∧
    refines answer own' base r b w' d S' ∧ confined answer b r d own (es_world es) own' w' ∧
    a_depth S' ≤ a_depth A + frames_of msg.
Proof.
  intros Href [Hgp Hcid Hbv] S p Ht Hd.
  destruct (run_op_refines answer N HN base r b d own _ A (OpSetCodeHash (m_From msg) Hash_zero) _ _ Href eq_refl)
    as (w1 & own1 & Hrun1 & Href1 & Hconf1).
  cbn [run_op] in Hrun1. apply bind_Ok_inv in Hrun1 as ([] & w1' & Hrun1 & [= ->]).
  assert (block_values (vmContext (es_evm es)) w1 = (Ok bv, w1)) as Hbv1.
  { eapply block_values_ext; [|exact Hbv]. exact (cf_bigs _ _ _ _ _ _ _ _ Hconf1). }
  destruct (ApplyMessage_disciplined bv cid msg (2 ^ 64 - 1) S Hd) as (x & S' & new & Hp & _ & _ & Hdep).
  unfold DoCall, the_evm, ChainID. rewrite bind_gets, (bind_Ok _ _ _ _ _ (in_world_Ok _ es _ _ Hrun1)).
  rewrite (bind_deref (λ s, chainConfig_ChainID (es_evm s)) _ _ cid) by exact Hcid.
  destruct debug.
  - destruct (Ht eq_refl) as (l & t & Hl & Htr & Hstop).
    destruct (trace_run answer N HN base r b d p own1 w1 S (CaptureStart d t) x S' Href1)
      as (w2 & own2 & Hrun2 & Href2 & Hconf2); [by rewrite stops_start|by destruct t|done|].
    exists x, S', w2, own2. split_and!; [done| |done|by eapply confined_trans|exact Hdep].
    rewrite Hl. unfold get_tracer. rewrite !bind_assoc, (bind_deref (λ _, Some l) _ _ l eq_refl), bind_assoc.
    rewrite (bind_deref (λ s, es_tracers s !! l) _ _ t) by exact Htr. rewrite bind_mret.
    assert (apply_message d (vmContext (es_evm es)) cid msg (2 ^ 64 - 1) (Some t) w1 =
      (Ok (x, Some (shown_all p S (CaptureStart d t))), w2)) as Happ.
    { unfold apply_message. rewrite (bind_Ok _ _ _ _ _ Hbv1). unfold exec_traced.
      by rewrite (bind_Ok _ _ _ _ _ Hrun2). }
    cbn [fmap option_fmap option_map snd].
    rewrite (bind_Ok _ _ _ _ _ (in_world_Ok _ (set_world w1 es) _ _ Happ)). cbn [fst snd].
    rewrite bind_modify. unfold call_tracers. by rewrite Hl, Htr.
  - destruct (exec_refines answer N HN base r b d (erase p) _ _ _ _ _ Href1 Hp)
      as (w2 & own2 & Hrun2 & Href2 & Hconf2).
    exists x, S', w2, own2. split_and!; [done| |done|by eapply confined_trans|exact Hdep].
    assert (apply_message d (vmContext (es_evm es)) cid msg (2 ^ 64 - 1) None w1 = (Ok (x, None), w2)) as Happ.
    { unfold apply_message. rewrite (bind_Ok _ _ _ _ _ Hbv1). by rewrite (bind_Ok _ _ _ _ _ Hrun2). }
    rewrite bind_mret. cbn [fmap option_fmap option_map].
    by rewrite (bind_Ok _ _ _ _ _ (in_world_Ok _ (set_world w1 es) _ _ Happ)).
Qed.

(** A call under a tracer that cannot read one of its steps panics. *)
Lemma DoCall_stops own es A bv cid gp msg l t A1 :
  refines answer own base r b (es_world es) d A → ready es bv cid gp →
  tracer (es_evm es) = Some l → es_tracers es !! l = Some t →
  stops t (ApplyMessage bv cid msg (2 ^ 64 - 1)) (before_msg msg A) = Some A1 →
  ∃ err w' own', DoCall msg true d es = (Panic err, set_world w' es) ∧
    refines answer own' base r b w' d A1 ∧ confined answer b r d own (es_world es) own' w'.
Proof.
  intros Href [Hgp Hcid Hbv] Hl Htr Hstop.
  destruct (run_op_refines answer N HN base r b d own _ A (OpSetCodeHash (m_From msg) Hash_zero) _ _ Href eq_refl)
    as (w1 & own1 & Hrun1 & Href1 & Hconf1).
  cbn [run_op] in Hrun1. apply bind_Ok_inv in Hrun1 as ([] & w1' & Hrun1 & [= ->]).
  assert (block_values (vmContext (es_evm es)) w1 = (Ok bv, w1)) as Hbv1.
  { eapply block_values_ext; [|exact Hbv]. exact (cf_bigs _ _ _ _ _ _ _ _ Hconf1). }
  destruct (trace_stops answer N HN base r b d (ApplyMessage bv cid msg (2 ^ 64 - 1)) own1 w1 (before_msg msg A)
    (CaptureStart d t) A1 Href1) as (err & w2 & own2 & Hrun2 & Href2 & Hconf2); [by rewrite stops_start|by destruct t|].
  exists err, w2, own2. split_and!; [|done|by eapply confined_trans].
  unfold DoCall, the_evm, ChainID. rewrite bind_gets, (bind_Ok _ _ _ _ _ (in_world_Ok _ es _ _ Hrun1)).
  rewrite (bind_deref (λ s, chainConfig_ChainID (es_evm s)) _ _ cid) by exact Hcid.
  rewrite Hl. unfold get_tracer. rewrite !bind_assoc, (bind_deref (λ _, Some l) _ _ l eq_refl), bind_assoc.
  rewrite (bind_deref (λ s, es_tracers s !! l) _ _ t) by exact Htr. rewrite bind_mret.
  cbn [fmap option_fmap option_map snd].
  assert (apply_message d (vmContext (es_evm es)) cid msg (2 ^ 64 - 1) (Some t) w1 = (Panic err, w2)) as Happ.
  { unfold apply_message. rewrite (bind_Ok _ _ _ _ _ Hbv1). unfold exec_traced.
    by rewrite (bind_Panic _ _ _ _ _ Hrun2). }
  by rewrite (bind_Panic _ _ _ _ _ (zoom_run es_world set_world _ (set_world w1 es) _ _ Happ)).
Qed.
End lemmas.

(** ** Properties *)

Section properties.
Context `{CoreLaws} `{!GethLaws} `{!Upstream} `{!Remote}.
Context (answer : BatchElem → option RpcValue) (N : nat) (HN : Reliable answer N).

(** C7: executing a list of transactions refines executing their messages one after the
    other on the abstract state.  The results, the gas left in the pool and everything the
    database then shows are those of the specification, whatever the goroutines that warm
    up the cache do in between; other databases are untouched. *)
Theorem ExecuteTxs_refines txs config own base r b d es A bv cid gp :
  refines answer own base r b (es_world es) d A → ready es bv cid gp →
  (∀ j h, is_Some (make_tracer config (mkTracerContext blockHash j h))) →
  a_depth A + 2 + exec_total cid txs < 2 ^ 63 →
  ∃ out gp' A' w' own', spec_ExecuteTxs bv cid gp 0 txs config A = Some (out, gp', A') ∧
    ExecuteTxs txs d config es = (Ok out, after_msg es w' gp') ∧
    refines answer own' base r b w' d A' ∧ confined answer b r d own (es_world es) own' w'.
Proof.
  intros Href Hready Htr Hd.
  destruct (execute_loop_run answer N HN base r b d txs own es A bv cid gp 0 config Href Hready Htr Hd)
    as (out & gp' & A' & w' & own' & ? & ? & ? & ? & _). by exists out, gp', A', w', own'.
Qed.

(** C17: a message ends with the outcome of its specification.  Rejected, it reports why, and
    accounts, storage, logs and receipts are as they were but for the cleared code hash of
    the sender; the refund counter and the gas left in the node's pool are what the attempt
    made of them, and when it was the tracer's configuration that was rejected, the layer of
    the snapshot is left behind.  Applied, its logs and effects stay, and its receipt, with
    the status, the gas, the created address, the logs of the transaction and the trace, is
    the database's receipt of the transaction. *)
Theorem ExecuteMsg_outcome own base r b d es A bv cid gp msg h i config :
  refines answer own base r b (es_world es) d A → ready es bv cid gp →
  is_Some (make_tracer config (mkTracerContext blockHash i h)) →
  a_depth A + 1 + frames_of msg < 2 ^ 63 →
  ∃ o w' own', spec_ExecuteMsg bv cid gp msg h i config A = Some o ∧
    ExecuteMsg d msg h i config es = (Ok (mo_out o), after_msg es w' (mo_pool o)) ∧
    refines answer own' base r b w' d (mo_abs o) ∧
    match mo_receipt o with
    | None => is_Some (mo_out o).2 ∧ rejected_shows msg A (mo_abs o)
    | Some (res, logs) => ∃ bn, bc_BlockNumber (vmContext (es_evm es)) = Some bn ∧
        has_receipt w' d h {|
          PostState := Hash_Bytes rootHash;
          Status := if er_Failed res then 0 else 1;
          CumulativeGasUsed := er_UsedGas res;
          Logs := Some logs;
          TxHash := h;
          BlockHash := blockHash;
          BlockNumber := bn;
          GasUsed := er_UsedGas res;
          ContractAddress :=
            match m_To msg with None => CreateAddress (m_From msg) (m_Nonce msg) | Some _ => Address_zero end;
          TransactionIndex := u64 i
        |}
    end.
Proof.
  intros Href Hready [tr Htr] Hd.
  destruct (ExecuteMsg_run answer N HN base r b d own es A bv cid gp msg h i config tr Href Hready Htr Hd)
    as (o & w' & own' & Hspec & ? & ? & _ & _ & Hrc). exists o, w', own'. split_and!; [done..|].
  destruct (mo_receipt o) as [[res logs]|] eqn:Hmo; [by apply Hrc|]. by eapply spec_ExecuteMsg_rejected.
Qed.

(** C35: warming up the cache is invisible.  Under every schedule of its twenty goroutines
    it ends, and the database it was cloned from shows what it showed; the EVM and every
    object that existed are untouched, but for the root's cache. *)
Theorem WarmUpCache_invisible own base r b d es A bv cid gp txs :
  refines answer own base r b (es_world es) d A → ready es bv cid gp →
  a_depth A + 2 + frames_total cid txs < 2 ^ 63 →
  ∃ w', (c ← in_world (Clone d); WarmUpCache txs c) es = (Ok tt, set_world w' es) ∧
    refines answer own base r b w' d A ∧ untouched answer b r (es_world es) w'.
Proof. exact (warm_run answer N HN base r b d own es A bv cid gp txs). Qed.

(** C28: a call on a clone returns what the message returns on the abstract state of the
    database, and leaves that database showing what it showed. *)
Theorem DoCall_isolated own base r b d es A bv cid gp msg :
  refines answer own base r b (es_world es) d A → ready es bv cid gp →
  a_depth A + 1 + frames_of msg < 2 ^ 63 →
  ∃ x S' w', spec_prog (erase (ApplyMessage bv cid msg (2 ^ 64 - 1)))
      (before_msg msg (start_abs (a_frame A) (a_depth A + 1))) = Some (x, S') ∧
    (c ← in_world (Clone d); DoCall msg false c) es = (Ok (call_result msg x.1), set_world w' es) ∧
    refines answer own base r b w' d A.
Proof.
  intros Href Hready Hd. pose proof (frames_of_pos msg) as Hpos.
  destruct (clone_step answer own base r b _ d A Href) as (w1 & Hrun & Hc & Href1 & _ & Hne & Hconf); [lia|].
  assert (ready (set_world w1 es) bv cid gp) as Hready1.
  { destruct Hready. split; [done|done|]. eapply block_values_ext; [|done]. exact (cf_bigs _ _ _ _ _ _ _ _ Hconf). }
  destruct (DoCall_run answer N HN _ r b _ _ (set_world w1 es) _ bv cid gp msg false Hc Hready1)
    as (x & S' & w2 & own2 & Hp & Hcall & Hc2 & Hconf2 & _); [done|simpl; lia|].
  exists x, S', w2. split; [exact Hp|]. split.
  - rewrite (bind_Ok _ _ _ _ _ (in_world_Ok _ es _ _ Hrun)), Hcall. by destruct es.
  - eapply confined_frame; [exact Href1|exact Hconf2|done| |by eapply refines_fresh].
    intros l ->%list_elem_of_singleton Hin. eapply refines_members in Hin; [|exact Href]. lia.
Qed.

(** An impersonated transaction comes back as the message of its sender.  Signing with
    the node's signer and the sender's address makes [TxToMessage] recover that address, and
    the destination, value, gas, nonce and data are the transaction's. *)
Theorem TxToMessage_sender es cid tx tx' a :
  chainConfig_ChainID (es_evm es) = Some cid →
  WithSignature tx (NewSigner (Int64 cid)) (Address_Bytes a) = inr tx' →
  ∃ msg, TxToMessage tx' es = (Ok msg, es) ∧ m_From msg = a ∧ m_To msg = tx_To tx ∧
    m_Value msg = tx_Value tx ∧ m_Gas msg = tx_Gas tx ∧ m_Nonce msg = tx_Nonce tx ∧
    m_Data msg = tx_Data tx.
Proof.
  intros Hcid Hsig.
  destruct (WithSignature_ok tx (NewSigner (Int64 cid)) (Address_Bytes a) _ _ _ eq_refl)
    as (tx2 & Hsig2 & Hraw & Hto & Hv & Hdata & Hn & Hg).
  rewrite Hsig in Hsig2. injection Hsig2 as <-.
  assert (impersonated tx' = true) as Himp.
  { unfold impersonated. rewrite Hraw. by rewrite bool_decide_true. }
  exists (tx_message cid tx'). unfold TxToMessage, ChainID. split.
  - by rewrite (bind_deref (λ s, chainConfig_ChainID (es_evm s)) _ _ cid).
  - unfold tx_message, tx_signer. rewrite Himp.
    destruct (AsMessage_fields tx' (NewSigner (Int64 cid))) as (-> & -> & -> & -> & ->).
    split_and!; try congruence. apply AsMessage_From. cbn [Sender NewSigner]. unfold SetFrom_Sender.
    rewrite Hraw. by rewrite BigToAddress_SetBytes.
Qed.

(** The block in a URL.  A URL that ends in an at sign and a number is dialled without
    them and pins that block, taken modulo 2^64; when what follows the last at sign is no
    number, as with a user name in the URL, starting the node panics. *)
Theorem parse_url_pins url bn :
  x40 ∉ bn → parse_url (url ++ x40 :: bn) = (n ← Atoi bn; Some (url, Some (u64 n))).
Proof.
  intros Hn. destruct (split_last x40 url bn Hn) as [Hlast Hlen].
  unfold parse_url. rewrite decide_True by done. rewrite Hlast. cbn [mbind option_bind].
  destruct (Atoi bn) as [n|]; [|done]. cbn [mbind option_bind].
  rewrite last_index_end by done. cbn [default from_option id]. by rewrite (take_app_length url).
Qed.
End properties.

(** ** Examples *)

Module ToyEvm.
Export ToyNode.

(** A chain whose head is block 100. *)
Definition header100 : Header :=
  mkHeader (hash 99) Hash_zero (addr 77) Hash_zero Hash_zero Hash_zero [] 5 100 30000000 0 1700 [] Hash_zero [] (Some 7).

(** A transfer from [a1] to [a2] that the node's signer signed; with data it reverts. *)
Definition sent (nonce value : Z) (data : bytes) : Transaction :=
  mkTx (LegacyTx (Some a2) nonce 100000 None (Some value) data) (1, SetBytes (Address_Bytes a1), MFERSIGNER_S).

(** A block of a transfer and a reverted transaction. *)
Definition header101 : Header :=
  mkHeader (hash 100) Hash_zero a1 Hash_zero Hash_zero Hash_zero [] 1 101 30000000 0 1712 [] Hash_zero [] None.

Definition block101 : Block := (header101, [sent 7 5 []; sent 8 6 [x01]]).

(** The other blocks are empty; the goroutines take turns. *)
#[export] Instance remote : Remote := {|
  rpc_Dial n _ := true;
  rpc_ChainID n := inr 1;
  rpc_Header n s := Some header100;
  rpc_BalanceAt n a z := inr 1;
  rpc_NonceAt n a := inr 3;
  rpc_BlockNumber n := inr 100;
  rpc_BlockByNumber n z := if decide (z = Some 101) then inr block101 else inr (NewBlock header100 []);
  rpc_BlockByHash n h := None;
  rpc_Call n args diff := inr [];
  rpc_FilterLogs n crit := inr [];
  warm_schedule n := [0; 1; 0; 1; 0; 0; 5; 1]%nat
|}.

(** The four numbers of the context are at locations 100 to 103. *)
Definition w1b : World :=
  with_bigs (λ _, list_to_map [(100%nat, 101); (101%nat, 1700); (102%nat, 5); (103%nat, 0)]) w1.

Definition ctx1 : BlockContext :=
  mkBlockContext (addr 77) 30000000 (Some 100%nat) (Some 101%nat) (Some 102%nat) (Some 103%nat).

Definition evm1 : MferEVM :=
  mkMferEVM [] (Some 3%nat) "keys" 10 2 ctx1 (Some 30000000) (Some 1) a1 0 0 None (Some 0%nat) false.

Definition es1 : EvmState := mkEvmState w1b evm1 ∅ 0.

Definition bv1 : BlockValues := mkBlockValues (addr 77) 30000000 101 1700 5 0.

Lemma ready1 : ready es1 bv1 1 30000000.
Proof. split; reflexivity. Defined.

Lemma refines1 : refines answer [2%nat] [1%nat] 1%nat 100 (es_world es1) 3%nat A1.
Proof.
  apply (refines_frame answer _ _ _ _ w1).
  - exact w1_refines.
  - split; [reflexivity| |reflexivity|intros l rc Hrc; by exists rc]. simpl. destruct (w_states w1 !! 1%nat); constructor; reflexivity.
  - reflexivity.
  - destruct w1_refines. split; assumption.
Defined.

Lemma tracers1 j h : is_Some (make_tracer None (mkTracerContext blockHash j h)).
Proof. by eexists. Defined.

Lemma ExecuteTxs_refines_witness :
  ∃ w' own', ExecuteTxs [sent 7 5 []; sent 8 6 [x01]] 3%nat None es1 =
      (Ok [None; Some "execution reverted: reason"], after_msg es1 w' (30000000 - 51000)) ∧
    ∃ A', refines answer own' [1%nat] 1%nat 100 w' 3%nat A' ∧
      a_balance A' a1 = 995 ∧ a_balance A' a2 = 1005 ∧ a_nonce A' a1 = 8.
Proof.
  destruct (ExecuteTxs_refines answer 1 reliable [sent 7 5 []; sent 8 6 [x01]] None _ _ _ _ _ es1 _ bv1 1
    30000000 refines1 ready1 tracers1 ltac:(reflexivity)) as (out & gp' & A' & w' & own' & Hspec & Hrun & Href & _).
  assert ((λ o, (o.1, a_balance o.2 a1, a_balance o.2 a2, a_nonce o.2 a1)) <$>
    spec_ExecuteTxs bv1 1 30000000 0 [sent 7 5 []; sent 8 6 [x01]] None A1
    = Some ([None; Some "execution reverted: reason"], 30000000 - 51000, 995, 1005, 8)) as E by reflexivity.
  rewrite Hspec in E. simpl in E. injection E as -> -> E1 E2 E3.
  exists w', own'. split; [exact Hrun|]. exists A'. split_and!; assumption.
Defined.

Lemma ExecuteMsg_outcome_witness :
  ∃ w' l logs, ExecuteMsg 3%nat (tx_message 1 (sent 7 5 [])) (hash 9) 4 None es1 =
      (Ok (21000, None), after_msg es1 w' (30000000 - 21000)) ∧
    length logs = 2%nat ∧ bc_BlockNumber ctx1 = Some l ∧
    has_receipt w' 3%nat (hash 9)
      (mkReceipt (Hash_Bytes rootHash) 1 21000 (Some logs) (hash 9) blockHash l 21000 Address_zero 4).
Proof.
  destruct (ExecuteMsg_outcome answer 1 reliable _ _ _ _ _ es1 _ bv1 1 30000000
    (tx_message 1 (sent 7 5 [])) (hash 9) 4 None refines1 ready1 (tracers1 4 (hash 9)) ltac:(reflexivity))
    as (o & w' & own' & Hspec & Hrun & _ & Hrc).
  assert ((λ o, (mo_out o, mo_pool o, (λ p, (p.1, length p.2)) <$> mo_receipt o)) <$>
    spec_ExecuteMsg bv1 1 30000000 (tx_message 1 (sent 7 5 [])) (hash 9) 4 None A1
    = Some ((21000, None), 30000000 - 21000, Some (mkExecutionResult 21000 None false [] [], 2%nat))) as E
    by reflexivity.
  rewrite Hspec in E. destruct o as [out pool A' [[res logs]|]]; simpl in E; [|discriminate].
  injection E as -> -> -> E. destruct Hrc as (bn & Hbn & Hhas).
  exists w', bn, logs. split_and!; [exact Hrun|exact E|exact Hbn|exact Hhas].
Defined.

Lemma WarmUpCache_invisible_witness :
  ∃ w', (c ← in_world (Clone 3%nat); WarmUpCache [sent 7 5 []; sent 8 6 [x01]] c) es1 =
      (Ok tt, set_world w' es1) ∧ refines answer [2%nat] [1%nat] 1%nat 100 w' 3%nat A1.
Proof.
  destruct (WarmUpCache_invisible answer 1 reliable _ _ _ _ _ es1 _ bv1 1 30000000
    [sent 7 5 []; sent 8 6 [x01]] refines1 ready1 ltac:(reflexivity)) as (w' & Hrun & Href & _).
  exists w'. split; assumption.
Defined.

Lemma DoCall_isolated_witness :
  ∃ w', (c ← in_world (Clone 3%nat); DoCall (tx_message 1 (sent 7 5 [x02])) false c) es1 =
      (Ok (inr (mkExecutionResult 30000 (Some "execution reverted") true [x02] [])), set_world w' es1) ∧
    refines answer [2%nat] [1%nat] 1%nat 100 w' 3%nat A1.
Proof.
  destruct (DoCall_isolated answer 1 reliable _ _ _ _ _ es1 _ bv1 1 30000000
    (tx_message 1 (sent 7 5 [x02])) refines1 ready1 ltac:(reflexivity)) as (x & S' & w' & Hp & Hrun & Href).
  assert ((λ r, r.1.1) <$> spec_prog (erase (ApplyMessage bv1 1 (tx_message 1 (sent 7 5 [x02])) (2 ^ 64 - 1)))
    (before_msg (tx_message 1 (sent 7 5 [x02])) (start_abs (a_frame A1) 2))
    = Some (inr (mkExecutionResult 30000 (Some "execution reverted") true [x02] []))) as E by reflexivity.
  change (a_depth A1 + 1) with 2 in Hp. rewrite Hp in E. simpl in E. injection E as E. rewrite E in Hrun.
  exists w'. split; [exact Hrun|exact Href].
Defined.

Lemma TxToMessage_sender_witness :
  ∃ msg, TxToMessage (sent 7 5 []) es1 = (Ok msg, es1) ∧ m_From msg = a1 ∧ m_To msg = Some a2.
Proof.
  destruct (TxToMessage_sender es1 1 (tx_of 7 5 []) (sent 7 5 []) a1 eq_refl eq_refl)
    as (msg & Hrun & Hfrom & Hto & _).
  exists msg. split_and!; [exact Hrun|exact Hfrom|exact Hto].
Defined.

Lemma parse_url_pins_witness :
  parse_url (str "http://h@-1") = Some (str "http://h", Some (2 ^ 64 - 1)) ∧
  parse_url (str "http://user@host") = None.
Proof.
  split; [exact (parse_url_pins (str "http://h") (str "-1") ltac:(by apply (bool_decide_unpack _)))|].
  exact (parse_url_pins (str "http://user") (str "host") ltac:(by apply (bool_decide_unpack _))).
Defined.
End ToyEvm.
