(* ===== verification/Backend.v ===== *)
(** * mferbackend/backend.go and rpcapi.go: the node and its eth, net and wallet interface

    A [Node] is the EVM with its world, the pool and the settings of [MferBackend].  Every
    handler is one computation on it; handlers that take the state lock are atomic. *)
From S2P Require Import Prelude BigInt Geth World OverlayState OverlayStateDB VmStateDB Chain.
From S2P Require Import GoSlice GoStd ToyInstance TxPool Signer Tracers TxArgs Evm.

(** ** The node *)

Section node.
Context `{Core} `{!Upstream} `{!Remote} `{!Growth}.

(** [MferBackend], but for the pointers to the EVM and the pool. *)
Record MferBackend := mkMferBackend {
  ImpersonatedAccount : Address;
  Randomized : bool;
  Passthrough : bool;
  OverrideChainID : option Z
}.

Record Node := mkNode { n_evm : EvmState; n_pool : MferTxPool; n_backend : MferBackend }.

Definition NewMferBackend (es : EvmState) (txPool : MferTxPool) (account : Address) (randomize : bool)
    : Node := mkNode es txPool (mkMferBackend account randomize false None).

Definition set_n_evm (es : EvmState) (s : Node) : Node := mkNode es (n_pool s) (n_backend s).
Definition set_n_pool (p : MferTxPool) (s : Node) : Node := mkNode (n_evm s) p (n_backend s).
Definition set_n_backend (f : MferBackend → MferBackend) (s : Node) : Node :=
  mkNode (n_evm s) (n_pool s) (f (n_backend s)).

Definition in_evm {A} (m : M EvmState A) : M Node A := zoom n_evm set_n_evm m.
Definition the_backend : M Node MferBackend := gets n_backend.
Definition update_backend (f : MferBackend → MferBackend) : M Node unit := modify (set_n_backend f).
Definition update_pool (f : MferTxPool → MferTxPool) : M Node unit :=
  modify (λ s, set_n_pool (f (n_pool s)) s).

(** The transactions and the results of the pool, as a reader of its slices sees them. *)
Definition pool_txs : M Node (list Transaction) :=
  gets (λ s, (seen (n_pool s) (GetPoolTxs (n_pool s))).1).
Definition pool_results : M Node (list (option Err)) :=
  gets (λ s, (seen (n_pool s) (GetPoolTxs (n_pool s))).2).

(** A method of the state database, on [s.b.EVM.StateDB]. *)
Definition on_StateDB {A} (m : loc → M World A) : M Node A :=
  d ← in_evm the_StateDB; in_evm (in_world (m d)).

Definition wallet_accounts (b : MferBackend) : list Address :=
  [if Randomized b then FAKE_ACCOUNT_RAND else ImpersonatedAccount b;
   FAKE_ACCOUNT_0; FAKE_ACCOUNT_1; FAKE_ACCOUNT_2; FAKE_ACCOUNT_3].

(** [MferBackend.Accounts], and the two handlers that return it. *)
Definition Accounts : M Node (list Address) := b ← the_backend; mret (wallet_accounts b).
Definition EthAccounts : M Node (list Address) := Accounts.
Definition RequestAccounts : M Node (list Address) := Accounts.

(** *** net and wallet *)

Definition Version : M Node string := c ← in_evm ChainID; mret (pretty c).
Definition Listening : M Node bool := mret true.
Definition SwitchEthereumChain (chainID : option Z) : M Node unit := mret tt.

(** ** Calls *)

(** An error of a handler: an ordinary one, or the reverted execution. *)
Inductive Error := ErrPlain (e : Err) | ErrRevert (e : revertError).

(** The argument that selects a block. *)
Record BlockNumberOrHash := mkBlockNumberOrHash { BlockNumber_ : option Z; BlockHash_ : option Hash }.

Definition StateOverride : Type := gmap Address OverrideAccount.

Definition set_From (a : option Address) (x : TransactionArgs) : TransactionArgs :=
  mkTransactionArgs a (To x) (Gas x) (GasPrice x) (MaxFeePerGas x) (MaxPriorityFeePerGas x)
    (Value_ x) (Nonce x) (Data x) (Input x) (AccessList_ x) (ChainID_ x).
Definition set_Data (l : option bytes) (x : TransactionArgs) : TransactionArgs :=
  mkTransactionArgs (From x) (To x) (Gas x) (GasPrice x) (MaxFeePerGas x) (MaxPriorityFeePerGas x)
    (Value_ x) (Nonce x) l (Input x) (AccessList_ x) (ChainID_ x).
Definition set_fees (price cap tip : option Z) (x : TransactionArgs) : TransactionArgs :=
  mkTransactionArgs (From x) (To x) (Gas x) price cap tip
    (Value_ x) (Nonce x) (Data x) (Input x) (AccessList_ x) (ChainID_ x).
Definition set_Nonce (n : option Z) (x : TransactionArgs) : TransactionArgs :=
  mkTransactionArgs (From x) (To x) (Gas x) (GasPrice x) (MaxFeePerGas x) (MaxPriorityFeePerGas x)
    (Value_ x) n (Data x) (Input x) (AccessList_ x) (ChainID_ x).
Definition set_Gas (g : option Z) (x : TransactionArgs) : TransactionArgs :=
  mkTransactionArgs (From x) (To x) g (GasPrice x) (MaxFeePerGas x) (MaxPriorityFeePerGas x)
    (Value_ x) (Nonce x) (Data x) (Input x) (AccessList_ x) (ChainID_ x).

(** The random address shown to clients is replaced by the impersonated one, as the sender
    and wherever its bytes occur in [data]; [input] is left as it is. *)
Definition preprocessArgs (b : MferBackend) (args : TransactionArgs) : TransactionArgs :=
  if negb (Randomized b) then args else
  let args := if decide (From args = Some FAKE_ACCOUNT_RAND)
              then set_From (Some (ImpersonatedAccount b)) args else args in
  match Data args with
  | Some calldata =>
      set_Data (Some (replace_all calldata (Address_Bytes FAKE_ACCOUNT_RAND)
        (Address_Bytes (ImpersonatedAccount b)))) args
  | None => args
  end.

Definition opt_field {A} (k : string) (v : A → Value) (a : option A) (m : gmap string Value) :=
  match a with Some a => <[k := v a]> m | None => m end.

Definition toCallArg (msg : TransactionArgs) : gmap string Value :=
  let arg : gmap string Value := {["from" := VOptAddress (From msg); "to" := VOptAddress (To msg)]} in
  let arg := opt_field "data" VBytes (match Data msg with Some [] => None | d => d end) arg in
  let arg := opt_field "value" VInt (Value_ msg) arg in
  let arg := opt_field "gas" VInt (match Gas msg with Some 0 => None | g => g end) arg in
  opt_field "gasPrice" VInt (GasPrice msg) arg.

(** The call is forwarded to the head of the upstream chain, with the local changes as
    overrides unless the client gave its own. *)
Definition CallPassthrough (args : TransactionArgs) (block : BlockNumberOrHash)
    (overrides : option StateOverride) : M Node (bytes * option Error) :=
  b ← the_backend;
  let args := preprocessArgs b args in
  diff ← on_StateDB GetStateDiff;
  let stateOverride := default diff overrides in
  _ ← on_StateDB StateBlockNumber;
  r ← in_evm (request (λ n, rpc_Call n (toCallArg args) stateOverride));
  mret (match r with inl err => ([], Some (ErrPlain err)) | inr hex => (hex, None) end).

(** What a call handler makes of the result of [DoCall]. *)
Definition call_reply (r : Err + ExecutionResult) : bytes * option Error :=
  match r with
  | inl err => ([], Some (ErrPlain err))
  | inr result =>
      match er_Revert result with
      | [] => (er_Return result, ErrPlain <$> er_Err result)
      | _ => ([], Some (ErrRevert (newRevertError result)))
      end
  end.

(** With a block number other than the latest, the block context of the node itself is
    moved to that block. *)
Definition CallLocal (args : TransactionArgs) (block : BlockNumberOrHash)
    (overrides : option StateOverride) : M Node (bytes * option Error) :=
  b ← the_backend;
  let args := preprocessArgs b args in
  match ToMessage args 0 None with
  | inl err => mret ([], Some (ErrPlain err))
  | inr msg =>
      stateDB ← on_StateDB Clone;
      (match BlockNumber_ block with
       | Some n =>
           if Z.eqb n (-1) then mret tt
           else header ← in_evm (GetBlockHeader (sprintf_hex n));
                match header with
                | Some h => in_evm (SetVMContextByBlockHeader h)
                | None => mret tt
                end
       | None => mret tt
       end) ;;
      r ← in_evm (DoCall msg false stateDB);
      mret (call_reply r)
  end.

(** The overrides of the client are not forwarded. *)
Definition Call (args : TransactionArgs) (block : BlockNumberOrHash) (overrides : option StateOverride)
    : M Node (bytes * option Error) :=
  b ← the_backend;
  if Passthrough b then CallPassthrough args block None else CallLocal args block overrides.

(** [tracer.Reset()] on the tracer at a location. *)
Definition reset_keccak (p : loc) : M Node unit :=
  in_evm (modify (with_tracers (alter (λ t,
    match t with TrKeccak t => TrKeccak (Keccak_Reset t) | _ => t end) p))).

(** What is answered to an estimate: twice the gas used, as a 64-bit number. *)
Definition estimate_reply (r : Err + ExecutionResult) : Z * option Error :=
  match r with
  | inl err => (0, Some (ErrPlain err))
  | inr result =>
      (u64 (er_UsedGas result * 2),
       match er_Revert result with
       | [] => None
       | _ => Some (ErrRevert (newRevertError result))
       end)
  end.

(** The price is cleared and the nonce filled in; the message is executed on a clone, under
    a tracer of its own. *)
Definition EstimateGas (args : TransactionArgs) (block : option BlockNumberOrHash)
    : M Node (Z * option Error) :=
  b ← the_backend;
  let args := preprocessArgs b args in
  let from := default Address_zero (From args) in
  let args := set_fees None (MaxFeePerGas args) (MaxPriorityFeePerGas args) args in
  nonce ← on_StateDB (λ d, GetNonce d from);
  let args := set_Nonce (Some nonce) args in
  match ToMessage args 0 None with
  | inl err => mret (0, Some (ErrPlain err))
  | inr msg =>
      tracer ← in_evm (new_tracer (TrKeccak NewKeccakTracer));
      in_evm (SetTracer tracer) ;;
      stateDB ← on_StateDB Clone;
      deferred (r ← in_evm (DoCall msg true stateDB); mret (estimate_reply r)) (reset_keccak tracer)
  end.

(** ** State *)

Definition state_not_found : Err := "mfer state not found".

Definition read_state {A} (m : loc → M World A) : M Node (Err + A) :=
  e ← in_evm the_evm;
  match StateDB e with
  | None => mret (inl state_not_found)
  | Some d => a ← in_evm (in_world (m d)); mret (inr a)
  end.

Definition EthGetBalance (address : Address) (block : BlockNumberOrHash) : M Node (Err + Z) :=
  read_state (λ d, GetBalance d address).
Definition EthGetCode (address : Address) (block : BlockNumberOrHash) : M Node (Err + bytes) :=
  read_state (λ d, GetCode d address).
Definition GetTransactionCount (address : Address) (block : BlockNumberOrHash) : M Node Z :=
  on_StateDB (λ d, GetNonce d address).
End node.

(** ** Transactions *)

Section transactions.
Context `{Core} `{!Upstream} `{!Remote} `{!Growth}.

(** [signer, from.Bytes()]: the sender is the signature. *)
Definition sign_as (chainID : Z) (from : Address) (tx : Transaction) : Err + Transaction :=
  WithSignature tx (NewSigner (Int64 chainID)) (Address_Bytes from).

(** The common end of the two send handlers: the transaction is executed on the node's own
    state and joins the pool with its result, also when it failed. *)
Definition execute_and_pool (tx : Transaction) : M Node Hash :=
  d ← in_evm the_StateDB;
  res ← in_evm (ExecuteTxs [tx] d None);
  r ← deref (λ _, head res);
  update_pool (λ p, AddTx p tx r) ;;
  mret (tx_Hash tx).

(** The arguments a transaction is built from: no fees, the nonce of the sender, and a
    third of the block's gas unless the client gave some. *)
Definition send_args (args : TransactionArgs) (gasLimit nonce : Z) : TransactionArgs :=
  let args := set_fees (Some 0) None None args in
  let args := match Gas args with
              | None => set_Gas (Some (gasLimit / 3)) args
              | Some _ => args
              end in
  set_Nonce (Some nonce) args.

(** Without a sender the impersonated account sends. *)
Definition send_from (b : MferBackend) (args : TransactionArgs) : Address :=
  match From args with
  | Some a => if decide (a = Address_zero) then ImpersonatedAccount b else a
  | None => ImpersonatedAccount b
  end.

Definition SendTransaction (args : TransactionArgs) : M Node Hash :=
  b ← the_backend;
  let args := preprocessArgs b args in
  let from := send_from b args in
  c ← in_evm GetVMContext;
  nonce ← on_StateDB (λ d, GetNonce d from);
  chainID ← in_evm ChainID;
  tx ← deref (λ _, ToTransaction (send_args args (bc_GasLimit c) nonce));
  match sign_as chainID from tx with
  | inl err => panic err
  | inr tx => execute_and_pool tx
  end.

Definition SendRawTransaction (input : bytes) : M Node (Err + Hash) :=
  match UnmarshalBinary input with
  | inl err => mret (inl err)
  | inr tx => h ← execute_and_pool tx; mret (inr h)
  end.

(** [hash.Hex()] *)
Definition hex_string (l : bytes) : string := ("0x" ++ String.string_of_list_byte (Bytes2Hex l))%string.
Definition tx_not_found (h : Hash) : Err := ("tx: " ++ hex_string (Hash_Bytes h) ++ " not found")%string.

(** An error counts as block 0. *)
Definition EthBlockNumber : M Node Z :=
  r ← in_evm (request rpc_BlockNumber);
  mret (match r with inl _ => 0 | inr bn => u64 (bn + 1) end).

Definition set_rt_From (a : Address) (t : RPCTransaction) : RPCTransaction :=
  mkRPCTransaction (rt_BlockHash t) (rt_BlockNumber t) a (rt_Gas t) (rt_GasPrice t) (rt_GasFeeCap t)
    (rt_GasTipCap t) (rt_Hash t) (rt_Input t) (rt_Nonce t) (rt_To t) (rt_TransactionIndex t)
    (rt_Value t) (rt_Type t) (rt_Accesses t) (rt_ChainID t) (rt_V t) (rt_R t) (rt_S t).

Definition EthGetTransactionByHash (hash : Hash) : M Node (Err + RPCTransaction) :=
  p ← gets n_pool;
  let '(index, tx) := GetTransactionByHash p hash in
  match tx with
  | None => mret (inl (tx_not_found hash))
  | Some tx =>
      bn ← EthBlockNumber;
      let rpcTx := newRPCTransaction tx blockHash bn (Z.of_nat index) None in
      msg ← in_evm (TxToMessage tx);
      mret (inr (set_rt_From (m_From msg) rpcTx))
  end.

(** The fields both receipt handlers build; [from] and [type] differ. *)
Definition receipt_fields (receipt : Receipt) (txHash : Hash) (to : option Address)
    (bn index type_ : Z) : gmap string Value :=
  let fields : gmap string Value := list_to_map [
    ("blockHash", VHash blockHash);
    ("blockNumber", VInt bn);
    ("transactionHash", VHash txHash);
    ("transactionIndex", VInt index);
    ("to", VOptAddress to);
    ("gasUsed", VInt (GasUsed receipt));
    ("cumulativeGasUsed", VInt (CumulativeGasUsed receipt));
    ("contractAddress", VNull);
    ("logs", VLogs (default [] (Logs receipt)));
    ("logsBloom", VBytes (replicate 256 x00));
    ("type", VInt type_)] in
  let fields := match PostState receipt with [] => fields | l => <["root" := VBytes l]> fields end in
  let fields := <["status" := VInt (Status receipt)]> fields in
  if decide (ContractAddress receipt = Address_zero) then fields
  else <["contractAddress" := VAddress (ContractAddress receipt)]> fields.

(** The sender is the impersonated account, whoever sent the transaction. *)
Definition GetTransactionReceipt (hash : Hash) : M Node (Err + gmap string Value) :=
  p ← gets n_pool;
  let '(index, tx) := GetTransactionByHash p hash in
  match tx with
  | None => mret (inl (tx_not_found hash))
  | Some tx =>
      r ← on_StateDB (λ d, GetReceipt d hash);
      match r with
      | None => mret (inl ("tx: " ++ hex_string (Hash_Bytes hash) ++ " receipt not found")%string)
      | Some l =>
          receipt ← in_evm (in_world (get_receipt l));
          b ← the_backend;
          bn ← EthBlockNumber;
          mret (inr (<["from" := VAddress (ImpersonatedAccount b)]>
            (receipt_fields receipt hash (tx_To tx) bn (Z.of_nat index) (tx_Type tx))))
      end
  end.

(** The hash that stands for the pool as a block. *)
Definition pseudoblockhash : Hash := Keccak256Hash (str "pseudoblockhash").

Definition EthGetLogs (crit : FilterCriteria) : M Node (Err + list Log) :=
  if decide (fc_BlockHash crit = Some pseudoblockhash) then
    txs ← pool_txs;
    logs ← fold_m (λ logs tx, l ← on_StateDB (λ d, GetLogs d (tx_Hash tx)); mret (logs ++ l)) [] txs;
    mret (inr logs)
  else in_evm (request (λ n, rpc_FilterLogs n crit)).

(** ** Blocks *)

Definition LatestBlockNumber : Z := -1.
Definition PendingBlockNumber : Z := -2.

(** The header the pool's block gets from the head's. *)
Definition next_header (h : Header) : Header :=
  mkHeader (hd_ParentHash h) (hd_UncleHash h) (hd_Coinbase h) (hd_Root h) (hd_TxHash h)
    (hd_ReceiptHash h) (hd_Bloom h) (hd_Difficulty h) (hd_Number h + 1) (hd_GasLimit h)
    (hd_GasUsed h) (u64 (hd_Time h + 10)) (hd_Extra h) (hd_MixDigest h) (hd_Nonce h) (hd_BaseFee h).

Definition fake_miner : Address := BytesToAddress (replicate 20 xaa).
Definition cafe_hash : Hash := BytesToHash (Hex2Bytes (str "cafecafecafecafecafecafecafecafecafecafecafecafecafecafecafecafe")).

Definition with_miner (response : gmap string Value) : gmap string Value :=
  <["totalDifficulty" := VString "0xcafebabe3fe75afe"]> (<["miner" := VAddress fake_miner]> response).

(** The latest block is the pool, on top of the head of the chain; the pending block is
    none. *)
Definition GetBlockByNumber (number : Z) (fullTx : bool) : M Node (Err + option (gmap string Value)) :=
  if Z.eqb number LatestBlockNumber then
    r ← in_evm (request (λ n, rpc_BlockByNumber n None));
    match r with
    | inl err => mret (inl err)
    | inr prevBlock =>
        poolTxs ← pool_txs;
        let currBlock := NewBlock (next_header (block_Header prevBlock)) poolTxs in
        match RPCMarshalBlock currBlock true false with
        | inl err => mret (inl err)
        | inr response => mret (inr (Some (with_miner (<["hash" := VHash cafe_hash]> response))))
        end
    end
  else if Z.eqb number PendingBlockNumber then mret (inr None)
  else
    r ← in_evm (request (λ n, rpc_BlockByNumber n (Some number)));
    match r with
    | inl err => mret (inl err)
    | inr block =>
        match RPCMarshalBlock block true false with
        | inl _ => panic "assignment to entry in nil map"
        | inr response => mret (inr (Some (with_miner response)))
        end
    end.

(** A block that is not found is answered with the latest. *)
Definition GetBlockByHash (hash : Hash) (fullTx : bool) : M Node (Err + option (gmap string Value)) :=
  r ← in_evm (request (λ n, rpc_BlockByHash n hash));
  match r with
  | Some block =>
      mret (match RPCMarshalBlock block true fullTx with
            | inl err => inl err
            | inr response => inr (Some response)
            end)
  | None => GetBlockByNumber LatestBlockNumber fullTx
  end.

Definition EthGasPrice : M Node Z := mret (5 * 10 ^ 9).

Definition EthChainId : M Node Z :=
  b ← the_backend;
  match OverrideChainID b with Some c => mret c | None => in_evm ChainID end.

(** [make([]float64, n)] panics when the elements do not fit in the address space. *)
Record feeHistoryResult := mkFeeHistoryResult { OldestBlock : Z; GasUsedRatio : list Z }.

Definition FeeHistory (blockCount lastBlock : Z) : M Node feeHistoryResult :=
  bn ← EthBlockNumber;
  let bn := if Z.ltb blockCount bn then bn - blockCount else bn in
  if Z.ltb (2 ^ 48) (8 * blockCount) then panic "runtime error: makeslice: len out of range"
  else mret (mkFeeHistoryResult (i64 bn) (replicate (Z.to_nat blockCount) 0)).
End transactions.
