(* ===== verification/Actions.v ===== *)
(** * mferbackend/mferactionapi.go: the mfer interface

    Control of the node (resetting, re-executing, settings), the simulation of a safe
    transaction made of the pool, and the tracing of blocks and bundles. *)
From S2P Require Import Prelude BigInt Geth World OverlayState OverlayStateDB VmStateDB Chain.
From S2P Require Import GoSlice GoStd ToyInstance TxPool Signer Multisend Tracers TxArgs Evm.
From S2P Require Import Backend.

(** ** Control *)

Section control.
Context `{Core} `{!Upstream} `{!Remote} `{!Growth}.

Definition ClearKeyCache : M Node unit := on_StateDB (λ d, InitState d true true).

(** The error of [Prepare] is dropped. *)
Definition ResetState : M Node unit := _ ← in_evm Prepare; mret tt.

Definition ClearTxPool : M Node unit :=
  update_pool (λ p, (Reset p).2) ;; in_evm ResetToRoot.

(** The pool is executed again from the head of the chain. *)
Definition ReExecTxPool : M Node unit :=
  _ ← in_evm Prepare;
  txs ← pool_txs;
  d ← in_evm the_StateDB;
  execResults ← in_evm (ExecuteTxs txs d None);
  update_pool (λ p, SetResults p execResults).

Definition ActSetTimeDelta (delta : Z) : M Node unit := in_evm (SetTimeDelta delta).
Definition ActGetTimeDelta : M Node Z := in_evm GetTimeDelta.
Definition ActSetBlockNumberDelta (delta : Z) : M Node unit := in_evm (SetBlockNumberDelta delta).
Definition ActGetBlockNumberDelta : M Node Z := in_evm GetBlockNumberDelta.
Definition ActSetBatchSize (batchSize : Z) : M Node unit := on_StateDB (λ d, SetBatchSize d batchSize).
Definition ActGetStateDiff : M Node StateOverride := on_StateDB GetStateDiff.

Definition ActOverrideChainID (id : Z) : M Node unit :=
  update_backend (λ b, mkMferBackend (ImpersonatedAccount b) (Randomized b) (Passthrough b)
    (if Z.eqb id 0 then None else Some id)).
Definition Impersonate (account : Address) : M Node unit :=
  update_backend (λ b, mkMferBackend account (Randomized b) (Passthrough b) (OverrideChainID b)).
Definition ActImpersonatedAccount : M Node Address := b ← the_backend; mret (ImpersonatedAccount b).
Definition ToggleRandAddr (enable : bool) : M Node unit :=
  update_backend (λ b, mkMferBackend (ImpersonatedAccount b) enable (Passthrough b) (OverrideChainID b)).
Definition RandAddrEnabled : M Node bool := b ← the_backend; mret (Randomized b).
Definition TogglePassthrough (enable : bool) : M Node unit :=
  update_backend (λ b, mkMferBackend (ImpersonatedAccount b) (Randomized b) enable (OverrideChainID b)).
Definition PassthroughEnabled : M Node bool := b ← the_backend; mret (Passthrough b).

(** A transaction from the rich account, sent through the node's own interface; its result
    is dropped. *)
Definition PrintMoney (account : Address) : M Node unit :=
  _ ← SendTransaction (mkTransactionArgs (Some FAKE_ACCOUNT_RICH) (Some account) None None None None
        (Some (10 ^ 18 * 1000)) None None None None None);
  mret tt.

(** The goroutine of the EVM that watches the upstream node calls [ReExecTxPool] through
    the same interface. *)
Definition updatePendingBN (missing_tick : bool) : M Node unit :=
  if missing_tick then
    again ← in_evm check_missing;
    (if again : bool then ReExecTxPool else mret tt) ;;
    in_evm log_update
  else in_evm follow_head.

(** ** The pool as a list *)

Record TxData := mkTxData {
  td_Idx : Z; td_From : Address; td_To : Address; td_Data : bytes; td_ExecResult : string;
  td_PseudoTxHash : Hash }.

(** The loop reads the result of the same index. *)
Fixpoint txs_loop (i : Z) (txs : list Transaction) (execResult : list (option Err)) : M Node (list TxData) :=
  match txs with
  | [] => mret []
  | tx :: txs =>
      result ← deref (λ _, head execResult);
      msg ← in_evm (TxToMessage tx);
      rest ← txs_loop (i + 1) txs (tail execResult);
      mret (mkTxData i (m_From msg) (default Address_zero (tx_To tx)) (tx_Data tx)
              (default "" result) (tx_Hash tx) :: rest)
  end.

Definition GetTxs : M Node (list TxData) :=
  txs ← pool_txs; execResult ← pool_results; txs_loop 0 txs execResult.
End control.

(** ** Simulating a safe transaction *)

Section safe.
Context `{Core} `{!Upstream} `{!Remote} `{!Growth} `{!Abi} `{!SafeContract}.

(** [owners, int(threshold.Int64())] *)
Definition getSafeOwnersAndThreshold (safeAddr : Address) : M Node (Err + (list Address * Z)) :=
  match NewGnosisSafe safeAddr with
  | inl err => mret (inl err)
  | inr _ =>
      r ← in_evm (in_world (contract_call (λ n, call_GetThreshold n safeAddr)));
      match r with
      | inl err => mret (inl err)
      | inr threshold =>
          r ← in_evm (in_world (contract_call (λ n, call_GetOwners n safeAddr)));
          mret (match r with inl err => inl err | inr owners => inr (owners, Int64 threshold) end)
      end
  end.

Definition GetSafeOwnersAndThreshold : M Node (Err + (list Address * Z)) :=
  b ← the_backend; getSafeOwnersAndThreshold (ImpersonatedAccount b).

Record MultiSendData := mkMultiSendData {
  msd_TxData : list TxData;
  msd_MultiSendCallData : bytes;
  msd_MultiSendTxDataHash : Hash;
  msd_ApproveHashCallData : bytes;
  msd_To : Address;
  msd_SafeNonce : Z;
  msd_ExecResult : option ExecutionResult;
  msd_RevertError : string;
  msd_CallError : option Err;
  msd_EventLogs : list Log;
  msd_DebugTrace : bytes
}.

(** The selector of [approveHash], with the hash. *)
Definition approve_calldata (h : Hash) : bytes := [xd4; xd9; xbd; xcd] ++ Hash_Bytes h.

(** Every owner approves the hash in a transaction of its own; the results are dropped.
    The nonces are those upstream. *)
Fixpoint approve_loop (chainID : Z) (safe : Address) (h : Hash) (stateDB : loc) (owners : list Address)
    : M Node (Err + list Z) :=
  match owners with
  | [] => mret (inr [])
  | safeOwner :: owners =>
      r ← in_evm (request (λ n, rpc_NonceAt n safeOwner));
      match r with
      | inl err => mret (inl err)
      | inr nonce =>
          in_evm (in_world (AddBalance stateDB safeOwner (10 ^ 18))) ;;
          let tx := NewTx (LegacyTx (Some safe) nonce 100000 (Some (5 * 10 ^ 9)) None (approve_calldata h)) in
          match sign_as chainID safeOwner tx with
          | inl err => panic err
          | inr tx =>
              _ ← in_evm (ExecuteTxs [tx] stateDB None);
              rest ← approve_loop chainID safe h stateDB owners;
              mret (match rest with inl err => inl err | inr ns => inr (nonce :: ns) end)
          end
      end
  end.

(** The owners given, or the first ones of the safe, as many as its threshold; a threshold
    out of range panics. *)
Definition choose_owners (safe : Address) (safeOwners : list Address) : M Node (Err + list Address) :=
  match safeOwners with
  | [] =>
      r ← getSafeOwnersAndThreshold safe;
      match r with
      | inl err => mret (inl err)
      | inr (owners, threshold) =>
          l ← deref (λ _, slice owners 0 threshold); mret (inr l)
      end
  | _ => mret (inr safeOwners)
  end.

Definition psuedoTransaction : Hash := Keccak256Hash (str "psuedoTransaction").

(** The call of the safe, traced, on the simulated state.  A call that is rejected has no
    result, and reading its revert reason panics. *)
Definition simulate_call (msData : MultiSendData) (safe : Address) (owner : Address) (nonce : Z)
    (stateDB : loc) : M Node (Err + MultiSendData) :=
  let msg := NewMessage owner (Some safe) nonce 0 5000000 (5 * 10 ^ 9) 0 0
               (msd_MultiSendCallData msData) [] true in
  tracer ← (match NewForeignTracer "callTracer" (mkTracerContext Hash_zero 0 Hash_zero) [] with
            | inl err => panic err
            | inr t => in_evm (new_tracer (TrForeign t))
            end);
  in_evm (SetTracer tracer) ;;
  in_evm (in_world (StartLogCollection stateDB psuedoTransaction (Keccak256Hash (str "blockhash")))) ;;
  r ← in_evm (DoCall msg true stateDB);
  match r with
  | inl err => panic "invalid memory address or nil pointer dereference"
  | inr result =>
      t ← in_evm (get_tracer tracer);
      let revertError := match er_Revert result with
                         | [] => ""
                         | _ => re_error (newRevertError result)
                         end in
      match (match t with TrForeign t => foreign_result t | _ => ([], None) end) with
      | (_, Some err) => mret (inl err)
      | (traceResult, None) =>
          logs ← in_evm (in_world (GetLogs stateDB psuedoTransaction));
          mret (inr (mkMultiSendData (msd_TxData msData) (msd_MultiSendCallData msData)
            (msd_MultiSendTxDataHash msData) (msd_ApproveHashCallData msData) (msd_To msData)
            (msd_SafeNonce msData) (Some result) revertError None logs traceResult))
      end
  end.

Definition SimulateSafeExec (safeOwners : list Address) : M Node (Err + MultiSendData) :=
  b ← the_backend;
  let safeAddr := ImpersonatedAccount b in
  txs ← pool_txs;
  let txData := imap (λ i tx, mkTxData (Z.of_nat i) Address_zero (default Address_zero (tx_To tx))
                  (tx_Data tx) "" Hash_zero) txs in
  calldata ← deref (λ _, BuildTransactions txs);
  match NewMultisendSafe safeAddr MultiSendCallOnlyContractAddress calldata 0 with
  | inl err => mret (inl err)
  | inr ms =>
      r ← in_evm (in_world (GetNonce_ ms));
      match r with
      | inl err => mret (inl err)
      | inr nonce =>
          r ← in_evm (in_world (GetTxDataHash ms (Int64 nonce)));
          match r with
          | inl err => mret (inl err)
          | inr txDataHash =>
              r ← choose_owners safeAddr safeOwners;
              match r with
              | inl err => mret (inl err)
              | inr owners =>
                  match GenSafeCalldataWithApproveHash ms owners with
                  | (_, inl err) => mret (inl err)
                  | (owners, inr safeTx) =>
                      stateDB ← on_StateDB CloneFromRoot;
                      let msData := mkMultiSendData txData safeTx txDataHash (approve_calldata txDataHash)
                        safeAddr (Int64 nonce) None "" None [] [] in
                      chainID ← in_evm ChainID;
                      r ← approve_loop chainID safeAddr txDataHash stateDB owners;
                      match r with
                      | inl err => mret (inl err)
                      | inr nonces =>
                          owner ← deref (λ _, head owners);
                          n ← deref (λ _, head nonces);
                          simulate_call msData safeAddr owner n stateDB
                      end
                  end
              end
          end
      end
  end.
End safe.

(** ** Tracing blocks and bundles *)

Section tracing.
Context `{Core} `{!Upstream} `{!Remote} `{!Growth}.

(** The trace of a transaction is the data of the last log of its receipt. *)
Definition trace_of_receipt (stateDB : loc) (tx : Transaction) : M World (option bytes) :=
  r ← GetReceipt stateDB (tx_Hash tx);
  match r with
  | None => mret None
  | Some l => receipt ← get_receipt l; mret (log_Data <$> last (default [] (Logs receipt)))
  end.

(** One block of [traceBlocks]. *)
Definition trace_block (stateDB : loc) (config : option TraceConfig) (block : Block)
    : M Node (list (option bytes)) :=
  let txs := block_Transactions block in
  in_evm (SetVMContextByBlockHeader (block_Header block)) ;;
  in_evm AddGasPool ;;
  _ ← in_evm (ExecuteTxs txs stateDB config);
  in_evm (in_world (map_m (trace_of_receipt stateDB) txs)).

(** The node is moved to the state before the first block, and stays there.  [Prepare] may
    fail without notice, and a header that is not found panics. *)
Definition traceBlocks (blocks : list Block) (config : option TraceConfig)
    : M Node (Err + list (list (option bytes))) :=
  match blocks with
  | [] => mret (inl "no blocks supplied")
  | first :: _ =>
      let stateBN := u64 (Uint64 (hd_Number (block_Header first)) - 1) in
      _ ← in_evm Prepare;
      header ← in_evm (GetBlockHeader (sprintf_hex stateBN));
      h ← deref (λ _, header);
      in_evm (SetVMContextByBlockHeader h) ;;
      in_evm (SetBlockNumber stateBN) ;;
      on_StateDB (λ d, InitState d true false) ;;
      stateDB ← on_StateDB CloneFromRoot;
      txTraceResults ← map_m (trace_block stateDB config) blocks;
      _ ← in_evm (in_world (CacheSize stateDB));
      mret (inr txTraceResults)
  end.

(** [results[0], err]: an error of [traceBlocks] panics on the index, but with one block
    there is none. *)
Definition TraceBlockByNumber (number : Z) (config : option TraceConfig)
    : M Node (Err + list (option bytes)) :=
  let bn := if Z.eqb number (-1) then None else Some number in
  r ← in_evm (request (λ n, rpc_BlockByNumber n bn));
  match r with
  | inl err => mret (inl err)
  | inr blk =>
      r ← traceBlocks [blk] config;
      match r with
      | inl _ => panic "index out of range"
      | inr results => l ← deref (λ _, head results); mret (inr l)
      end
  end.

Fixpoint fetch_blocks (from : Z) (count : nat) : M Node (Err + list Block) :=
  match count with
  | O => mret (inr [])
  | S count =>
      r ← in_evm (request (λ n, rpc_BlockByNumber n (Some from)));
      match r with
      | inl err => mret (inl err)
      | inr blk =>
          rest ← fetch_blocks (from + 1) count;
          mret (match rest with inl err => inl err | inr blks => inr (blk :: blks) end)
      end
  end.

(** The latest block has no number here: a bound of -1 dereferences nil.  A range that is
    reversed by more than one makes a slice of negative length, a huge one a slice that is
    larger than the address space. *)
Definition TraceBlockByNumberRange (numberFrom numberTo : Z) (config : option TraceConfig)
    : M Node (Err + list (list (option bytes))) :=
  if Z.eqb numberFrom (-1) || Z.eqb numberTo (-1)
  then panic "invalid memory address or nil pointer dereference"
  else
    let blockCnt := i64 (numberTo - numberFrom + 1) in
    if Z.ltb blockCnt 0 || Z.ltb (2 ^ 48) (8 * blockCnt) then panic "makeslice: len out of range"
    else
      r ← fetch_blocks numberFrom (Z.to_nat blockCnt);
      match r with
      | inl err => mret (inl err)
      | inr blks => traceBlocks blks config
      end.

Record TransactionBundleResult := mkTransactionBundleResult {
  tb_Transactions : list (option RPCTransaction);
  tb_TransactionReceipts : list (option (gmap string Value));
  tb_StateDiff : StateOverride;
  tb_LastTxHash : Hash
}.

(** The receipt as a JSON object, without the sender. *)
Definition buildRPCReceipt (tx : Transaction) (receipt : Receipt) : M Node (gmap string Value) :=
  c ← in_evm GetVMContext;
  bn ← in_evm (in_world (get_bigp (bc_BlockNumber c)));
  mret (receipt_fields receipt (tx_Hash tx) (tx_To tx) (Uint64 bn) (TransactionIndex receipt) 0).

(** The arguments of a bundled transaction: no fees, the nonce on the simulated state, and
    a default for the gas. *)
Definition bundle_args (args : TransactionArgs) (nonce : Z) : TransactionArgs :=
  let args := set_Nonce (Some nonce) (set_fees None None None args) in
  match Gas args with
  | None | Some 0 => set_Gas (Some 10000000) args
  | Some _ => args
  end.

(** A transaction that cannot be signed is skipped; one that is rejected has no receipt,
    which ends the bundle. *)
Fixpoint bundle_loop (i : Z) (stateDB : loc) (msgArgs : list TransactionArgs) (lastTxHash : Hash)
    : M Node (Err + (list (option RPCTransaction * option (gmap string Value)) * Hash)) :=
  match msgArgs with
  | [] => mret (inr ([], lastTxHash))
  | msgArg :: msgArgs =>
      match From msgArg with
      | None => mret (inl "missing required field 'from' for transaction")
      | Some from =>
          nonce ← in_evm (in_world (GetNonce stateDB from));
          chainID ← in_evm ChainID;
          unsigned ← deref (λ _, ToTransaction (bundle_args msgArg nonce));
          match sign_as chainID from unsigned with
          | inl _ =>
              rest ← bundle_loop (i + 1) stateDB msgArgs lastTxHash;
              mret (match rest with inl err => inl err | inr (l, h) => inr ((None, None) :: l, h) end)
          | inr tx =>
              msg ← in_evm (TxToMessage tx);
              _ ← in_evm (ExecuteMsg stateDB msg (tx_Hash tx) i None);
              r ← in_evm (in_world (GetReceipt stateDB (tx_Hash tx)));
              match r with
              | None => mret (inl ("missing receipt for tx " ++ hex_string (Hash_Bytes (tx_Hash tx)))%string)
              | Some l =>
                  receiptItem ← in_evm (in_world (get_receipt l));
                  bn ← in_evm (in_world (get_big (BlockNumber receiptItem)));
                  let rpcTx := newRPCTransaction tx (BlockHash receiptItem) (Uint64 bn)
                                 (TransactionIndex receiptItem) None in
                  rpcReceipt ← buildRPCReceipt tx receiptItem;
                  rest ← bundle_loop (i + 1) stateDB msgArgs (tx_Hash tx);
                  mret (match rest with
                        | inl err => inl err
                        | inr (l, h) =>
                            inr ((Some (set_rt_From from rpcTx),
                                  Some (<["from" := VAddress from]> rpcReceipt)) :: l, h)
                        end)
              end
          end
      end
  end.

Definition TraceTransactionBundle (msgArgs : list TransactionArgs) : M Node (Err + TransactionBundleResult) :=
  stateDB ← on_StateDB CloneFromRoot;
  in_evm AddGasPool ;;
  r ← bundle_loop 0 stateDB msgArgs Hash_zero;
  match r with
  | inl err => mret (inl err)
  | inr (l, lastTxHash) =>
      stateDiff ← in_evm (in_world (GetStateDiff stateDB));
      mret (inr (mkTransactionBundleResult l.*1 l.*2 stateDiff lastTxHash))
  end.
End tracing.
