(* ===== verification/Debug.v ===== *)
(** * mferbackend/debugapi.go and probeapi.go: the debug and probe interfaces

    A pool transaction is replayed on a clone of the root, after the transactions before
    it, under a tracer; [StorageRangeAt] lists the slots of a contract the pool touches;
    [RunTxWithDifferentContext] compares two runs of a transaction. *)
From S2P Require Import Prelude BigInt Geth World OverlayState OverlayStateDB VmStateDB Chain.
From S2P Require Import GoSlice GoStd ToyInstance TxPool Signer Tracers TxArgs Evm Backend.

(** ** Formatting *)

Section format.
Context `{Core}.

Record StructLogRes := mkStructLogRes {
  slr_Pc : Z; slr_Op : string; slr_Gas : Z; slr_GasCost : Z; slr_Depth : Z; slr_Error : string;
  slr_Stack : option (list string);
  slr_Memory : option (list string);
  slr_Storage : option (gmap string string)
}.

(** [fmt.Sprintf] of bytes with the verb x. *)
Definition sprintf_x (l : bytes) : string := String.string_of_list_byte (Bytes2Hex l).

(** [for i := 0; i+32 <= len(memory); i += 32]: the words of the memory; a rest shorter
    than a word is dropped. *)
Fixpoint memory_words (fuel : nat) (memory : bytes) : list string :=
  match fuel with
  | O => []
  | S fuel =>
      if decide (32 ≤ length memory)%nat
      then sprintf_x (take 32 memory) :: memory_words fuel (drop 32 memory)
      else []
  end.

Definition format_storage (s : gmap Hash Hash) : gmap string string :=
  list_to_map (map (λ p, (sprintf_x (Hash_Bytes p.1), sprintf_x (Hash_Bytes p.2))) (map_to_list s)).

Definition format_log (trace : StructLog) : StructLogRes := {|
  slr_Pc := sl_Pc trace; slr_Op := sl_Op trace; slr_Gas := sl_Gas trace;
  slr_GasCost := sl_GasCost trace; slr_Depth := sl_Depth trace; slr_Error := sl_ErrorString trace;
  slr_Stack := option_map (map EncodeBig) (sl_Stack trace);
  slr_Memory := option_map (λ m, memory_words (length m) m) (sl_Memory trace);
  slr_Storage := option_map format_storage (sl_Storage trace) |}.

Definition FormatLogs (logs : list StructLog) : list StructLogRes := map format_log logs.
End format.

(** ** Replaying a transaction *)

Section debug.
Context `{Core} `{!Upstream} `{!Remote} `{!Growth}.

(** The first transaction with the hash, and those before it. *)
Fixpoint find_tx (h : Hash) (before txs : list Transaction) : option (list Transaction * Transaction) :=
  match txs with
  | [] => None
  | tx :: txs => if decide (tx_Hash tx = h) then Some (before, tx) else find_tx h (before ++ [tx]) txs
  end.

(** [tx %s not found] *)
Definition tx_not_in_pool (h : Hash) : Err := ("tx " ++ hex_string (Hash_Bytes h) ++ " not found")%string.

(** A clone of the root with the fake accounts, on which the head of the pool was run. *)
Definition replay (txs : list Transaction) : M Node loc :=
  stateDB ← on_StateDB CloneFromRoot;
  in_evm (in_world (InitFakeAccounts stateDB)) ;;
  _ ← in_evm (ExecuteTxs txs stateDB None);
  mret stateDB.

Inductive TraceReply :=
| StructReply (Gas : Z) (Failed : bool) (ReturnValue : string) (StructLogs : list StructLogRes)
| RawReply (result : bytes).

(** Without a configuration a plain struct logger is used; otherwise as for a
    transaction.  The flag tells a struct logger. *)
Definition debug_tracer (config : option TraceConfig) (txctx : TracerContext)
    : option (Err + (ForeignTracer * bool)) :=
  match config with
  | None => Some (inr (NewStructLogger None, true))
  | Some c =>
      r ← make_tracer config txctx;
      Some (match r with
            | inl err => inl err
            | inr t => inr (t, match tc_Tracer c with Some _ => false | None => true end)
            end)
  end.

(** What is answered, from the result and the tracer. *)
Definition trace_reply (is_struct : bool) (result : ExecutionResult) (t : ForeignTracer) : Err + TraceReply :=
  if is_struct then
    let returnVal := match er_Revert result with
                     | [] => sprintf_x (er_Return result)
                     | l => sprintf_x l
                     end in
    inr (StructReply (er_UsedGas result) (er_Failed result) returnVal (FormatLogs (StructLogs t)))
  else match foreign_result t with
       | (_, Some err) => inl err
       | (l, None) => inr (RawReply l)
       end.

Definition TraceTransaction (txHash : Hash) (config : option TraceConfig) : M Node (Err + TraceReply) :=
  txs ← pool_txs;
  match find_tx txHash [] txs with
  | None => mret (inl (tx_not_in_pool txHash))
  | Some (txs, txToBeTraced) =>
      header ← in_evm (GetBlockHeader "latest");
      h ← deref (λ _, header);
      let txctx := mkTracerContext (hd_ParentHash h) (Z.of_nat (length txs)) (tx_Hash txToBeTraced) in
      tr ← deref (λ _, debug_tracer config txctx);
      match tr with
      | inl err => mret (inl err)
      | inr (tr, is_struct) =>
          stateDB ← replay txs;
          tracer ← in_evm (new_tracer (TrForeign tr));
          in_evm (SetTracer tracer) ;;
          msg ← in_evm (TxToMessage txToBeTraced);
          r ← in_evm (DoCall msg true stateDB);
          match r with
          | inl err => mret (inl err)
          | inr result =>
              t ← in_evm (get_tracer tracer);
              match t with
              | TrForeign t => mret (trace_reply is_struct result t)
              | _ => panic "bad tracer type"
              end
          end
      end
  end.

Definition DebugPreimage (hash : Hash) : M Node (Err + bytes) := mret (inl "unknown preimage").

(** ** Touched storage *)

(** The dynamic type of the argument. *)
Inductive TxIdxOrHash := TxIdx (i : Z) | TxHash_ (h : Hash) | TxOther.

(** The loop has no break: the last match counts; the index is only logged. *)
Definition range_index (txs : list Transaction) (arg : TxIdxOrHash) : Err + Z :=
  match arg with
  | TxIdx i =>
      if Z.leb (Z.of_nat (length txs)) i
      then inl ("tx[" ++ pretty i ++ "] not found")%string else inr i
  | TxHash_ h =>
      match list_find (λ tx, tx_Hash tx = h) (reverse txs) with
      | Some (j, _) => inr (Z.of_nat (length txs - 1 - j))
      | None => inl ("tx[" ++ hex_string (Hash_Bytes h) ++ "] not found")%string
      end
  | TxOther => inr 0
  end.

(** Every transaction of the pool is run twice on the same state, as a call under the
    tracer and as a transaction. *)
Fixpoint range_loop (stateDB : loc) (txs : list Transaction) : M Node unit :=
  match txs with
  | [] => mret tt
  | tx :: txs =>
      msg ← in_evm (TxToMessage tx);
      _ ← in_evm (DoCall msg true stateDB);
      _ ← in_evm (ExecuteTxs [tx] stateDB None);
      range_loop stateDB txs
  end.

(** [StorageRangeResult.Storage]; every [Key] is the address of the loop's variable, which
    ends with the last key of the iteration. *)
Definition StorageRangeResult : Type := gmap Hash (option Hash * Hash).

Definition StorageRangeAt (blockHash : Hash) (txIdxOrHash : TxIdxOrHash) (contractAddress : Address)
    (keyStart : bytes) (maxResult : Z) : M Node (Err + StorageRangeResult) :=
  txs ← pool_txs;
  match range_index txs txIdxOrHash with
  | inl err => mret (inl err)
  | inr txIndex =>
      stateDB ← on_StateDB CloneFromRoot;
      in_evm (in_world (InitFakeAccounts stateDB)) ;;
      tracer ← in_evm (new_tracer (TrState NewStateTracer));
      in_evm (SetTracer tracer) ;;
      range_loop stateDB txs ;;
      t ← in_evm (get_tracer tracer);
      let touchedState := match t with TrState t => State_GetResult t | _ => ∅ end in
      let keys := (map_to_list (default ∅ (touchedState !! contractAddress))).*1 in
      entries ← in_evm (in_world (map_m (λ key, val ← GetState stateDB contractAddress key;
                                                mret (key, (last keys, val))) keys));
      mret (inr (list_to_map entries))
  end.

(** ** Probing *)

(** One run of the message under a fresh tracer, on a clone and in a context. *)
Definition probe_run (stateDB : loc) (c : BlockContext) (chainID : Z) (msg : Message)
    : M Node ((Err + ExecutionResult) * list TraceOp) :=
  db ← in_evm (in_world (Clone stateDB));
  r ← in_evm (in_world (apply_message db c chainID msg (2 ^ 64 - 1) (Some (TrKeccak NewKeccakTracer))));
  mret (r.1.1, match r.2 with Some (TrKeccak t) => Keccak_GetResult t | _ => [] end).

(** Incrementing a shared number in place. *)
Definition add_one (p : option loc) : M World unit := z ← get_bigp p; set_bigp p (z + 1).

(** The context is a copy of the node's, but its numbers are the node's own: the node's
    difficulty and time move by one with every probe. *)
Definition RunTxWithDifferentContext (txHash : Hash) : M Node (Err + (list TraceOp * list TraceOp)) :=
  txs ← pool_txs;
  match find_tx txHash [] txs with
  | None => mret (inl (tx_not_in_pool txHash))
  | Some (txs, txToBeTraced) =>
      stateDB ← replay txs;
      msg ← in_evm (TxToMessage txToBeTraced);
      in_evm (in_world (SetCodeHash stateDB (m_From msg) Hash_zero)) ;;
      vmCtx ← in_evm GetVMContext;
      chainID ← in_evm ChainID;
      r ← probe_run stateDB vmCtx chainID msg;
      match call_result msg r.1 with
      | inl err => mret (inl err)
      | inr _ =>
          let ops0 := r.2 in
          in_evm (in_world (add_one (bc_Difficulty vmCtx))) ;;
          in_evm (in_world (add_one (bc_Time vmCtx))) ;;
          let vmCtx := set_GasLimit (u64 (bc_GasLimit vmCtx + 1)) vmCtx in
          r ← probe_run stateDB vmCtx chainID msg;
          match call_result msg r.1 with
          | inl err => mret (inl err)
          | inr _ => mret (inr (ops0, r.2))
          end
      end
  end.
End debug.
