(* ===== verification/NodeState.v ===== *)
(** * The state a running node is in

    [db_ok] says that the node's database shows an abstract state over a root that caches
    one block; [node_ok] adds the pool and the EVM.  The lemmas follow the steps handlers
    are made of: running on the database itself, on a clone, and resetting it to its root
    or to another block. *)
From S2P Require Import Prelude BigInt Geth World OverlayState Fetch StateSpec OverlayStateDB.
From S2P Require Import VmStateDB Refinement Clones Reset Chain GoSlice GoStd ToyInstance TxPool.
From S2P Require Import Signer Tracers TxArgs Evm Warm EvmProps Backend.

(** ** The block context *)

Section context.
Context `{Core} `{!Upstream} `{!Remote}.
Implicit Types (es : EvmState) (w : World) (h : Header).

(** The block whose header [setVMContext] asks for. *)
Definition head_request es : string :=
  if pinBlock (es_evm es)
  then from_option sprintf_hex "" (p ← blockNumber (es_evm es); w_u64 (es_world es) !! p)
  else "latest".

(** The block on top of a header, with the deltas the user set. *)
Definition next_block (h : Header) (e : MferEVM) (baseFee : Z) : BlockValues :=
  mkBlockValues (hd_Coinbase h) (hd_GasLimit h) (i64 (u64 (Uint64 (hd_Number h) + 1 + blockNumberDelta e)))
    (i64 (u64 (hd_Time h + timeDelta e))) (hd_Difficulty h) baseFee.

(** The block of a header; the coinbase and the base fee are left. *)
Definition same_block (h : Header) (e : MferEVM) (bv : BlockValues) : BlockValues :=
  mkBlockValues (bv_Coinbase bv) (hd_GasLimit h) (i64 (Uint64 (hd_Number h)))
    (i64 (u64 (hd_Time h + timeDelta e))) (hd_Difficulty h) (bv_BaseFee bv).

(** The numbers of a context are four different objects. *)
Definition own_numbers (c : BlockContext) : Prop :=
  NoDup [bc_BlockNumber c; bc_Time c; bc_Difficulty c; bc_BaseFee c].

Lemma get_bigp_inv p z w w' :
  get_bigp p w = (Ok z, w') → ∃ l, p = Some l ∧ w_bigs w !! l = Some z ∧ w' = w.
Proof.
  intros Hrun. unfold get_bigp in Hrun. apply bind_Ok_inv in Hrun as (l & w1 & Hl & Hrun).
  apply non_nil_inv in Hl as [-> ->]. unfold get_big, deref in Hrun.
  destruct (w_bigs w !! l) eqn:E; [|done]. injection Hrun as <- <-. by exists l.
Qed.

Lemma get_bigp_run l z w : w_bigs w !! l = Some z → get_bigp (Some l) w = (Ok z, w).
Proof.
  intros E. unfold get_bigp. rewrite (bind_Ok (non_nil (Some l)) _ w l w eq_refl).
  unfold get_big, deref. by rewrite E.
Qed.

Lemma block_values_inv c w bv :
  block_values c w = (Ok bv, w) →
  ∃ n t d f, c = mkBlockContext (bv_Coinbase bv) (bv_GasLimit bv) (Some n) (Some t) (Some d) (Some f) ∧
    w_bigs w !! n = Some (bv_BlockNumber bv) ∧ w_bigs w !! t = Some (bv_Time bv) ∧
    w_bigs w !! d = Some (bv_Difficulty bv) ∧ w_bigs w !! f = Some (bv_BaseFee bv).
Proof.
  intros Hrun. unfold block_values in Hrun.
  apply bind_Ok_inv in Hrun as (zn & w1 & (n & En & Hn & ->)%get_bigp_inv & Hrun).
  apply bind_Ok_inv in Hrun as (zt & w2 & (t & Et & Ht & ->)%get_bigp_inv & Hrun).
  apply bind_Ok_inv in Hrun as (zd & w3 & (d & Ed & Hd & ->)%get_bigp_inv & Hrun).
  apply bind_Ok_inv in Hrun as (zf & w4 & (f & Ef & Hf & ->)%get_bigp_inv & Hrun).
  injection Hrun as <-. exists n, t, d, f. destruct c. simpl in *. by subst.
Qed.

Lemma block_values_run cb gl n t d f w zn zt zd zf :
  w_bigs w !! n = Some zn → w_bigs w !! t = Some zt → w_bigs w !! d = Some zd → w_bigs w !! f = Some zf →
  block_values (mkBlockContext cb gl (Some n) (Some t) (Some d) (Some f)) w =
    (Ok (mkBlockValues cb gl zn zt zd zf), w).
Proof.
  intros Hn Ht Hd Hf. unfold block_values. cbn [bc_BlockNumber bc_Time bc_Difficulty bc_BaseFee].
  rewrite (bind_Ok _ _ _ _ _ (get_bigp_run _ _ _ Hn)), (bind_Ok _ _ _ _ _ (get_bigp_run _ _ _ Ht)).
  by rewrite (bind_Ok _ _ _ _ _ (get_bigp_run _ _ _ Hd)), (bind_Ok _ _ _ _ _ (get_bigp_run _ _ _ Hf)).
Qed.

Lemma own_numbers_inv cb gl n t d f :
  own_numbers (mkBlockContext cb gl (Some n) (Some t) (Some d) (Some f)) →
  n ≠ t ∧ n ≠ d ∧ n ≠ f ∧ t ≠ d ∧ t ≠ f ∧ d ≠ f.
Proof. unfold own_numbers. simpl. rewrite !NoDup_cons, !not_elem_of_cons. intros. destruct_and!. split_and!; congruence. Qed.

(** The world and the EVM after the numbers of the context were set. *)
Definition set_numbers (n t d : loc) (zn zt zd : Z) w : World :=
  with_bigs (λ m, <[d := zd]> (<[t := zt]> (<[n := zn]> m))) w.

Lemma set_numbers_values cb gl cb' gl' n t d f zn zt zd w bv :
  block_values (mkBlockContext cb gl (Some n) (Some t) (Some d) (Some f)) w = (Ok bv, w) →
  own_numbers (mkBlockContext cb gl (Some n) (Some t) (Some d) (Some f)) →
  block_values (mkBlockContext cb' gl' (Some n) (Some t) (Some d) (Some f)) (set_numbers n t d zn zt zd w) =
    (Ok (mkBlockValues cb' gl' zn zt zd (bv_BaseFee bv)), set_numbers n t d zn zt zd w).
Proof.
  intros (n0 & t0 & d0 & f0 & [= _ _ <- <- <- <-] & Hn & Ht & Hd & Hf)%block_values_inv.
  intros (?&?&?&?&?&?)%own_numbers_inv.
  apply block_values_run; simpl; by simplify_map_eq.
Qed.

(** Going to the header of a block. *)
Lemma SetVMContextByBlockHeader_run h es cb gl n t d f :
  vmContext (es_evm es) = mkBlockContext cb gl (Some n) (Some t) (Some d) (Some f) →
  SetVMContextByBlockHeader h es =
    (Ok tt, with_evm (set_vmContext_field (λ _, mkBlockContext cb (hd_GasLimit h) (Some n) (Some t) (Some d) (Some f)))
      (set_world (set_numbers n t d (i64 (Uint64 (hd_Number h))) (i64 (u64 (hd_Time h + timeDelta (es_evm es))))
        (hd_Difficulty h) (es_world es)) es)).
Proof. destruct es as [w [] ? ?]. simpl. by intros ->. Qed.

(** The header [setVMContext] gets. *)
Lemma head_header_run es :
  (pinBlock (es_evm es) = true → is_Some (p ← blockNumber (es_evm es); w_u64 (es_world es) !! p)) →
  (if pinBlock (es_evm es)
   then bn ← in_world (p ← non_nil (blockNumber (es_evm es)); get_u64 p);
        GetBlockHeader (sprintf_hex bn)
   else GetBlockHeader "latest") es =
  (Ok (rpc_Header (w_calls (es_world es)) (head_request es)), set_world (with_call (es_world es)) es).
Proof.
  intros Hpin. unfold head_request. destruct (pinBlock (es_evm es)); [|done].
  destruct (Hpin eq_refl) as [bn Hbn]. rewrite Hbn. simpl.
  destruct (blockNumber (es_evm es)) as [p|] eqn:Hp; [|done]. simpl in Hbn.
  rewrite (bind_Ok _ _ es bn es); [done|].
  unfold in_world, zoom. rewrite (bind_Ok (non_nil (Some p)) _ _ p _ eq_refl).
  unfold get_u64, deref. rewrite Hbn. by destruct es.
Qed.

(** Asking for the head, or for the pinned block. *)
Lemma setVMContext_run h es cb gl n t d f :
  vmContext (es_evm es) = mkBlockContext cb gl (Some n) (Some t) (Some d) (Some f) →
  (pinBlock (es_evm es) = true → is_Some (p ← blockNumber (es_evm es); w_u64 (es_world es) !! p)) →
  rpc_Header (w_calls (es_world es)) (head_request es) = Some h →
  setVMContext es =
    (Ok (Some h), with_evm (set_vmContext_field (λ _, mkBlockContext (hd_Coinbase h) (hd_GasLimit h) (Some n) (Some t) (Some d) (Some f)))
      (set_world (set_numbers n t d (i64 (u64 (Uint64 (hd_Number h) + 1 + blockNumberDelta (es_evm es))))
        (i64 (u64 (hd_Time h + timeDelta (es_evm es)))) (hd_Difficulty h) (with_call (es_world es))) es)).
Proof.
  intros Hc Hpin Hh. pose proof (head_header_run es Hpin) as Hget. rewrite Hh in Hget.
  unfold setVMContext, the_evm. rewrite bind_gets, (bind_Ok _ _ _ _ _ Hget).
  destruct es as [w [] ? ?]. simpl in *. by rewrite Hc.
Qed.

Lemma setVMContext_none es :
  (pinBlock (es_evm es) = true → is_Some (p ← blockNumber (es_evm es); w_u64 (es_world es) !! p)) →
  rpc_Header (w_calls (es_world es)) (head_request es) = None →
  setVMContext es = (Ok None, set_world (with_call (es_world es)) es).
Proof.
  intros Hpin Hh. pose proof (head_header_run es Hpin) as Hget. rewrite Hh in Hget.
  unfold setVMContext, the_evm. by rewrite bind_gets, (bind_Ok _ _ _ _ _ Hget).
Qed.
End context.

(** ** Definitions *)

Section defs.
Context `{Core} `{!Upstream} `{!Remote} `{!Growth}.
Variable answer : BatchElem → option RpcValue.
Variable N : nat.

(** Database [d] shows [A] over the root [r], which caches block [b] only; the number of
    the block is at [p], shared by the root, the database and the EVM.  The upstream node
    has answered before. *)
Record db_ok (r : loc) (b : Z) (d p : loc) (A : Abs) (w : World) : Prop := {
  dk_refines : ∃ own, refines answer own [r] r b w d A;
  dk_clean : clean answer b w r;
  dk_tracked : tracked w r;
  dk_root : ∃ st, w_states w !! r = Some st ∧ deriveCnt st = 0 ∧ txLogs st = ∅ ∧ bn st = Some p;
  dk_bn : stateBN <$> w_dbs w !! d = Some (Some p);
  dk_calls : (N ≤ w_calls w)%nat
}.

(** The node is up: it has a pool, a database that shows [A], and an EVM ready to execute
    with the numbers [bv] and [gp] gas. *)
Record node_ok (r : loc) (b : Z) (A : Abs) (bv : BlockValues) (cid gp : Z) (s : Node) : Prop := {
  nk_pool : pool_ok (n_pool s);
  nk_db : ∃ d p, StateDB (es_evm (n_evm s)) = Some d ∧ blockNumber (es_evm (n_evm s)) = Some p ∧
            db_ok r b d p A (es_world (n_evm s));
  nk_ready : ready (n_evm s) bv cid gp;
  nk_context : own_numbers (vmContext (es_evm (n_evm s)))
}.

(** The five accounts that get money, and how much. *)
Definition fake_accounts : list (Address * Z) :=
  [(FAKE_ACCOUNT_0, 10 ^ 18 * 1000); (FAKE_ACCOUNT_1, 10 ^ 18 * 1000);
   (FAKE_ACCOUNT_2, 10 ^ 18 * 1000); (FAKE_ACCOUNT_3, 10 ^ 18 * 1000);
   (FAKE_ACCOUNT_RICH, 10 ^ 18 * 1000000000)].

Definition fund (l : list (Address * Z)) (A : Abs) : Abs :=
  foldl (λ A q, with_obs (λ f, upd_obs f q.1 GET_BALANCE Hash_zero (Bytes (a_balance A q.1 + q.2))) A) A l.

(** The state of a node without transactions: block [b] with money on the fake accounts, in
    one fresh layer over the root. *)
Record at_block (b : Z) (A : Abs) : Prop := {
  ab_obs a act key : f_obs (a_frame A) a act key =
    f_obs (a_frame (fund fake_accounts (start_abs (pinned_frame answer b) 1))) a act key;
  ab_dead a : f_dead (a_frame A) a = false;
  ab_logs h : f_logs (a_frame A) h = [];
  ab_receipts h : f_receipts (a_frame A) h = None;
  ab_depth : a_depth A = 1;
  ab_saved : a_saved A = []
}.

(** The gas of the transactions bounds the snapshots executing them takes. *)
Definition budget (txs : list Transaction) : Z := foldr (λ tx n, 2 + Z.max 0 (tx_Gas tx) / 40 + n) 0 txs.

(** [A] is what executing the transactions of [l], some at a time, from [A0] leads to; each
    has its result.  Blocks, gas and chain may differ from one time to the next. *)
Inductive executed (A0 : Abs) : list (Transaction * option Err) → Abs → Prop :=
| executed_nil : executed A0 [] A0
| executed_batch l A bv cid gp txs out gp' A' :
    executed A0 l A → spec_ExecuteTxs bv cid gp 0 txs None A = Some (out, gp', A') →
    executed A0 (l ++ zip txs out) A'.
End defs.

(** ** Lemmas *)

Section lemmas.
Context `{CoreLaws} `{!GethLaws} `{!Upstream} `{!Remote} `{!Growth}.
Context (answer : BatchElem → option RpcValue) (N : nat) (HN : Reliable answer N).
Implicit Types w : World.

Lemma in_evm_Ok {A} (m : M EvmState A) s a es' :
  m (n_evm s) = (Ok a, es') → in_evm m s = (Ok a, set_n_evm es' s).
Proof. apply zoom_Ok. Qed.

Lemma exec_total_budget cid txs : exec_total cid txs = budget txs.
Proof.
  induction txs as [|tx txs IH]; simpl; [done|]. rewrite IH. unfold frames_of, tx_message.
  destruct (AsMessage_fields tx (tx_signer cid tx)) as (_ & _ & _ & -> & _). lia.
Qed.

Lemma budget_app l l' : budget (l ++ l') = budget l + budget l'.
Proof. induction l as [|tx l IH]; simpl; lia. Qed.

Lemma budget_nonneg l : 0 ≤ budget l.
Proof. induction l as [|tx l IH]; simpl; [lia|]. pose proof (Z.div_pos (Z.max 0 (tx_Gas tx)) 40). lia. Qed.

Lemma spec_ExecuteTxs_length bv cid gp i txs config A out gp' A' :
  spec_ExecuteTxs bv cid gp i txs config A = Some (out, gp', A') → length out = length txs.
Proof.
  revert gp i A out gp' A'. induction txs as [|tx txs IH]; intros gp i A out gp' A'; cbn [spec_ExecuteTxs].
  - by intros [= <- _ _].
  - intros (o & _ & E)%bind_Some. apply bind_Some in E as ([[out1 gp1] A1] & E & E2).
    apply IH in E. injection E2 as <- _ _. simpl. by rewrite E.
Qed.

(** *** The database *)

Lemma root_agrees b r P w w' st :
  agrees answer b r P w w' → w_states w !! r = Some st →
  ∃ st', w_states w' !! r = Some st' ∧ deriveCnt st' = deriveCnt st ∧ txLogs st' = txLogs st ∧
    bn st' = bn st.
Proof.
  intros Hag Hst. destruct (agrees_root_lookup _ _ _ _ _ _ _ Hag Hst) as (st' & Hst' & []). eauto 10.
Qed.

(** What every run that only fills the cache keeps. *)
Lemma db_ok_agrees r b d p P A A' w w' :
  db_ok answer N r b d p A w → agrees answer b r P w w' →
  (∃ own, refines answer own [r] r b w' d A') →
  stateBN <$> w_dbs w' !! d = stateBN <$> w_dbs w !! d → (w_calls w ≤ w_calls w')%nat →
  db_ok answer N r b d p A' w'.
Proof.
  intros [] Hag Href Hbn Hc. destruct dk_root0 as (st & Hst & H0' & Hl & Hb).
  destruct (root_agrees _ _ _ _ _ _ Hag Hst) as (st' & Hst' & Hd & Hl' & Hb').
  split; [done|by eapply clean_agrees|by eapply tracked_agrees| |by rewrite Hbn|lia].
  exists st'. split_and!; congruence.
Qed.

(** A run on the database itself. *)
Lemma db_ok_run r b d p own own' A A' w w' :
  db_ok answer N r b d p A w → refines answer own [r] r b w d A → confined answer b r d own w own' w' →
  refines answer own' [r] r b w' d A' → db_ok answer N r b d p A' w'.
Proof.
  intros Hok Href [] Href'. eapply db_ok_agrees; [done|exact cf_layers|eauto| |done].
  apply cf_self. destruct (rf_db _ _ _ _ _ _ _ _ Href) as (db & _ & Hdb & _).
  eapply rf_fresh_db; [exact Href|by eapply mk_is_Some].
Qed.

(** A run on another database, whose layers are its own. *)
Lemma db_ok_other r b d p A w w' c own1 own2 :
  db_ok answer N r b d p A w → confined answer b r c own1 w own2 w' → c ≠ d →
  (∀ l, l ∈ own1 → (w_next w ≤ l)%nat) → fresh_world w' → db_ok answer N r b d p A w'.
Proof.
  intros Hok Hconf Hcd Hown Hf. destruct (dk_refines _ _ _ _ _ _ _ _ Hok) as [own Href].
  eapply db_ok_agrees; [done|apply Hconf| | |apply Hconf].
  - exists own. eapply confined_frame; [done..| |done].
    intros l Hl%Hown Hin. eapply refines_members in Hin; [|exact Href]. lia.
  - f_equal. apply Hconf; [done|]. destruct (rf_db _ _ _ _ _ _ _ _ Href) as (db & _ & Hdb & _).
    eapply rf_fresh_db; [exact Href|by eapply mk_is_Some].
Qed.

(** A change of the heap of numbers, or of the logs of receipts. *)
Definition same_receipts w w' : Prop := ∀ l, plain <$> w_receipts w' !! l = plain <$> w_receipts w !! l.

Lemma heap_agrees b r P w w' :
  w_states w' = w_states w → w_u64 w' = w_u64 w → same_receipts w w' → agrees answer b r P w w'.
Proof.
  intros Hs Hu Hrc. split; [by rewrite Hs|by rewrite Hs|done|].
  intros l rc E. specialize (Hrc l). rewrite E in Hrc.
  destruct (w_receipts w' !! l) as [rc'|]; [|done]. exists rc'. split; [done|]. by apply (inj Some) in Hrc.
Qed.

Lemma heap_fresh w w' :
  fresh_world w → w_states w' = w_states w → w_dbs w' = w_dbs w → same_receipts w w' →
  (w_next w ≤ w_next w')%nat → fresh_world w'.
Proof.
  intros [F1 F2 F3] Hs Hd Hrc Hn. split; [rewrite Hs; intros l Hl%F1|rewrite Hd; intros l Hl%F2|intros l Hl]; [lia..|].
  specialize (Hrc l). destruct Hl as [rc Hl]. rewrite Hl in Hrc.
  destruct (w_receipts w !! l) eqn:E; [|done]. pose proof (F3 l (mk_is_Some _ _ E)). lia.
Qed.

Lemma db_ok_heap r b d p A w w' :
  db_ok answer N r b d p A w → w_states w' = w_states w → w_dbs w' = w_dbs w → w_u64 w' = w_u64 w →
  same_receipts w w' → (w_next w ≤ w_next w')%nat → (w_calls w ≤ w_calls w')%nat → db_ok answer N r b d p A w'.
Proof.
  intros Hok Hs Hd Hu Hrc Hn Hc.
  assert (∀ P, agrees answer b r P w w') as Hag by (intros P; by apply heap_agrees).
  destruct (dk_refines _ _ _ _ _ _ _ _ Hok) as [own Href].
  eapply db_ok_agrees; [done|apply (Hag (λ _, True))| |by rewrite Hd|done].
  exists own. eapply refines_frame; [done|apply Hag|by rewrite Hd|].
  eapply heap_fresh; [by eapply refines_fresh|done..].
Qed.


(** *** Clones of the database *)

(** A second database [c], showing [S], beside the node's own. *)
Definition beside (r : loc) (b : Z) (d p : loc) (A : Abs) (c : loc) (S : Abs) (w : World) : Prop :=
  db_ok answer N r b d p A w ∧ c ≠ d ∧ ∃ own own1 base, refines answer own [r] r b w d A ∧
    refines answer own1 base r b w c S ∧ ∀ l, l ∈ own1 → l ∉ own ++ [r].

(** Running on the clone keeps both. *)
Lemma beside_run {X} (m : M World X) x S' r b d p A c S w :
  beside r b d p A c S w →
  (∀ own1 base, refines answer own1 base r b w c S → ∃ w' own1', m w = (Ok x, w') ∧
     refines answer own1' base r b w' c S' ∧ confined answer b r c own1 w own1' w') →
  ∃ w', m w = (Ok x, w') ∧ beside r b d p A c S' w' ∧ w_bigs w' = w_bigs w.
Proof.
  intros (Hok & Hcd & own & own1 & base & Href & Hc & Hdisj) Hm.
  destruct (Hm own1 base Hc) as (w' & own1' & Hrun & Hc' & Hconf).
  pose proof (refines_fresh _ _ _ _ _ _ _ _ Hc') as Hf.
  assert (refines answer own [r] r b w' d A) as Href' by by eapply confined_frame.
  exists w'. split; [done|]. split; [split; [|split; [done|]]|apply Hconf].
  - eapply db_ok_agrees; [done|apply Hconf|eauto| |apply Hconf]. f_equal. apply Hconf; [done|].
    destruct (rf_db _ _ _ _ _ _ _ _ Href) as (db & _ & Hdb & _).
    eapply rf_fresh_db; [exact Href|by eapply mk_is_Some].
  - exists own, own1', base. split_and!; [done|done|]. intros l Hl Hin.
    apply (cf_own _ _ _ _ _ _ _ _ Hconf) in Hl as [Hl|Hl]; [by eapply Hdisj|].
    eapply refines_members in Hin; [|exact Href]. lia.
Qed.

Lemma refines_heap own base r b w w' d A :
  refines answer own base r b w d A → w_states w' = w_states w → w_dbs w' = w_dbs w →
  w_u64 w' = w_u64 w → same_receipts w w' → (w_next w ≤ w_next w')%nat → refines answer own base r b w' d A.
Proof.
  intros Href Hs Hd Hu Hrc Hn. eapply refines_frame; [done|by apply heap_agrees|by rewrite Hd|].
  eapply heap_fresh; [by eapply refines_fresh|done..].
Qed.

Lemma beside_heap r b d p A c S w w' :
  beside r b d p A c S w → w_states w' = w_states w → w_dbs w' = w_dbs w → w_u64 w' = w_u64 w →
  same_receipts w w' → (w_next w ≤ w_next w')%nat → (w_calls w ≤ w_calls w')%nat → beside r b d p A c S w'.
Proof.
  intros (Hok & Hcd & own & own1 & base & Href & Hc & Hdisj) Hs Hd Hu Hrc Hn Hcl.
  split; [by eapply db_ok_heap|]. split; [done|]. exists own, own1, base.
  split_and!; [by eapply refines_heap..|done].
Qed.

(** A fresh clone. *)
Lemma beside_fresh r b d p A c own1 base S w w' :
  db_ok answer N r b d p A w → confined answer b r c [] w own1 w' → c ≠ d →
  refines answer own1 base r b w' c S → (∀ l, l ∈ own1 → (w_next w ≤ l)%nat) → beside r b d p A c S w'.
Proof.
  intros Hok Hconf Hcd Hc Hown. pose proof (refines_fresh _ _ _ _ _ _ _ _ Hc) as Hf.
  destruct (dk_refines _ _ _ _ _ _ _ _ Hok) as [own Href].
  split; [eapply db_ok_other; [done..| |done]; by intros l ?%elem_of_nil|]. split; [done|].
  exists own, own1, base. split_and!; [|done|].
  - eapply confined_frame; [done..| |done]. by intros l ?%elem_of_nil.
  - intros l Hl%Hown Hin. eapply refines_members in Hin; [|exact Href]. lia.
Qed.

Lemma fork_step r b d p A w :
  db_ok answer N r b d p A w → a_depth A + 1 < 2 ^ 63 →
  ∃ w' c, Clone d w = (Ok c, w') ∧ beside r b d p A c (start_abs (a_frame A) (a_depth A + 1)) w' ∧
    w_bigs w' = w_bigs w.
Proof.
  intros Hok Hd. destruct (dk_refines _ _ _ _ _ _ _ _ Hok) as [own Href].
  destruct (clone_step answer own [r] r b w d A Href Hd) as (w' & Hrun & Hc & _ & _ & Hne & Hconf).
  exists w', (S (w_next w)). split; [done|]. split; [|apply Hconf].
  eapply beside_fresh; [done..|]. by intros l ->%list_elem_of_singleton.
Qed.

(** The root shows the node at block [b], without logs. *)
Lemma clean_frame b r w st tx :
  clean answer b w r → w_states w !! r = Some st → txLogs st = ∅ →
  let F := frame_of answer b w r tx in
  (∀ a act key, f_obs F a act key = remote_at answer b a act key) ∧ ∀ h, f_logs F h = [].
Proof.
  intros Hcl Hst Hl. split; [intros; by apply clean_observe|].
  intros h. simpl. by rewrite Hst; simpl; rewrite Hl, lookup_empty.
Qed.

(** What a fresh layer over the root shows. *)
Definition fresh_root (b : Z) (S : Abs) : Prop :=
  (∀ a act key, f_obs (a_frame S) a act key = remote_at answer b a act key) ∧
  (∀ a, f_dead (a_frame S) a = false) ∧ (∀ h, f_logs (a_frame S) h = []) ∧
  (∀ h, f_receipts (a_frame S) h = None) ∧ a_depth S = 1 ∧ a_saved S = [].

Lemma fork_root_step r b d p A w :
  db_ok answer N r b d p A w →
  ∃ w' c S0, CloneFromRoot d w = (Ok c, w') ∧ beside r b d p A c S0 w' ∧ fresh_root b S0 ∧
    w_bigs w' = w_bigs w.
Proof.
  intros Hok. destruct (dk_refines _ _ _ _ _ _ _ _ Hok) as [own Href].
  destruct (dk_root _ _ _ _ _ _ _ _ Hok) as (st & Hst & H0' & Hl & _).
  destruct (clone_root_step answer own [r] r b w d A st Href Hst) as
    (w' & Hrun & Hc & _ & _ & Hne & Hconf); [lia..|].
  destruct (clean_frame b r w st (currentTxHash st) (dk_clean _ _ _ _ _ _ _ _ Hok) Hst Hl) as [Hobs Hlogs].
  exists w', (S (w_next w)). eexists. split; [exact Hrun|]. split; [|split; [|apply Hconf]].
  - eapply beside_fresh; [done|done|done|exact Hc|]. by intros l ->%list_elem_of_singleton.
  - split_and!; [exact Hobs|done|exact Hlogs|done|simpl; lia|done].
Qed.

(** *** Money for the fake accounts *)

Lemma AddBalance_step own base r b d w A a z :
  refines answer own base r b w d A →
  ∃ w' own', AddBalance d a z w = (Ok tt, w') ∧
    refines answer own' base r b w' d (fund [(a, z)] A) ∧ confined answer b r d own w own' w'.
Proof.
  intros Href.
  destruct (run_op_refines answer N HN base r b d own w A (OpAddBalance a z) _ _ Href eq_refl)
    as (w1 & own1 & Hrun1 & Href1 & Hconf1).
  cbn [run_op] in Hrun1. apply bind_Ok_inv in Hrun1 as ([] & w1' & Hrun1 & [= ->]).
  by exists w1, own1.
Qed.

Lemma fund_step own base r b d w A :
  refines answer own base r b w d A →
  ∃ w' own', InitFakeAccounts d w = (Ok tt, w') ∧
    refines answer own' base r b w' d (fund fake_accounts A) ∧ confined answer b r d own w own' w'.
Proof.
  intros Href. unfold InitFakeAccounts, fake_accounts.
  destruct (AddBalance_step _ _ _ _ _ _ _ FAKE_ACCOUNT_0 (10 ^ 18 * 1000) Href)
    as (w1 & own1 & Hrun1 & Href1 & Hc1). rewrite (bind_Ok _ _ _ _ _ Hrun1).
  destruct (AddBalance_step _ _ _ _ _ _ _ FAKE_ACCOUNT_1 (10 ^ 18 * 1000) Href1)
    as (w2 & own2 & Hrun2 & Href2 & Hc2). rewrite (bind_Ok _ _ _ _ _ Hrun2).
  destruct (AddBalance_step _ _ _ _ _ _ _ FAKE_ACCOUNT_2 (10 ^ 18 * 1000) Href2)
    as (w3 & own3 & Hrun3 & Href3 & Hc3). rewrite (bind_Ok _ _ _ _ _ Hrun3).
  destruct (AddBalance_step _ _ _ _ _ _ _ FAKE_ACCOUNT_3 (10 ^ 18 * 1000) Href3)
    as (w4 & own4 & Hrun4 & Href4 & Hc4). rewrite (bind_Ok _ _ _ _ _ Hrun4).
  destruct (AddBalance_step _ _ _ _ _ _ _ FAKE_ACCOUNT_RICH (10 ^ 18 * 1000000000) Href4)
    as (w5 & own5 & Hrun5 & Href5 & Hc5).
  exists w5, own5. split; [exact Hrun5|]. split; [exact Href5|]. eauto using confined_trans.
Qed.

(** Funding keeps everything but the balances, and depends on the observations only. *)
Lemma fund_keeps l A :
  f_dead (a_frame (fund l A)) = f_dead (a_frame A) ∧ f_logs (a_frame (fund l A)) = f_logs (a_frame A) ∧
  a_depth (fund l A) = a_depth A ∧ a_saved (fund l A) = a_saved A ∧
  f_receipts (a_frame (fund l A)) = f_receipts (a_frame A).
Proof.
  revert A. unfold fund. induction l as [|q l IH]; intros A; [done|]. simpl.
  edestruct IH as (-> & -> & -> & -> & ->). done.
Qed.

Lemma fund_ext l A A' :
  (∀ a act key, f_obs (a_frame A) a act key = f_obs (a_frame A') a act key) →
  ∀ a act key, f_obs (a_frame (fund l A)) a act key = f_obs (a_frame (fund l A')) a act key.
Proof.
  revert A A'. induction l as [|q l IH]; intros A A' Hobs; [done|]. cbn [fund foldl].
  apply IH. intros a act key. simpl. unfold upd_obs, a_balance. rewrite !Hobs. done.
Qed.

Lemma fund_at_block b S : fresh_root b S → at_block answer b (fund fake_accounts S).
Proof.
  intros (Hobs & Hdead & Hlogs & Hrcs & Hdep & Hsv).
  destruct (fund_keeps fake_accounts S) as (E1 & E2 & E3 & E4 & E5).
  split; rewrite ?E1, ?E2, ?E3, ?E4, ?E5; try done. by apply fund_ext.
Qed.

(** *** Resetting *)

Lemma reset_step r b d p A w clear :
  db_ok answer N r b d p A w →
  ∃ w' S0, InitState d false clear w = (Ok tt, w') ∧ db_ok answer N r b d p S0 w' ∧
    fresh_root b S0 ∧ w_bigs w' = w_bigs w.
Proof.
  intros Hok. destruct (dk_refines _ _ _ _ _ _ _ _ Hok) as [own Href].
  destruct (dk_root _ _ _ _ _ _ _ _ Hok) as (st & Hst & H0' & Hl & Hb).
  pose proof (dk_bn _ _ _ _ _ _ _ _ Hok) as Hbn.
  destruct (w_dbs w !! d) as [db|] eqn:Hdb; [|done]. injection Hbn as Hbn.
  assert (w_u64 w !! p = Some b) as Hu.
  { destruct Href as [(_ & _ & _ & _ & _ & _ & _ & _ & Hr) _ _ _ _].
    destruct Hr as (st0 & p0 & Hst0 & _ & Hb0 & Hu & _). congruence. }
  destruct (init_false_step answer own [r] r b w d A st db p b clear Href Hst) as
    (w' & Hrun & Href' & Hag & []); [lia|lia|done..|].
  destruct (clean_frame b r w st (currentTxHash st) (dk_clean _ _ _ _ _ _ _ _ Hok) Hst Hl) as [Hobs Hlogs].
  eexists w', _. split; [exact Hrun|]. split; [|split; [|done]].
  - eapply db_ok_agrees; [done|exact Hag|eauto| |done]. rewrite rp_db, Hdb. simpl. congruence.
  - split_and!; [exact Hobs|done|exact Hlogs|done|simpl; lia|done].
Qed.

(** Re-pinning: the number is written first, through the shared pointer. *)
Lemma repin_step r b d p A w b' clear :
  db_ok answer N r b d p A w →
  ∃ w' S0, (set_u64 p b' ;; InitState d true clear) w = (Ok tt, w') ∧
    db_ok answer N r b' d p S0 w' ∧ fresh_root b' S0 ∧ w_bigs w' = w_bigs w.
Proof.
  intros Hok. destruct (dk_refines _ _ _ _ _ _ _ _ Hok) as [own Href].
  destruct (dk_root _ _ _ _ _ _ _ _ Hok) as (st & Hst & H0' & Hl & Hb).
  pose proof (dk_bn _ _ _ _ _ _ _ _ Hok) as Hbn.
  destruct (refines_fresh _ _ _ _ _ _ _ _ Href) as [F1 F2 F3].
  destruct (rf_db _ _ _ _ _ _ _ _ Href) as (db & s & Hdb & Hs & _ & _ & Hc & Hls & Hr).
  rewrite Hdb in Hbn. injection Hbn as Hbn.
  set (w0 := with_u64 <[p := b']> w).
  assert (overlay w0 s (own ++ [r]) r b') as Hov.
  { split; [|split; [done|]].
    - eapply chain_ext; [|exact Hc]. intros l st0 _ Hst0. exists st0. by split.
    - destruct Hr as (st0 & p0 & Hst0 & Hp0 & Hb0 & _ & Hn). exists st0, p0. split_and!; try done.
      assert (p0 = p) as -> by congruence. simpl. by rewrite lookup_insert_eq. }
  destruct (init_true_step answer N HN d db s (own ++ [r]) r b' clear w0 st p b' Hov) as
    (w' & Hrun & Href' & Hcl & Htr & []); try done; try lia.
  { by simpl; rewrite lookup_insert_eq. }
  { intros a act key Hact Hm. exact (dk_tracked _ _ _ _ _ _ _ _ Hok a act key Hact Hm). }
  { apply (dk_calls _ _ _ _ _ _ _ _ Hok). }
  eexists w', _. split; [unfold set_u64; by rewrite bind_modify|]. split; [|split; [|done]].
  - split; [eauto|done|done| |by rewrite rp_db; simpl; congruence|].
    + simpl in rp_root. rewrite Hst in rp_root. destruct (w_states w' !! r) as [st'|]; [|done].
      injection rp_root as E1 E2 E3. exists st'. split_and!; congruence.
    + simpl in rp_calls. pose proof (dk_calls _ _ _ _ _ _ _ _ Hok). lia.
  - split_and!; [done|done| |done|simpl; lia|done].
    intros h. simpl. rewrite Hst. simpl. by rewrite Hl, lookup_empty.
Qed.
End lemmas.
