(* ===== verification/NodeSteps.v ===== *)
(** * The steps handlers are made of

    Reading and executing on a node that is up, pooling a transaction, starting over,
    preparing, moving to another block, and running on a clone: each step returns, and
    keeps [node_ok]. *)
From S2P Require Import Prelude BigInt Geth World OverlayState Fetch StateSpec OverlayStateDB.
From S2P Require Import VmStateDB Refinement Clones Reset Chain GoSlice GoStd ToyInstance TxPool.
From S2P Require Import Signer Tracers TxArgs Evm Warm EvmProps Backend Actions Debug NodeState.

(** ** Steps of handlers *)

Section steps.
Context `{CoreLaws} `{!GethLaws} `{!Upstream} `{!Remote} `{!Growth}.
Context (answer : BatchElem → option RpcValue) (N : nat) (HN : Reliable answer N).
Context (Htr : ∀ j h, is_Some (make_tracer None (mkTracerContext blockHash j h))).
Context (r : loc).
Implicit Types (b : Z) (A : Abs) (bv : BlockValues) (cid gp : Z) (s : Node) (w : World).

Abbreviation OK := (node_ok answer N r).

(** A new world, with the same context. *)
Lemma node_ok_world b A bv cid gp s d p A' w' :
  OK b A bv cid gp s → StateDB (es_evm (n_evm s)) = Some d → blockNumber (es_evm (n_evm s)) = Some p →
  db_ok answer N r b d p A' w' → w_bigs w' = w_bigs (es_world (n_evm s)) →
  OK b A' bv cid gp (set_n_evm (set_world w' (n_evm s)) s).
Proof.
  intros [Hp _ [] Hc] Hd Hbn Hok Hb. split; [done|by exists d, p| |done].
  split; [done|done|]. by eapply block_values_ext.
Qed.

(** Any run on the node's own database. *)
Lemma on_StateDB_run {X} (m : loc → M World X) x A' b A bv cid gp s :
  OK b A bv cid gp s →
  (∀ d own w, refines answer own [r] r b w d A → ∃ w' own', m d w = (Ok x, w') ∧
     refines answer own' [r] r b w' d A' ∧ confined answer b r d own w own' w') →
  ∃ w', on_StateDB m s = (Ok x, set_n_evm (set_world w' (n_evm s)) s) ∧
    OK b A' bv cid gp (set_n_evm (set_world w' (n_evm s)) s).
Proof.
  intros Hok Hm. destruct (nk_db _ _ _ _ _ _ _ _ _ Hok) as (d & p & Hd & Hp & Hdb).
  destruct (dk_refines _ _ _ _ _ _ _ _ Hdb) as [own Href].
  destruct (Hm d own _ Href) as (w' & own' & Hrun & Href' & Hconf).
  exists w'. split.
  - unfold on_StateDB, the_StateDB, the_evm.
    rewrite (bind_Ok _ _ s d s).
    + by apply in_evm_Ok, in_world_Ok.
    + unfold in_evm, zoom. rewrite bind_gets, Hd. by destruct s as [[]].
  - eapply node_ok_world; [done..| |exact (cf_bigs _ _ _ _ _ _ _ _ Hconf)].
    by eapply db_ok_run.
Qed.

Lemma node_nonce b A bv cid gp s a :
  OK b A bv cid gp s →
  ∃ w', on_StateDB (λ d, GetNonce d a) s = (Ok (a_nonce A a), set_n_evm (set_world w' (n_evm s)) s) ∧
    OK b A bv cid gp (set_n_evm (set_world w' (n_evm s)) s).
Proof.
  intros Hok. apply (on_StateDB_run _ _ _ _ _ _ _ _ _ Hok). intros d own w Href.
  destruct (run_op_refines answer N HN [r] r b d own w A (OpGetNonce a) _ _ Href eq_refl)
    as (w1 & own1 & Hrun1 & Href1 & Hconf1).
  cbn [run_op] in Hrun1. apply bind_Ok_inv in Hrun1 as (n & w1' & Hrun1 & [= -> ->]). by exists w1, own1.
Qed.

(** *** Executing on the node's own database *)

Lemma node_execute b A bv cid gp s txs :
  OK b A bv cid gp s → a_depth A + 2 + budget txs < 2 ^ 63 →
  ∃ out gp' A' d es', spec_ExecuteTxs bv cid gp 0 txs None A = Some (out, gp', A') ∧
    in_evm the_StateDB s = (Ok d, s) ∧
    in_evm (ExecuteTxs txs d None) s = (Ok out, set_n_evm es' s) ∧
    OK b A' bv cid gp' (set_n_evm es' s) ∧ a_depth A' ≤ a_depth A + budget txs.
Proof.
  intros Hok Hd. destruct (nk_db _ _ _ _ _ _ _ _ _ Hok) as (d & p & Hsd & Hp & Hdb).
  destruct (dk_refines _ _ _ _ _ _ _ _ Hdb) as [own Href].
  rewrite <-(exec_total_budget cid) in Hd |- *.
  destruct (execute_loop_run answer N HN [r] r b d txs own _ A bv cid gp 0 None Href
    (nk_ready _ _ _ _ _ _ _ _ _ Hok) Htr Hd) as (out & gp' & A' & w' & own' & Hspec & Hrun & Href' & Hconf & Hdep).
  exists out, gp', A', d, (after_msg (n_evm s) w' gp'). split_and!; [done| | | |done].
  - unfold in_evm, zoom, the_StateDB, the_evm. rewrite bind_gets, Hsd. by destruct s as [[]].
  - by apply in_evm_Ok.
  - destruct Hok as [Hpool _ Hrd Hc]. split; [done| |eapply ready_after; [done|apply (cf_bigs _ _ _ _ _ _ _ _ Hconf)]|done].
    exists d, p. split_and!; [done|done|]. by eapply db_ok_run.
Qed.

Lemma entries_AddTx pool tx o : pool_ok pool → pool_ok (AddTx pool tx o) ∧
  entries (AddTx pool tx o) = entries pool ++ [(tx, o)].
Proof.
  intros Hok. destruct (AddTx_ok pool tx o Hok) as [Hok' Hseen]. split; [done|].
  unfold entries. rewrite Hseen. cbn [fst snd].
  destruct (seen_length pool Hok) as [E1 E2]. by rewrite zip_with_app by (by rewrite E1, E2).
Qed.

Lemma execute_and_pool_run b A bv cid gp s tx :
  OK b A bv cid gp s → a_depth A + 2 + budget [tx] < 2 ^ 63 →
  ∃ o gp' A' s', spec_ExecuteTxs bv cid gp 0 [tx] None A = Some ([o], gp', A') ∧
    execute_and_pool tx s = (Ok (tx_Hash tx), s') ∧ OK b A' bv cid gp' s' ∧
    entries (n_pool s') = entries (n_pool s) ++ [(tx, o)] ∧ n_backend s' = n_backend s ∧
    a_depth A' ≤ a_depth A + budget [tx].
Proof.
  intros Hok Hd.
  destruct (node_execute b A bv cid gp s [tx] Hok Hd) as (out & gp' & A' & d & es' & Hspec & Hsd & Hrun & Hok' & Hdep).
  pose proof (spec_ExecuteTxs_length _ _ _ _ _ _ _ _ _ _ Hspec) as Hlen.
  destruct out as [|o [|]]; try done. destruct (entries_AddTx _ tx o (nk_pool _ _ _ _ _ _ _ _ _ Hok)) as [Hp He].
  exists o, gp', A', (set_n_pool (AddTx (n_pool s) tx o) (set_n_evm es' s)). split_and!; [done| | |done|done|done].
  - unfold execute_and_pool. rewrite (bind_Ok _ _ _ _ _ Hsd), (bind_Ok _ _ _ _ _ Hrun).
    by rewrite (bind_deref (λ _, head [o]) _ _ o eq_refl).
  - destruct Hok'. by split.
Qed.

(** A field of the EVM's state. *)
Lemma in_evm_the_evm s : in_evm the_evm s = (Ok (es_evm (n_evm s)), s).
Proof. by destruct s as [[]]. Qed.

Lemma in_evm_ChainID b A bv cid gp s : OK b A bv cid gp s → in_evm ChainID s = (Ok cid, s).
Proof.
  intros Hok. unfold in_evm, zoom, ChainID, deref.
  rewrite (rd_chain _ _ _ _ (nk_ready _ _ _ _ _ _ _ _ _ Hok)). by destruct s.
Qed.

Lemma in_evm_GetVMContext s : in_evm GetVMContext s = (Ok (vmContext (es_evm (n_evm s))), s).
Proof. by destruct s as [[]]. Qed.

(** Signing with an address always succeeds. *)
Lemma sign_as_ok cid from tx :
  ∃ tx', sign_as cid from tx = inr tx' ∧ tx_Gas tx' = tx_Gas tx ∧ m_From (tx_message cid tx') = from ∧
    m_To (tx_message cid tx') = tx_To tx ∧ m_Value (tx_message cid tx') = tx_Value tx ∧
    m_Nonce (tx_message cid tx') = tx_Nonce tx ∧ m_Gas (tx_message cid tx') = tx_Gas tx ∧
    m_Data (tx_message cid tx') = tx_Data tx.
Proof.
  destruct (WithSignature_ok tx (NewSigner (Int64 cid)) (Address_Bytes from) _ _ _ eq_refl)
    as (tx' & Hsig & Hraw & Hto & Hv & Hdata & Hn & Hg).
  exists tx'. split; [exact Hsig|].
  assert (tx_signer cid tx' = NewSigner (Int64 cid)) as Hs.
  { unfold tx_signer, impersonated. rewrite Hraw. by rewrite bool_decide_true. }
  unfold tx_message. rewrite Hs.
  destruct (AsMessage_fields tx' (NewSigner (Int64 cid))) as (-> & -> & -> & -> & ->).
  split_and!; try congruence. apply AsMessage_From. cbn [Sender NewSigner]. unfold SetFrom_Sender.
  rewrite Hraw. by rewrite BigToAddress_SetBytes.
Qed.

(** The arguments of a sent transaction have a nonce and gas. *)
Lemma send_args_complete args gasLimit nonce :
  ∃ tx, ToTransaction (send_args args gasLimit nonce) = Some tx.
Proof.
  unfold send_args, ToTransaction, toTransaction.
  destruct args as [? ? [] ? ? ? ? ? ? ? ? ?]; simpl; by eexists.
Qed.

Lemma budget_ext tx tx' l : tx_Gas tx = tx_Gas tx' → budget (tx :: l) = budget (tx' :: l).
Proof. simpl. by intros ->. Qed.

Lemma SendTransaction_run b A bv cid gp s args unsigned :
  OK b A bv cid gp s →
  let x := preprocessArgs (n_backend s) args in
  let from := send_from (n_backend s) x in
  ToTransaction (send_args x (bc_GasLimit (vmContext (es_evm (n_evm s)))) (a_nonce A from)) = Some unsigned →
  a_depth A + 2 + budget [unsigned] < 2 ^ 63 →
  ∃ tx o gp' A' s', sign_as cid from unsigned = inr tx ∧ tx_Gas tx = tx_Gas unsigned ∧
    spec_ExecuteTxs bv cid gp 0 [tx] None A = Some ([o], gp', A') ∧
    SendTransaction args s = (Ok (tx_Hash tx), s') ∧ OK b A' bv cid gp' s' ∧
    entries (n_pool s') = entries (n_pool s) ++ [(tx, o)] ∧ n_backend s' = n_backend s ∧
    a_depth A' ≤ a_depth A + budget [tx].
Proof.
  intros Hok x from Hun Hd. destruct (node_nonce b A bv cid gp s from Hok) as (w1 & Hrun1 & Hok1).
  destruct (sign_as_ok cid from unsigned) as (tx & Hsig & Hgas & _).
  destruct (execute_and_pool_run b A bv cid gp _ tx Hok1) as (o & gp' & A' & s' & Hspec & Hrun & Hrest);
    [by rewrite (budget_ext _ _ _ Hgas)|].
  exists tx, o, gp', A', s'. split; [done|]. split; [done|]. split; [done|]. split; [|exact Hrest].
  unfold SendTransaction, the_backend. rewrite bind_gets. fold x from.
  rewrite (bind_Ok _ _ _ _ _ (in_evm_GetVMContext s)), (bind_Ok _ _ _ _ _ Hrun1).
  rewrite (bind_Ok _ _ _ _ _ (in_evm_ChainID _ _ _ _ _ _ Hok1)).
  rewrite (bind_deref (λ _, ToTransaction _) _ _ unsigned Hun). by rewrite Hsig.
Qed.

(** *** Starting over *)

Lemma in_evm_the_StateDB s d : StateDB (es_evm (n_evm s)) = Some d → in_evm the_StateDB s = (Ok d, s).
Proof. intros Hd. unfold in_evm, zoom, the_StateDB, the_evm. rewrite bind_gets, Hd. by destruct s as [[]]. Qed.

Lemma Reset_ok pool : pool_ok pool → pool_ok (Reset pool).2 ∧ entries (Reset pool).2 = [].
Proof.
  intros Hok. split; [exact (pool_op_ok pool PReset Hok I)|].
  unfold Reset. destruct (make_empty (tx_heap pool)) as [t th] eqn:Ht.
  destruct (make_empty (res_heap pool)) as [e rh] eqn:He.
  destruct (make_empty_ok _ _ _ Ht) as (_ & _ & Hc & _).
  unfold entries, seen. simpl. by rewrite Hc.
Qed.

Lemma ResetToRoot_run b A bv cid gp s :
  OK b A bv cid gp s →
  ∃ A' es', in_evm ResetToRoot s = (Ok tt, set_n_evm es' s) ∧
    OK b A' bv cid (bc_GasLimit (vmContext (es_evm (n_evm s)))) (set_n_evm es' s) ∧ at_block answer b A'.
Proof.
  intros Hok. destruct (nk_db _ _ _ _ _ _ _ _ _ Hok) as (d & p & Hsd & Hp & Hdb).
  destruct (reset_step answer N r b d p A _ false Hdb) as (w1 & S0 & Hrun1 & Hdb1 & Hfresh & Hb1).
  destruct (dk_refines _ _ _ _ _ _ _ _ Hdb1) as [own1 Href1].
  destruct (fund_step answer N HN own1 [r] r b d w1 S0 Href1) as (w2 & own2 & Hrun2 & Href2 & Hconf2).
  exists (fund fake_accounts S0),
    (with_evm (set_gasPool (bc_GasLimit (vmContext (es_evm (n_evm s))))) (set_world w2 (n_evm s))).
  split; [|split; [|by apply fund_at_block]].
  - unfold ResetToRoot, AddGasPool, update_evm. apply in_evm_Ok. unfold the_StateDB, the_evm.
    rewrite bind_assoc, bind_gets, Hsd. rewrite (bind_Ok _ _ _ _ _ (in_world_Ok (non_nil (Some d)) _ d _ eq_refl)).
    rewrite (bind_Ok _ _ _ _ _ (in_world_Ok _ (set_world (es_world (n_evm s)) (n_evm s)) _ _ Hrun1)).
    by rewrite (bind_Ok _ _ _ _ _ (in_world_Ok _ (set_world w1 (set_world (es_world (n_evm s)) (n_evm s))) _ _ Hrun2)).
  - destruct Hok as [Hpool _ [] Hc]. split; [done| | |done].
    + exists d, p. split_and!; [done|done|]. by eapply db_ok_run.
    + split; [done|done|]. eapply block_values_ext; [|done]. simpl.
      by rewrite (cf_bigs _ _ _ _ _ _ _ _ Hconf2).
Qed.

Lemma node_ok_pool b A bv cid gp s p : pool_ok p → OK b A bv cid gp s → OK b A bv cid gp (set_n_pool p s).
Proof. intros Hp []. by split. Qed.

Lemma ClearTxPool_run b A bv cid gp s :
  OK b A bv cid gp s →
  ∃ A' s', ClearTxPool s = (Ok tt, s') ∧
    OK b A' bv cid (bc_GasLimit (vmContext (es_evm (n_evm s)))) s' ∧ at_block answer b A' ∧
    entries (n_pool s') = [] ∧ n_backend s' = n_backend s.
Proof.
  intros Hok. destruct (Reset_ok _ (nk_pool _ _ _ _ _ _ _ _ _ Hok)) as [Hpool Hent].
  destruct (ResetToRoot_run _ _ _ _ _ _ (node_ok_pool _ _ _ _ _ _ _ Hpool Hok)) as (A' & es' & Hrun & Hok' & Hat).
  exists A'. eexists. split_and!; [|exact Hok'|done|exact Hent|done].
  unfold ClearTxPool, update_pool. rewrite bind_modify. exact Hrun.
Qed.

(** *** Preparing *)

Lemma db_ok_block b d p A w : db_ok answer N r b d p A w → w_u64 w !! p = Some b.
Proof.
  intros Hok. destruct (dk_refines _ _ _ _ _ _ _ _ Hok) as [own Href].
  destruct (dk_root _ _ _ _ _ _ _ _ Hok) as (st & Hst & _ & _ & Hb).
  destruct Href as [(_ & _ & _ & _ & _ & _ & _ & _ & Hr) _ _ _ _].
  destruct Hr as (st0 & p0 & Hst0 & _ & Hb0 & Hu & _). congruence.
Qed.

(** The world after [Prepare] allocated its context. *)
Definition fresh_world_of w : World :=
  with_next (with_next (with_next (with_next (with_bigs (λ m,
    <[S (S (S (w_next w))) := 0]> (<[S (S (w_next w)) := 0]> (<[S (w_next w) := 0]> (<[w_next w := 0]> m)))) w)))).

Definition fresh_context_of w : BlockContext :=
  mkBlockContext default_coinbase 0 (Some (S (w_next w))) (Some (S (S (w_next w))))
    (Some (S (S (S (w_next w))))) (Some (w_next w)).

Lemma fresh_context_run es :
  fresh_context es = (Ok (fresh_context_of (es_world es)), set_world (fresh_world_of (es_world es)) es).
Proof. by destruct es as [[] ? ? ?]. Qed.

Lemma fresh_context_values w :
  own_numbers (fresh_context_of w) ∧
  block_values (fresh_context_of w) (fresh_world_of w) =
    (Ok (mkBlockValues default_coinbase 0 0 0 0 0), fresh_world_of w).
Proof.
  split.
  - unfold own_numbers. simpl. rewrite !NoDup_cons, !not_elem_of_cons.
    split_and!; try (intros E; injection E; lia); try (by intros ?%elem_of_nil). apply NoDup_nil_2.
  - apply block_values_run; simpl; rewrite ?lookup_insert_eq, ?lookup_insert_ne by lia; try done;
      rewrite ?lookup_insert_eq, ?lookup_insert_ne by lia; try done;
      rewrite ?lookup_insert_eq, ?lookup_insert_ne by lia; try done;
      by rewrite lookup_insert_eq.
Qed.

(** The first half of [Prepare]: the chain and the context. *)
Lemma Prepare_context es cid h :
  rpc_ChainID (w_calls (es_world es)) = inr cid →
  (pinBlock (es_evm es) = true → is_Some (p ← blockNumber (es_evm es); w_u64 (es_world es) !! p)) →
  rpc_Header (S (w_calls (es_world es))) (head_request es) = Some h →
  ∃ es1, (∀ k : option Header → M EvmState (option Err),
      (update_evm (λ e, set_ChainID (default 1 (chainConfig_ChainID e)) e) ;;
       r ← request rpc_ChainID;
       match r with
       | inl err => mret (Some err)
       | inr chainID =>
           update_evm (set_ChainID chainID) ;;
           c ← fresh_context;
           update_evm (set_vmContext_field (λ _, c)) ;;
           header ← setVMContext;
           k header
       end) es = k (Some h) es1) ∧
    chainConfig_ChainID (es_evm es1) = Some cid ∧ StateDB (es_evm es1) = StateDB (es_evm es) ∧
    blockNumber (es_evm es1) = blockNumber (es_evm es) ∧ own_numbers (vmContext (es_evm es1)) ∧
    bc_GasLimit (vmContext (es_evm es1)) = hd_GasLimit h ∧
    block_values (vmContext (es_evm es1)) (es_world es1) = (Ok (next_block h (es_evm es) 0), es_world es1) ∧
    w_states (es_world es1) = w_states (es_world es) ∧ w_dbs (es_world es1) = w_dbs (es_world es) ∧
    w_u64 (es_world es1) = w_u64 (es_world es) ∧ (w_next (es_world es) ≤ w_next (es_world es1))%nat ∧
    w_calls (es_world es1) = S (S (w_calls (es_world es))) ∧ es_tracers es1 = es_tracers es ∧
    evm_batchSize (es_evm es1) = evm_batchSize (es_evm es) ∧
    w_receipts (es_world es1) = w_receipts (es_world es) ∧
    timeDelta (es_evm es1) = timeDelta (es_evm es).
Proof.
  intros Hcid Hpin Hh. destruct (fresh_context_values (with_call (es_world es))) as [Hown Hbv].
  eexists. split.
  { intros k. unfold update_evm. rewrite bind_modify.
  assert (request rpc_ChainID (with_evm (λ e, set_ChainID (default 1 (chainConfig_ChainID e)) e) es) =
    (Ok (inr cid), set_world (with_call (es_world es)) (with_evm (λ e, set_ChainID (default 1 (chainConfig_ChainID e)) e) es))) as Hreq.
  { unfold request, in_world, zoom. simpl. by rewrite Hcid. }
  rewrite (bind_Ok _ _ _ _ _ Hreq). rewrite bind_modify.
  rewrite (bind_Ok _ _ _ _ _ (fresh_context_run _)), bind_modify.
  erewrite (bind_Ok setVMContext); [reflexivity|].
  eapply (setVMContext_run h _ default_coinbase 0 (S (w_next (es_world es)))
    (S (S (w_next (es_world es)))) (S (S (S (w_next (es_world es))))) (w_next (es_world es)));
    [reflexivity|exact Hpin|exact Hh]. }
  simpl.
  split_and!; try done; try lia.
  pose proof (set_numbers_values default_coinbase 0 (hd_Coinbase h) (hd_GasLimit h) _ _ _ _
    (i64 (u64 (Uint64 (hd_Number h) + 1 + blockNumberDelta (es_evm es))))
    (i64 (u64 (hd_Time h + timeDelta (es_evm es)))) (hd_Difficulty h) _ _ Hbv Hown) as Hres.
  eapply block_values_ext; [|exact Hres]. done.
Qed.

(** Preparing again pins the database to the head of the chain (or to the block given at
    the start), discards every local change and refills the gas pool. *)
Lemma Prepare_run b A bv cid gp s cid' h :
  OK b A bv cid gp s → let es := n_evm s in
  rpc_ChainID (w_calls (es_world es)) = inr cid' →
  rpc_Header (S (w_calls (es_world es))) (head_request es) = Some h →
  ∃ A' es', Prepare es = (Ok None, es') ∧ at_block answer (Uint64 (hd_Number h)) A' ∧
    OK (Uint64 (hd_Number h)) A' (next_block h (es_evm es) 0) cid' (hd_GasLimit h) (set_n_evm es' s) ∧
    timeDelta (es_evm es') = timeDelta (es_evm es).
Proof.
  intros Hok es Hcid Hh. subst es. destruct (nk_db _ _ _ _ _ _ _ _ _ Hok) as (d & p & Hsd & Hp & Hdb).
  destruct (Prepare_context (n_evm s) cid' h Hcid) as (es1 & Hrun1 & Hc1 & Hsd1 & Hp1 & Hown & Hgl & Hbv1 &
    Hst & Hdbs & Hu & Hn & Hcl & _ & _ & Hrcs & Htd); [|exact Hh|].
  { intros _. exists b. rewrite Hp. simpl. by eapply db_ok_block. }
  assert (db_ok answer N r b d p A (es_world es1)) as Hdb1.
  { eapply db_ok_heap; [done..| | |lia]; [|done]. intros l. by rewrite Hrcs. }
  destruct (repin_step answer N HN r b d p A _ (Uint64 (hd_Number h)) false Hdb1) as
    (w3 & S0 & Hrun3 & Hdb3 & Hfresh & Hb3).
  apply bind_Ok_inv in Hrun3 as ([] & w2 & Hrun2 & Hrun3).
  destruct (dk_refines _ _ _ _ _ _ _ _ Hdb3) as [own3 Href3].
  destruct (fund_step answer N HN own3 [r] r _ d w3 S0 Href3) as (w4 & own4 & Hrun4 & Href4 & Hconf4).
  exists (fund fake_accounts S0), (with_evm (set_gasPool (hd_GasLimit h)) (set_world w4 es1)).
  split_and!; [|by apply fund_at_block| |exact Htd].
  - unfold Prepare. rewrite Hrun1. rewrite (bind_deref (λ _, Some h) _ _ h eq_refl).
    unfold SetBlockNumber, the_StateDB, AddGasPool, the_evm, update_evm.
    rewrite bind_assoc, bind_gets, Hp1, Hp.
    rewrite (bind_Ok _ _ _ _ _ (in_world_Ok (p0 ← non_nil (Some p); set_u64 p0 (Uint64 (hd_Number h))) es1 tt w2 Hrun2)).
    rewrite bind_gets. cbn [es_evm set_world]. rewrite Hsd1, Hsd.
    rewrite (bind_Ok (mret tt) _ _ tt _ eq_refl). rewrite bind_assoc, bind_gets. cbn [es_evm set_world]. rewrite Hsd1, Hsd.
    rewrite (bind_Ok _ _ _ _ _ (in_world_Ok (non_nil (Some d)) (set_world w2 es1) d w2 eq_refl)).
    rewrite (bind_Ok _ _ _ _ _ (in_world_Ok _ (set_world w2 (set_world w2 es1)) _ _ Hrun3)).
    rewrite (bind_Ok _ _ _ _ _ (in_world_Ok _ (set_world w3 (set_world w2 (set_world w2 es1))) _ _ Hrun4)).
    rewrite bind_assoc, bind_gets, bind_modify. cbn [es_evm set_world]. by rewrite Hgl.
  - split; [apply Hok| | |exact Hown].
    + exists d, p. split_and!; [by simpl; rewrite Hsd1|by simpl; rewrite Hp1|]. by eapply db_ok_run.
    + split; [done|done|]. eapply block_values_ext; [|exact Hbv1]. simpl.
      by rewrite (cf_bigs _ _ _ _ _ _ _ _ Hconf4).
Qed.

(** *** The pool again *)

Lemma SetResults_ok pool rs :
  pool_ok pool → length rs = length (entries pool) → pool_ok (SetResults pool rs) ∧
  entries (SetResults pool rs) = zip (entries pool).*1 rs.
Proof.
  intros Hok Hl. destruct (seen_length pool Hok) as [E1 E2].
  assert (length (entries pool) = s_len (TxPool.txs pool)) as E3.
  { unfold entries. rewrite length_zip_with. lia. }
  split; [apply (pool_op_ok pool (PSetResults rs)); simpl; [done|by rewrite Hl]|].
  unfold entries, SetResults. destruct (make_of (res_heap pool) rs) as [e rh] eqn:He.
  destruct (make_of_contents _ _ _ _ He) as [Hc _]. unfold seen in *. simpl in *. rewrite Hc.
  f_equal. symmetry. apply fst_zip. lia.
Qed.

Lemma pool_txs_run s : pool_ok (n_pool s) → pool_txs s = (Ok (entries (n_pool s)).*1, s).
Proof.
  intros Hok. destruct (seen_length _ Hok) as [E1 E2]. unfold pool_txs, gets, entries.
  do 2 f_equal. symmetry. apply fst_zip. lia.
Qed.

Lemma ReExecTxPool_run b A bv cid gp s cid' h :
  OK b A bv cid gp s → let es := n_evm s in let txs := (entries (n_pool s)).*1 in
  rpc_ChainID (w_calls (es_world es)) = inr cid' →
  rpc_Header (S (w_calls (es_world es))) (head_request es) = Some h →
  3 + budget txs < 2 ^ 63 →
  ∃ A0 out gp' A' s', at_block answer (Uint64 (hd_Number h)) A0 ∧
    spec_ExecuteTxs (next_block h (es_evm es) 0) cid' (hd_GasLimit h) 0 txs None A0 = Some (out, gp', A') ∧
    ReExecTxPool s = (Ok tt, s') ∧
    OK (Uint64 (hd_Number h)) A' (next_block h (es_evm es) 0) cid' gp' s' ∧
    entries (n_pool s') = zip txs out ∧ n_backend s' = n_backend s ∧ a_depth A' ≤ 1 + budget txs.
Proof.
  intros Hok es txs Hcid Hh Hbud.
  destruct (Prepare_run b A bv cid gp s cid' h Hok Hcid Hh) as (A0 & es1 & Hrun1 & Hat & Hok1 & _).
  destruct (node_execute _ _ _ _ _ _ txs Hok1) as (out & gp' & A' & d & es2 & Hspec & Hsd & Hrun2 & Hok2 & Hdep).
  { rewrite (ab_depth _ _ _ Hat). lia. }
  pose proof (spec_ExecuteTxs_length _ _ _ _ _ _ _ _ _ _ Hspec) as Hlen.
  unfold txs in Hlen. rewrite length_fmap in Hlen.
  destruct (SetResults_ok (n_pool s) out (nk_pool _ _ _ _ _ _ _ _ _ Hok) Hlen) as [Hpool Hent].
  exists A0, out, gp', A', (set_n_pool (SetResults (n_pool s) out) (set_n_evm es2 s)).
  split; [done|]. split; [exact Hspec|]. split_and!; [| |exact Hent|done|by rewrite <-(ab_depth _ _ _ Hat)].
  - unfold ReExecTxPool. rewrite (bind_Ok _ _ _ _ _ (in_evm_Ok Prepare s None es1 Hrun1)).
    rewrite (bind_Ok _ _ _ _ _ (pool_txs_run (set_n_evm es1 s) (nk_pool _ _ _ _ _ _ _ _ _ Hok))).
    rewrite (bind_Ok _ _ _ _ _ Hsd). by rewrite (bind_Ok _ _ _ _ _ Hrun2).
  - destruct Hok2. by split.
Qed.
(** *** Running on a clone *)

(** The node, with a clone [c] of its database that shows [S]. *)
Record forked b A bv cid gp (c : loc) (S : Abs) s : Prop := {
  fk_pool : pool_ok (n_pool s);
  fk_db : ∃ d p, StateDB (es_evm (n_evm s)) = Some d ∧ blockNumber (es_evm (n_evm s)) = Some p ∧
            beside answer N r b d p A c S (es_world (n_evm s));
  fk_ready : ready (n_evm s) bv cid gp;
  fk_context : own_numbers (vmContext (es_evm (n_evm s)))
}.

Lemma forked_ok b A bv cid gp c S s : forked b A bv cid gp c S s → OK b A bv cid gp s.
Proof. intros [? (d & p & ? & ? & Hdb & _) ? ?]. split; eauto. Qed.

(** Replacing the state of the EVM. *)
Lemma forked_evm b A bv bv' cid gp gp' c S S' s es' d p :
  forked b A bv cid gp c S s → StateDB (es_evm es') = Some d → blockNumber (es_evm es') = Some p →
  beside answer N r b d p A c S' (es_world es') → ready es' bv' cid gp' →
  own_numbers (vmContext (es_evm es')) → forked b A bv' cid gp' c S' (set_n_evm es' s).
Proof. intros [Hp _ _ _] ? ? ? ? ?. split; [done|by exists d, p|done|done]. Qed.

Lemma node_fork b A bv cid gp s :
  OK b A bv cid gp s → a_depth A + 1 < 2 ^ 63 →
  ∃ c w', on_StateDB Clone s = (Ok c, set_n_evm (set_world w' (n_evm s)) s) ∧
    forked b A bv cid gp c (start_abs (a_frame A) (a_depth A + 1)) (set_n_evm (set_world w' (n_evm s)) s).
Proof.
  intros [Hp (d & p & Hd & Hbn & Hdb) Hrd Hc] Hdep.
  destruct (fork_step answer N r b d p A _ Hdb Hdep) as (w' & c & Hrun & Hbs & Hb).
  exists c, w'. split.
  - unfold on_StateDB. rewrite (bind_Ok _ _ _ _ _ (in_evm_the_StateDB s d Hd)).
    by apply in_evm_Ok, in_world_Ok.
  - split; [done|by exists d, p| |done]. destruct Hrd. split; [done|done|].
    by eapply block_values_ext.
Qed.

Lemma node_fork_root b A bv cid gp s :
  OK b A bv cid gp s →
  ∃ c w' S0, on_StateDB CloneFromRoot s = (Ok c, set_n_evm (set_world w' (n_evm s)) s) ∧
    fresh_root answer b S0 ∧ forked b A bv cid gp c S0 (set_n_evm (set_world w' (n_evm s)) s).
Proof.
  intros [Hp (d & p & Hd & Hbn & Hdb) Hrd Hc].
  destruct (fork_root_step answer N r b d p A _ Hdb) as (w' & c & S0 & Hrun & Hbs & Hf & Hb).
  exists c, w', S0. split; [|split; [done|]].
  - unfold on_StateDB. rewrite (bind_Ok _ _ _ _ _ (in_evm_the_StateDB s d Hd)).
    by apply in_evm_Ok, in_world_Ok.
  - split; [done|by exists d, p| |done]. destruct Hrd. split; [done|done|].
    by eapply block_values_ext.
Qed.

(** A run of the world on the clone. *)
Lemma forked_world {X} (m : M World X) x S' b A bv cid gp c S s :
  forked b A bv cid gp c S s →
  (∀ own1 base w, refines answer own1 base r b w c S → ∃ w' own1', m w = (Ok x, w') ∧
     refines answer own1' base r b w' c S' ∧ confined answer b r c own1 w own1' w') →
  ∃ w', in_evm (in_world m) s = (Ok x, set_n_evm (set_world w' (n_evm s)) s) ∧
    forked b A bv cid gp c S' (set_n_evm (set_world w' (n_evm s)) s).
Proof.
  intros Hfk Hm. destruct (fk_db _ _ _ _ _ _ _ _ Hfk) as (d & p & Hd & Hp & Hbs).
  destruct (beside_run answer N m x S' r b d p A c S _ Hbs) as (w' & Hrun & Hbs' & Hb); [eauto|].
  exists w'. split; [by apply in_evm_Ok, in_world_Ok|].
  eapply forked_evm; [done..| |apply Hfk]. destruct (fk_ready _ _ _ _ _ _ _ _ Hfk).
  split; [done|done|]. by eapply block_values_ext.
Qed.

(** A run of the EVM on the clone, whatever comes of it. *)
Lemma forked_run {X} (m : M EvmState X) o S' gp' b A bv cid gp c S s :
  forked b A bv cid gp c S s →
  (∀ own1 base, refines answer own1 base r b (es_world (n_evm s)) c S → ∃ es' own1',
     m (n_evm s) = (o, es') ∧ refines answer own1' base r b (es_world es') c S' ∧
     confined answer b r c own1 (es_world (n_evm s)) own1' (es_world es') ∧
     with_evm (set_gasPool 0) (set_world (es_world es') es') =
       mkEvmState (es_world es') (set_gasPool 0 (es_evm (n_evm s))) (es_tracers es') (es_next es') ∧
     gasPool (es_evm es') = Some gp') →
  ∃ es', in_evm m s = (o, set_n_evm es' s) ∧ forked b A bv cid gp' c S' (set_n_evm es' s).
Proof.
  intros Hfk Hm. destruct (fk_db _ _ _ _ _ _ _ _ Hfk) as (d & p & Hd & Hp & Hcd).
  destruct (Hcd) as (_ & _ & own & own1 & base & _ & Hc & _).
  set (es0 := n_evm s) in *.
  assert (∃ es', m es0 = (o, es') ∧ with_evm (set_gasPool 0) (set_world (es_world es') es') =
       mkEvmState (es_world es') (set_gasPool 0 (es_evm es0)) (es_tracers es') (es_next es') ∧
     gasPool (es_evm es') = Some gp' ∧ beside answer N r b d p A c S' (es_world es') ∧
     w_bigs (es_world es') = w_bigs (es_world es0)) as (es' & Hrun & He & Hgp & Hbs & Hbg).
  { destruct (Hm _ _ Hc) as (es' & own1' & Hrun & _ & _ & He & Hgp). exists es'.
    split; [done|]. split; [done|]. split; [done|].
    destruct (beside_run answer N (λ w, (Ok tt, es_world es')) tt S' r b d p A c S _ Hcd) as (w' & Hw & Hbs & Hbg).
    { intros own2 base2 Hc2. destruct (Hm _ _ Hc2) as (es2 & own2' & Hrun2 & Hc2' & Hconf2 & _).
      rewrite Hrun2 in Hrun. injection Hrun as ->. by exists (es_world es'), own2'. }
    injection Hw as <-. done. }
  exists es'. split; [by apply zoom_run|]. destruct es' as [w' e' tr nx]. unfold with_evm, set_world in He. simpl in *.
  apply (f_equal es_evm) in He. cbn [es_evm] in He. destruct (fk_ready _ _ _ _ _ _ _ _ Hfk) as [_ Hcid Hbv]. fold es0 in Hcid, Hbv.
  assert (vmContext e' = vmContext (es_evm es0)) as Hctx by (by apply (f_equal vmContext) in He).
  assert (chainConfig_ChainID e' = chainConfig_ChainID (es_evm es0)) as Hci by (by apply (f_equal chainConfig_ChainID) in He).
  eapply (forked_evm _ _ _ _ _ _ _ _ _ _ _ _ d p); [done| | |exact Hbs|split; simpl|].
  - apply (f_equal StateDB) in He. simpl in *. congruence.
  - apply (f_equal blockNumber) in He. simpl in *. congruence.
  - done.
  - congruence.
  - rewrite Hctx. by eapply block_values_ext.
  - simpl. rewrite Hctx. apply (fk_context _ _ _ _ _ _ _ _ Hfk).
Qed.

Lemma forked_fund b A bv cid gp c S s :
  forked b A bv cid gp c S s →
  ∃ w', in_evm (in_world (InitFakeAccounts c)) s = (Ok tt, set_n_evm (set_world w' (n_evm s)) s) ∧
    forked b A bv cid gp c (fund fake_accounts S) (set_n_evm (set_world w' (n_evm s)) s).
Proof.
  intros Hfk. apply (forked_world _ _ _ _ _ _ _ _ _ _ _ Hfk). intros own1 base w Hc.
  by apply (fund_step answer N HN own1 base r b c w S).
Qed.

Lemma forked_execute b A bv cid gp c S s txs config :
  forked b A bv cid gp c S s → a_depth S + 2 + budget txs < 2 ^ 63 →
  (∀ j h, is_Some (make_tracer config (mkTracerContext blockHash j h))) →
  ∃ out gp' S' es', spec_ExecuteTxs bv cid gp 0 txs config S = Some (out, gp', S') ∧
    in_evm (ExecuteTxs txs c config) s = (Ok out, set_n_evm es' s) ∧
    forked b A bv cid gp' c S' (set_n_evm es' s) ∧ a_depth S' ≤ a_depth S + budget txs ∧
    tracer (es_evm es') = tracer (es_evm (n_evm s)) ∧ es_tracers es' = es_tracers (n_evm s) ∧
    timeDelta (es_evm es') = timeDelta (es_evm (n_evm s)).
Proof.
  intros Hfk Hd Hconfig. rewrite <-(exec_total_budget cid) in Hd |- *.
  pose proof (fk_ready _ _ _ _ _ _ _ _ Hfk) as Hrd.
  assert (∃ own1 base, refines answer own1 base r b (es_world (n_evm s)) c S) as (own1 & base & Hc).
  { destruct (fk_db _ _ _ _ _ _ _ _ Hfk) as (d & p & _ & _ & _ & _ & own & own1 & base & _ & Hc & _). eauto. }
  destruct (execute_loop_run answer N HN base r b c txs own1 _ S bv cid gp 0 config Hc Hrd Hconfig Hd)
    as (out & gp' & S' & w' & own1' & Hspec & Hrun & Hc' & _ & Hdep).
  destruct (forked_run (ExecuteTxs txs c config) (Ok out) S' gp' _ _ _ _ _ _ _ _ Hfk) as (es' & Hrun' & Hfk').
  { intros own2 base2 Hc2.
    destruct (execute_loop_run answer N HN base2 r b c txs own2 _ S bv cid gp 0 config Hc2 Hrd Hconfig Hd)
      as (out2 & gp2 & S2 & w2 & own2' & Hspec2 & Hrun2 & Hc2' & Hconf2 & _).
    rewrite Hspec in Hspec2. injection Hspec2 as <- <- <-. by exists (after_msg (n_evm s) w2 gp'), own2'. }
  exists out, gp', S', es'. split_and!; try done.
  all: unfold in_evm, zoom, ExecuteTxs in Hrun'; rewrite Hrun in Hrun'; by injection Hrun' as <-.
Qed.

Lemma forked_call b A bv cid gp c S s msg debug :
  let T := before_msg msg S in let p := ApplyMessage bv cid msg (2 ^ 64 - 1) in
  forked b A bv cid gp c S s → a_depth S + frames_of msg < 2 ^ 63 →
  (debug = true → ∃ l t, tracer (es_evm (n_evm s)) = Some l ∧ es_tracers (n_evm s) !! l = Some t ∧
     stops t p T = None) →
  ∃ x S' es', spec_prog (erase p) T = Some (x, S') ∧
    in_evm (DoCall msg debug c) s = (Ok (call_result msg x.1), set_n_evm es' s) ∧
    forked b A bv cid gp c S' (set_n_evm es' s) ∧
    es_tracers es' = call_tracers c (n_evm s) debug p T ∧ tracer (es_evm es') = tracer (es_evm (n_evm s)) ∧
    a_depth S' ≤ a_depth S + frames_of msg.
Proof.
  intros T p Hfk Hd Ht. pose proof (fk_ready _ _ _ _ _ _ _ _ Hfk) as Hrd.
  assert (∃ own1 base, refines answer own1 base r b (es_world (n_evm s)) c S) as (own1 & base & Hc).
  { destruct (fk_db _ _ _ _ _ _ _ _ Hfk) as (d & q & _ & _ & _ & _ & own & own1 & base & _ & Hc & _). eauto. }
  destruct (DoCall_run answer N HN base r b c own1 _ S bv cid gp msg debug Hc Hrd Ht Hd)
    as (x & S' & w' & own1' & Hspec & Hrun & _ & _ & Hdep).
  destruct (forked_run (DoCall msg debug c) (Ok (call_result msg x.1)) S' gp _ _ _ _ _ _ _ _ Hfk) as (es' & Hrun' & Hfk').
  { intros own2 base2 Hc2.
    destruct (DoCall_run answer N HN base2 r b c own2 _ S bv cid gp msg debug Hc2 Hrd Ht Hd)
      as (x2 & S2 & w2 & own2' & Hspec2 & Hrun2 & Hc2' & Hconf2 & _).
    rewrite Hspec in Hspec2. injection Hspec2 as <- <-. eexists _, own2'.
    split; [exact Hrun2|]. split; [done|]. split; [done|]. split; [done|]. apply Hrd. }
  exists x, S', es'. split; [done|]. split; [done|]. split; [done|].
  unfold in_evm, zoom in Hrun'. rewrite Hrun in Hrun'. injection Hrun' as <-. done.
Qed.

(** A call whose tracer stops panics; the clone is left somewhere, the node as it was. *)
Lemma forked_call_stops b A bv cid gp c S s msg l t A1 :
  forked b A bv cid gp c S s → tracer (es_evm (n_evm s)) = Some l → es_tracers (n_evm s) !! l = Some t →
  stops t (ApplyMessage bv cid msg (2 ^ 64 - 1)) (before_msg msg S) = Some A1 →
  ∃ err es', in_evm (DoCall msg true c) s = (Panic err, set_n_evm es' s) ∧
    forked b A bv cid gp c A1 (set_n_evm es' s).
Proof.
  intros Hfk Hl Ht Hstop. pose proof (fk_ready _ _ _ _ _ _ _ _ Hfk) as Hrd.
  destruct (fk_db _ _ _ _ _ _ _ _ Hfk) as (d & q & _ & _ & _ & _ & own & own1 & base & _ & Hc & _).
  destruct (DoCall_stops answer N HN base r b c own1 _ S bv cid gp msg l t A1 Hc Hrd Hl Ht Hstop)
    as (err & w1 & own1' & Hrun1 & _).
  destruct (forked_run (DoCall msg true c) (Panic err) A1 gp _ _ _ _ _ _ _ _ Hfk) as (es' & Hrun & Hfk').
  { intros own2 base2 Hc2.
    destruct (DoCall_stops answer N HN base2 r b c own2 _ S bv cid gp msg l t A1 Hc2 Hrd Hl Ht Hstop)
      as (err2 & w2 & own2' & Hrun2 & Hc2' & Hconf2).
    rewrite Hrun1 in Hrun2. injection Hrun2 as <- <-. exists (set_world w1 (n_evm s)), own2'.
    split; [exact Hrun1|]. split; [done|]. split; [done|]. split; [done|]. apply Hrd. }
  by exists err, es'.
Qed.

(** *** Requests, contexts and tracers beside a clone *)

Lemma forked_same_world b A bv cid gp c S s es' :
  forked b A bv cid gp c S s → es_world es' = es_world (n_evm s) →
  StateDB (es_evm es') = StateDB (es_evm (n_evm s)) →
  blockNumber (es_evm es') = blockNumber (es_evm (n_evm s)) →
  gasPool (es_evm es') = gasPool (es_evm (n_evm s)) →
  chainConfig_ChainID (es_evm es') = chainConfig_ChainID (es_evm (n_evm s)) →
  vmContext (es_evm es') = vmContext (es_evm (n_evm s)) →
  forked b A bv cid gp c S (set_n_evm es' s).
Proof.
  intros [Hp (d & p & Hd & Hbn & Hbs) [] Hc] Hw Hsd Hb Hg Hci Hv.
  split; [done| | |simpl; by rewrite Hv].
  - exists d, p. simpl. rewrite Hsd, Hb, Hw. done.
  - split; simpl; [by rewrite Hg|by rewrite Hci|by rewrite Hv, Hw].
Qed.

Lemma forked_request {X} (f : nat → X) b A bv cid gp c S s :
  forked b A bv cid gp c S s →
  ∃ i es', in_evm (request f) s = (Ok (f i), set_n_evm es' s) ∧ forked b A bv cid gp c S (set_n_evm es' s) ∧
    es_evm es' = es_evm (n_evm s) ∧ es_tracers es' = es_tracers (n_evm s).
Proof.
  intros Hfk. exists (w_calls (es_world (n_evm s))), (set_world (with_call (es_world (n_evm s))) (n_evm s)).
  split; [done|]. destruct Hfk as [Hp (d & p & Hd & Hbn & Hbs) [Hg Hci Hbv] Hc]. split; [|done].
  split; [done| | |done].
  - exists d, p. split; [done|]. split; [done|]. eapply beside_heap; [exact Hbs|..]; simpl; try done; lia.
  - split; [done|done|]. eapply block_values_ext; [|exact Hbv]. done.
Qed.

Lemma forked_move b A bv cid gp c S s h :
  forked b A bv cid gp c S s →
  ∃ es', in_evm (SetVMContextByBlockHeader h) s = (Ok tt, set_n_evm es' s) ∧
    forked b A (same_block h (es_evm (n_evm s)) bv) cid gp c S (set_n_evm es' s) ∧
    es_tracers es' = es_tracers (n_evm s) ∧ timeDelta (es_evm es') = timeDelta (es_evm (n_evm s)).
Proof.
  intros [Hp (d & p & Hd & Hbn & Hbs) [Hg Hci Hbv] Hc].
  destruct (block_values_inv _ _ _ Hbv) as (n & t & df & f & Hctx & _).
  eexists. split; [apply in_evm_Ok; by eapply SetVMContextByBlockHeader_run|]. split; [|done].
  rewrite Hctx in Hbv, Hc. split; [done| | |].
  - exists d, p. split; [done|]. split; [done|]. eapply beside_heap; [exact Hbs|..]; simpl; try done; lia.
  - split; [done|done|]. eapply set_numbers_values in Hbv; [|exact Hc]. exact Hbv.
  - exact Hc.
Qed.

(** The block a call is executed in: the node's, or the one it names, if it is found. *)
Inductive call_block (e : MferEVM) (bv : BlockValues) : option Z → BlockValues → Prop :=
| cb_none : call_block e bv None bv
| cb_latest : call_block e bv (Some (-1)) bv
| cb_found n i h : n ≠ -1 → rpc_Header i (sprintf_hex n) = Some h →
    call_block e bv (Some n) (same_block h e bv)
| cb_missing n i : n ≠ -1 → rpc_Header i (sprintf_hex n) = None → call_block e bv (Some n) bv.

Lemma CallLocal_run b A bv cid gp s args block overrides msg :
  OK b A bv cid gp s → ToMessage (preprocessArgs (n_backend s) args) 0 None = inr msg →
  a_depth A + 1 + frames_of msg < 2 ^ 63 →
  ∃ bv' x S' s', call_block (es_evm (n_evm s)) bv (BlockNumber_ block) bv' ∧
    spec_prog (erase (ApplyMessage bv' cid msg (2 ^ 64 - 1)))
      (before_msg msg (start_abs (a_frame A) (a_depth A + 1))) = Some (x, S') ∧
    CallLocal args block overrides s = (Ok (call_reply (call_result msg x.1)), s') ∧
    OK b A bv' cid gp s' ∧ n_pool s' = n_pool s ∧ n_backend s' = n_backend s.
Proof.
  intros Hok Hmsg Hd. pose proof (frames_of_pos msg) as Hpos.
  destruct (node_fork _ _ _ _ _ _ Hok) as (c & w1 & Hrun1 & Hfk1); [lia|].
  set (s1 := set_n_evm _ s) in *.
  assert (∃ bv' es2, call_block (es_evm (n_evm s)) bv (BlockNumber_ block) bv' ∧
    (match BlockNumber_ block with
       | Some n =>
           if Z.eqb n (-1) then mret tt
           else header ← in_evm (GetBlockHeader (sprintf_hex n));
                match header with
                | Some h => in_evm (SetVMContextByBlockHeader h)
                | None => mret tt
                end
       | None => mret tt
       end) s1 = (Ok tt, set_n_evm es2 s1) ∧
    forked b A bv' cid gp c (start_abs (a_frame A) (a_depth A + 1)) (set_n_evm es2 s1))
    as (bv' & es2 & Hblk & Hmove & Hfk2).
  { destruct (BlockNumber_ block) as [n|]; [destruct (Z.eqb_spec n (-1)) as [->|Hne]|].
    - exists bv, (n_evm s1). split_and!; [constructor|done|done].
    - destruct (forked_request (λ i, rpc_Header i (sprintf_hex n)) _ _ _ _ _ _ _ _ Hfk1)
        as (i & es2 & Hreq & Hfk2 & He & _).
      change (in_evm (request _)) with (in_evm (GetBlockHeader (sprintf_hex n))) in Hreq.
      rewrite (bind_Ok _ _ _ _ _ Hreq). destruct (rpc_Header i (sprintf_hex n)) as [h|] eqn:Hh.
      + destruct (forked_move _ _ _ _ _ _ _ _ h Hfk2) as (es3 & Hrun3 & Hfk3 & _).
        exists (same_block h (es_evm (n_evm s)) bv), es3.
        split_and!; [by eapply cb_found|exact Hrun3|]. simpl in Hfk3. by rewrite He in Hfk3.
      + exists bv, es2. split_and!; [by eapply cb_missing|done|done].
    - exists bv, (n_evm s1). split_and!; [constructor|done|done]. }
  destruct (forked_call _ _ _ _ _ _ _ _ msg false Hfk2) as (x & S' & es3 & Hspec & Hcall & Hfk3 & _);
    [simpl; lia|done|].
  exists bv', x, S', (set_n_evm es3 (set_n_evm es2 s1)).
  split_and!; [done|exact Hspec| |by eapply forked_ok|done|done].
  unfold CallLocal, the_backend. rewrite bind_gets, Hmsg, (bind_Ok _ _ _ _ _ Hrun1).
  rewrite (bind_Ok _ _ _ _ _ Hmove). by rewrite (bind_Ok _ _ _ _ _ Hcall).
Qed.

(** A handler's own tracer. *)
Lemma forked_tracer b A bv cid gp c S s t :
  forked b A bv cid gp c S s →
  ∃ l es1 es2, in_evm (new_tracer t) s = (Ok l, set_n_evm es1 s) ∧
    in_evm (SetTracer l) (set_n_evm es1 s) = (Ok tt, set_n_evm es2 s) ∧
    forked b A bv cid gp c S (set_n_evm es2 s) ∧ tracer (es_evm es2) = Some l ∧ es_tracers es2 !! l = Some t ∧
    es_world es2 = es_world (n_evm s).
Proof.
  intros Hfk. exists (es_next (n_evm s)).
  eexists _, (mkEvmState (es_world (n_evm s)) (set_tracer_field (es_next (n_evm s)) (es_evm (n_evm s)))
    (<[es_next (n_evm s) := t]> (es_tracers (n_evm s))) (Datatypes.S (es_next (n_evm s)))).
  split; [reflexivity|]. split; [done|]. split; [by eapply forked_same_world|].
  split; [done|]. split; [|done]. simpl. apply lookup_insert_eq.
Qed.
Lemma node_same_world b A bv cid gp s es' :
  OK b A bv cid gp s → es_world es' = es_world (n_evm s) →
  StateDB (es_evm es') = StateDB (es_evm (n_evm s)) →
  blockNumber (es_evm es') = blockNumber (es_evm (n_evm s)) →
  gasPool (es_evm es') = gasPool (es_evm (n_evm s)) →
  chainConfig_ChainID (es_evm es') = chainConfig_ChainID (es_evm (n_evm s)) →
  vmContext (es_evm es') = vmContext (es_evm (n_evm s)) →
  OK b A bv cid gp (set_n_evm es' s).
Proof.
  intros [Hp (d & p & Hd & Hbn & Hdb) [] Hc] Hw Hsd Hb Hg Hci Hv.
  split; [done| | |simpl; by rewrite Hv].
  - exists d, p. simpl. rewrite Hsd, Hb, Hw. done.
  - split; simpl; [by rewrite Hg|by rewrite Hci|by rewrite Hv, Hw].
Qed.

Lemma node_tracer b A bv cid gp s t :
  OK b A bv cid gp s →
  ∃ l es1 es2, in_evm (new_tracer t) s = (Ok l, set_n_evm es1 s) ∧
    in_evm (SetTracer l) (set_n_evm es1 s) = (Ok tt, set_n_evm es2 s) ∧
    OK b A bv cid gp (set_n_evm es2 s) ∧ tracer (es_evm es2) = Some l ∧ es_tracers es2 !! l = Some t.
Proof.
  intros Hok. exists (es_next (n_evm s)).
  eexists _, (mkEvmState (es_world (n_evm s)) (set_tracer_field (es_next (n_evm s)) (es_evm (n_evm s)))
    (<[es_next (n_evm s) := t]> (es_tracers (n_evm s))) (S (es_next (n_evm s)))).
  split; [reflexivity|]. split; [done|]. split; [by eapply node_same_world|].
  split; [done|]. simpl. apply lookup_insert_eq.
Qed.

(** The arguments an estimate executes. *)
Definition estimate_args (bk : MferBackend) (args : TransactionArgs) A : TransactionArgs :=
  let x := preprocessArgs bk args in
  set_Nonce (Some (a_nonce A (default Address_zero (From x))))
    (set_fees None (MaxFeePerGas x) (MaxPriorityFeePerGas x) x).

Lemma EstimateGas_run b A bv cid gp s args block msg :
  OK b A bv cid gp s → ToMessage (estimate_args (n_backend s) args A) 0 None = inr msg →
  a_depth A + 1 + frames_of msg < 2 ^ 63 →
  let p := ApplyMessage bv cid msg (2 ^ 64 - 1) in
  let S := before_msg msg (start_abs (a_frame A) (a_depth A + 1)) in
  ∃ out s', EstimateGas args block s = (out, s') ∧
    match keccak_stops p S with
    | None => ∃ x S', spec_prog (erase p) S = Some (x, S') ∧ out = Ok (estimate_reply (call_result msg x.1))
    | Some _ => ∃ err, out = Panic err
    end ∧ OK b A bv cid gp s' ∧ n_pool s' = n_pool s ∧ n_backend s' = n_backend s.
Proof.
  intros Hok Hmsg Hd p S. pose proof (frames_of_pos msg) as Hpos.
  unfold estimate_args in Hmsg. set (x := preprocessArgs (n_backend s) args) in *.
  destruct (node_nonce _ _ _ _ _ _ (default Address_zero (From x)) Hok) as (w0 & Hn & Hok0).
  destruct (node_tracer _ _ _ _ _ _ (TrKeccak NewKeccakTracer) Hok0) as
    (l & es1 & es2 & Hnew & Hset & Hok2 & Htl & Htr0).
  set (s0 := set_n_evm _ s) in *. set (s2 := set_n_evm es2 s0) in *.
  destruct (node_fork _ _ _ _ _ _ Hok2) as (c & w3 & Hclone & Hfk3); [lia|]. set (s3 := set_n_evm _ s2) in *.
  set (fin es4 := set_n_evm (with_tracers
    (alter (λ t, match t with TrKeccak t => TrKeccak (Keccak_Reset t) | _ => t end) l) es4) s2).
  assert (∀ o es4, o ≠ Diverge →
    (r ← in_evm (DoCall msg true c); mret (estimate_reply r)) s3 = (o, set_n_evm es4 s3) →
    EstimateGas args block s = (o, fin es4)) as Hend.
  { intros o es4 Ho Hcall. unfold EstimateGas, the_backend. rewrite bind_gets. fold x.
    rewrite (bind_Ok _ _ _ _ _ Hn), Hmsg, (bind_Ok _ _ _ _ _ Hnew), (bind_Ok _ _ _ _ _ Hset).
    rewrite (bind_Ok _ _ _ _ _ Hclone). fold s3.
    destruct o; [by rewrite (deferred_Ok _ _ _ _ _ Hcall)|by rewrite (deferred_Panic _ _ _ _ _ Hcall)|by destruct Ho]. }
  assert (∀ S' es4, forked b A bv cid gp c S' (set_n_evm es4 s3) → OK b A bv cid gp (fin es4)) as Hkeep.
  { intros S' es4 Hfk4%forked_ok.
    exact (node_same_world _ _ _ _ _ _ (with_tracers _ es4) Hfk4 eq_refl eq_refl eq_refl eq_refl eq_refl eq_refl). }
  destruct (keccak_stops p S) as [A1|] eqn:Hstop.
  - destruct (forked_call_stops _ _ _ _ _ _ _ _ msg l _ A1 Hfk3 Htl Htr0 Hstop) as (err & es4 & Hcall & Hfk4).
    exists (Panic err), (fin es4). split; [by apply Hend, bind_Panic|]. split; [by exists err|].
    split; [by eapply Hkeep|done].
  - destruct (forked_call _ _ _ _ _ _ _ _ msg true Hfk3) as (y & S' & es4 & Hspec & Hcall & Hfk4 & _);
      [simpl; lia|intros _; by exists l, (TrKeccak NewKeccakTracer)|].
    exists (Ok (estimate_reply (call_result msg y.1))), (fin es4).
    split; [apply Hend; [done|by rewrite (bind_Ok _ _ _ _ _ Hcall)]|]. split; [by exists y, S'|].
    split; [by eapply Hkeep|done].
Qed.

(** *** Replaying the pool *)

Lemma find_tx_split h before txs l tx :
  find_tx h before txs = Some (l, tx) →
  ∃ l1 l2, txs = l1 ++ tx :: l2 ∧ l = before ++ l1 ∧ tx_Hash tx = h ∧ h ∉ tx_Hash <$> l1.
Proof.
  revert before. induction txs as [|t txs IH]; intros before; simpl; [done|]. case_decide as Ht.
  - intros [= <- <-]. exists [], txs. split_and!; [done|by rewrite app_nil_r|done|by intros ?%elem_of_nil].
  - intros (l1 & l2 & -> & -> & Hh & Hn)%IH. exists (t :: l1), l2.
    split_and!; [done|by rewrite <-app_assoc|done|]. simpl.
    intros [->|?]%elem_of_cons; [by apply Ht|done].
Qed.

Lemma replay_run b A bv cid gp s txs :
  OK b A bv cid gp s → 3 + budget txs < 2 ^ 63 →
  ∃ c S0 out gp' S' s', at_block answer b S0 ∧
    spec_ExecuteTxs bv cid gp 0 txs None S0 = Some (out, gp', S') ∧
    replay txs s = (Ok c, s') ∧ forked b A bv cid gp' c S' s' ∧ a_depth S' ≤ 1 + budget txs ∧
    n_pool s' = n_pool s ∧ n_backend s' = n_backend s.
Proof.
  intros Hok Hb. destruct (node_fork_root _ _ _ _ _ _ Hok) as (c & w1 & S0 & Hclone & Hfresh & Hfk1).
  destruct (forked_fund _ _ _ _ _ _ _ _ Hfk1) as (w2 & Hfund & Hfk2).
  pose proof (fund_at_block answer b S0 Hfresh) as Hat.
  destruct (forked_execute _ _ _ _ _ _ _ _ txs None Hfk2) as (out & gp' & S' & es3 & Hspec & Hex & Hfk3 & Hdep & _);
    [rewrite (ab_depth _ _ _ Hat); lia|done|].
  exists c, (fund fake_accounts S0), out, gp', S'. eexists. split; [done|]. split; [exact Hspec|].
  split; [|split; [exact Hfk3|]].
  - unfold replay. by rewrite (bind_Ok _ _ _ _ _ Hclone), (bind_Ok _ _ _ _ _ Hfund), (bind_Ok _ _ _ _ _ Hex).
  - rewrite (ab_depth _ _ _ Hat) in Hdep. done.
Qed.

(** The state of a foreign tracer after a program. *)
Lemma shown_foreign {X} (p : TracedProg X) S t : ∃ t', shown_all p S (TrForeign t) = TrForeign t'.
Proof.
  revert S t. induction p as [a|op k IH|ev k IH]; intros S t; simpl; [by eexists| |apply IH].
  destruct (spec_op op S) as [[]|]; [apply IH|by eexists].
Qed.
Lemma find_tx_first before tx after pre :
  tx_Hash tx ∉ tx_Hash <$> before →
  find_tx (tx_Hash tx) pre (before ++ tx :: after) = Some (pre ++ before, tx).
Proof.
  revert pre. induction before as [|t before IH]; intros pre Hn; simpl.
  - by rewrite decide_True, app_nil_r.
  - simpl in Hn. apply not_elem_of_cons in Hn as [Hne Hn]. rewrite decide_False by done.
    rewrite IH by done. by rewrite <-app_assoc.
Qed.

Lemma node_asked {X} (f : nat → X) b A bv cid gp s :
  OK b A bv cid gp s → let s' := set_n_evm (set_world (with_call (es_world (n_evm s))) (n_evm s)) s in
  in_evm (request f) s = (Ok (f (w_calls (es_world (n_evm s)))), s') ∧ OK b A bv cid gp s'.
Proof.
  intros Hok s'. split; [done|]. destruct (nk_db _ _ _ _ _ _ _ _ _ Hok) as (d & p & Hd & Hp & Hdb).
  eapply node_ok_world; [done..| |done].
  eapply db_ok_heap; [exact Hdb|done|done|done|done|simpl; lia|simpl; lia].
Qed.

Lemma node_request {X} (f : nat → X) b A bv cid gp s :
  OK b A bv cid gp s →
  ∃ i es', in_evm (request f) s = (Ok (f i), set_n_evm es' s) ∧ OK b A bv cid gp (set_n_evm es' s) ∧
    es_evm es' = es_evm (n_evm s).
Proof. intros Hok. destruct (node_asked f _ _ _ _ _ _ Hok) as [Hrun Hok']. by eexists _, _. Qed.

Lemma in_evm_TxToMessage b A bv cid gp s tx :
  OK b A bv cid gp s → in_evm (TxToMessage tx) s = (Ok (tx_message cid tx), s).
Proof.
  intros Hok. unfold TxToMessage, in_evm, zoom, ChainID.
  rewrite (bind_deref (λ es, chainConfig_ChainID (es_evm es)) _ _ cid).
  - by destruct s.
  - exact (rd_chain _ _ _ _ (nk_ready _ _ _ _ _ _ _ _ _ Hok)).
Qed.

(** What tracing a transaction answers. *)
Definition traced_reply (is_struct : bool) (msg : Message) (x : Err + ExecutionResult) (t : ForeignTracer)
    : Err + TraceReply :=
  match call_result msg x with
  | inl err => inl err
  | inr result => trace_reply is_struct result t
  end.

Lemma frames_of_budget cid tx : frames_of (tx_message cid tx) = budget [tx] - 1.
Proof.
  unfold frames_of, tx_message. destruct (AsMessage_fields tx (tx_signer cid tx)) as (_ & _ & _ & -> & _).
  simpl. lia.
Qed.

(** A trace of a pooled transaction finds it, and a context for its tracer. *)
Lemma TraceTransaction_starts b A bv cid gp s before tx after :
  OK b A bv cid gp s → (entries (n_pool s)).*1 = before ++ tx :: after →
  tx_Hash tx ∉ tx_Hash <$> before → (∀ i, is_Some (rpc_Header i "latest")) →
  ∃ ctx es1, OK b A bv cid gp (set_n_evm es1 s) ∧
    ∀ k : list Transaction → Transaction → TracerContext → M Node (Err + TraceReply),
      (txs ← pool_txs;
       match find_tx (tx_Hash tx) [] txs with
       | None => mret (inl (tx_not_in_pool (tx_Hash tx)))
       | Some (txs, tx) =>
           header ← in_evm (GetBlockHeader "latest");
           h ← deref (λ _, header);
           k txs tx (mkTracerContext (hd_ParentHash h) (Z.of_nat (length txs)) (tx_Hash tx))
       end) s = k before tx ctx (set_n_evm es1 s).
Proof.
  intros Hok Hent Hnin Hhd.
  destruct (node_request (λ i, rpc_Header i "latest") _ _ _ _ _ _ Hok) as (i & es1 & Hreq & Hok1 & _).
  destruct (Hhd i) as [hd Hi]. rewrite Hi in Hreq.
  eexists _, es1. split; [exact Hok1|]. intros k.
  rewrite (bind_Ok _ _ _ _ _ (pool_txs_run s (nk_pool _ _ _ _ _ _ _ _ _ Hok))).
  rewrite Hent, (find_tx_first before tx after []) by done. cbn [app].
  change (in_evm (GetBlockHeader "latest")) with (in_evm (request (λ i, rpc_Header i "latest"))).
  by rewrite (bind_Ok _ _ _ _ _ Hreq), (bind_deref (λ _, Some hd) _ _ hd eq_refl).
Qed.

Lemma TraceTransaction_run b A bv cid gp s config before tx after :
  OK b A bv cid gp s → (entries (n_pool s)).*1 = before ++ tx :: after →
  tx_Hash tx ∉ tx_Hash <$> before → (∀ i, is_Some (rpc_Header i "latest")) →
  (∀ ctx, is_Some (debug_tracer config ctx)) → 3 + budget (before ++ [tx]) < 2 ^ 63 →
  let msg := tx_message cid tx in let p := ApplyMessage bv cid msg (2 ^ 64 - 1) in
  ∃ ctx gp' s', OK b A bv cid gp' s' ∧ n_pool s' = n_pool s ∧ n_backend s' = n_backend s ∧
  match debug_tracer config ctx with
  | Some (inr (tr, is_struct)) => ∃ S0 out S1 x S2 tr', at_block answer b S0 ∧
      spec_ExecuteTxs bv cid gp 0 before None S0 = Some (out, gp', S1) ∧
      spec_prog (erase p) (before_msg msg S1) = Some (x, S2) ∧
      shown_all p (before_msg msg S1) (TrForeign tr) = TrForeign tr' ∧
      TraceTransaction (tx_Hash tx) config s = (Ok (traced_reply is_struct msg x.1 tr'), s')
  | Some (inl err) => TraceTransaction (tx_Hash tx) config s = (Ok (inl err), s')
  | None => False
  end.
Proof.
  intros Hok Hent Hnin Hhd Hcfg Hbud msg p. rewrite budget_app in Hbud.
  pose proof (frames_of_budget cid tx) as Hfr. fold msg in Hfr. pose proof (frames_of_pos msg) as Hpos.
  destruct (TraceTransaction_starts _ _ _ _ _ _ _ _ _ Hok Hent Hnin Hhd) as (ctx & es1 & Hok1 & Hstart).
  destruct (Hcfg ctx) as [res Hres]. exists ctx. rewrite Hres. destruct res as [err|[tr is_struct]].
  { exists gp, (set_n_evm es1 s). split_and!; [exact Hok1|done|done|]. unfold TraceTransaction.
    rewrite (Hstart (λ _ _ _, _)). by rewrite (bind_deref (λ _, debug_tracer _ _) _ _ _ Hres). }
  destruct (replay_run _ _ _ _ _ _ before Hok1) as
    (c & S0 & out & gp' & S1 & s2 & Hat & Hspec & Hrep & Hfk2 & Hdep & Hp2 & Hb2); [lia|].
  destruct (forked_tracer _ _ _ _ _ _ _ _ (TrForeign tr) Hfk2) as
    (l & es3 & es4 & Hnew & Hset & Hfk4 & Htl & Htl2 & _).
  pose proof (in_evm_TxToMessage _ _ _ _ _ _ tx (forked_ok _ _ _ _ _ _ _ _ Hfk4)) as Hmsg.
  destruct (forked_call _ _ _ _ _ _ _ _ msg true Hfk4) as (x & S2 & es5 & Hx & Hcall & Hfk5 & Htrs & _);
    [lia|intros _; exists l, (TrForeign tr); by rewrite stops_foreign|].
  destruct (shown_foreign p (before_msg msg S1) tr) as [tr' Hshown].
  assert (es_tracers es5 !! l = Some (TrForeign tr')) as Hget.
  { rewrite Htrs. unfold call_tracers. cbn [n_evm set_n_evm]. rewrite Htl, Htl2. cbn [CaptureStart].
    rewrite lookup_insert_eq. fold p. by rewrite Hshown. }
  exists gp', (set_n_evm es5 (set_n_evm es4 s2)). split_and!; [by eapply forked_ok|done|done|].
  exists S0, out, S1, x, S2, tr'. split_and!; [exact Hat|exact Hspec|exact Hx|exact Hshown|].
  unfold TraceTransaction. rewrite (Hstart (λ _ _ _, _)), (bind_deref (λ _, debug_tracer _ _) _ _ _ Hres).
  rewrite (bind_Ok _ _ _ _ _ Hrep), (bind_Ok _ _ _ _ _ Hnew), (bind_Ok _ _ _ _ _ Hset).
  rewrite (bind_Ok _ _ _ _ _ Hmsg). fold msg. rewrite (bind_Ok _ _ _ _ _ Hcall).
  unfold traced_reply. destruct (call_result msg x.1) as [err|res]; [done|].
  unfold get_tracer. rewrite (bind_Ok _ _ _ (TrForeign tr') (set_n_evm es5 (set_n_evm es4 s2))); [done|].
  refine (in_evm_Ok _ (set_n_evm es5 (set_n_evm es4 s2)) (TrForeign tr') es5 _).
  unfold deref. cbn [n_evm set_n_evm]. by rewrite Hget.
Qed.
(** *** Following the chain *)

Lemma node_pinned b A bv cid gp s :
  OK b A bv cid gp s →
  is_Some (p ← blockNumber (es_evm (n_evm s)); w_u64 (es_world (n_evm s)) !! p).
Proof.
  intros Hok. destruct (nk_db _ _ _ _ _ _ _ _ _ Hok) as (d & p & _ & Hp & Hdb).
  exists b. rewrite Hp. simpl. by eapply db_ok_block.
Qed.

(** The block of the node follows the head, when the head is found. *)
Lemma node_follow b A bv cid gp s :
  OK b A bv cid gp s →
  let o := rpc_Header (w_calls (es_world (n_evm s))) (head_request (n_evm s)) in
  let bv' := from_option (λ h, next_block h (es_evm (n_evm s)) (bv_BaseFee bv)) bv o in
  ∃ es', in_evm setVMContext s = (Ok o, set_n_evm es' s) ∧ OK b A bv' cid gp (set_n_evm es' s).
Proof.
  intros Hok o bv'. pose proof (node_pinned _ _ _ _ _ _ Hok) as Hpin.
  destruct Hok as [Hp (d & p & Hd & Hbn & Hdb) [Hg Hci Hbv] Hc].
  destruct (block_values_inv _ _ _ Hbv) as (n & t & df & f & Hctx & _).
  unfold bv', o in *. destruct (rpc_Header _ (head_request _)) as [h|] eqn:Hh.
  - eexists. split; [apply in_evm_Ok; by eapply setVMContext_run|].
    rewrite Hctx in Hbv, Hc. split; [done| | |].
    + exists d, p. split; [done|]. split; [done|].
      eapply db_ok_heap; [exact Hdb|done|done|done|done|simpl; lia|simpl; lia].
    + split; [done|done|]. eapply set_numbers_values in Hbv; [|exact Hc].
      eapply block_values_ext; [|exact Hbv]. done.
    + exact Hc.
  - eexists. split; [apply in_evm_Ok; by apply setVMContext_none|].
    split; [done| | |done].
    + exists d, p. split; [done|]. split; [done|].
      eapply db_ok_heap; [exact Hdb|done|done|done|done|simpl; lia|simpl; lia].
    + split; [done|done|]. eapply block_values_ext; [|exact Hbv]. done.
Qed.

(** Counters are read without a trace. *)
Lemma db_counters b d p A w :
  db_ok answer N r b d p A w →
  StateBlockNumber d w = (Ok b, w) ∧ (∃ n, CacheSize d w = (Ok n, w)) ∧ ∃ n, RPCRequestCount d w = (Ok n, w).
Proof.
  intros Hok. pose proof (db_ok_block _ _ _ _ _ Hok) as Hu. pose proof (dk_bn _ _ _ _ _ _ _ _ Hok) as Hbn.
  destruct (dk_refines _ _ _ _ _ _ _ _ Hok) as [own Href].
  destruct (dk_root _ _ _ _ _ _ _ _ Hok) as (st & Hst & _).
  destruct (rf_db _ _ _ _ _ _ _ _ Href) as (db & s & Hdb & Hs & _ & _ & Hc & Hl & _).
  rewrite Hdb in Hbn. injection Hbn as Hbn.
  pose proof (getRootState_spec _ _ _ _ Hc Hl) as Hroot.
  unfold StateBlockNumber, CacheSize, RPCRequestCount.
  rewrite !(bind_Ok _ _ _ _ _ (get_db_Some _ _ _ Hdb)), Hs, Hbn.
  rewrite !(bind_Ok _ _ _ _ _ Hroot), !(bind_Ok _ _ _ _ _ (get_state_Some _ _ _ Hst)).
  split_and!; [|by eexists|by eexists].
  rewrite (bind_Ok (non_nil (Some p)) _ w p w eq_refl). unfold get_u64, deref. by rewrite Hu.
Qed.

Lemma node_log b A bv cid gp s : OK b A bv cid gp s → in_evm log_update s = (Ok tt, s).
Proof.
  intros Hok. destruct (nk_db _ _ _ _ _ _ _ _ _ Hok) as (d & p & Hd & _ & Hdb).
  destruct (db_counters _ _ _ _ _ Hdb) as (H1' & [n2 H2'] & [n3 H3']).
  assert (log_update (n_evm s) = (Ok tt, n_evm s)) as Hrun.
  { unfold log_update, the_evm. rewrite bind_gets, Hd. destruct (n_evm s) as [w e tr nx]. simpl in *.
    rewrite (bind_Ok _ _ _ _ _ (in_world_Ok _ (mkEvmState w e tr nx) _ _ H2')).
    rewrite (bind_Ok _ _ _ _ _ (in_world_Ok _ (set_world w (mkEvmState w e tr nx)) _ _ H1')).
    by rewrite (bind_Ok _ _ _ _ _ (in_world_Ok _ (set_world w (set_world w (mkEvmState w e tr nx))) _ _ H3')). }
  apply in_evm_Ok in Hrun. rewrite Hrun. by destruct s.
Qed.

Lemma node_missing b A bv cid gp s :
  OK b A bv cid gp s →
  ∃ again es', in_evm check_missing s = (Ok again, set_n_evm es' s) ∧ OK b A bv cid gp (set_n_evm es' s) ∧
    es_evm es' = es_evm (n_evm s) ∧ head_request es' = head_request (n_evm s).
Proof.
  intros Hok. destruct (nk_db _ _ _ _ _ _ _ _ _ Hok) as (d & p & Hd & Hp & Hdb).
  destruct (db_counters _ _ _ _ _ Hdb) as (Hbn & _ & _).
  set (w := es_world (n_evm s)) in *. set (es' := set_world (with_call w) (n_evm s)).
  eexists _, es'. split; [|split; [|done]].
  - apply in_evm_Ok. unfold check_missing, the_evm. rewrite bind_gets, Hd.
    rewrite (bind_Ok _ _ _ _ _ (in_world_Ok _ (n_evm s) _ _ Hbn)). reflexivity.
  - eapply node_ok_world; [done..| |done].
    eapply db_ok_heap; [exact Hdb|done|done|done|done|simpl; lia|simpl; lia].
Qed.
End steps.
