(* ===== verification/Receipts.v ===== *)
(** * What executing leaves on record

    The receipts and the logs of an abstract state.  A program of the EVM adds logs of its
    own transaction only and no receipt; an applied message adds its receipt; so after a
    batch of transactions with different hashes each of them has what it left itself. *)
From S2P Require Import Prelude BigInt Geth World OverlayState Fetch StateSpec OverlayStateDB.
From S2P Require Import VmStateDB Refinement Clones Reset Merge Chain GoSlice GoStd ToyInstance TxPool.
From S2P Require Import Signer Tracers TxArgs Evm Warm EvmProps Backend Actions Debug NodeState.
From S2P Require Import NodeSteps.

(** ** Programs *)

Section programs.
Context `{Geth}.
Implicit Types (A S : Abs) (F : Frame).

(** What a program leaves of the frame it started from, seen from inside. *)
Record opened F0 F : Prop := {
  op_receipts : f_receipts F = f_receipts F0;
  op_tx : f_tx F = f_tx F0;
  op_logs h : h ≠ f_tx F0 → f_logs F h = f_logs F0 h
}.

Definition opened_abs F0 A : Prop := opened F0 (a_frame A) ∧ Forall (λ q, opened F0 q.2) (a_saved A).

Lemma find_saved_elem id saved F saved' (P : Z * Frame → Prop) :
  find_saved id saved = Some (F, saved') → Forall P saved → (∃ i, P (i, F)) ∧ Forall P saved'.
Proof.
  induction saved as [|[i G] saved IH]; simpl; [done|]. intros Hf [Hi Hall]%Forall_cons.
  destruct (Z.eqb i id); [injection Hf as <- <-; eauto|by apply IH].
Qed.

Lemma spec_op_opened F0 op A res A' :
  spec_op op A = Some (res, A') → opened_abs F0 A → opened_abs F0 A'.
Proof.
  intros Hop [[E1 E2 E3] Hall].
  destruct op; cbn [spec_op] in Hop; simplify_eq; try (by split; [split|]).
  - destruct (find_saved id (a_saved A)) as [[F saved]|] eqn:Hf; simplify_eq.
    destruct (find_saved_elem _ _ _ _ _ Hf Hall) as [[i HF] Hall']. by split.
  - destruct (Z.ltb _ _); simplify_eq. split; [by split|]. constructor; [by split|done].
  - split; [|done]. split; simpl; [done|done|]. intros h Hh. rewrite decide_False; [by apply E3|congruence].
Qed.

Lemma spec_prog_opened {X} (p : EvmProg X) F0 A x A' :
  spec_prog p A = Some (x, A') → opened_abs F0 A → opened_abs F0 A'.
Proof.
  revert A. induction p as [a|op k IH]; intros A; simpl; [by intros [= <- <-]|].
  destruct (spec_op op A) as [[res A1]|] eqn:Hop; [|done]. simpl. intros Hp Ha.
  eapply IH; [exact Hp|]. by eapply spec_op_opened.
Qed.

(** Older copies do not matter to a program that does not go back to them. *)
Definition more (l : list (Z * Frame)) A : Abs := mkAbs (a_frame A) (a_depth A) (a_saved A ++ l) (a_refund A).

Lemma find_saved_app id saved l F saved' :
  find_saved id saved = Some (F, saved') → find_saved id (saved ++ l) = Some (F, saved' ++ l).
Proof.
  induction saved as [|[i G] saved IH]; simpl; [done|]. destruct (Z.eqb i id); [by intros [= <- <-]|apply IH].
Qed.

Lemma spec_op_more l op A res A' :
  spec_op op A = Some (res, A') → spec_op op (more l A) = Some (res, more l A').
Proof.
  intros Hop. destruct op; cbn [spec_op] in Hop |- *; simplify_eq; try done.
  - destruct (find_saved id (a_saved A)) as [[F saved]|] eqn:Hf; simplify_eq.
    simpl. by rewrite (find_saved_app _ _ _ _ _ Hf).
  - simpl. by destruct (Z.ltb _ _); simplify_eq.
Qed.

Lemma spec_prog_more {X} (p : EvmProg X) l A x A' :
  spec_prog p A = Some (x, A') → spec_prog p (more l A) = Some (x, more l A').
Proof.
  revert A. induction p as [a|op k IH]; intros A; simpl; [by intros [= <- <-]|].
  destruct (spec_op op A) as [[res A1]|] eqn:Hop; [|done]. rewrite (spec_op_more _ _ _ _ _ Hop). apply IH.
Qed.

(** A program that reverts to its own snapshots only. *)
Lemma disciplined_opened {X} n (p : EvmProg X) S x S' :
  disciplined n p → a_depth S + n < 2 ^ 63 → spec_prog p S = Some (x, S') →
  opened (a_frame S) (a_frame S') ∧ a_depth S' ≤ a_depth S + n.
Proof.
  intros Hdis Hn Hp.
  destruct (Hdis S Hn) as (x1 & S1 & _ & Hp1 & _ & _ & Hd). rewrite Hp1 in Hp. injection Hp as <- <-.
  split; [|done].
  set (S0 := mkAbs (a_frame S) (a_depth S) [] (a_refund S)).
  destruct (Hdis S0 Hn) as (x0 & S0' & _ & Hp0 & _).
  pose proof (spec_prog_more p (a_saved S) _ _ _ Hp0) as Hp2.
  assert (more (a_saved S) S0 = S) as E by by destruct S. rewrite E, Hp1 in Hp2. injection Hp2 as _ ->.
  apply (spec_prog_opened p (a_frame S) S0 x0 S0' Hp0). by split; [split|constructor].
Qed.
End programs.

(** ** Messages and batches *)

Section batches.
Context `{CoreLaws} `{!GethLaws} `{!Upstream} `{!Remote}.
Implicit Types (A S : Abs).

(** Transaction [h] has the same receipt and the same logs. *)
Definition same_record (h : Hash) A A' : Prop :=
  f_receipts (a_frame A') h = f_receipts (a_frame A) h ∧ f_logs (a_frame A') h = f_logs (a_frame A) h.

(** What a message leaves: its receipt, if it was applied, and its logs with the trace. *)
Definition msg_record (msg : Message) (h : Hash) (i : Z) A (o : MsgOutcome) : Prop :=
  match mo_receipt o with
  | Some (res, logs) => mo_out o = (er_UsedGas res, exec_error res) ∧
      f_receipts (a_frame (mo_abs o)) h = Some (plain (make_receipt res msg h (u64 i) 0%nat [])) ∧
      f_logs (a_frame (mo_abs o)) h = logs ∧ ∃ l trace, logs = l ++ [trace_log trace]
  | None => is_Some (mo_out o).2 ∧ same_record h A (mo_abs o)
  end.

Lemma spec_ExecuteMsg_record bv cid gp msg h i config A o :
  a_depth A + 1 + frames_of msg < 2 ^ 63 → spec_ExecuteMsg bv cid gp msg h i config A = Some o →
  msg_record msg h i A o ∧ (∀ h', h' ≠ h → same_record h' A (mo_abs o)) ∧
  a_depth (mo_abs o) ≤ a_depth A + 1 + frames_of msg.
Proof.
  intros Hd Hspec. pose proof (frames_of_pos msg). unfold spec_ExecuteMsg in Hspec.
  apply bind_Some in Hspec as (tr & _ & Hspec). destruct tr as [err|tr].
  { injection Hspec as <-. split_and!; [by split; [eexists|]|done|simpl; lia]. }
  apply bind_Some in Hspec as ([[x gp'] S] & Hp & Hspec). cbn [fst snd] in Hspec.
  destruct (disciplined_opened (frames_of msg) _ (in_msg msg h A) _ S
    (ApplyMessage_disciplined bv cid msg gp) ltac:(simpl; lia) Hp) as [[E1 E2 E3] Hdep].
  simpl in E1, E2, E3, Hdep. destruct x as [err|res]; injection Hspec as <-; cbn [mo_abs].
  - split_and!; [by split; [eexists|]|done|simpl; lia].
  - split; [|split; [intros h' Hh; split|simpl; lia]]; unfold msg_record; simpl; rewrite ?E2, ?E1.
    + rewrite !decide_True by done. split_and!; eauto.
    + by rewrite decide_False by congruence.
    + rewrite decide_False by congruence. by apply E3.
Qed.

Definition blank A (h : Hash) : Prop := f_receipts (a_frame A) h = None ∧ f_logs (a_frame A) h = [].

Lemma blank_same A A' h : same_record h A A' → blank A h → blank A' h.
Proof. unfold blank. by intros [-> ->]. Qed.

(** What a message left in [A]: its receipt, if it was applied, and its logs. *)
Definition on_record A (cid : Z) (tx : Transaction) (out : MsgOutcome) : Prop :=
  let h := tx_Hash tx in
  match mo_receipt out with
  | Some (res, logs) => (∃ i, f_receipts (a_frame A) h = Some (plain (make_receipt res (tx_message cid tx) h i 0%nat []))) ∧
      f_logs (a_frame A) h = logs ∧ ∃ l trace, logs = l ++ [trace_log trace]
  | None => blank A h
  end.

Lemma on_record_same A A' cid tx out : same_record (tx_Hash tx) A A' → on_record A cid tx out → on_record A' cid tx out.
Proof. unfold on_record, blank. intros [-> ->]. done. Qed.

(** The transaction [tx] of a batch that started in [A], as it was executed. *)
Definition ran_in_batch bv cid gp i config A (before : list Transaction) tx outs (out : MsgOutcome) : Prop :=
  ∃ gp1 A1, spec_ExecuteTxs bv cid gp i before config A = Some (outs, gp1, A1) ∧
    spec_ExecuteMsg bv cid gp1 (tx_message cid tx) (tx_Hash tx) (i + Z.of_nat (length before)) config A1 = Some out.

Lemma spec_ExecuteTxs_record bv cid gp i txs config A out gp' A' :
  spec_ExecuteTxs bv cid gp i txs config A = Some (out, gp', A') → a_depth A + 2 + budget txs < 2 ^ 63 →
  NoDup (tx_Hash <$> txs) → Forall (blank A) (tx_Hash <$> txs) →
  (∀ h, h ∉ tx_Hash <$> txs → same_record h A A') ∧ a_depth A' ≤ a_depth A + budget txs ∧
  ∀ before tx after, txs = before ++ tx :: after → ∃ outs o rest, out = outs ++ (mo_out o).2 :: rest ∧
    ran_in_batch bv cid gp i config A before tx outs o ∧ on_record A' cid tx o.
Proof.
  revert gp i A out. induction txs as [|tx txs IH]; intros gp i A out; cbn [spec_ExecuteTxs].
  { intros [= <- <- <-] _ _ _. split_and!; [done|simpl; lia|by intros []]. }
  intros (o & Ho & E)%bind_Some Hd Hnd Hbl. apply bind_Some in E as ([[out1 gp1] A1] & E & E2).
  injection E2 as <- <- <-. cbn [fst snd] in *.
  cbn [fmap list_fmap] in *. apply NoDup_cons in Hnd as [Hn Hnd]. apply Forall_cons in Hbl as [Hb Hbl].
  change (budget (tx :: txs)) with (budget ([tx] ++ txs)) in *. rewrite budget_app in *.
  pose proof (budget_nonneg txs). pose proof (frames_of_budget cid tx) as Hfr.
  destruct (spec_ExecuteMsg_record bv cid gp (tx_message cid tx) (tx_Hash tx) i config A o ltac:(lia) Ho) as (Hmsg & Hother & Hdep).
  destruct (IH _ _ _ _ E) as (Hsame & Hdep' & Hall); [lia|done| |].
  { apply Forall_forall. intros h Hh. eapply blank_same; [apply Hother|by eapply Forall_forall in Hbl].
    intros ->. contradiction. }
  split_and!; [|lia|].
  - intros h [Hne Hh]%not_elem_of_cons. destruct (Hother h Hne) as [F1 F2], (Hsame h Hh) as [G1 G2].
    split; congruence.
  - intros [|t before] tx' after Etx; injection Etx as <- Etx.
    + exists [], o, out1. split; [done|]. split; [exists gp, A; by rewrite Z.add_0_r|].
      eapply on_record_same; [by apply Hsame|]. unfold msg_record, on_record in *.
      destruct (mo_receipt o) as [[res logs]|]; [destruct Hmsg as (_ & Hrc & Hlg & Htr); eauto|].
      destruct Hmsg as (_ & Hs). by eapply blank_same.
    + destruct (Hall _ _ _ Etx) as (outs & o' & rest & -> & (gp2 & A2 & E1 & E2) & Hrec).
      exists ((mo_out o).2 :: outs), o', rest. split; [done|]. split; [|done]. exists gp2, A2.
      split; [cbn [spec_ExecuteTxs]; rewrite Ho; cbn [mbind option_bind]; by rewrite E1|].
      rewrite <-E2. f_equal. rewrite length_cons. lia.
Qed.

(** The transaction [tx] of a pool that was executed from [A0] in batches, as it was
    executed after those before it: in the batch it was in, at its place. *)
Definition ran A0 (before : list (Transaction * option Err)) tx cid (out : MsgOutcome) : Prop :=
  ∃ l A bv gp txs outs, executed A0 l A ∧ before = l ++ zip txs outs ∧
    ran_in_batch bv cid gp 0 None A txs tx outs out.

(** A place in a list of pairs is a place in each of the two lists. *)
Lemma zip_split {X Y} (xs : list X) (ys : list Y) before x y after :
  length xs = length ys → zip xs ys = before ++ (x, y) :: after →
  xs = before.*1 ++ x :: after.*1 ∧ ys = before.*2 ++ y :: after.*2.
Proof.
  intros Hlen E. split.
  - apply (f_equal (fmap fst)) in E. rewrite fst_zip in E by lia. by rewrite E, fmap_app.
  - apply (f_equal (fmap snd)) in E. rewrite snd_zip in E by lia. by rewrite E, fmap_app.
Qed.

(** After any batches from a state without records, every transaction of the pool has what
    it left, when their hashes differ. *)
Lemma executed_record A0 l A :
  executed A0 l A → a_depth A0 + 2 + budget l.*1 < 2 ^ 63 → NoDup (tx_Hash <$> l.*1) →
  (∀ h, blank A0 h) →
  (∀ h, h ∉ tx_Hash <$> l.*1 → blank A h) ∧ a_depth A ≤ a_depth A0 + budget l.*1 ∧
  ∀ before tx o after, l = before ++ (tx, o) :: after →
    ∃ cid out, ran A0 before tx cid out ∧ (mo_out out).2 = o ∧ on_record A cid tx out.
Proof.
  intros Hex. induction Hex as [|l A bv cid gp txs out gp' A' Hex IH Hspec]; intros Hd Hnd Hbl.
  { split_and!; [done|simpl; lia|by intros []]. }
  pose proof (spec_ExecuteTxs_length _ _ _ _ _ _ _ _ _ _ Hspec) as Hlen.
  assert ((l ++ zip txs out).*1 = l.*1 ++ txs) as El by (rewrite fmap_app, fst_zip; [done|lia]).
  rewrite El, budget_app in *. rewrite fmap_app in Hnd. rewrite fmap_app.
  apply NoDup_app in Hnd as (Hnd1 & Hdisj & Hnd2). pose proof (budget_nonneg txs).
  destruct IH as (Hother & Hdep & Hall); [lia|done|done|].
  destruct (spec_ExecuteTxs_record _ _ _ _ _ _ _ _ _ _ Hspec) as (Hsame & Hdep' & Hnew); [lia|done| |].
  { apply Forall_forall. intros h Hh. apply Hother. intros Hin. by eapply Hdisj. }
  split_and!; [|lia|].
  - intros h [Hh1 Hh2]%not_elem_of_app. eapply blank_same; [by apply Hsame|by apply Hother].
  - assert (∀ k tx o after, zip txs out = k ++ (tx, o) :: after →
      ∃ cid out, ran A0 (l ++ k) tx cid out ∧ (mo_out out).2 = o ∧ on_record A' cid tx out) as Hbatch.
    { intros k tx o after [Et Eo]%zip_split; [|lia].
      destruct (Hnew _ _ _ Et) as (outs & o' & rest & Eout & Hran & Hrec). rewrite Eo in Eout.
      pose proof Hran as (? & ? & Hpre & _). apply spec_ExecuteTxs_length in Hpre as Hl.
      apply app_inj_1 in Eout as [<- E]; [|by rewrite Hl, !length_fmap]. injection E as -> _.
      exists cid, o'. split; [|done]. exists l, A, bv, gp, k.*1, k.*2. split; [done|].
      split; [by rewrite zip_fst_snd|done]. }
    intros before tx o after E. apply app_eq_inv in E as [(k & El' & Ek)|(k & -> & Ek)]; [|by eapply Hbatch].
    destruct k as [|q k]; simpl in Ek; [|injection Ek as <- ->].
    + rewrite app_nil_r in El'. rewrite <-El', <-(app_nil_r l). by eapply (Hbatch []).
    + destruct (Hall _ _ _ _ El') as (cid' & out' & Hran & Ho & Hrec). exists cid', out'. split_and!; [done|done|].
      eapply on_record_same; [|done]. apply Hsame, Hdisj.
      rewrite El', !fmap_app. apply elem_of_app. right. left.
Qed.
End batches.

(** ** Reading a receipt *)

Section reading.
Context `{CoreLaws} `{!GethLaws} `{!Upstream} `{!Remote} `{!Growth}.
Context (answer : BatchElem → option RpcValue) (N : nat) (HN : Reliable answer N).
Context (r : loc).
Implicit Types (w : World) (s : Node).

Lemma find_receipt_heap w w' ls h : w_states w' = w_states w → find_receipt w' ls h = find_receipt w ls h.
Proof. intros E. apply find_receipt_ext. intros l _. by rewrite E. Qed.

(** The receipt of the abstract state is found, with all the logs of its transaction. *)
Lemma GetReceipt_step own base b w d A h :
  refines answer own base r b w d A →
  match f_receipts (a_frame A) h with
  | Some rc => ∃ l rc' w', GetReceipt d h w = (Ok (Some l), w') ∧ w' = with_receipts <[l := rc']> w ∧
      plain rc' = rc ∧ Logs rc' = Some (f_logs (a_frame A) h) ∧ same_receipts w w'
  | None => GetReceipt d h w = (Ok None, w)
  end.
Proof.
  intros Href. destruct (refines_top _ _ _ _ _ _ _ _ Href) as
    (db & s & own' & st & -> & Hdb & Hs & Hst & _ & (Hc & _) & Hsh & _).
  assert (on_chain w d s (s :: own' ++ base)) as Hon by by exists db.
  pose proof (sh_receipts _ _ _ _ _ _ Hsh h) as Hrc. pose proof (sh_logs _ _ _ _ _ _ Hsh h) as Hlg.
  assert (GetReceipt d h w = receipt_loop (S s) d h s w) as ->.
  { unfold GetReceipt. by rewrite (bind_Ok _ _ _ _ _ (top_run _ _ _ _ Hdb Hs)). }
  rewrite (receipt_loop_spec _ w d s _ s _ h Hon Hc) by (apply chain_length in Hc; simpl in *; lia).
  destruct (find_receipt w _ h) as [l|]; simpl in Hrc; [|by rewrite Hrc].
  destruct Hrc as (rc & Hl & ->). rewrite Hlg.
  exists l, (set_Logs (Some (f_logs (a_frame A) h)) rc). eexists. split; [reflexivity|].
  split; [|split; [by destruct rc|split; [by destruct rc|]]].
  - unfold with_receipts. f_equal. apply map_eq. intros l'. rewrite lookup_alter, lookup_insert.
    case_decide; [subst; by rewrite Hl|done].
  - intros l'. simpl. rewrite lookup_alter. case_decide; [subst; rewrite Hl; by destruct rc|done].
Qed.

(** The number of the block that comes next, as [EthBlockNumber] reports it. *)
Definition next_number (answer : Err + Z) : Z := match answer with inl _ => 0 | inr bn => u64 (bn + 1) end.

(** What the handler answers for a transaction of the pool. *)
Definition receipt_reply (bk : MferBackend) (A : Abs) (i : nat) (tx : Transaction) (bn : Z)
    : Err + gmap string Value :=
  let h := tx_Hash tx in
  match f_receipts (a_frame A) h with
  | None => inl ("tx: " ++ hex_string (Hash_Bytes h) ++ " receipt not found")%string
  | Some rc => inr (<["from" := VAddress (ImpersonatedAccount bk)]>
      (receipt_fields (set_Logs (Some (f_logs (a_frame A) h)) rc) h (tx_To tx) bn (Z.of_nat i) (tx_Type tx)))
  end.

Lemma GetTransactionReceipt_run b A bv cid gp s h :
  node_ok answer N r b A bv cid gp s →
  ∃ reply s', GetTransactionReceipt h s = (Ok reply, s') ∧ node_ok answer N r b A bv cid gp s' ∧
    n_pool s' = n_pool s ∧ n_backend s' = n_backend s ∧
    match GetTransactionByHash (n_pool s) h with
    | (_, None) => reply = inl (tx_not_found h)
    | (i, Some tx) => tx_Hash tx = h →
        reply = receipt_reply (n_backend s) A i tx (next_number (rpc_BlockNumber (w_calls (es_world (n_evm s)))))
    end.
Proof.
  intros Hok. unfold GetTransactionReceipt. destruct (GetTransactionByHash (n_pool s) h) as [i [tx|]] eqn:Hby.
  2:{ exists (inl (tx_not_found h)), s. rewrite bind_gets, Hby. by split_and!. }
  destruct (nk_db _ _ _ _ _ _ _ _ _ Hok) as (d & p & Hd & Hp & Hdb).
  destruct (dk_refines _ _ _ _ _ _ _ _ Hdb) as [own Href].
  pose proof (GetReceipt_step _ _ _ _ _ _ h Href) as Hget.
  assert (∀ x w', GetReceipt d h (es_world (n_evm s)) = (Ok x, w') →
    on_StateDB (λ d, GetReceipt d h) s = (Ok x, set_n_evm (set_world w' (n_evm s)) s)) as Hon.
  { intros x w' Hrun. unfold on_StateDB. rewrite (bind_Ok _ _ _ _ _ (in_evm_the_StateDB s d Hd)).
    by apply in_evm_Ok, in_world_Ok. }
  destruct (f_receipts (a_frame A) h) as [rc|] eqn:Hrc.
  - destruct Hget as (l & rc' & w' & Hrun & Hw' & Hpl & Hlg & Hsame).
    set (s1 := set_n_evm (set_world w' (n_evm s)) s).
    assert (node_ok answer N r b A bv cid gp s1) as Hok1.
    { eapply node_ok_world; [done..| |by rewrite Hw'].
      eapply db_ok_heap; [exact Hdb|by rewrite Hw'..|done|by rewrite Hw'|by rewrite Hw']. }
    destruct (node_asked answer N r rpc_BlockNumber _ _ _ _ _ _ Hok1) as [Hreq Hok2].
    assert (w_calls (es_world (n_evm s1)) = w_calls (es_world (n_evm s))) as Ec by (simpl; by rewrite Hw').
    rewrite Ec in Hreq.
    eexists _, _. split; [|split; [exact Hok2|split; [done|split; [done|]]]].
    + rewrite bind_gets, Hby, (bind_Ok _ _ _ _ _ (Hon _ _ Hrun)). fold s1.
      assert (in_evm (in_world (get_receipt l)) s1 = (Ok rc', s1)) as Hrd.
      { assert (get_receipt l w' = (Ok rc', w')) as Hg.
        { unfold get_receipt, deref. rewrite Hw'. simpl. by rewrite lookup_insert_eq. }
        rewrite (in_evm_Ok _ _ _ _ (in_world_Ok _ (n_evm s1) _ _ Hg)). done. }
      rewrite (bind_Ok _ _ _ _ _ Hrd). unfold the_backend, EthBlockNumber.
      rewrite bind_gets, bind_assoc, (bind_Ok _ _ _ _ _ Hreq). reflexivity.
    + intros Hh. unfold receipt_reply. rewrite Hh, Hrc, <-Hlg, <-Hpl. by destruct rc'.
  - exists (inl ("tx: " ++ hex_string (Hash_Bytes h) ++ " receipt not found")%string), s.
    split_and!; [|done|done|done|].
    + rewrite bind_gets, Hby, (bind_Ok _ _ _ _ _ (Hon _ _ Hget)). by destruct s as [[]].
    + intros Hh. unfold receipt_reply. by rewrite Hh, Hrc.
Qed.
End reading.
