(* ===== verification/NodeSpec.v ===== *)
(** * The node as its clients see it

    [Spec] is a pinned block, a state and the pool; [spec_step] says which of the five
    effects a request may have on it.  [represents] relates a running node to it. *)
From S2P Require Import Prelude BigInt Geth World OverlayState Fetch StateSpec OverlayStateDB.
From S2P Require Import VmStateDB Refinement Clones Reset Chain GoSlice GoStd ToyInstance TxPool.
From S2P Require Import Signer Tracers TxArgs Evm Warm EvmProps Backend NodeState.

Section spec.
Context `{Core} `{!Upstream} `{!Remote} `{!Growth}.
Variable answer : BatchElem → option RpcValue.

Record Spec := mkSpec {
  sp_block : Z;
  sp_state : Abs;
  sp_pool : list (Transaction * option Err)
}.

Definition sp_txs (σ : Spec) : list Transaction := (sp_pool σ).*1.

(** What a request does: nothing that is seen; execute a transaction and add it to the
    pool; empty the pool; execute the pool from a new block; throw the state away and keep
    the pool. *)
Inductive Effect := EQuiet | ESend (tx : Transaction) | EClear | EReExec | EReset.

Inductive spec_step : Effect → Spec → Spec → Prop :=
| step_quiet σ : spec_step EQuiet σ σ
| step_send b A l bv cid gp tx o gp' A' :
    spec_ExecuteTxs bv cid gp 0 [tx] None A = Some ([o], gp', A') →
    spec_step (ESend tx) (mkSpec b A l) (mkSpec b A' (l ++ [(tx, o)]))
| step_clear b A l A' :
    at_block answer b A' → spec_step EClear (mkSpec b A l) (mkSpec b A' [])
| step_reexec b A l b' A0 bv cid gp out gp' A' :
    at_block answer b' A0 → spec_ExecuteTxs bv cid gp 0 l.*1 None A0 = Some (out, gp', A') →
    spec_step EReExec (mkSpec b A l) (mkSpec b' A' (zip l.*1 out))
| step_reset b A l b' A' :
    fresh_root answer b' A' ∨ at_block answer b' A' → spec_step EReset (mkSpec b A l) (mkSpec b' A' l).

(** The state is what the pool, executed from the pinned block, leads to. *)
Definition in_step (σ : Spec) : Prop :=
  ∃ A0, at_block answer (sp_block σ) A0 ∧ executed A0 (sp_pool σ) (sp_state σ).

(** Only throwing the state away gets the two out of step; clearing and executing the pool
    again bring them back. *)
Lemma spec_step_in_step e σ σ' :
  spec_step e σ σ' →
  (e ≠ EReset → in_step σ → in_step σ') ∧ (e = EClear ∨ e = EReExec → in_step σ').
Proof.
  intros Hstep. destruct Hstep as [σ|b A l bv cid gp tx o gp' A' Hspec|b A l A' Hat
    |b A l b' A0 bv cid gp out gp' A' Hat Hspec|b A l b' A' Hat].
  - split; [done|]. by intros [|].
  - split; [|by intros [|]]. intros _ (A0 & Hat & Hex). exists A0. split; [done|].
    exact (executed_batch A0 l A bv cid gp [tx] [o] gp' A' Hex Hspec).
  - assert (in_step (mkSpec b A' [])) by (exists A'; split; [done|constructor]). by split.
  - assert (in_step (mkSpec b' A' (zip l.*1 out))).
    { exists A0. split; [done|]. exact (executed_batch A0 [] A0 bv cid gp l.*1 out gp' A' (executed_nil A0) Hspec). }
    by split.
  - split; [done|]. by intros [|].
Qed.

(** The pool grows by at most the transaction that is sent. *)
Lemma spec_step_txs e σ σ' :
  spec_step e σ σ' →
  match e with ESend tx => sp_txs σ' = sp_txs σ ++ [tx] | EClear => sp_txs σ' = [] | _ => sp_txs σ' = sp_txs σ end.
Proof.
  intros Hstep. destruct Hstep as [|b A l bv cid gp tx o gp' A' _| |b A l b' A0 bv cid gp out gp' A' _ Hspec|];
    try done; unfold sp_txs; simpl.
  - by rewrite fmap_app.
  - apply spec_ExecuteTxs_length in Hspec. rewrite fst_zip; [done|]. lia.
Qed.
End spec.
