(* ===== verification/NodeLogic.v ===== *)
(** * Running handlers on a node that is up

    [triple P m Q] is total correctness: from a node in [P] the computation returns, in a
    node and with a value in [Q].  The rules cover the steps handlers are made of: reading
    the database, asking the upstream node, and changing settings. *)
From S2P Require Import Prelude BigInt Geth World OverlayState Fetch StateSpec OverlayStateDB.
From S2P Require Import VmStateDB Refinement Clones Reset Merge Chain GoSlice GoStd ToyInstance TxPool.
From S2P Require Import Signer Tracers TxArgs Evm Warm EvmProps Backend Actions Debug NodeState.
From S2P Require Import NodeSteps NodeSpec.

Definition triple {S X} (P : S → Prop) (m : M S X) (Q : X → S → Prop) : Prop :=
  ∀ s, P s → ∃ x s', m s = (Ok x, s') ∧ Q x s'.

(** ** Structural rules *)

Section structural.
Context {S : Type}.
Implicit Types (P : S → Prop).

Lemma triple_ret {X} (x : X) P (Q : X → S → Prop) : (∀ s, P s → Q x s) → triple P (mret x) Q.
Proof. intros HPQ s Hs. exists x, s. split; [done|by apply HPQ]. Qed.

Lemma triple_bind {X Y} (m : M S X) (k : X → M S Y) P Q R :
  triple P m Q → (∀ x, triple (Q x) (k x) R) → triple P (x ← m; k x) R.
Proof.
  intros Hm Hk s Hs. destruct (Hm s Hs) as (x & s1 & Hrun & HQ).
  destruct (Hk x s1 HQ) as (y & s2 & Hrun2 & HR). exists y, s2.
  split; [by rewrite (bind_Ok _ _ _ _ _ Hrun)|done].
Qed.

Lemma triple_conseq {X} (m : M S X) P P' (Q Q' : X → S → Prop) :
  triple P m Q → (∀ s, P' s → P s) → (∀ x s, Q x s → Q' x s) → triple P' m Q'.
Proof. intros Hm HP HQ s Hs. destruct (Hm s (HP s Hs)) as (x & s' & ? & ?). eauto 10. Qed.

(** A fact about the value that does not depend on the state. *)
Lemma triple_pure {X} (m : M S X) (φ : Prop) P Q : (φ → triple P m Q) → triple (λ s, φ ∧ P s) m Q.
Proof. intros Hm s [Hφ Hs]. by apply Hm. Qed.

Lemma triple_gets {A} (f : S → A) P : triple P (gets f) (λ _, P).
Proof. intros s Hs. by exists (f s), s. Qed.

Lemma triple_deref {A} (o : option A) (a : A) P : o = Some a → triple P (deref (λ _, o)) (λ x s, x = a ∧ P s).
Proof. intros -> s Hs. by exists a, s. Qed.

(** A loop that keeps its invariant. *)
Lemma triple_fold {A X} (f : X → A → M S X) (l : list A) (x : X) P :
  (∀ x a, a ∈ l → triple P (f x a) (λ _, P)) → triple P (fold_m f x l) (λ _, P).
Proof.
  revert x. induction l as [|a l IH]; intros x Hf; cbn [fold_m].
  - by apply triple_ret.
  - eapply triple_bind; [apply Hf; left|]. intros y. apply IH. intros y' a' Ha. apply Hf. by right.
Qed.

Lemma triple_map {A X} (f : A → M S X) (l : list A) P :
  (∀ a, a ∈ l → triple P (f a) (λ _, P)) → triple P (map_m f l) (λ _, P).
Proof.
  induction l as [|a l IH]; intros Hf; cbn [map_m].
  - by apply triple_ret.
  - eapply triple_bind; [apply Hf; left|]. intros y.
    eapply triple_bind; [apply IH; intros a' Ha; apply Hf; by right|]. intros ys. by apply triple_ret.
Qed.
End structural.

(** The next step of a handler, by a rule whose side conditions [lia] or [done] solves. *)
Tactic Notation "step" uconstr(rule) := eapply triple_bind; [apply rule; (lia || done)|intros ?; cbv beta].

(** ** Rules for a node that is up *)

Section logic.
Context `{CoreLaws} `{!GethLaws} `{!Upstream} `{!Remote} `{!Growth}.
Context (answer : BatchElem → option RpcValue) (N : nat) (HN : Reliable answer N).
Context (Htr : ∀ j h, is_Some (make_tracer None (mkTracerContext blockHash j h))).
Context (r : loc).
Implicit Types (σ : Spec) (s : Node).

(** The node represents a specification. *)
Definition Rep σ s : Prop :=
  ∃ bv cid gp, node_ok answer N r (sp_block σ) (sp_state σ) bv cid gp s ∧ entries (n_pool s) = sp_pool σ.

Lemma Rep_txs σ s : Rep σ s → (entries (n_pool s)).*1 = sp_txs σ.
Proof. intros (? & ? & ? & _ & E). unfold sp_txs. by rewrite E. Qed.

(** *** Settings and requests *)

Lemma Rep_backend σ f : triple (Rep σ) (update_backend f) (λ _, Rep σ).
Proof.
  intros s (bv & cid & gp & [] & E). exists tt, (set_n_backend f s). split; [done|].
  exists bv, cid, gp. split; [by split|done].
Qed.

Lemma Rep_the_backend σ : triple (Rep σ) the_backend (λ _, Rep σ).
Proof. intros s Hs. by exists (n_backend s), s. Qed.

Lemma Rep_the_evm σ : triple (Rep σ) (in_evm the_evm) (λ e s, e = es_evm (n_evm s) ∧ Rep σ s).
Proof. intros s Hs. exists (es_evm (n_evm s)), s. split; [apply in_evm_the_evm|done]. Qed.

Lemma Rep_evm σ f :
  (∀ e, StateDB (f e) = StateDB e ∧ blockNumber (f e) = blockNumber e ∧
     chainConfig_ChainID (f e) = chainConfig_ChainID e ∧ vmContext (f e) = vmContext e ∧ is_Some (gasPool (f e))) →
  triple (Rep σ) (in_evm (update_evm f)) (λ _, Rep σ).
Proof.
  intros Hf s (bv & cid & gp & [Hp (d & p & Hd & Hbn & Hdb) [] Hc] & E).
  destruct (Hf (es_evm (n_evm s))) as (E1 & E2 & E3 & E4 & [gp' E5]).
  exists tt, (set_n_evm (with_evm f (n_evm s)) s). split; [done|]. exists bv, cid, gp'. split; [|done].
  split; [done| | |].
  - exists d, p. simpl. by rewrite E1, E2.
  - split; simpl; [done|by rewrite E3|by rewrite E4].
  - simpl. by rewrite E4.
Qed.

Lemma Rep_delta σ f :
  (∀ e, StateDB (f e) = StateDB e ∧ blockNumber (f e) = blockNumber e ∧ gasPool (f e) = gasPool e ∧
     chainConfig_ChainID (f e) = chainConfig_ChainID e ∧ vmContext (f e) = vmContext e) →
  triple (Rep σ) (in_evm (update_evm f)) (λ _, Rep σ).
Proof.
  intros Hf s (bv & cid & gp & Hok & E).
  exists tt, (set_n_evm (with_evm f (n_evm s)) s). split; [done|]. exists bv, cid, gp. split; [|done].
  destruct (Hf (es_evm (n_evm s))) as (?&?&?&?&?). by eapply node_same_world.
Qed.

Lemma Rep_request {X} σ (f : nat → X) :
  triple (Rep σ) (in_evm (request f)) (λ x s, (∃ i, x = f i) ∧ Rep σ s).
Proof.
  intros s (bv & cid & gp & Hok & E). destruct (node_request answer N r f _ _ _ _ _ _ Hok) as (i & es' & Hrun & Hok' & _).
  eexists _, _. split; [exact Hrun|]. split; [eauto|]. by exists bv, cid, gp.
Qed.

Lemma Rep_ChainID σ : triple (Rep σ) (in_evm ChainID) (λ _, Rep σ).
Proof.
  intros s (bv & cid & gp & Hok & E). exists cid, s. split; [by eapply in_evm_ChainID|]. by exists bv, cid, gp.
Qed.

Lemma Rep_TxToMessage σ tx :
  triple (Rep σ) (in_evm (TxToMessage tx)) (λ msg s, frames_of msg = budget [tx] - 1 ∧ Rep σ s).
Proof.
  intros s (bv & cid & gp & Hok & E). exists (tx_message cid tx), s. split; [by eapply in_evm_TxToMessage|].
  split; [apply frames_of_budget|]. by exists bv, cid, gp.
Qed.

Lemma Rep_pool_txs σ : triple (Rep σ) pool_txs (λ l s, l = sp_txs σ ∧ Rep σ s).
Proof.
  intros s (bv & cid & gp & Hok & E). eexists _, s.
  split; [exact (pool_txs_run s (nk_pool _ _ _ _ _ _ _ _ _ Hok))|]. unfold sp_txs. rewrite E.
  split; [done|]. by exists bv, cid, gp.
Qed.

Lemma Rep_pool_results σ : triple (Rep σ) pool_results (λ l s, l = (sp_pool σ).*2 ∧ Rep σ s).
Proof.
  intros s (bv & cid & gp & Hok & E). destruct (seen_length _ (nk_pool _ _ _ _ _ _ _ _ _ Hok)) as [E1 E2].
  eexists _, s. split; [done|]. split; [|by exists bv, cid, gp].
  rewrite <-E. unfold entries. symmetry. apply snd_zip. lia.
Qed.

(** *** The database *)

(** Reading it: any computation that keeps what it shows. *)
Lemma Rep_read {X} σ (m : loc → M World X) :
  (∀ d own base w A b, refines answer own base r b w d A → ∃ x w' own', m d w = (Ok x, w') ∧
     refines answer own' base r b w' d A ∧ confined answer b r d own w own' w') →
  triple (Rep σ) (on_StateDB m) (λ _, Rep σ).
Proof.
  intros Hm s (bv & cid & gp & Hok & E). pose proof (nk_db _ _ _ _ _ _ _ _ _ Hok) as (d & p & Hd & Hp & Hdb).
  destruct (dk_refines _ _ _ _ _ _ _ _ Hdb) as [own Href].
  destruct (Hm d own _ _ _ _ Href) as (x & w' & own' & Hrun & Href' & Hconf).
  eexists x, _. split.
  - unfold on_StateDB. rewrite (bind_Ok _ _ _ _ _ (in_evm_the_StateDB s d Hd)).
    by apply in_evm_Ok, in_world_Ok.
  - exists bv, cid, gp. split; [|done].
    eapply node_ok_world; [done..| |exact (cf_bigs _ _ _ _ _ _ _ _ Hconf)]. by eapply db_ok_run.
Qed.

Lemma reads_op {X} (op : Op) (m : loc → M World X) (f : X → Res) :
  (∀ d, run_op d op = (x ← m d; mret (f x))) →
  (∀ A, ∃ res, spec_op op A = Some (res, A)) →
  ∀ d own base w A b, refines answer own base r b w d A → ∃ x w' own', m d w = (Ok x, w') ∧
     refines answer own' base r b w' d A ∧ confined answer b r d own w own' w'.
Proof.
  intros Hm Hspec d own base w A b Href. destruct (Hspec A) as [res Hres].
  destruct (run_op_refines answer N HN base r b d own w A op _ _ Href Hres) as (w1 & own1 & Hrun & Href1 & Hconf1).
  rewrite Hm in Hrun. apply bind_Ok_inv in Hrun as (x & w1' & Hrun & E). injection E as <- <-.
  by exists x, w1', own1.
Qed.
End logic.
