(* ===== verification/NodeToy.v ===== *)
(** * A concrete running node

    The node of the examples: the database of [ToyNode] with money on the fake accounts, an
    EVM prepared on block 100 and an empty pool. *)
From S2P Require Import Prelude BigInt Geth World OverlayState Fetch StateSpec OverlayStateDB.
From S2P Require Import VmStateDB Refinement Clones Reset Chain GoSlice GoStd ToyInstance TxPool.
From S2P Require Import Signer Tracers TxArgs Evm Warm EvmProps Backend NodeState ToyNode.

Module ToyUp.
Export ToyEvm.

(** One request was made before. *)
Definition w1c : World := with_call w1b.
Definition wF : World := (InitFakeAccounts 3%nat w1c).2.
Definition AF : Abs := fund fake_accounts A1.

Definition node1 : Node := NewMferBackend (mkEvmState wF evm1 ∅ 0) NewMferTxPool a1 false.

Lemma refines1c : refines answer [2%nat] [1%nat] 1%nat 100 w1c 3%nat A1.
Proof. eapply refines_heap; [exact refines1|reflexivity..|intros l; reflexivity|simpl; lia]. Defined.

Lemma db_ok1c : db_ok answer 1 1%nat 100 3%nat 0%nat A1 w1c.
Proof.
  destruct w1_ready as (_ & Hcl & Ht & _). split.
  - exists [2%nat]. exact refines1c.
  - exact Hcl.
  - exact Ht.
  - eexists. split; [reflexivity|]. split_and!; reflexivity.
  - reflexivity.
  - simpl. lia.
Defined.

Lemma funded : ∃ own, InitFakeAccounts 3%nat w1c = (Ok tt, wF) ∧
  refines answer own [1%nat] 1%nat 100 wF 3%nat AF ∧ confined answer 100 1%nat 3%nat [2%nat] w1c own wF.
Proof.
  destruct (fund_step answer 1 reliable _ _ _ _ _ _ _ refines1c) as (w' & own & Hrun & Href & Hconf).
  assert (w' = wF) as -> by (unfold wF; by rewrite Hrun). exists own. split_and!; assumption.
Defined.

Lemma ok1 : node_ok answer 1 1%nat 100 AF bv1 1 30000000 node1.
Proof.
  destruct funded as (own & _ & Href & Hconf). split.
  - apply pool_reachable_ok. constructor.
  - exists 3%nat, 0%nat. split_and!; [reflexivity..|].
    eapply db_ok_run; [exact db_ok1c|exact refines1c|exact Hconf|exact Href].
  - split; [reflexivity|reflexivity|].
    eapply (block_values_ext _ w1c); [exact (cf_bigs _ _ _ _ _ _ _ _ Hconf)|reflexivity].
  - unfold own_numbers. simpl. rewrite !NoDup_cons, !not_elem_of_cons.
    split_and!; try discriminate; try (by intros ?%elem_of_nil). apply NoDup_nil_2.
Defined.

Lemma at_block1 : at_block answer 100 AF.
Proof. apply fund_at_block. split_and!; reflexivity. Defined.

End ToyUp.
