(* ===== verification/NodeProps.v ===== *)
(** * Properties of the node's handlers

    Sending, calling, estimating, tracing, clearing and re-executing, on a node that is up:
    each handler returns and gives the result of the specification, and the node's state
    stays what its pool, executed from the pinned block, leads to. *)
From S2P Require Import Prelude BigInt Geth World OverlayState Fetch StateSpec OverlayStateDB.
From S2P Require Import VmStateDB Refinement Clones Reset Chain GoSlice GoStd ToyInstance TxPool.
From S2P Require Import Signer Tracers TxArgs Evm Warm EvmProps Backend Actions Debug NodeState.
From S2P Require Import NodeSteps ToyNode NodeToy.

(** ** Properties *)

Section properties.
Context `{CoreLaws} `{!GethLaws} `{!Upstream} `{!Remote} `{!Growth}.
Context (answer : BatchElem → option RpcValue) (N : nat) (HN : Reliable answer N).
(** The call tracer is registered. *)
Context (Htr : ∀ j h, is_Some (make_tracer None (mkTracerContext blockHash j h))).
Context (r : loc).
Implicit Types (b : Z) (A : Abs) (bv : BlockValues) (cid gp : Z) (s : Node).

Abbreviation OK := (node_ok answer N r).

(** C10: a sent transaction is executed and pooled.  It is built from the client's arguments
    with the nonce and the gas filled in, carries the sender (the impersonated account by
    default) through its signature, is executed on the node's own state, and joins the pool
    with its result; the handler returns its hash. *)
Theorem SendTransaction_spec b A bv cid gp s args :
  OK b A bv cid gp s →
  let x := preprocessArgs (n_backend s) args in
  let from := send_from (n_backend s) x in
  (∀ unsigned, ToTransaction (send_args x (bc_GasLimit (vmContext (es_evm (n_evm s)))) (a_nonce A from))
      = Some unsigned → a_depth A + 2 + budget [unsigned] < 2 ^ 63) →
  ∃ unsigned tx o gp' A' s',
    ToTransaction (send_args x (bc_GasLimit (vmContext (es_evm (n_evm s)))) (a_nonce A from)) = Some unsigned ∧
    SendTransaction args s = (Ok (tx_Hash tx), s') ∧
    (let msg := tx_message cid tx in m_From msg = from ∧ m_To msg = tx_To unsigned ∧
       m_Value msg = tx_Value unsigned ∧ m_Nonce msg = tx_Nonce unsigned ∧ m_Data msg = tx_Data unsigned) ∧
    spec_ExecuteTxs bv cid gp 0 [tx] None A = Some ([o], gp', A') ∧ OK b A' bv cid gp' s' ∧
    entries (n_pool s') = entries (n_pool s) ++ [(tx, o)] ∧ n_backend s' = n_backend s.
Proof.
  intros Hok x from Hd.
  destruct (send_args_complete x (bc_GasLimit (vmContext (es_evm (n_evm s)))) (a_nonce A from)) as [un Hun].
  destruct (SendTransaction_run answer N HN Htr r b A bv cid gp s args un Hok Hun (Hd un Hun)) as
    (tx & o & gp' & A' & s' & Hsig & _ & Hspec & Hrun & Hok' & Hent & Hbk & _).
  destruct (sign_as_ok cid from un) as (tx' & Hsig' & _ & E1 & E2 & E3 & E4 & _ & E6).
  unfold from, x in *. rewrite Hsig in Hsig'. injection Hsig' as <-.
  exists un, tx, o, gp', A', s'. by split_and!.
Qed.

(** C29: a local call returns what its message returns on the node's state, in the block it
    names, and leaves the state, the pool and the gas as they were.  But naming a block
    moves the node: transactions sent afterwards are executed with the numbers of that
    block. *)
Theorem CallLocal_spec b A bv cid gp s args block overrides msg :
  OK b A bv cid gp s → ToMessage (preprocessArgs (n_backend s) args) 0 None = inr msg →
  a_depth A + 1 + frames_of msg < 2 ^ 63 →
  ∃ bv' x S' s', call_block (es_evm (n_evm s)) bv (BlockNumber_ block) bv' ∧
    spec_prog (erase (ApplyMessage bv' cid msg (2 ^ 64 - 1)))
      (before_msg msg (start_abs (a_frame A) (a_depth A + 1))) = Some (x, S') ∧
    CallLocal args block overrides s = (Ok (call_reply (call_result msg x.1)), s') ∧
    OK b A bv' cid gp s' ∧ n_pool s' = n_pool s.
Proof.
  intros Hok Hmsg Hd.
  destruct (CallLocal_run answer N HN r b A bv cid gp s args block overrides msg Hok Hmsg Hd)
    as (bv' & x & S' & s' & ? & ? & ? & ? & ? & _). by exists bv', x, S', s'.
Qed.

(** An estimate is twice the gas the message uses on the node's state with the nonce of
    its sender, unless the keccak tracer cannot read a step of the message's run: then the
    request panics.  Both ways the state, the pool, the gas and the block stay as they were. *)
Theorem EstimateGas_spec b A bv cid gp s args block msg :
  OK b A bv cid gp s → ToMessage (estimate_args (n_backend s) args A) 0 None = inr msg →
  a_depth A + 1 + frames_of msg < 2 ^ 63 →
  let p := ApplyMessage bv cid msg (2 ^ 64 - 1) in
  let S := before_msg msg (start_abs (a_frame A) (a_depth A + 1)) in
  ∃ out s', EstimateGas args block s = (out, s') ∧
    match keccak_stops p S with
    | None => ∃ x S', spec_prog (erase p) S = Some (x, S') ∧ out = Ok (estimate_reply (call_result msg x.1))
    | Some _ => ∃ err, out = Panic err
    end ∧ OK b A bv cid gp s' ∧ n_pool s' = n_pool s.
Proof.
  intros Hok Hmsg Hd p S.
  destruct (EstimateGas_run answer N HN r b A bv cid gp s args block msg Hok Hmsg Hd)
    as (out & s' & ? & ? & ? & ? & _). by exists out, s'.
Qed.

(** Preparing pins the node to the block whose header it is given.  The database then
    shows that block, with money on the fake accounts and no local change; the context is
    the next block, with the deltas the user set and no base fee; the gas pool is full. *)
Theorem Prepare_pins b A bv cid gp s cid' h :
  OK b A bv cid gp s →
  rpc_ChainID (w_calls (es_world (n_evm s))) = inr cid' →
  rpc_Header (S (w_calls (es_world (n_evm s)))) (head_request (n_evm s)) = Some h →
  ∃ A' es', Prepare (n_evm s) = (Ok None, es') ∧ at_block answer (Uint64 (hd_Number h)) A' ∧
    OK (Uint64 (hd_Number h)) A' (next_block h (es_evm (n_evm s)) 0) cid' (hd_GasLimit h) (set_n_evm es' s).
Proof.
  intros Hok Hcid Hh. destruct (Prepare_run answer N HN r b A bv cid gp s cid' h Hok Hcid Hh)
    as (A' & es' & ? & ? & ? & _). by exists A', es'.
Qed.

(** C27: executing the pool again gives every transaction the result it has when the pool
    is executed in order on the new head, and leaves the state that leads to. *)
Theorem ReExecTxPool_spec b A bv cid gp s cid' h :
  OK b A bv cid gp s →
  rpc_ChainID (w_calls (es_world (n_evm s))) = inr cid' →
  rpc_Header (S (w_calls (es_world (n_evm s)))) (head_request (n_evm s)) = Some h →
  let txs := (entries (n_pool s)).*1 in 3 + budget txs < 2 ^ 63 →
  ∃ A0 out gp' A' s', at_block answer (Uint64 (hd_Number h)) A0 ∧
    spec_ExecuteTxs (next_block h (es_evm (n_evm s)) 0) cid' (hd_GasLimit h) 0 txs None A0 = Some (out, gp', A') ∧
    ReExecTxPool s = (Ok tt, s') ∧
    OK (Uint64 (hd_Number h)) A' (next_block h (es_evm (n_evm s)) 0) cid' gp' s' ∧
    entries (n_pool s') = zip txs out.
Proof.
  intros Hok Hcid Hh txs Hb.
  destruct (ReExecTxPool_run answer N HN Htr r b A bv cid gp s cid' h Hok Hcid Hh Hb)
    as (A0 & out & gp' & A' & s' & ? & ? & ? & ? & ? & _). by exists A0, out, gp', A', s'.
Qed.

(** Clearing the pool empties it, takes the state back to the pinned block with money
    on the fake accounts, and refills the gas pool. *)
Theorem ClearTxPool_spec b A bv cid gp s :
  OK b A bv cid gp s →
  ∃ A' s', ClearTxPool s = (Ok tt, s') ∧ entries (n_pool s') = [] ∧ at_block answer b A' ∧
    OK b A' bv cid (bc_GasLimit (vmContext (es_evm (n_evm s)))) s'.
Proof.
  intros Hok. destruct (ClearTxPool_run answer N HN r b A bv cid gp s Hok) as (A' & s' & ? & ? & ? & ? & _).
  by exists A', s'.
Qed.

(** C22: tracing a pooled transaction replays those before it on the pinned block, runs the
    transaction under the tracer as a call, and answers from its result and what the tracer
    was shown; the node's own state and pool are untouched, but the gas the replay used is
    missing from the node's gas pool. *)
Theorem TraceTransaction_spec b A bv cid gp s config before tx after tr is_struct :
  OK b A bv cid gp s → (entries (n_pool s)).*1 = before ++ tx :: after →
  tx_Hash tx ∉ tx_Hash <$> before → (∀ i, is_Some (rpc_Header i "latest")) →
  (∀ ctx, debug_tracer config ctx = Some (inr (tr, is_struct))) →
  3 + budget (before ++ [tx]) < 2 ^ 63 →
  let msg := tx_message cid tx in let p := ApplyMessage bv cid msg (2 ^ 64 - 1) in
  ∃ S0 out gp' S1 x S2 tr' s', at_block answer b S0 ∧
    spec_ExecuteTxs bv cid gp 0 before None S0 = Some (out, gp', S1) ∧
    spec_prog (erase p) (before_msg msg S1) = Some (x, S2) ∧
    shown_all p (before_msg msg S1) (TrForeign tr) = TrForeign tr' ∧
    TraceTransaction (tx_Hash tx) config s = (Ok (traced_reply is_struct msg x.1 tr'), s') ∧
    OK b A bv cid gp' s' ∧ n_pool s' = n_pool s.
Proof.
  intros Hok Hent Hn Hhd Hcfg Hb msg p.
  destruct (TraceTransaction_run answer N HN Htr r b A bv cid gp s config before tx after
    Hok Hent Hn Hhd (λ ctx, mk_is_Some _ _ (Hcfg ctx)) Hb) as (ctx & gp' & s' & Hok' & Hp & _ & Hrun).
  rewrite Hcfg in Hrun. destruct Hrun as (S0 & out & S1 & x & S2 & tr' & ? & ? & ? & ? & ?).
  by exists S0, out, gp', S1, x, S2, tr', s'.
Qed.
End properties.

(** ** Examples *)

Module ToyProps.
Export ToyUp.

(** Five wei for [a2], from whoever is impersonated. *)
Definition send1 : TransactionArgs :=
  mkTransactionArgs None (Some a2) None None None None (Some 5) None None None None None.

Lemma SendTransaction_spec_witness :
  ∃ tx o s', SendTransaction send1 node1 = (Ok (tx_Hash tx), s') ∧ entries (n_pool s') = [(tx, o)] ∧
    m_From (tx_message 1 tx) = a1 ∧ m_Value (tx_message 1 tx) = 5.
Proof.
  destruct (SendTransaction_spec answer 1 reliable tracers1 1%nat 100 AF bv1 1 30000000 node1 send1 ok1)
    as (un & tx & o & gp' & A' & s' & Hun & Hrun & (Hfrom & _ & Hv & _) & _ & _ & Hent & _).
  - intros un E. injection E as <-. reflexivity.
  - injection Hun as <-. exists tx, o, s'. split_and!; [exact Hrun|exact Hent|exact Hfrom|exact Hv].
Defined.

(** The same as a call, in the block 90. *)
Definition call1 : TransactionArgs := set_From (Some a1) send1.

Lemma CallLocal_spec_witness :
  ∃ s', CallLocal call1 (mkBlockNumberOrHash (Some 90) None) None node1 = (Ok ([], None), s') ∧
    n_pool s' = n_pool node1.
Proof.
  destruct (CallLocal_spec answer 1 reliable 1%nat 100 AF bv1 1 30000000 node1 call1
    (mkBlockNumberOrHash (Some 90) None) None _ ok1 eq_refl eq_refl)
    as (bv' & x & S' & s' & _ & Hx & Hrun & _ & Hp).
  exists s'. split; [|exact Hp]. rewrite Hrun. do 2 f_equal.
  apply (f_equal (fmap (λ q, q.1.1))) in Hx. simpl in Hx. injection Hx as <-. reflexivity.
Defined.

(** A deployment of the code 0x54, a load without its operand: it is estimated by a panic. *)
Definition deploy_sload : TransactionArgs :=
  mkTransactionArgs (Some a1) None None None None None None None None (Some [x54]) None None.

Lemma EstimateGas_spec_witness :
  (∃ s', EstimateGas call1 None node1 = (Ok (42000, None), s') ∧ n_pool s' = n_pool node1) ∧
  ∃ err s', EstimateGas deploy_sload None node1 = (Panic err, s') ∧ n_pool s' = n_pool node1.
Proof.
  split.
  - destruct (EstimateGas_spec answer 1 reliable 1%nat 100 AF bv1 1 30000000 node1 call1 None _ ok1
      eq_refl eq_refl) as (out & s' & Hrun & (x & S' & Hx & ->) & _ & Hp).
    exists s'. split; [|exact Hp]. rewrite Hrun. do 2 f_equal.
    apply (f_equal (fmap (λ q, q.1.1))) in Hx. simpl in Hx. injection Hx as <-. reflexivity.
  - destruct (EstimateGas_spec answer 1 reliable 1%nat 100 AF bv1 1 30000000 node1 deploy_sload None _ ok1
      eq_refl eq_refl) as (out & s' & Hrun & [err ->] & _ & Hp).
    exists err, s'. split; [exact Hrun|exact Hp].
Defined.

Lemma Prepare_pins_witness :
  ∃ A' es', Prepare (n_evm node1) = (Ok None, es') ∧ at_block answer 100 A' ∧
    node_ok answer 1 1%nat 100 A' (next_block header100 evm1 0) 1 30000000 (set_n_evm es' node1).
Proof. exact (Prepare_pins answer 1 reliable 1%nat 100 AF bv1 1 30000000 node1 1 header100 ok1 eq_refl eq_refl). Defined.

(** The node after a transfer and a reverted one were executed and pooled. *)
Lemma two_pooled : ∃ o1 o2 gp A s, node_ok answer 1 1%nat 100 A bv1 1 gp s ∧
  entries (n_pool s) = [(sent 7 5 [], o1); (sent 8 6 [x01], o2)].
Proof.
  destruct (execute_and_pool_run answer 1 reliable tracers1 1%nat 100 AF bv1 1 30000000 node1 (sent 7 5 [])
    ok1 ltac:(reflexivity)) as (o1 & gp1 & A1' & s1 & _ & _ & Hok1 & Hent1 & _ & Hd1).
  destruct (execute_and_pool_run answer 1 reliable tracers1 1%nat 100 A1' bv1 1 gp1 s1 (sent 8 6 [x01])
    Hok1) as (o2 & gp2 & A2' & s2 & _ & _ & Hok2 & Hent2 & _).
  - change (a_depth AF + budget [sent 7 5 []]) with 2503 in Hd1. change (budget [sent 8 6 [x01]]) with 2502. lia.
  - exists o1, o2, gp2, A2', s2. split; [exact Hok2|]. by rewrite Hent2, Hent1.
Defined.

Lemma ReExecTxPool_spec_witness :
  ∃ s gp A' s', length (entries (n_pool s)) = 2%nat ∧ ReExecTxPool s = (Ok tt, s') ∧
    entries (n_pool s') = [(sent 7 5 [], None); (sent 8 6 [x01], Some "execution reverted: reason")] ∧
    node_ok answer 1 1%nat 100 A' (next_block header100 (es_evm (n_evm s)) 0) 1 gp s'.
Proof.
  destruct two_pooled as (o1 & o2 & gp & A & s & Hok & Hent).
  pose proof (ReExecTxPool_spec answer 1 reliable tracers1 1%nat 100 A bv1 1 gp s 1 header100 Hok
    eq_refl eq_refl) as Hspec. rewrite Hent in Hspec.
  destruct (Hspec ltac:(reflexivity)) as (A0 & out & gp' & A' & s' & [_ _ _ _ Hdep Hsv] & Hex & Hrun & Hok' & Hout).
  destruct A0 as [F dep sv ref]. simpl in Hdep, Hsv. subst dep sv.
  apply (f_equal (fmap (λ q, q.1.1))) in Hex.
  assert ((λ q, q.1.1) <$> spec_ExecuteTxs (next_block header100 (es_evm (n_evm s)) 0) 1 (hd_GasLimit header100) 0
    [sent 7 5 []; sent 8 6 [x01]] None (mkAbs F 1 [] ref)
    = Some [None; Some "execution reverted: reason"]) as E by reflexivity.
  change ([(sent 7 5 [], o1); (sent 8 6 [x01], o2)].*1) with [sent 7 5 []; sent 8 6 [x01]] in *.
  rewrite E in Hex. simpl in Hex. injection Hex as <-.
  exists s, gp', A', s'. rewrite Hent. split_and!; [reflexivity|exact Hrun|exact Hout|exact Hok'].
Defined.

Lemma ClearTxPool_spec_witness :
  ∃ s A' s', length (entries (n_pool s)) = 2%nat ∧ ClearTxPool s = (Ok tt, s') ∧ entries (n_pool s') = [] ∧
    at_block answer 100 A' ∧ node_ok answer 1 1%nat 100 A' bv1 1 (bc_GasLimit (vmContext (es_evm (n_evm s)))) s'.
Proof.
  destruct two_pooled as (o1 & o2 & gp & A & s & Hok & Hent).
  destruct (ClearTxPool_spec answer 1 reliable 1%nat 100 A bv1 1 gp s Hok) as (A' & s' & Hrun & He & Hat & Hok').
  exists s, A', s'. rewrite Hent. split_and!; [reflexivity|exact Hrun|exact He|exact Hat|exact Hok'].
Defined.

(** The second transaction is traced with a struct logger. *)
Lemma TraceTransaction_spec_witness :
  ∃ s reply s', length (entries (n_pool s)) = 2%nat ∧
    TraceTransaction (tx_Hash (sent 8 6 [x01])) None s = (Ok reply, s') ∧ n_pool s' = n_pool s.
Proof.
  destruct two_pooled as (o1 & o2 & gp & A & s & Hok & Hent).
  destruct (TraceTransaction_spec answer 1 reliable tracers1 1%nat 100 A bv1 1 gp s None [sent 7 5 []]
    (sent 8 6 [x01]) [] [] true Hok) as (S0 & out & gp' & S1 & x & S2 & tr' & s' & _ & _ & _ & _ & Hrun & _ & Hp).
  - by rewrite Hent.
  - apply (bool_decide_unpack _). reflexivity.
  - intros i. by eexists.
  - reflexivity.
  - reflexivity.
  - exists s, (traced_reply true (tx_message 1 (sent 8 6 [x01])) x.1 tr'), s'. rewrite Hent.
    split_and!; [reflexivity|exact Hrun|exact Hp].
Defined.
End ToyProps.
