(* ===== verification/StorageRange.v ===== *)
(** * mferbackend/debugapi.go: the storage the pool touches

    [StorageRangeAt] runs every transaction of the pool on a fork of the root, once as a
    call under the state tracer and once for good, and lists the touched slots of a
    contract.  [spec_range] is what it runs, on the abstract state. *)
From S2P Require Import Prelude BigInt Geth World OverlayState Fetch StateSpec OverlayStateDB.
From S2P Require Import VmStateDB Refinement Clones Reset Chain GoSlice GoStd ToyInstance TxPool.
From S2P Require Import Signer Tracers TxArgs Evm Warm EvmProps Backend Actions Debug NodeState.
From S2P Require Import NodeSteps NodeToy NodeProps.

(** ** What the node runs *)

Section spec.
Context `{Core} `{!Upstream}.

(** The accesses of the calls with the state in the end, unless the state tracer cannot
    read a step of a call, and the gas left. *)
Fixpoint spec_range (bv : BlockValues) (cid gp : Z) (txs : list Transaction) (S : Abs)
    : option (option (list Access * Abs) * Z) :=
  match txs with
  | [] => Some (Some ([], S), gp)
  | tx :: txs =>
      let msg := tx_message cid tx in
      let p := ApplyMessage bv cid msg (2 ^ 64 - 1) in
      match state_stops p (before_msg msg S) with
      | Some _ => Some (None, gp)
      | None =>
          '(_, S1) ← spec_prog (erase p) (before_msg msg S);
          '(_, gp1, S2) ← spec_ExecuteTxs bv cid gp 0 [tx] None S1;
          '(rest, gp') ← spec_range bv cid gp1 txs S2;
          Some (option_map (λ '(later, S'), (accesses p (before_msg msg S) ++ later, S')) rest, gp')
      end
  end.

(** The answer lists the slots of the contract the accesses touched, each with its value in
    the state [S]; all of them carry the same key. *)
Definition range_of (l : list Access) (S : Abs) (contract : Address) (result : StorageRangeResult) : Prop :=
  ∃ shared, ∀ key, result !! key =
    (λ _, (shared, slot_value S contract key)) <$> last_value contract key l.
End spec.

(** ** Running it *)

Section running.
Context `{CoreLaws} `{!GethLaws} `{!Upstream} `{!Remote} `{!Growth}.
Context (answer : BatchElem → option RpcValue) (N : nat) (HN : Reliable answer N).
Context (Htr : ∀ j h, is_Some (make_tracer None (mkTracerContext blockHash j h))).
Context (r : loc).
Implicit Types (A S : Abs) (s : Node).

Abbreviation OK := (node_ok answer N r).
Abbreviation FORKED := (forked answer N r).

(** The node has a state tracer at [l] in use. *)
Definition tracing (l : loc) (t : StateTracer) s : Prop :=
  tracer (es_evm (n_evm s)) = Some l ∧ es_tracers (n_evm s) !! l = Some (TrState t).

Lemma range_loop_run b A bv cid gp c S s l t txs :
  FORKED b A bv cid gp c S s → tracing l t s → a_depth S + 2 + 2 * budget txs < 2 ^ 63 →
  ∃ res gp' S' out es', spec_range bv cid gp txs S = Some (res, gp') ∧
    range_loop c txs s = (out, set_n_evm es' s) ∧ FORKED b A bv cid gp' c S' (set_n_evm es' s) ∧
    match res with
    | Some (acc, S1) => S1 = S' ∧ out = Ok tt ∧ ∃ t', tracing l t' (set_n_evm es' s) ∧
        ∀ a k, slot_of (slotAccessed t') a k = foldl (noted a k) (slot_of (slotAccessed t) a k) acc
    | None => ∃ err, out = Panic err
    end.
Proof.
  revert gp S s t. induction txs as [|tx txs IH]; intros gp S s t Hfk Ht Hb; cbn [range_loop spec_range].
  { exists (Some ([], S)), gp, S, (Ok tt), (n_evm s). split_and!; [done|by destruct s..|done|done|by exists t]. }
  change (budget (tx :: txs)) with (budget ([tx] ++ txs)) in Hb. rewrite budget_app in Hb.
  pose proof (budget_nonneg txs). pose proof (budget_nonneg [tx]). pose proof (frames_of_budget cid tx) as Hf.
  destruct Ht as [Htl Htr1]. set (msg := tx_message cid tx) in *.
  set (p := ApplyMessage bv cid msg (2 ^ 64 - 1)).
  rewrite (bind_Ok _ _ _ _ _ (in_evm_TxToMessage answer N r _ _ _ _ _ _ tx (forked_ok _ _ _ _ _ _ _ _ _ _ _ Hfk))).
  fold msg. destruct (state_stops p (before_msg msg S)) as [A1|] eqn:Hstop.
  { destruct (forked_call_stops answer N HN r _ _ _ _ _ _ _ _ msg l _ A1 Hfk Htl Htr1) as (err & es1 & Hrun1 & Hfk1);
      [by rewrite stops_state|].
    exists None, gp, A1, (Panic err), es1. split; [done|]. split; [by apply bind_Panic|]. by split; [|exists err]. }
  destruct (forked_call answer N HN r _ _ _ _ _ _ _ _ msg true Hfk) as
    (x & S1 & es1 & Hspec1 & Hrun1 & Hfk1 & Htrs & Htl1 & Hd1);
    [lia|intros _; exists l, (TrState t); by rewrite stops_state|].
  fold p in Hspec1, Htrs. unfold call_tracers in Htrs. rewrite Htl, Htr1 in Htrs. set (s1 := set_n_evm es1 s) in *.
  destruct (shown_all_state p (before_msg msg S) (State_CaptureStart c t)) as (t1 & Ht1 & Hs1).
  destruct (forked_execute answer N HN r _ _ _ _ _ _ _ _ [tx] None Hfk1) as
    (out2 & gp2 & S2 & es2 & Hspec2 & Hrun2 & Hfk2 & Hd2 & Htl2 & Htrs2 & _); [lia|done|].
  destruct (IH gp2 S2 (set_n_evm es2 s1) t1 Hfk2) as (res & gp' & S' & out & es' & Hspec & Hrun & Hfk' & Hres);
    [|lia|].
  { split; simpl; rewrite ?Htl2, ?Htrs2; simpl; [by rewrite Htl1|]. rewrite Htrs. simpl. fold p.
    by rewrite Ht1, lookup_insert_eq. }
  eexists _, gp', S', out, es'.
  split; [rewrite Hspec1; cbn [mbind option_bind]; rewrite Hspec2; cbn [mbind option_bind]; by rewrite Hspec|].
  split; [by rewrite (bind_Ok _ _ _ _ _ Hrun1), (bind_Ok _ _ _ _ _ Hrun2)|]. split; [exact Hfk'|].
  destruct res as [[acc S3]|]; [|done]. destruct Hres as (-> & -> & t' & Ht' & Hs').
  split; [done|]. split; [done|]. exists t'. split; [exact Ht'|].
  intros a k. by rewrite Hs', Hs1, foldl_app.
Qed.

(** Reading some slots. *)
Lemma read_slots {X} (g : Hash → Hash → X) c a keys own base w b S :
  refines answer own base r b w c S →
  ∃ w' own', map_m (λ key, val ← GetState c a key; mret (g key val)) keys w =
      (Ok (map (λ key, g key (BytesToHash (f_obs (a_frame S) a GET_STATE key))) keys), w') ∧
    refines answer own' base r b w' c S ∧ confined answer b r c own w own' w'.
Proof.
  revert own w. induction keys as [|key keys IH]; intros own w Href; cbn [map_m map].
  - exists w, own. split_and!; [done|done|apply confined_refl].
  - destruct (run_op_refines answer N HN base r b c own w S (OpGetState a key) _ _ Href eq_refl)
      as (w1 & own1 & Hrun1 & Href1 & Hconf1).
    cbn [run_op] in Hrun1. apply bind_Ok_inv in Hrun1 as (v & w1' & Hrun1 & [= -> ->]).
    destruct (IH own1 w1 Href1) as (w2 & own2 & Hrun2 & Href2 & Hconf2).
    exists w2, own2. split_and!; [|done|by eapply confined_trans].
    rewrite bind_assoc, (bind_Ok _ _ _ _ _ Hrun1), bind_mret. by rewrite (bind_Ok _ _ _ _ _ Hrun2).
Qed.

(** The map the handler makes of the slots it found. *)
Lemma range_map (m : gmap Hash Hash) (f : Hash → Hash) shared key :
  (list_to_map (map (λ key, (key, (shared, f key))) (map_to_list m).*1) : gmap Hash (option Hash * Hash)) !! key =
  (λ _, (shared, f key)) <$> m !! key.
Proof.
  destruct (m !! key) as [v|] eqn:E; simpl.
  - apply elem_of_list_to_map_1.
    + rewrite <-list_fmap_compose. change (NoDup ((λ k : Hash, k) <$> (map_to_list m).*1)).
      rewrite list_fmap_id. apply NoDup_fst_map_to_list.
    + apply (list_elem_of_fmap_2 (λ key, (key, (shared, f key))) _ key), list_elem_of_fmap.
      exists (key, v). split; [done|]. by apply elem_of_map_to_list.
  - apply not_elem_of_list_to_map_1. intros (y & -> & (y' & -> & Hy)%list_elem_of_fmap)%list_elem_of_fmap.
    apply list_elem_of_fmap in Hy as ([k v] & -> & Hk). simpl in *. apply elem_of_map_to_list in Hk. congruence.
Qed.

Lemma in_evm_get_tracer l t s :
  es_tracers (n_evm s) !! l = Some t → in_evm (get_tracer l) s = (Ok t, s).
Proof. intros Hl. unfold in_evm, zoom, get_tracer, deref. rewrite Hl. by destruct s. Qed.

Lemma StorageRangeAt_missing b A bv cid gp s arg a keyStart maxResult err :
  OK b A bv cid gp s → range_index (entries (n_pool s)).*1 arg = inl err →
  StorageRangeAt Hash_zero arg a keyStart maxResult s = (Ok (inl err), s).
Proof.
  intros Hok Hi. unfold StorageRangeAt.
  by rewrite (bind_Ok _ _ _ _ _ (pool_txs_run s (nk_pool _ _ _ _ _ _ _ _ _ Hok))), Hi.
Qed.

(** The end of the handler: the slots of the contract, read back. *)
Lemma range_reply_run b A bv cid gp c S s l t a acc :
  FORKED b A bv cid gp c S s → tracing l t s →
  (∀ k, slot_of (slotAccessed t) a k = last_value a k acc) →
  ∃ result s', (t ← in_evm (get_tracer l);
      let touchedState := match t with TrState t => State_GetResult t | _ => ∅ end in
      let keys := (map_to_list (default ∅ (touchedState !! a))).*1 in
      entries ← in_evm (in_world (map_m (λ key, val ← GetState c a key; mret (key, (last keys, val))) keys));
      mret (inr (list_to_map entries)) : M Node (Err + StorageRangeResult)) s = (Ok (inr result), s') ∧
    range_of acc S a result ∧ OK b A bv cid gp s' ∧ n_pool s' = n_pool s ∧ n_backend s' = n_backend s.
Proof.
  intros Hfk [_ Ht] Hslots.
  set (m := default ∅ (slotAccessed t !! a)). set (keys := (map_to_list m).*1). set (f := slot_value S a).
  destruct (forked_world answer N r (map_m (λ key, val ← GetState c a key; mret (key, (last keys, val))) keys)
    (map (λ key, (key, (last keys, f key))) keys) S _ _ _ _ _ _ _ _ Hfk) as (w6 & Hrun6 & Hfk6).
  { intros own1 base w Href. destruct (read_slots (λ key val, (key, (last keys, val))) c a keys own1 base w b S Href)
      as (w' & own' & ? & ? & ?). by exists w', own'. }
  exists (list_to_map (map (λ key, (key, (last keys, f key))) keys)). eexists.
  split; [|split; [|split; [eapply forked_ok, Hfk6|done]]].
  - rewrite (bind_Ok _ _ _ _ _ (in_evm_get_tracer _ _ _ Ht)). by rewrite (bind_Ok _ _ _ _ _ Hrun6).
  - exists (last keys). intros key. unfold keys at 2. rewrite range_map. f_equal.
    rewrite <-Hslots. unfold m, slot_of. by destruct (slotAccessed t !! a).
Qed.

Lemma StorageRangeAt_run b A bv cid gp s arg a keyStart maxResult i :
  OK b A bv cid gp s → let txs := (entries (n_pool s)).*1 in
  range_index txs arg = inr i → 3 + 2 * budget txs < 2 ^ 63 →
  ∃ S0 res gp' out s', at_block answer b S0 ∧ spec_range bv cid gp txs S0 = Some (res, gp') ∧
    StorageRangeAt Hash_zero arg a keyStart maxResult s = (out, s') ∧
    match res with
    | Some (acc, S') => ∃ result, range_of acc S' a result ∧ out = Ok (inr result)
    | None => ∃ err, out = Panic err
    end ∧ OK b A bv cid gp' s' ∧ n_pool s' = n_pool s ∧ n_backend s' = n_backend s.
Proof.
  intros Hok txs Hi Hb. pose proof (pool_txs_run s (nk_pool _ _ _ _ _ _ _ _ _ Hok)) as Hpool. fold txs in Hpool.
  destruct (node_fork_root answer N r _ _ _ _ _ _ Hok) as (c & w1 & S0 & Hrun1 & Hfresh & Hfk1).
  destruct (forked_fund answer N HN r _ _ _ _ _ _ _ _ Hfk1) as (w2 & Hrun2 & Hfk2).
  pose proof (fund_at_block answer b S0 Hfresh) as Hat.
  destruct (forked_tracer answer N r _ _ _ _ _ _ _ _ (TrState NewStateTracer) Hfk2) as
    (l & es3 & es4 & Hrun3 & Hrun4 & Hfk4 & Htl & Htr4 & _).
  destruct (range_loop_run _ _ _ _ _ _ _ _ l NewStateTracer txs Hfk4) as
    (res & gp' & S' & out & es5 & Hspec & Hrun5 & Hfk5 & Hres); [done|rewrite (ab_depth _ _ _ Hat); lia|].
  exists (fund fake_accounts S0), res, gp'. unfold StorageRangeAt.
  rewrite (bind_Ok _ _ _ _ _ Hpool), Hi, (bind_Ok _ _ _ _ _ Hrun1).
  rewrite (bind_Ok _ _ _ _ _ Hrun2), (bind_Ok _ _ _ _ _ Hrun3), (bind_Ok _ _ _ _ _ Hrun4).
  destruct res as [[acc S1]|].
  - destruct Hres as (-> & -> & t' & Ht' & Hs').
    destruct (range_reply_run _ _ _ _ _ _ _ _ l t' a acc Hfk5 Ht' (Hs' a)) as (result & s' & Hrun & Hr & Hok' & Hrest).
    exists (Ok (inr result)), s'. split; [exact Hat|]. split; [exact Hspec|].
    split; [rewrite (bind_Ok _ _ _ _ _ Hrun5); exact Hrun|]. split; [by exists result|]. by split.
  - destruct Hres as [err ->]. exists (Panic err). eexists. split; [exact Hat|]. split; [exact Hspec|].
    split; [by apply bind_Panic|]. split; [by exists err|]. split; [by eapply forked_ok|done].
Qed.
End running.

(** ** Property *)

Section property.
Context `{CoreLaws} `{!GethLaws} `{!Upstream} `{!Remote} `{!Growth}.
Context (answer : BatchElem → option RpcValue) (N : nat) (HN : Reliable answer N).
Context (Htr : ∀ j h, is_Some (make_tracer None (mkTracerContext blockHash j h))).
Context (r : loc).

(** C36: asked for touched storage, the node runs its whole pool on a fork of the pinned
    block with the fake accounts funded, every transaction as a call that is not undone and
    then for good.  It answers with exactly the slots of the contract the calls loaded or
    stored, each with its value in the end and all under one key; unless a call shows a load
    or a store without its operands on the stack: there the state tracer makes the request
    panic.  Where in the pool, which block, from where on and how many is not looked at, but
    a transaction that is not in the pool is an error.  The state, the pool and the settings
    stay, even after a panic; the gas of what was run for good does not. *)
Theorem StorageRangeAt_spec b A bv cid gp s arg a keyStart maxResult :
  node_ok answer N r b A bv cid gp s → let txs := (entries (n_pool s)).*1 in
  3 + 2 * budget txs < 2 ^ 63 →
  match range_index txs arg with
  | inl err => StorageRangeAt Hash_zero arg a keyStart maxResult s = (Ok (inl err), s)
  | inr _ => ∃ S0 res gp' out s', at_block answer b S0 ∧ spec_range bv cid gp txs S0 = Some (res, gp') ∧
      StorageRangeAt Hash_zero arg a keyStart maxResult s = (out, s') ∧
      match res with
      | Some (acc, S') => ∃ result, range_of acc S' a result ∧ out = Ok (inr result)
      | None => ∃ err, out = Panic err
      end ∧ node_ok answer N r b A bv cid gp' s' ∧ n_pool s' = n_pool s ∧ n_backend s' = n_backend s
  end.
Proof.
  intros Hok txs Hb. destruct (range_index txs arg) as [err|i] eqn:Hi.
  - by eapply StorageRangeAt_missing.
  - by eapply StorageRangeAt_run.
Qed.
End property.

(** ** Example *)

Module ToyRange.
Export ToyProps.

(** Two transactions to [a2] wait in the pool; both load its slot 7. *)
Definition pool2 : MferTxPool := AddTx (AddTx NewMferTxPool (sent 7 5 []) None) (sent 8 6 [x01]) None.

Lemma pool2_ok : pool_ok pool2.
Proof.
  apply pool_reachable_ok. apply (reach_op (AddTx NewMferTxPool (sent 7 5 []) None) (PAddTx (sent 8 6 [x01]) None));
    [|done]. apply (reach_op NewMferTxPool (PAddTx (sent 7 5 []) None)); [constructor|done].
Defined.

(** The values of a fork of the pinned block. *)
Lemma at_block_shape S0 : at_block answer 100 S0 → ∃ F ref, S0 = mkAbs F 1 [] ref ∧
  f_obs F a2 GET_STATE (hash 7) = Hash_Bytes (hash 7).
Proof.
  intros Hat. destruct S0 as [F dep sv ref]. pose proof (ab_depth _ _ _ Hat) as Hdep.
  pose proof (ab_saved _ _ _ Hat) as Hsv. simpl in Hdep, Hsv. subst dep sv. exists F, ref. split; [reflexivity|].
  exact (ab_obs _ _ _ Hat a2 GET_STATE (hash 7)).
Qed.

(** A transaction that loads without an operand waits behind another. *)
Definition pool_bad : MferTxPool := AddTx (AddTx NewMferTxPool (sent 7 5 []) None) (sent 8 6 [x54]) None.

Lemma pool_bad_ok : pool_ok pool_bad.
Proof.
  apply pool_reachable_ok. apply (reach_op (AddTx NewMferTxPool (sent 7 5 []) None) (PAddTx (sent 8 6 [x54]) None));
    [|done]. apply (reach_op NewMferTxPool (PAddTx (sent 7 5 []) None)); [constructor|done].
Defined.

(** What a run is asked about: its accesses and the slot 7 of [a2]. *)
Definition looked_at (q : option (list Access * Abs) * Z) : option (list Access * Hash) :=
  option_map (λ y, (y.1, slot_value y.2 a2 (word_Hash 7))) q.1.

Lemma StorageRangeAt_spec_witness :
  (∃ gp result s', StorageRangeAt Hash_zero (TxIdx 1) a2 [] 10 (set_n_pool pool2 node1) = (Ok (inr result), s') ∧
    (∃ k, result !! word_Hash 7 = Some (k, word_Hash 7)) ∧ result !! word_Hash 8 = None ∧
    node_ok answer 1 1%nat 100 AF bv1 1 gp s') ∧
  ∃ gp err s', StorageRangeAt Hash_zero (TxIdx 1) a2 [] 10 (set_n_pool pool_bad node1) = (Panic err, s') ∧
    node_ok answer 1 1%nat 100 AF bv1 1 gp s'.
Proof.
  split.
  - pose proof (StorageRangeAt_spec answer 1 reliable tracers1 1%nat 100 AF bv1 1 30000000 _ (TxIdx 1) a2 [] 10
      (node_ok_pool answer 1 1%nat _ _ _ _ _ _ _ pool2_ok ok1)) as Hspec.
    change ((entries (n_pool (set_n_pool pool2 node1))).*1) with [sent 7 5 []; sent 8 6 [x01]] in Hspec.
    destruct (Hspec ltac:(reflexivity)) as (S0 & res & gp' & out & s' & Hat & Hr & Hrun & Hres & Hok' & _).
    destruct (at_block_shape _ Hat) as (F & ref & -> & E7).
    apply (f_equal (option_map looked_at)) in Hr.
    set (v := BytesToHash (f_obs F a2 GET_STATE (hash 7))).
    set (x := mkAccess a2 (word_Hash 7) v false).
    assert (option_map looked_at (spec_range bv1 1 30000000 [sent 7 5 []; sent 8 6 [x01]] (mkAbs F 1 [] ref)) = Some (Some ([x; x], v))) as E
      by reflexivity.
    rewrite E in Hr. destruct res as [[acc S']|]; [|discriminate Hr].
    destruct Hres as (result & [k Hk] & ->). apply (inj Some), (inj Some) in Hr.
    pose proof (f_equal fst Hr : [x; x] = acc) as Hacc.
    pose proof (f_equal snd Hr : v = slot_value S' a2 (word_Hash 7)) as Hv.
    exists gp', result, s'. split; [exact Hrun|]. split; [exists k|split; [|exact Hok']].
    + rewrite Hk, <-Hacc. transitivity (Some (k, slot_value S' a2 (word_Hash 7))); [reflexivity|].
      rewrite <-Hv. unfold v. rewrite E7. reflexivity.
    + rewrite Hk, <-Hacc. reflexivity.
  - pose proof (StorageRangeAt_spec answer 1 reliable tracers1 1%nat 100 AF bv1 1 30000000 _ (TxIdx 1) a2 [] 10
      (node_ok_pool answer 1 1%nat _ _ _ _ _ _ _ pool_bad_ok ok1)) as Hspec.
    change ((entries (n_pool (set_n_pool pool_bad node1))).*1) with [sent 7 5 []; sent 8 6 [x54]] in Hspec.
    destruct (Hspec ltac:(reflexivity)) as (S0 & res & gp' & out & s' & Hat & Hr & Hrun & Hres & Hok' & _).
    destruct (at_block_shape _ Hat) as (F & ref & -> & _).
    apply (f_equal (option_map looked_at)) in Hr.
    assert (option_map looked_at (spec_range bv1 1 30000000 [sent 7 5 []; sent 8 6 [x54]] (mkAbs F 1 [] ref)) =
      Some None) as E by reflexivity.
    rewrite E in Hr. destruct res as [[acc S']|]; [discriminate Hr|]. destruct Hres as [err ->].
    exists gp', err, s'. split; [exact Hrun|exact Hok'].
Defined.
End ToyRange.
