(* ===== verification/Probe.v ===== *)
(** * The probe on a running node

    [RunTxWithDifferentContext] replays the pool up to a transaction and runs the
    transaction twice, each time on a clone of the replayed state, in the node's block and
    in one a little later.  The context is a copy, its numbers are not: the node's own
    block moves.  Both runs are under a keccak tracer, which panics at a step it cannot
    read. *)
From S2P Require Import Prelude BigInt Geth World OverlayState Fetch StateSpec OverlayStateDB.
From S2P Require Import VmStateDB Refinement Clones Reset Merge Chain GoSlice GoStd ToyInstance TxPool.
From S2P Require Import Signer Tracers TxArgs Evm Warm EvmProps Backend Actions Debug NodeState.
From S2P Require Import NodeSteps Receipts ToyNode NodeToy NodeProps StorageRange.

(** ** What the probe answers *)

Section spec.
Context `{Core} `{!Upstream}.
Implicit Types (bv : BlockValues) (S : Abs).

(** What a clone of a database that shows [S] starts from. *)
Definition cloned S : Abs := start_abs (a_frame S) (a_depth S + 1).

(** The block a probe leaves. *)
Definition probed bv : BlockValues :=
  mkBlockValues (bv_Coinbase bv) (bv_GasLimit bv) (bv_BlockNumber bv) (bv_Time bv + 1) (bv_Difficulty bv + 1)
    (bv_BaseFee bv).

(** The block of the second run. *)
Definition later bv : BlockValues :=
  mkBlockValues (bv_Coinbase bv) (u64 (bv_GasLimit bv + 1)) (bv_BlockNumber bv) (bv_Time bv + 1)
    (bv_Difficulty bv + 1) (bv_BaseFee bv).

(** One run from [S]: its result and what it did, unless the tracer stops it. *)
Definition spec_probe_run bv (cid : Z) (msg : Message) S
    : option (option ((Err + ExecutionResult) * list TraceOp)) :=
  let p := ApplyMessage bv cid msg (2 ^ 64 - 1) in
  match keccak_stops p S with
  | Some _ => Some None
  | None => '(x, _) ← spec_prog (erase p) S; Some (Some (x.1, trace_ops p S))
  end.

(** Both runs: the answer, unless the tracer stops one of them, and the block left. *)
Definition spec_probe bv (cid : Z) (msg : Message) S
    : option (option (Err + (list TraceOp * list TraceOp)) * BlockValues) :=
  first ← spec_probe_run bv cid msg S;
  match first with
  | None => Some (None, bv)
  | Some (r1, ops0) =>
      match call_result msg r1 with
      | inl err => Some (Some (inl err), bv)
      | inr _ =>
          second ← spec_probe_run (later bv) cid msg S;
          Some (option_map (λ '(r2, ops1),
            match call_result msg r2 with inl err => inl err | inr _ => inr (ops0, ops1) end) second, probed bv)
      end
  end.

(** A computation ends with the answer, or panics when there is none. *)
Definition ends_with {X} (answer : option X) (o : Outcome X) : Prop :=
  match answer with Some x => o = Ok x | None => ∃ err, o = Panic err end.
End spec.

(** ** Lemmas *)

Section probe.
Context `{CoreLaws} `{!GethLaws} `{!Upstream} `{!Remote} `{!Growth}.
Context (answer : BatchElem → option RpcValue) (N : nat) (HN : Reliable answer N).
Context (Htr : ∀ j h, is_Some (make_tracer None (mkTracerContext blockHash j h))).
Context (r : loc).
Implicit Types (b : Z) (A S : Abs) (bv : BlockValues) (cid gp : Z) (s : Node) (w : World).

Abbreviation OK := (node_ok answer N r).
Abbreviation FORKED := (forked answer N r).

(** A message on a clone, under a keccak tracer: the tracer lists what the message does,
    or panics, and nothing that existed is touched. *)
Lemma run_on_clone own base b w c S ctx bv cid msg :
  refines answer own base r b w c S → block_values ctx w = (Ok bv, w) →
  a_depth S + 1 + frames_of msg < 2 ^ 63 →
  ∃ db w1 o w' first, Clone c w = (Ok db, w1) ∧
    apply_message db ctx cid msg (2 ^ 64 - 1) (Some (TrKeccak NewKeccakTracer)) w1 = (o, w') ∧
    spec_probe_run bv cid msg (cloned S) = Some first ∧
    match first with
    | Some (x, ops) => ∃ gas t, o = Ok (x, gas, Some (TrKeccak t)) ∧ Keccak_GetResult t = ops
    | None => ∃ err, o = Panic err
    end ∧ confined answer b r c own w own w' ∧ refines answer own base r b w' c S.
Proof.
  intros Href Hbv Hd. set (p := ApplyMessage bv cid msg (2 ^ 64 - 1)). pose proof (frames_of_pos msg) as Hpos.
  destruct (clone_step answer own base r b w c S Href ltac:(lia)) as (w1 & Hrun1 & Hc1 & _ & _ & _ & Hconf1).
  assert (∀ w2 own2, confined answer b r (Datatypes.S (w_next w)) [w_next w] w1 own2 w2 → fresh_world w2 →
    confined answer b r c own w own w2 ∧ refines answer own base r b w2 c S) as Hleft.
  { intros w2 own2 Hconf2 Hfresh. assert (untouched answer b r w w2) as Hu.
    { eapply (untouched_step answer r b w w1 w2); [|exact Hconf2|lia|intros l ->%list_elem_of_singleton; done].
      eapply (untouched_step answer r b w w w1); [apply untouched_refl|exact Hconf1|lia|by intros l ?%elem_of_nil]. }
    split; [by apply untouched_confined|]. eapply untouched_refines; [exact Hu|exact Hfresh|exact Href]. }
  assert (∀ o w2, trace_loop (Datatypes.S (w_next w)) p (CaptureStart (Datatypes.S (w_next w)) (TrKeccak NewKeccakTracer)) w1 =
    (o, w2) → apply_message (Datatypes.S (w_next w)) ctx cid msg (2 ^ 64 - 1) (Some (TrKeccak NewKeccakTracer)) w1 =
    (y ← ((λ _, (o, w2)) : M World _); (mret (y.1, Some y.2) : M World _)) w1) as Happ.
  { intros o w2 Hrun2. unfold apply_message.
    assert (block_values ctx w1 = (Ok bv, w1)) as Hbv1.
    { eapply block_values_ext; [exact (cf_bigs _ _ _ _ _ _ _ _ Hconf1)|exact Hbv]. }
    rewrite (bind_Ok _ _ _ _ _ Hbv1). unfold exec_traced. fold p. unfold mbind, M_bind. by rewrite Hrun2. }
  unfold spec_probe_run. fold p. exists (Datatypes.S (w_next w)), w1.
  destruct (keccak_stops p (cloned S)) as [A1|] eqn:Hstop.
  - destruct (trace_stops answer N HN _ r b _ p _ w1 (cloned S)
      (CaptureStart (Datatypes.S (w_next w)) (TrKeccak NewKeccakTracer)) A1 Hc1)
      as (err & w2 & own2 & Hrun2 & Hc2 & Hconf2); [by rewrite stops_start|done|].
    exists (Panic err), w2, None. destruct (Hleft _ _ Hconf2 (refines_fresh _ _ _ _ _ _ _ _ Hc2)) as [? ?].
    split_and!; [done|by rewrite (Happ _ _ Hrun2)|done|by exists err|done|done].
  - destruct (ApplyMessage_disciplined bv cid msg (2 ^ 64 - 1) (cloned S) ltac:(simpl; lia)) as (x & S' & _ & Hp & _).
    destruct (trace_run answer N HN _ r b _ p _ w1 (cloned S)
      (CaptureStart (Datatypes.S (w_next w)) (TrKeccak NewKeccakTracer)) x S' Hc1)
      as (w2 & own2 & Hrun2 & Hc2 & Hconf2); [by rewrite stops_start|done|done|].
    cbn [CaptureStart Keccak_CaptureStart] in Hrun2. rewrite shown_all_keccak in Hrun2.
    destruct (Hleft _ _ Hconf2 (refines_fresh _ _ _ _ _ _ _ _ Hc2)) as [? ?].
    fold p in Hp. rewrite Hp. cbn [mbind option_bind].
    eexists _, w2, (Some (x.1, trace_ops p (cloned S))).
    split_and!; [done|by rewrite (Happ _ _ Hrun2)|done| |done|done].
    exists x.2. eexists. split; [by destruct x|done].
Qed.

(** One run of the probe. *)
Lemma probe_run_run b A bv bv' cid gp c S s ctx msg :
  FORKED b A bv cid gp c S s → block_values ctx (es_world (n_evm s)) = (Ok bv', es_world (n_evm s)) →
  a_depth S + 1 + frames_of msg < 2 ^ 63 →
  ∃ first o w', spec_probe_run bv' cid msg (cloned S) = Some first ∧ ends_with first o ∧
    probe_run c ctx cid msg s = (o, set_n_evm (set_world w' (n_evm s)) s) ∧
    FORKED b A bv cid gp c S (set_n_evm (set_world w' (n_evm s)) s) ∧ w_bigs w' = w_bigs (es_world (n_evm s)).
Proof.
  intros Hfk Hbv Hd. destruct (fk_db _ _ _ _ _ _ _ _ _ _ _ Hfk) as (d & q & Hsd & Hp & Hbs).
  pose proof Hbs as (_ & _ & _ & own0 & base0 & _ & Hc0 & _).
  set (w := es_world (n_evm s)) in *.
  destruct (run_on_clone own0 base0 b w c S ctx bv' cid msg Hc0 Hbv Hd)
    as (db & w1 & o & w' & first & Hclone & Happ & Hspec & Hout & _).
  destruct (beside_run answer N (λ _, (Ok tt, w')) tt S r b d q A c S w Hbs) as (w2 & E & Hbs' & Hbg).
  { intros own1 base Hc. exists w', own1. split; [done|].
    destruct (run_on_clone own1 base b w c S ctx bv' cid msg Hc Hbv Hd)
      as (db' & w1' & o' & w2 & first' & Hclone' & Happ' & _ & _ & Hconf & Href).
    rewrite Hclone in Hclone'. injection Hclone' as <- <-. rewrite Happ in Happ'. injection Happ' as <- <-. by split. }
  injection E as <-. exists first.
  assert (∀ o', (r ← ((λ _, (o, set_n_evm (set_world w' (n_evm s)) s)) : M Node _);
      (mret (r.1.1, match r.2 with Some (TrKeccak t) => Keccak_GetResult t | _ => [] end) : M Node _)) s =
      (o', set_n_evm (set_world w' (n_evm s)) s) →
    probe_run c ctx cid msg s = (o', set_n_evm (set_world w' (n_evm s)) s)) as Hrun.
  { intros o' <-. unfold probe_run.
    rewrite (bind_Ok _ _ _ _ _ (in_evm_Ok _ s _ _ (in_world_Ok _ _ _ _ Hclone))).
    unfold mbind, M_bind, in_evm, in_world, zoom. simpl. by rewrite Happ. }
  assert (FORKED b A bv cid gp c S (set_n_evm (set_world w' (n_evm s)) s)) as Hfk'.
  { eapply forked_evm; [done..| |apply Hfk]. destruct (fk_ready _ _ _ _ _ _ _ _ _ _ _ Hfk).
    split; [done|done|]. by eapply block_values_ext. }
  destruct first as [[x ops]|].
  - destruct Hout as (gas & t & -> & <-). exists (Ok (x, Keccak_GetResult t)), w'.
    split_and!; [exact Hspec|done|by apply Hrun|exact Hfk'|exact Hbg].
  - destruct Hout as [err ->]. exists (Panic err), w'.
    split_and!; [exact Hspec|by exists err|by apply Hrun|exact Hfk'|exact Hbg].
Qed.

Lemma add_one_run l z w : w_bigs w !! l = Some z → add_one (Some l) w = (Ok tt, with_bigs <[l := z + 1]> w).
Proof. intros Hl. unfold add_one. rewrite (bind_Ok _ _ _ _ _ (get_bigp_run _ _ _ Hl)). done. Qed.

(** The node's block moves. *)
Lemma forked_probed b A bv cid gp c S s :
  FORKED b A bv cid gp c S s → let ctx := vmContext (es_evm (n_evm s)) in
  ∃ w', (in_evm (in_world (add_one (bc_Difficulty ctx))) ;; in_evm (in_world (add_one (bc_Time ctx)))) s =
      (Ok tt, set_n_evm (set_world w' (n_evm s)) s) ∧
    FORKED b A (probed bv) cid gp c S (set_n_evm (set_world w' (n_evm s)) s) ∧
    block_values (set_GasLimit (u64 (bc_GasLimit ctx + 1)) ctx) w' = (Ok (later bv), w').
Proof.
  intros [Hp (d & p & Hd & Hbn & Hbs) [Hg Hci Hbv] Hown] ctx. fold ctx in Hbv, Hown.
  destruct (block_values_inv _ _ _ Hbv) as (n & t & df & f & Hctx & Hn & Ht & Hdf & Hf).
  rewrite Hctx in Hown. pose proof (own_numbers_inv _ _ _ _ _ _ Hown) as (?&?&?&?&?&?).
  set (w := es_world (n_evm s)) in *.
  set (w1 := with_bigs <[df := bv_Difficulty bv + 1]> w). set (w2 := with_bigs <[t := bv_Time bv + 1]> w1).
  assert (w_bigs w1 !! t = Some (bv_Time bv)) as Ht1 by (simpl; by rewrite lookup_insert_ne).
  exists w2. split; [|split].
  - rewrite Hctx. cbn [bc_Difficulty bc_Time].
    rewrite (bind_Ok _ _ _ _ _ (in_evm_Ok _ s _ _ (in_world_Ok _ _ _ _ (add_one_run _ _ w Hdf)))).
    exact (in_evm_Ok _ (set_n_evm (set_world w1 (n_evm s)) s) _ _
      (in_world_Ok _ (set_world w1 (n_evm s)) _ _ (add_one_run _ _ w1 Ht1))).
  - split; [done| | |].
    + exists d, p. split; [done|]. split; [done|]. eapply beside_heap; [exact Hbs|done|done|done|done|simpl; lia|simpl; lia].
    + split; [done|done|]. simpl. fold ctx. rewrite Hctx. apply block_values_run; simpl; by simplify_map_eq.
    + simpl. fold ctx. by rewrite Hctx.
  - rewrite Hctx. apply block_values_run; simpl; by simplify_map_eq.
Qed.

(** The sender's code hash is cleared on the clone. *)
Lemma forked_clear b A bv cid gp c S s msg :
  FORKED b A bv cid gp c S s →
  ∃ w', in_evm (in_world (SetCodeHash c (m_From msg) Hash_zero)) s = (Ok tt, set_n_evm (set_world w' (n_evm s)) s) ∧
    FORKED b A bv cid gp c (before_msg msg S) (set_n_evm (set_world w' (n_evm s)) s).
Proof.
  intros Hfk. apply (forked_world answer N r _ _ _ _ _ _ _ _ _ _ _ Hfk). intros own1 base w Hc.
  destruct (run_op_refines answer N HN base r b c own1 w S (OpSetCodeHash (m_From msg) Hash_zero) _ _ Hc eq_refl)
    as (w1 & own2 & Hrun & Hc' & Hconf).
  cbn [run_op] in Hrun. apply bind_Ok_inv in Hrun as ([] & w1' & Hrun & [= ->]). by exists w1, own2.
Qed.

Lemma probe_both b A bv cid gp c S s msg :
  FORKED b A bv cid gp c S s → a_depth S + 1 + frames_of msg < 2 ^ 63 →
  let ctx := vmContext (es_evm (n_evm s)) in
  ∃ reply bv' o s', spec_probe bv cid msg (cloned S) = Some (reply, bv') ∧ ends_with reply o ∧
    (r ← probe_run c ctx cid msg;
     match call_result msg r.1 with
     | inl err => mret (inl err)
     | inr _ =>
         let ops0 := r.2 in
         in_evm (in_world (add_one (bc_Difficulty ctx))) ;;
         in_evm (in_world (add_one (bc_Time ctx))) ;;
         let ctx := set_GasLimit (u64 (bc_GasLimit ctx + 1)) ctx in
         r ← probe_run c ctx cid msg;
         match call_result msg r.1 with
         | inl err => mret (inl err)
         | inr _ => mret (inr (ops0, r.2))
         end
     end) s = (o, s') ∧
    OK b A bv' cid gp s' ∧ n_pool s' = n_pool s ∧ n_backend s' = n_backend s.
Proof.
  intros Hfk Hd ctx. pose proof (fk_ready _ _ _ _ _ _ _ _ _ _ _ Hfk) as [_ _ Hbv].
  destruct (probe_run_run _ _ _ _ _ _ _ _ _ _ msg Hfk Hbv Hd) as (first & o1 & w1 & Hs1 & Ho1 & Hrun1 & Hfk1 & _).
  set (s1 := set_n_evm _ s) in *. unfold spec_probe. rewrite Hs1. cbn [mbind option_bind].
  destruct first as [[r1 ops0]|]; simpl in Ho1.
  2:{ destruct Ho1 as [err ->]. exists None, bv, (Panic err), s1.
      split_and!; [done|by exists err|by apply bind_Panic|by eapply forked_ok|done|done]. }
  subst o1. rewrite (bind_Ok _ _ _ _ _ Hrun1). cbn [fst snd].
  destruct (call_result msg r1) as [err|res1].
  { exists (Some (inl err)), bv, (Ok (inl err)), s1. split_and!; [done|done|done|by eapply forked_ok|done|done]. }
  destruct (forked_probed _ _ _ _ _ _ _ _ Hfk1) as (w2 & Hrun2 & Hfk2 & Hbv2).
  set (s2 := set_n_evm _ s1) in *.
  destruct (probe_run_run _ _ _ (later bv) _ _ _ _ _ _ msg Hfk2 Hbv2 Hd) as (second & o2 & w3 & Hs2 & Ho2 & Hrun3 & Hfk3 & _).
  set (s3 := set_n_evm _ s2) in *. rewrite Hs2. cbn [mbind option_bind].
  apply bind_Ok_inv in Hrun2 as ([] & s1' & Ha & Hb). cbv zeta.
  rewrite (bind_Ok _ _ _ _ _ Ha), (bind_Ok _ _ _ _ _ Hb). apply forked_ok in Hfk3.
  destruct second as [[r2 ops1]|]; simpl in Ho2.
  - subst o2. rewrite (bind_Ok _ _ _ _ _ Hrun3). cbn [fst snd option_map].
    destruct (call_result msg r2) as [err|res2]; eexists _, _, _, s3; by split_and!.
  - destruct Ho2 as [err ->]. exists None, (probed bv), (Panic err), s3.
    split_and!; [done|by exists err|by apply bind_Panic|exact Hfk3|done|done].
Qed.

Lemma RunTxWithDifferentContext_run b A bv cid gp s before tx after :
  OK b A bv cid gp s → (entries (n_pool s)).*1 = before ++ tx :: after →
  tx_Hash tx ∉ tx_Hash <$> before → 3 + budget (before ++ [tx]) < 2 ^ 63 →
  let msg := tx_message cid tx in
  ∃ S0 out gp' S1 reply bv' o s', at_block answer b S0 ∧
    spec_ExecuteTxs bv cid gp 0 before None S0 = Some (out, gp', S1) ∧
    spec_probe bv cid msg (cloned (before_msg msg S1)) = Some (reply, bv') ∧ ends_with reply o ∧
    RunTxWithDifferentContext (tx_Hash tx) s = (o, s') ∧ OK b A bv' cid gp' s' ∧ n_pool s' = n_pool s.
Proof.
  intros Hok Hent Hnin Hbud msg. rewrite budget_app in Hbud.
  pose proof (frames_of_budget cid tx) as Hfr. fold msg in Hfr.
  destruct (replay_run answer N HN Htr r _ _ _ _ _ _ before Hok
    ltac:(pose proof (frames_of_pos msg); lia)) as
    (c & S0 & out & gp' & S1 & s1 & Hat & Hspec & Hrep & Hfk1 & Hdep & Hp1 & _).
  destruct (forked_clear _ _ _ _ _ _ _ _ msg Hfk1) as (w2 & Hclear & Hfk2).
  destruct (probe_both _ _ _ _ _ _ _ _ msg Hfk2) as
    (reply & bv' & o & s3 & Hreply & Ho & Hboth & Hok3 & Hp3 & _); [simpl; lia|].
  exists S0, out, gp', S1, reply, bv', o, s3.
  split_and!; [exact Hat|exact Hspec|exact Hreply|exact Ho| |exact Hok3|by rewrite Hp3].
  unfold RunTxWithDifferentContext.
  rewrite (bind_Ok _ _ _ _ _ (pool_txs_run s (nk_pool _ _ _ _ _ _ _ _ _ Hok))).
  rewrite Hent, (find_tx_first before tx after []) by done. cbn [app].
  rewrite (bind_Ok _ _ _ _ _ Hrep).
  rewrite (bind_Ok _ _ _ _ _ (in_evm_TxToMessage answer N r _ _ _ _ _ _ tx (forked_ok _ _ _ _ _ _ _ _ _ _ _ Hfk1))).
  fold msg. rewrite (bind_Ok _ _ _ _ _ Hclear), (bind_Ok _ _ _ _ _ (in_evm_GetVMContext _)).
  rewrite (bind_Ok _ _ _ _ _ (in_evm_ChainID answer N r _ _ _ _ _ _ (forked_ok _ _ _ _ _ _ _ _ _ _ _ Hfk2))).
  exact Hboth.
Qed.

(** ** Properties *)

(** C24: a probe replays the pool before the transaction on the pinned block and runs the
    transaction twice, each time from the state the replay leads to, in the node's block and
    then, if it was applied, in one whose time, difficulty and gas limit are larger by one.
    It answers with what each run hashed, loaded, stored and read of its gas, or with the
    error of the run that was not applied; but a run that shows a hash, a revert, a load or a
    store that the keccak tracer cannot read makes the request panic.  State and pool are
    untouched, even then, but after a first run that was applied the node's own time and
    difficulty are larger by one. *)
Theorem RunTxWithDifferentContext_spec b A bv cid gp s before tx after :
  OK b A bv cid gp s → (entries (n_pool s)).*1 = before ++ tx :: after →
  tx_Hash tx ∉ tx_Hash <$> before → 3 + budget (before ++ [tx]) < 2 ^ 63 →
  let msg := tx_message cid tx in
  ∃ S0 out gp' S1 reply bv' o s', at_block answer b S0 ∧
    spec_ExecuteTxs bv cid gp 0 before None S0 = Some (out, gp', S1) ∧
    spec_probe bv cid msg (cloned (before_msg msg S1)) = Some (reply, bv') ∧ ends_with reply o ∧
    RunTxWithDifferentContext (tx_Hash tx) s = (o, s') ∧ OK b A bv' cid gp' s' ∧ n_pool s' = n_pool s.
Proof. exact (RunTxWithDifferentContext_run b A bv cid gp s before tx after). Qed.
End probe.

(** ** Examples *)

Module ToyProbe.
Export ToyUp.

Definition answered {X Y} (q : option (Err + X) * Y) : bool * Y :=
  (match q.1 with Some (inr _) => true | _ => false end, q.2).

(** The replay of the first transaction leaves few layers. *)
Lemma replayed_depth S0 gp out gp' S1 :
  at_block answer 100 S0 → spec_ExecuteTxs bv1 1 gp 0 [sent 7 5 []] None S0 = Some (out, gp', S1) →
  (a_depth S1 + 1 + 1 <? 2 ^ 63) = true.
Proof.
  intros [_ _ Hlg Hrc Hdep _] Hspec. apply spec_ExecuteTxs_record in Hspec as (_ & Hd & _).
  - rewrite Hdep in Hd. change (budget [sent 7 5 []]) with 2502 in Hd. apply Z.ltb_lt. lia.
  - rewrite Hdep. reflexivity.
  - apply NoDup_singleton.
  - repeat constructor; [apply Hrc|apply Hlg].
Qed.

Lemma probe_value S1 :
  (a_depth S1 + 1 + 1 <? 2 ^ 63) = true →
  option_map answered (spec_probe bv1 1 (tx_message 1 (sent 8 6 [x01]))
    (cloned (before_msg (tx_message 1 (sent 8 6 [x01])) S1))) = Some (true, probed bv1).
Proof.
  intros E. unfold spec_probe, spec_probe_run.
  simpl. rewrite E. simpl. rewrite Z.eqb_refl. reflexivity.
Qed.

(** The second transaction of the pool is probed: it reverts in both blocks, and the node's
    block has moved.  When it loads without an operand, the probe panics instead. *)
Lemma RunTxWithDifferentContext_spec_witness :
  (∃ s gp A ops0 ops1 s', length (entries (n_pool s)) = 2%nat ∧ node_ok answer 1 1%nat 100 A bv1 1 gp s ∧
    RunTxWithDifferentContext (tx_Hash (sent 8 6 [x01])) s = (Ok (inr (ops0, ops1)), s') ∧
    ∃ gp', node_ok answer 1 1%nat 100 A (probed bv1) 1 gp' s') ∧
  ∃ err gp' s', RunTxWithDifferentContext (tx_Hash (sent 8 6 [x54])) (set_n_pool ToyRange.pool_bad node1) =
      (Panic err, s') ∧ node_ok answer 1 1%nat 100 AF bv1 1 gp' s'.
Proof.
  split.
  - destruct ToyProps.two_pooled as (o1 & o2 & gp & A & s & Hok & Hent).
    destruct (RunTxWithDifferentContext_spec answer 1 reliable tracers1 1%nat 100 A bv1 1 gp s [sent 7 5 []]
      (sent 8 6 [x01]) [] Hok) as (S0 & out & gp' & S1 & reply & bv' & o & s' & Hat & Hspec & Hreply & Ho & Hrun & Hok' & _).
    + by rewrite Hent.
    + apply (bool_decide_unpack _). reflexivity.
    + reflexivity.
    + apply (f_equal (option_map answered)) in Hreply.
      rewrite (probe_value _ (replayed_depth _ _ _ _ _ Hat Hspec)) in Hreply. apply (inj Some) in Hreply.
      pose proof (f_equal snd Hreply : probed bv1 = bv') as Hbv. apply (f_equal fst) in Hreply. subst bv'.
      destruct reply as [[err|[ops0 ops1]]|]; [discriminate Hreply| |discriminate Hreply]. simpl in Ho. subst o.
      exists s, gp, A, ops0, ops1, s'. rewrite Hent. split; [reflexivity|]. split; [exact Hok|]. split; [exact Hrun|].
      exists gp'. exact Hok'.
  - destruct (RunTxWithDifferentContext_spec answer 1 reliable tracers1 1%nat 100 AF bv1 1 30000000
      (set_n_pool ToyRange.pool_bad node1) [sent 7 5 []] (sent 8 6 [x54]) []
      (node_ok_pool answer 1 1%nat _ _ _ _ _ _ _ ToyRange.pool_bad_ok ok1))
      as (S0 & out & gp' & S1 & reply & bv' & o & s' & Hat & Hspec & Hreply & Ho & Hrun & Hok' & _).
    + reflexivity.
    + apply (bool_decide_unpack _). reflexivity.
    + reflexivity.
    + assert (spec_probe bv1 1 (tx_message 1 (sent 8 6 [x54]))
        (cloned (before_msg (tx_message 1 (sent 8 6 [x54])) S1)) = Some (None, bv1)) as E.
      { pose proof (replayed_depth _ _ _ _ _ Hat Hspec) as E. unfold spec_probe, spec_probe_run.
        simpl. rewrite E. reflexivity. }
      rewrite E in Hreply. injection Hreply as <- <-. destruct Ho as [err ->].
      exists err, gp', s'. split; [exact Hrun|exact Hok'].
Defined.
End ToyProbe.
