(* ===== verification/Blocks.v ===== *)
(** * Tracing blocks on a running node

    [traceBlocks] moves the node to the state before the first block and executes the
    blocks on a clone of its root, one after the other, each with its own numbers and gas;
    the trace of a transaction is read back from the last log of its receipt. *)
From S2P Require Import Prelude BigInt Geth World OverlayState Fetch StateSpec OverlayStateDB.
From S2P Require Import VmStateDB Refinement Clones Reset Merge Chain GoSlice GoStd ToyInstance TxPool.
From S2P Require Import Signer Tracers TxArgs Evm Warm EvmProps Backend Actions Debug NodeState.
From S2P Require Import NodeSteps Receipts ToyNode NodeToy.

(** ** The traces of a list of blocks *)

Section spec.
Context `{Core} `{!Upstream} `{!Remote}.
Implicit Types (A : Abs) (bv : BlockValues) (cid gp : Z) (config : option TraceConfig).

(** The trace of a message, if it was applied. *)
Definition trace_of (o : MsgOutcome) : option bytes :=
  match mo_receipt o with Some (_, logs) => log_Data <$> last logs | None => None end.

(** One message after the other, each with its trace. *)
Fixpoint spec_traces bv cid gp (i : Z) (txs : list Transaction) config A
    : option (list (option bytes) * Z * Abs) :=
  match txs with
  | [] => Some ([], gp, A)
  | tx :: txs =>
      o ← spec_ExecuteMsg bv cid gp (tx_message cid tx) (tx_Hash tx) i config A;
      rest ← spec_traces bv cid (mo_pool o) (i + 1) txs config (mo_abs o);
      Some (trace_of o :: rest.1.1, rest.1.2, rest.2)
  end.

(** What is on record as the trace of a transaction. *)
Definition trace_in A (h : Hash) : option bytes :=
  match f_receipts (a_frame A) h with Some _ => log_Data <$> last (f_logs (a_frame A) h) | None => None end.

(** The blocks of a list, each with the numbers and the gas of its header; [f] executes the
    transactions of one. *)
Fixpoint over_blocks (f : BlockValues → Z → list Transaction → Abs → option (list (option bytes) * Abs))
    (e : MferEVM) bv (blocks : list Block) A : option (list (list (option bytes)) * Abs) :=
  match blocks with
  | [] => Some ([], A)
  | blk :: blocks =>
      let h := block_Header blk in let bv := same_block h e bv in
      r ← f bv (hd_GasLimit h) (block_Transactions blk) A;
      rest ← over_blocks f e bv blocks r.2;
      Some (r.1 :: rest.1, rest.2)
  end.

(** Every transaction with the trace of its own message. *)
Definition spec_blocks cid config : MferEVM → BlockValues → list Block → Abs → option (list (list (option bytes)) * Abs) :=
  over_blocks (λ bv gp txs A, (λ r, (r.1.1, r.2)) <$> spec_traces bv cid gp 0 txs config A).

(** Every transaction with what is on record when its block is done. *)
Definition read_blocks cid config : MferEVM → BlockValues → list Block → Abs → option (list (list (option bytes)) * Abs) :=
  over_blocks (λ bv gp txs A,
    (λ r, (map (λ tx, trace_in r.2 (tx_Hash tx)) txs, r.2)) <$> spec_ExecuteTxs bv cid gp 0 txs config A).

(** The block the node is left in. *)
Definition last_block (e : MferEVM) bv (blocks : list Block) : BlockValues :=
  foldl (λ bv blk, same_block (block_Header blk) e bv) bv blocks.

(** What the upstream node serves of a range, from its [i]-th request on. *)
Fixpoint served (i : nat) (from : Z) (count : nat) : Err + list Block :=
  match count with
  | O => inr []
  | S count =>
      match rpc_BlockByNumber i (Some from) with
      | inl err => inl err
      | inr blk =>
          match served (S i) (from + 1) count with inl err => inl err | inr blks => inr (blk :: blks) end
      end
  end.

Definition block_txs (blocks : list Block) : list Transaction := mjoin (map block_Transactions blocks).
End spec.

(** ** What is on record is the trace *)

Section reading.
Context `{CoreLaws} `{!GethLaws} `{!Upstream} `{!Remote}.
Implicit Types (A : Abs) (bv : BlockValues) (cid gp : Z).

Lemma trace_in_same h A A' : same_record h A A' → trace_in A' h = trace_in A h.
Proof. unfold trace_in. by intros [-> ->]. Qed.

(** With different hashes nobody's record is overwritten. *)
Lemma spec_traces_read bv cid gp i txs config A out gp' A' :
  spec_ExecuteTxs bv cid gp i txs config A = Some (out, gp', A') → a_depth A + 2 + budget txs < 2 ^ 63 →
  NoDup (tx_Hash <$> txs) → Forall (blank A) (tx_Hash <$> txs) →
  spec_traces bv cid gp i txs config A = Some (map (λ tx, trace_in A' (tx_Hash tx)) txs, gp', A').
Proof.
  revert gp i A out. induction txs as [|tx txs IH]; intros gp i A out; cbn [spec_ExecuteTxs spec_traces].
  { by intros [= <- <- <-] _ _ _. }
  intros (o & Ho & E)%bind_Some Hd Hnd Hbl. apply bind_Some in E as ([[out1 gp1] A1] & E & E2).
  injection E2 as <- <- <-. rewrite Ho. cbn [mbind option_bind].
  cbn [fmap list_fmap] in *. apply NoDup_cons in Hnd as [Hn Hnd]. apply Forall_cons in Hbl as [Hb Hbl].
  change (budget (tx :: txs)) with (budget ([tx] ++ txs)) in *. rewrite budget_app in *.
  pose proof (budget_nonneg txs). pose proof (frames_of_budget cid tx) as Hfr.
  destruct (spec_ExecuteMsg_record bv cid gp (tx_message cid tx) (tx_Hash tx) i config A o ltac:(lia) Ho) as (Hmsg & Hother & Hdep).
  assert (Forall (blank (mo_abs o)) (tx_Hash <$> txs)) as Hbl'.
  { apply Forall_forall. intros h Hh. eapply blank_same; [apply Hother|by eapply Forall_forall in Hbl].
    intros ->. contradiction. }
  rewrite (IH _ _ _ _ E) by (done || lia). cbn [mbind option_bind fst snd map].
  destruct (spec_ExecuteTxs_record _ _ _ _ _ _ _ _ _ _ E ltac:(lia) Hnd Hbl') as (Hsame & _).
  rewrite (trace_in_same _ _ _ (Hsame _ Hn)). do 4 f_equal.
  unfold msg_record, trace_of, trace_in in *. destruct (mo_receipt o) as [[res logs]|].
  - by destruct Hmsg as (_ & -> & -> & _).
  - destruct Hmsg as (_ & -> & _), Hb as [-> _]. done.
Qed.

Lemma budget_blocks blk blocks :
  budget (block_txs (blk :: blocks)) = budget (block_Transactions blk) + budget (block_txs blocks).
Proof. unfold block_txs. cbn [map mjoin list_join]. apply budget_app. Qed.

Lemma spec_blocks_read e bv cid config blocks A res A' :
  read_blocks cid config e bv blocks A = Some (res, A') → a_depth A + 2 + budget (block_txs blocks) < 2 ^ 63 →
  NoDup (tx_Hash <$> block_txs blocks) → (∀ h, h ∈ tx_Hash <$> block_txs blocks → blank A h) →
  spec_blocks cid config e bv blocks A = Some (res, A').
Proof.
  unfold read_blocks, spec_blocks.
  revert bv A res. induction blocks as [|blk blocks IH]; intros bv A res; cbn [over_blocks]; [done|].
  intros ([l A1] & E & E2)%bind_Some Hd Hnd Hbl. apply bind_Some in E2 as ([rest A2] & E2 & E3).
  injection E3 as <- <-. apply fmap_Some in E as ([[out gp'] A1'] & E & [= -> ->]). cbn [fst snd] in *.
  rewrite budget_blocks in Hd. pose proof (budget_nonneg (block_txs blocks)).
  change (block_txs (blk :: blocks)) with (block_Transactions blk ++ block_txs blocks) in *.
  rewrite fmap_app in *. apply NoDup_app in Hnd as (Hnd1 & Hdisj & Hnd2).
  assert (Forall (blank A) (tx_Hash <$> block_Transactions blk)) as Hbl1.
  { apply Forall_forall. intros h Hh. apply Hbl, elem_of_app. by left. }
  rewrite (spec_traces_read _ _ _ _ _ _ _ _ _ _ E) by (done || lia). cbn [fmap option_fmap option_map mbind option_bind fst snd].
  destruct (spec_ExecuteTxs_record _ _ _ _ _ _ _ _ _ _ E) as (Hsame & Hdep & _); [lia|done|done|].
  rewrite (IH _ _ _ E2); [done|lia|done|].
  intros h Hh. eapply blank_same; [apply Hsame|apply Hbl, elem_of_app; by right].
  intros Hin. by eapply Hdisj.
Qed.
End reading.

(** ** Running the blocks *)

Section running.
Context `{CoreLaws} `{!GethLaws} `{!Upstream} `{!Remote} `{!Growth}.
Context (answer : BatchElem → option RpcValue) (N : nat) (HN : Reliable answer N).
Context (r : loc).
Implicit Types (b : Z) (A S : Abs) (bv : BlockValues) (cid gp : Z) (s : Node) (w : World).

Abbreviation OK := (node_ok answer N r).
Abbreviation FORKED := (forked answer N r).

(** Refilling the gas pool. *)
Lemma forked_gas b A bv cid gp c S s :
  FORKED b A bv cid gp c S s →
  ∃ es', in_evm AddGasPool s = (Ok tt, set_n_evm es' s) ∧ FORKED b A bv cid (bv_GasLimit bv) c S (set_n_evm es' s) ∧
    timeDelta (es_evm es') = timeDelta (es_evm (n_evm s)).
Proof.
  intros [Hp Hdb [Hg Hci Hbv] Hc]. destruct (block_values_inv _ _ _ Hbv) as (n & t & df & f & Hctx & _).
  eexists. split; [by apply in_evm_Ok|]. split; [|done].
  split; [done|exact Hdb| |exact Hc]. split; [|done|exact Hbv]. simpl. by rewrite Hctx.
Qed.

(** A run on the world that fills in receipts at most. *)
Definition fills w w' : Prop :=
  ∃ f, w' = with_receipts f w ∧ same_receipts w w'.

Lemma fills_refl w : fills w w.
Proof. exists id. split; [by destruct w|done]. Qed.

Lemma forked_fills {X} (m : M World X) b A bv cid gp c S s x w' :
  FORKED b A bv cid gp c S s → m (es_world (n_evm s)) = (Ok x, w') → fills (es_world (n_evm s)) w' →
  in_evm (in_world m) s = (Ok x, set_n_evm (set_world w' (n_evm s)) s) ∧
  FORKED b A bv cid gp c S (set_n_evm (set_world w' (n_evm s)) s).
Proof.
  intros [Hp (d & p & Hd & Hbn & Hbs) [Hg Hci Hbv] Hc] Hrun (f & -> & Hsame).
  split; [by apply in_evm_Ok, in_world_Ok|].
  split; [done| | |exact Hc].
  - exists d, p. split; [done|]. split; [done|]. by eapply beside_heap.
  - split; [done|done|]. eapply block_values_ext; [|exact Hbv]. done.
Qed.

Lemma trace_of_receipt_step own base b w c S tx :
  refines answer own base r b w c S →
  ∃ w', trace_of_receipt c tx w = (Ok (trace_in S (tx_Hash tx)), w') ∧ fills w w'.
Proof.
  intros Href. pose proof (GetReceipt_step answer r _ _ _ _ _ _ (tx_Hash tx) Href) as Hget.
  unfold trace_of_receipt, trace_in. destruct (f_receipts (a_frame S) (tx_Hash tx)) as [rc|].
  - destruct Hget as (l & rc' & w' & Hrun & -> & _ & Hlg & Hsame). eexists. split; [|by eexists].
    rewrite (bind_Ok _ _ _ _ _ Hrun). unfold get_receipt.
    rewrite (bind_deref (λ w, w_receipts w !! l) _ _ rc') by (simpl; apply lookup_insert_eq). by rewrite Hlg.
  - exists w. rewrite (bind_Ok _ _ _ _ _ Hget). split; [done|apply fills_refl].
Qed.

Lemma fills_trans w1 w2 w3 : fills w1 w2 → fills w2 w3 → fills w1 w3.
Proof.
  intros (f & -> & H12) (g & -> & H23). exists (λ m, g (f m)). split; [done|].
  intros l. by rewrite (H23 l).
Qed.

Lemma traces_of_receipts own base b w c S txs :
  refines answer own base r b w c S →
  ∃ w', map_m (trace_of_receipt c) txs w = (Ok (map (λ tx, trace_in S (tx_Hash tx)) txs), w') ∧ fills w w'.
Proof.
  revert w. induction txs as [|tx txs IH]; intros w Href; cbn [map_m map]; [exists w; split; [done|apply fills_refl]|].
  destruct (trace_of_receipt_step _ _ _ _ _ _ tx Href) as (w1 & Hrun1 & Hf1).
  assert (refines answer own base r b w1 c S) as Href1.
  { destruct Hf1 as (f & -> & Hsame). by eapply refines_heap. }
  destruct (IH w1 Href1) as (w2 & Hrun2 & Hf2). exists w2. split; [|by eapply fills_trans].
  by rewrite (bind_Ok _ _ _ _ _ Hrun1), (bind_Ok _ _ _ _ _ Hrun2).
Qed.

Lemma forked_traces b A bv cid gp c S s txs :
  FORKED b A bv cid gp c S s →
  ∃ w', in_evm (in_world (map_m (trace_of_receipt c) txs)) s =
      (Ok (map (λ tx, trace_in S (tx_Hash tx)) txs), set_n_evm (set_world w' (n_evm s)) s) ∧
    FORKED b A bv cid gp c S (set_n_evm (set_world w' (n_evm s)) s).
Proof.
  intros Hfk. pose proof (fk_db _ _ _ _ _ _ _ _ _ _ _ Hfk) as (d & p & _ & _ & _ & _ & _ & own1 & base & _ & Hc & _).
  destruct (traces_of_receipts _ _ _ _ _ _ txs Hc) as (w1 & Hrun1 & Hf1). exists w1. by eapply forked_fills.
Qed.

Lemma trace_block_run b A bv cid gp c S s config blk :
  FORKED b A bv cid gp c S s → a_depth S + 2 + budget (block_Transactions blk) < 2 ^ 63 →
  (∀ j h, is_Some (make_tracer config (mkTracerContext blockHash j h))) →
  let h := block_Header blk in let bv' := same_block h (es_evm (n_evm s)) bv in
  ∃ out gp' S' es', spec_ExecuteTxs bv' cid (hd_GasLimit h) 0 (block_Transactions blk) config S = Some (out, gp', S') ∧
    trace_block c config blk s = (Ok (map (λ tx, trace_in S' (tx_Hash tx)) (block_Transactions blk)), set_n_evm es' s) ∧
    FORKED b A bv' cid gp' c S' (set_n_evm es' s) ∧ a_depth S' ≤ a_depth S + budget (block_Transactions blk) ∧
    timeDelta (es_evm es') = timeDelta (es_evm (n_evm s)).
Proof.
  intros Hfk Hd Hcfg h bv'.
  destruct (forked_move answer N r _ _ _ _ _ _ _ _ h Hfk) as (es1 & Hrun1 & Hfk1 & _ & E1).
  destruct (forked_gas _ _ _ _ _ _ _ _ Hfk1) as (es2 & Hrun2 & Hfk2 & E2).
  destruct (forked_execute answer N HN r _ _ _ _ _ _ _ _ (block_Transactions blk) config Hfk2 Hd Hcfg)
    as (out & gp' & S' & es3 & Hspec & Hrun3 & Hfk3 & Hdep & _ & _ & E3).
  destruct (forked_traces _ _ _ _ _ _ _ _ (block_Transactions blk) Hfk3) as (w4 & Hrun4 & Hfk4).
  exists out, gp', S'. eexists. split; [exact Hspec|]. split; [|split; [exact Hfk4|split; [done|]]].
  - unfold trace_block. fold h. rewrite (bind_Ok _ _ _ _ _ Hrun1), (bind_Ok _ _ _ _ _ Hrun2).
    rewrite (bind_Ok _ _ _ _ _ Hrun3). exact Hrun4.
  - cbn [es_evm set_world n_evm set_n_evm] in *. congruence.
Qed.

(** All the blocks. *)
Lemma trace_blocks_run e b A bv cid gp c S s config blocks :
  FORKED b A bv cid gp c S s → a_depth S + 2 + budget (block_txs blocks) < 2 ^ 63 →
  (∀ j h, is_Some (make_tracer config (mkTracerContext blockHash j h))) →
  timeDelta (es_evm (n_evm s)) = timeDelta e →
  ∃ res gp' S' es', read_blocks cid config e bv blocks S = Some (res, S') ∧
    map_m (trace_block c config) blocks s = (Ok res, set_n_evm es' s) ∧
    FORKED b A (last_block e bv blocks) cid gp' c S' (set_n_evm es' s).
Proof.
  intros Hfk Hd Hcfg. revert bv gp S s Hfk Hd.
  induction blocks as [|blk blocks IH]; intros bv gp S s Hfk Hd Ht; cbn [map_m].
  { exists [], gp, S, (n_evm s). by destruct s. }
  rewrite budget_blocks in Hd. pose proof (budget_nonneg (block_txs blocks)).
  assert (∀ h, same_block h (es_evm (n_evm s)) bv = same_block h e bv) as Esame
    by (intros h; unfold same_block; by rewrite Ht).
  destruct (trace_block_run _ _ _ _ _ _ _ _ config blk Hfk) as (out & gp1 & S1 & es1 & Hspec & Hrun1 & Hfk1 & Hdep & E1);
    [lia|done|]. rewrite Esame in *.
  destruct (IH _ _ _ _ Hfk1) as (res & gp2 & S2 & es2 & Hread & Hrun2 & Hfk2); [lia|by simpl; rewrite E1|].
  exists (map (λ tx, trace_in S1 (tx_Hash tx)) (block_Transactions blk) :: res), gp2, S2, es2.
  split; [|split; [|exact Hfk2]].
  - unfold read_blocks in *. cbn [over_blocks]. rewrite Hspec. cbn [fmap option_fmap option_map mbind option_bind fst snd].
    by rewrite Hread.
  - by rewrite (bind_Ok _ _ _ _ _ Hrun1), (bind_Ok _ _ _ _ _ Hrun2).
Qed.
(** *** Getting there *)

Lemma CacheSize_run own base b w c S : refines answer own base r b w c S → ∃ n, CacheSize c w = (Ok n, w).
Proof.
  intros Href. destruct (rf_db _ _ _ _ _ _ _ _ Href) as (db & s & Hdb & Hs & _ & _ & Hc & Hl & Hr).
  destruct Hr as (st & _ & Hst & _).
  eexists. unfold CacheSize. rewrite (bind_Ok _ _ _ _ _ (get_db_Some _ _ _ Hdb)), Hs.
  rewrite (bind_Ok _ _ _ _ _ (getRootState_spec _ _ _ _ Hc Hl)).
  by rewrite (bind_Ok _ _ _ _ _ (get_state_Some _ _ _ Hst)).
Qed.

Lemma node_move b A bv cid gp s h :
  OK b A bv cid gp s →
  ∃ es', in_evm (SetVMContextByBlockHeader h) s = (Ok tt, set_n_evm es' s) ∧
    OK b A (same_block h (es_evm (n_evm s)) bv) cid gp (set_n_evm es' s) ∧
    timeDelta (es_evm es') = timeDelta (es_evm (n_evm s)).
Proof.
  intros [Hp (d & p & Hd & Hbn & Hdb) [Hg Hci Hbv] Hc].
  destruct (block_values_inv _ _ _ Hbv) as (n & t & df & f & Hctx & _).
  eexists. split; [apply in_evm_Ok; by eapply SetVMContextByBlockHeader_run|]. split; [|done].
  rewrite Hctx in Hbv, Hc. split; [done| | |].
  - exists d, p. split; [done|]. split; [done|]. eapply db_ok_heap; [exact Hdb|..]; simpl; try done; lia.
  - split; [done|done|]. eapply set_numbers_values in Hbv; [|exact Hc]. exact Hbv.
  - exact Hc.
Qed.

(** Pinning the database to another block, its money left out. *)
Lemma node_repin b A bv cid gp s b' clear :
  OK b A bv cid gp s →
  ∃ S0 w', (in_evm (SetBlockNumber b') ;; on_StateDB (λ d, InitState d true clear)) s =
      (Ok tt, set_n_evm (set_world w' (n_evm s)) s) ∧
    fresh_root answer b' S0 ∧ OK b' S0 bv cid gp (set_n_evm (set_world w' (n_evm s)) s).
Proof.
  intros [Hp (d & p & Hd & Hbn & Hdb) [Hg Hci Hbv] Hc].
  destruct (repin_step answer N HN r b d p A _ b' clear Hdb) as (w' & S0 & Hrun & Hdb' & Hfresh & Hb).
  apply bind_Ok_inv in Hrun as ([] & w1 & Hrun1 & Hrun2).
  exists S0, w'. split; [|split; [exact Hfresh|]].
  - rewrite (bind_Ok (in_evm (SetBlockNumber b')) _ s tt (set_n_evm (set_world w1 (n_evm s)) s)).
    + unfold on_StateDB. rewrite (bind_Ok _ _ _ _ _ (in_evm_the_StateDB (set_n_evm (set_world w1 (n_evm s)) s) d Hd)).
      exact (in_evm_Ok _ (set_n_evm (set_world w1 (n_evm s)) s) _ _
        (in_world_Ok _ (set_world w1 (n_evm s)) _ _ Hrun2)).
    + apply in_evm_Ok. unfold SetBlockNumber, the_evm. rewrite bind_gets, Hbn.
      by apply in_world_Ok.
  - split; [done|by exists d, p| |exact Hc]. split; [done|done|]. by eapply block_values_ext.
Qed.

(** The header of the block before is not seen in the numbers of the blocks. *)
Lemma last_block_move e h blk blocks bv :
  last_block e (same_block h e bv) (blk :: blocks) = last_block e bv (blk :: blocks).
Proof. done. Qed.

Lemma read_blocks_move cid config e h blk blocks bv A :
  read_blocks cid config e (same_block h e bv) (blk :: blocks) A = read_blocks cid config e bv (blk :: blocks) A.
Proof. done. Qed.

(** The block before the first. *)
Definition before_block (blk : Block) : Z := u64 (Uint64 (hd_Number (block_Header blk)) - 1).

Lemma traceBlocks_run b A bv cid gp s blk blocks config cid' h0 :
  OK b A bv cid gp s → rpc_ChainID (w_calls (es_world (n_evm s))) = inr cid' →
  rpc_Header (S (w_calls (es_world (n_evm s)))) (head_request (n_evm s)) = Some h0 →
  (∀ i, is_Some (rpc_Header i (sprintf_hex (before_block blk)))) →
  (∀ j h, is_Some (make_tracer config (mkTracerContext blockHash j h))) →
  3 + budget (block_txs (blk :: blocks)) < 2 ^ 63 →
  let e := es_evm (n_evm s) in let bv0 := next_block h0 e 0 in
  ∃ S0 res gp' S' s', fresh_root answer (before_block blk) S0 ∧
    read_blocks cid' config e bv0 (blk :: blocks) S0 = Some (res, S') ∧
    traceBlocks (blk :: blocks) config s = (Ok (inr res), s') ∧
    (∃ A', fresh_root answer (before_block blk) A' ∧
       OK (before_block blk) A' (last_block e bv0 (blk :: blocks)) cid' gp' s') ∧
    n_pool s' = n_pool s ∧ n_backend s' = n_backend s.
Proof.
  intros Hok Hcid Hh0 Hbefore Hcfg Hbud e bv0. set (bn := before_block blk) in *.
  destruct (Prepare_run answer N HN r _ _ _ _ _ _ cid' h0 Hok Hcid Hh0) as (A1 & es1 & Hrun1 & _ & Hok1 & Htd1).
  apply in_evm_Ok in Hrun1.
  destruct (node_request answer N r (λ i, rpc_Header i (sprintf_hex bn)) _ _ _ _ _ _ Hok1) as (i & es2 & Hrun2 & Hok2 & He2).
  destruct (Hbefore i) as [h Hi]. rewrite Hi in Hrun2.
  destruct (node_move _ _ _ _ _ _ h Hok2) as (es3 & Hrun3 & Hok3 & Htd3).
  assert (same_block h (es_evm es2) bv0 = same_block h e bv0) as Esame.
  { unfold same_block. rewrite He2. cbn [n_evm set_n_evm]. by rewrite Htd1. }
  cbn [n_evm set_n_evm] in Hok3. fold e bv0 in Hok3. rewrite Esame in Hok3.
  destruct (node_repin _ _ _ _ _ _ bn false Hok3) as (A4 & w4 & Hrun4 & Hfr4 & Hok4).
  apply bind_Ok_inv in Hrun4 as ([] & s4 & Hrun4 & Hrun5).
  destruct (node_fork_root answer N r _ _ _ _ _ _ Hok4) as (c & w6 & S0 & Hrun6 & Hfr & Hfk6).
  destruct (trace_blocks_run e _ _ _ _ _ _ _ _ config (blk :: blocks) Hfk6) as
    (res & gp' & S' & es7 & Hread & Hrun7 & Hfk7); [|done| |].
  { destruct Hfr as (_ & _ & _ & _ & -> & _). lia. }
  { simpl. rewrite Htd3. cbn [n_evm set_n_evm]. rewrite He2. exact Htd1. }
  rewrite read_blocks_move in Hread. rewrite last_block_move in Hfk7.
  pose proof (fk_db _ _ _ _ _ _ _ _ _ _ _ Hfk7) as (d & p & _ & _ & _ & _ & _ & own1 & base & _ & Hc & _).
  destruct (CacheSize_run _ _ _ _ _ _ Hc) as [n Hcs].
  destruct (forked_fills _ _ _ _ _ _ _ _ _ _ _ Hfk7 Hcs (fills_refl _)) as [Hrun8 Hfk8].
  eexists S0, res, gp', S', _. split; [exact Hfr|]. split; [exact Hread|].
  split; [|split; [exists A4; split; [exact Hfr4|by eapply forked_ok]|done]].
  unfold traceBlocks. fold (before_block blk). fold bn.
  rewrite (bind_Ok _ _ _ _ _ Hrun1).
  change (in_evm (GetBlockHeader (sprintf_hex bn))) with (in_evm (request (λ i, rpc_Header i (sprintf_hex bn)))).
  rewrite (bind_Ok _ _ _ _ _ Hrun2), (bind_deref (λ _, Some h) _ _ h eq_refl).
  rewrite (bind_Ok _ _ _ _ _ Hrun3), (bind_Ok _ _ _ _ _ Hrun4), (bind_Ok _ _ _ _ _ Hrun5).
  rewrite (bind_Ok _ _ _ _ _ Hrun6), (bind_Ok _ _ _ _ _ Hrun7), (bind_Ok _ _ _ _ _ Hrun8). done.
Qed.
Lemma fetch_blocks_run b A bv cid gp s from count :
  OK b A bv cid gp s → let calls := w_calls (es_world (n_evm s)) in
  ∃ es', fetch_blocks from count s = (Ok (served calls from count), set_n_evm es' s) ∧
    OK b A bv cid gp (set_n_evm es' s) ∧ es_evm es' = es_evm (n_evm s) ∧
    head_request es' = head_request (n_evm s) ∧ ∀ blks, served calls from count = inr blks → w_calls (es_world es') = (calls + count)%nat.
Proof.
  revert from s. induction count as [|count IH]; intros from s Hok calls; cbn [fetch_blocks served].
  { exists (n_evm s). split_and!; [by destruct s|by destruct s|done|done|]. intros _ _. unfold calls. lia. }
  destruct (node_asked answer N r (λ n, rpc_BlockByNumber n (Some from)) _ _ _ _ _ _ Hok) as [Hrun1 Hok1].
  cbn beta in Hrun1. fold calls in Hrun1. set (s1 := set_n_evm _ s) in *.
  destruct (rpc_BlockByNumber calls (Some from)) as [err|blk].
  { exists (n_evm s1). split; [by rewrite (bind_Ok _ _ _ _ _ Hrun1)|]. by split_and!. }
  destruct (IH (from + 1) _ Hok1) as (es2 & Hrun2 & Hok2 & He2 & Hh2 & Hcalls). simpl in Hcalls.
  exists es2. split; [|split; [exact Hok2|split; [done|split; [done|]]]].
  - by rewrite (bind_Ok _ _ _ _ _ Hrun1), (bind_Ok _ _ _ _ _ Hrun2).
  - intros blks Hs. fold calls in Hcalls. destruct (served (S calls) (from + 1) count) as [|rest]; [done|].
    rewrite (Hcalls rest eq_refl). lia.
Qed.
End running.

(** ** Properties *)

Section properties.
Context `{CoreLaws} `{!GethLaws} `{!Upstream} `{!Remote} `{!Growth}.
Context (answer : BatchElem → option RpcValue) (N : nat) (HN : Reliable answer N).
Context (r : loc).

(** Tracing blocks executes them in order from the state before the first one, each with
    the numbers and the gas of its header, and answers each transaction with the trace of
    its own message, and nothing if it was rejected.  The pool stays; but the node's own
    state is thrown away: it is now pinned to the block before the first, without the money
    of the fake accounts, and its context is that of the last block, with the coinbase of
    the head and no base fee. *)
Lemma traceBlocks_spec b A bv cid gp s blk blocks config cid' h0 :
  node_ok answer N r b A bv cid gp s → rpc_ChainID (w_calls (es_world (n_evm s))) = inr cid' →
  rpc_Header (S (w_calls (es_world (n_evm s)))) (head_request (n_evm s)) = Some h0 →
  (∀ i, is_Some (rpc_Header i (sprintf_hex (before_block blk)))) →
  (∀ j h, is_Some (make_tracer config (mkTracerContext blockHash j h))) →
  3 + budget (block_txs (blk :: blocks)) < 2 ^ 63 → NoDup (tx_Hash <$> block_txs (blk :: blocks)) →
  let e := es_evm (n_evm s) in let bv0 := next_block h0 e 0 in
  ∃ S0 res S' s' A' gp', fresh_root answer (before_block blk) S0 ∧
    spec_blocks cid' config e bv0 (blk :: blocks) S0 = Some (res, S') ∧
    traceBlocks (blk :: blocks) config s = (Ok (inr res), s') ∧ n_pool s' = n_pool s ∧
    fresh_root answer (before_block blk) A' ∧
    node_ok answer N r (before_block blk) A' (last_block e bv0 (blk :: blocks)) cid' gp' s'.
Proof.
  intros Hok Hcid Hh0 Hbefore Hcfg Hbud Hnd e bv0.
  destruct (traceBlocks_run answer N HN r _ _ _ _ _ _ blk blocks config cid' h0 Hok Hcid Hh0 Hbefore Hcfg Hbud)
    as (S0 & res & gp' & S' & s' & Hfr & Hread & Hrun & (A' & Hfr' & Hok') & Hp & _).
  exists S0, res, S', s', A', gp'. split; [exact Hfr|]. split; [|by split_and!].
  destruct Hfr as (_ & _ & Hlg & Hrc & Hdep & _).
  apply spec_blocks_read; [exact Hread|lia|exact Hnd|by split].
Qed.

(** The number of blocks of a range, if a slice can be made for them. *)
Definition range_count (numberFrom numberTo : Z) : option nat :=
  let n := i64 (numberTo - numberFrom + 1) in
  if Z.eqb numberFrom (-1) || Z.eqb numberTo (-1) || Z.ltb n 0 || Z.ltb (2 ^ 48) (8 * n) then None
  else Some (Z.to_nat n).

Lemma range_count_run numberFrom numberTo config s :
  match range_count numberFrom numberTo with
  | None => ∃ err, TraceBlockByNumberRange numberFrom numberTo config s = (Panic err, s)
  | Some count => TraceBlockByNumberRange numberFrom numberTo config s =
      (r ← fetch_blocks numberFrom count;
       match r with inl err => mret (inl err) | inr blks => traceBlocks blks config end) s
  end.
Proof.
  unfold range_count, TraceBlockByNumberRange. destruct (Z.eqb numberFrom (-1) || Z.eqb numberTo (-1)); cbn [orb].
  { by eexists. }
  destruct (Z.ltb _ 0 || Z.ltb (2 ^ 48) _); cbn [orb]; [by eexists|done].
Qed.

(** C23: a range of blocks is fetched from the upstream node, and the first error is the
    answer; a range with a bound of -1, and one whose blocks no slice can hold, makes the
    request panic before it does anything.  The blocks are then executed in order from the state before the first one, each
    with the numbers and the gas of its header, and every transaction is answered with the
    trace of its own message, or nothing if it was rejected.  The pool stays; but the node's
    own state is thrown away: it is now pinned to the block before the first, without the
    money of the fake accounts, and its context is that of the last block, with the coinbase
    of the head and no base fee. *)
Theorem TraceBlockByNumberRange_spec b A bv cid gp s numberFrom numberTo config :
  node_ok answer N r b A bv cid gp s → (∀ j h, is_Some (make_tracer config (mkTracerContext blockHash j h))) →
  let calls := w_calls (es_world (n_evm s)) in let e := es_evm (n_evm s) in
  match range_count numberFrom numberTo with
  | None => ∃ err, TraceBlockByNumberRange numberFrom numberTo config s = (Panic err, s)
  | Some count => match served calls numberFrom count with
  | inl err => ∃ s', TraceBlockByNumberRange numberFrom numberTo config s = (Ok (inl err), s') ∧
      node_ok answer N r b A bv cid gp s' ∧ n_pool s' = n_pool s
  | inr [] => ∃ s', TraceBlockByNumberRange numberFrom numberTo config s = (Ok (inl "no blocks supplied"), s') ∧
      node_ok answer N r b A bv cid gp s' ∧ n_pool s' = n_pool s
  | inr (blk :: blocks) => ∀ cid' h0,
      rpc_ChainID (calls + count) = inr cid' → rpc_Header (S (calls + count)) (head_request (n_evm s)) = Some h0 →
      (∀ i, is_Some (rpc_Header i (sprintf_hex (before_block blk)))) →
      3 + budget (block_txs (blk :: blocks)) < 2 ^ 63 → NoDup (tx_Hash <$> block_txs (blk :: blocks)) →
      let bv0 := next_block h0 e 0 in
      ∃ S0 res S' s' A' gp', fresh_root answer (before_block blk) S0 ∧
        spec_blocks cid' config e bv0 (blk :: blocks) S0 = Some (res, S') ∧
        TraceBlockByNumberRange numberFrom numberTo config s = (Ok (inr res), s') ∧ n_pool s' = n_pool s ∧
        fresh_root answer (before_block blk) A' ∧
        node_ok answer N r (before_block blk) A' (last_block e bv0 (blk :: blocks)) cid' gp' s'
  end end.
Proof.
  intros Hok Hcfg calls e. pose proof (range_count_run numberFrom numberTo config s) as Hrun.
  destruct (range_count numberFrom numberTo) as [count|]; [|exact Hrun].
  destruct (fetch_blocks_run answer N r _ _ _ _ _ _ numberFrom count Hok) as (es1 & Hrun1 & Hok1 & He1 & Hhr & Hcalls).
  fold calls in Hrun1, Hcalls. rewrite (bind_Ok _ _ _ _ _ Hrun1) in Hrun.
  rewrite Hrun. destruct (served calls numberFrom count) as [err|[|blk blocks]].
  - by eexists.
  - by eexists.
  - intros cid' h0 Hcid Hh0 Hbefore Hbud Hnd. specialize (Hcalls _ eq_refl).
    rewrite <-Hcalls in Hcid, Hh0. rewrite <-Hhr in Hh0. unfold e in *. rewrite <-He1.
    by destruct (traceBlocks_spec b A bv cid gp (set_n_evm es1 s) blk blocks config cid' h0 Hok1 Hcid Hh0 Hbefore
      Hcfg Hbud Hnd) as (S0 & res & S' & s' & A' & gp' & ? & ? & ? & ? & ? & ?); exists S0, res, S', s', A', gp'.
Qed.
End properties.

(** ** Examples *)

Module ToyBlocks.
Export ToyUp.

(** Both transactions of the block are traced. *)
Example block101_traces :
  fst <$> spec_blocks 1 None evm1 (next_block header100 evm1 0) [block101] A1 = Some [[Some [x01]; Some [x01]]].
Proof. vm_compute. reflexivity. Qed.

Lemma TraceBlockByNumberRange_spec_witness :
  ∃ res s' A' gp', TraceBlockByNumberRange 101 101 None node1 = (Ok (inr res), s') ∧
    fresh_root answer 100 A' ∧ node_ok answer 1 1%nat 100 A'
      (mkBlockValues (addr 77) 30000000 101 1712 1 0) 1 gp' s'.
Proof.
  pose proof (TraceBlockByNumberRange_spec answer 1 reliable 1%nat 100 AF bv1 1 30000000 node1 101 101 None ok1
    tracers1) as Hspec. cbv zeta in Hspec.
  change (range_count 101 101) with (Some 1%nat) in Hspec. cbv iota in Hspec.
  change (served _ _ _) with (inr [block101] : Err + list Block) in Hspec.
  destruct (Hspec 1 header100) as (S0 & res & S' & s' & A' & gp' & _ & _ & Hrun & _ & Hfr' & Hok').
  - reflexivity.
  - reflexivity.
  - intros i. by exists header100.
  - reflexivity.
  - apply (bool_decide_unpack _). reflexivity.
  - exists res, s', A', gp'. split; [exact Hrun|]. split; [exact Hfr'|exact Hok'].
Defined.
End ToyBlocks.
