(* ===== verification/Bundle.v ===== *)
(** * Tracing a bundle on a running node

    [TraceTransactionBundle] executes a client's transactions in order on a clone of the
    root, each with the next nonce of its sender on the state so far and without fees, and
    answers with the transactions, their receipts and the difference to the chain. *)
From S2P Require Import Prelude BigInt Geth World OverlayState Fetch StateSpec OverlayStateDB.
From S2P Require Import VmStateDB Refinement Clones Reset Merge Chain GoSlice GoStd ToyInstance TxPool.
From S2P Require Import Signer Tracers TxArgs Evm Warm EvmProps Backend Actions Debug NodeState.
From S2P Require Import NodeSteps Receipts StateDiff ToyNode NodeToy Blocks.

(** ** What a bundle does *)

Section spec.
Context `{Core} `{!Upstream} `{!Remote}.
Implicit Types (A : Abs) (bv : BlockValues) (cid gp : Z).

Definition Item : Type := option RPCTransaction * option (gmap string Value).

(** The transaction a client's arguments become on a state. *)
Definition bundle_tx cid A (from : Address) (args : TransactionArgs) : option Transaction :=
  unsigned ← ToTransaction (bundle_args args (a_nonce A from));
  match sign_as cid from unsigned with inr tx => Some tx | inl _ => None end.

Definition missing_receipt (tx : Transaction) : Err :=
  ("missing receipt for tx " ++ hex_string (Hash_Bytes (tx_Hash tx)))%string.

(** The answer for a transaction that was applied. *)
Definition bundle_item bv cid (from : Address) (tx : Transaction) (i : Z) (res : ExecutionResult)
    (logs : list Log) : Item :=
  let rc := make_receipt res (tx_message cid tx) (tx_Hash tx) (u64 i) 0%nat logs in
  let bn := Uint64 (bv_BlockNumber bv) in
  (Some (set_rt_From from (newRPCTransaction tx blockHash bn (u64 i) None)),
   Some (<["from" := VAddress from]> (receipt_fields rc (tx_Hash tx) (tx_To tx) bn (u64 i) 0))).

Definition add_item (x : Item) (r : Err + list Item * Hash) : Err + list Item * Hash :=
  match r with inl err => inl err | inr (l, h) => inr (x :: l, h) end.

(** One transaction after the other, until one is rejected or has no sender: those that
    were executed, the answer, the gas left and the state. *)
Fixpoint spec_bundle bv cid gp (i : Z) (msgArgs : list TransactionArgs) (lastTxHash : Hash) A
    : option (list Transaction * (Err + list Item * Hash) * Z * Abs) :=
  match msgArgs with
  | [] => Some ([], inr ([], lastTxHash), gp, A)
  | msgArg :: msgArgs =>
      match From msgArg with
      | None => Some ([], inl "missing required field 'from' for transaction", gp, A)
      | Some from =>
          tx ← bundle_tx cid A from msgArg;
          o ← spec_ExecuteMsg bv cid gp (tx_message cid tx) (tx_Hash tx) i None A;
          match mo_receipt o with
          | None => Some ([tx], inl (missing_receipt tx), mo_pool o, mo_abs o)
          | Some (res, logs) =>
              r ← spec_bundle bv cid (mo_pool o) (i + 1) msgArgs (tx_Hash tx) (mo_abs o);
              Some (tx :: r.1.1.1, add_item (bundle_item bv cid from tx i res logs) r.1.1.2, r.1.2, r.2)
          end
      end
  end.

(** Every transaction of the bundle has at most [k] of the gas budget. *)
Definition bundle_within (k : Z) (msgArgs : list TransactionArgs) : Prop :=
  Forall (λ args, ∀ nonce tx, ToTransaction (bundle_args args nonce) = Some tx → budget [tx] ≤ k) msgArgs.

(** The gas of a bundle is below the bound of the depth, and no two of its transactions have
    the same hash. *)
Definition bundle_ok (msgArgs : list TransactionArgs) : Prop :=
  (∃ k, 0 ≤ k ∧ bundle_within k msgArgs ∧ 2 + k * Z.of_nat (length msgArgs) < 2 ^ 63) ∧
  ∀ bv cid gp S txs reply gp' S',
    spec_bundle bv cid gp 0 msgArgs Hash_zero S = Some (txs, reply, gp', S') → NoDup (tx_Hash <$> txs).
End spec.

(** ** Steps on the clone *)

Section running.
Context `{CoreLaws} `{!GethLaws} `{!Upstream} `{!Remote} `{!Growth}.
Context (answer : BatchElem → option RpcValue) (N : nat) (HN : Reliable answer N).
Context (Htr : ∀ j h, is_Some (make_tracer None (mkTracerContext blockHash j h))).
Context (r : loc).
Implicit Types (b : Z) (A S : Abs) (bv : BlockValues) (cid gp : Z) (s : Node) (w : World).

Abbreviation OK := (node_ok answer N r).
Abbreviation FORKED := (forked answer N r).

Lemma bundle_args_complete args nonce : ∃ tx, ToTransaction (bundle_args args nonce) = Some tx.
Proof.
  unfold bundle_args, ToTransaction, toTransaction.
  destruct args as [? ? [[| |]|] ? ? ? ? ? ? ? ? ?]; simpl; by eexists.
Qed.

Lemma bundle_tx_ok cid A from args :
  ∃ unsigned tx, ToTransaction (bundle_args args (a_nonce A from)) = Some unsigned ∧
    sign_as cid from unsigned = inr tx ∧ bundle_tx cid A from args = Some tx ∧ budget [tx] = budget [unsigned].
Proof.
  destruct (bundle_args_complete args (a_nonce A from)) as [un Hun].
  destruct (sign_as_ok cid from un) as (tx & Hsig & Hgas & _).
  exists un, tx. split; [done|]. split; [done|]. split; [|by apply budget_ext].
  unfold bundle_tx. rewrite Hun. cbn [mbind option_bind]. by rewrite Hsig.
Qed.

Lemma forked_nonce b A bv cid gp c S s a :
  FORKED b A bv cid gp c S s →
  ∃ w', in_evm (in_world (GetNonce c a)) s = (Ok (a_nonce S a), set_n_evm (set_world w' (n_evm s)) s) ∧
    FORKED b A bv cid gp c S (set_n_evm (set_world w' (n_evm s)) s).
Proof.
  intros Hfk. apply (forked_world answer N r _ _ _ _ _ _ _ _ _ _ _ Hfk). intros own1 base w Hc.
  destruct (run_op_refines answer N HN base r b c own1 w S (OpGetNonce a) _ _ Hc eq_refl)
    as (w1 & own2 & Hrun & Hc' & Hconf).
  cbn [run_op] in Hrun. apply bind_Ok_inv in Hrun as (n & w1' & Hrun & E). injection E as <- ->. by exists w1, own2.
Qed.

(** Executing a message leaves its receipt in the clone's top layer. *)
Lemma forked_message b A bv cid gp c S s msg h i :
  FORKED b A bv cid gp c S s → a_depth S + 1 + frames_of msg < 2 ^ 63 →
  ∃ o es', spec_ExecuteMsg bv cid gp msg h i None S = Some o ∧
    in_evm (ExecuteMsg c msg h i None) s = (Ok (mo_out o), set_n_evm es' s) ∧
    FORKED b A bv cid (mo_pool o) c (mo_abs o) (set_n_evm es' s) ∧
    (∀ res logs, mo_receipt o = Some (res, logs) → ∃ bn, bc_BlockNumber (vmContext (es_evm es')) = Some bn ∧
       has_receipt (es_world es') c h (make_receipt res msg h (u64 i) bn logs)).
Proof.
  intros Hfk Hd. pose proof (fk_ready _ _ _ _ _ _ _ _ _ _ _ Hfk) as Hrd. destruct (Htr i h) as [tr Ht].
  assert (∃ own1 base, refines answer own1 base r b (es_world (n_evm s)) c S) as (own1 & base & Hc).
  { destruct (fk_db _ _ _ _ _ _ _ _ _ _ _ Hfk) as (d & p & _ & _ & _ & _ & own & own1 & base & _ & Hc & _). eauto. }
  destruct (ExecuteMsg_run answer N HN base r b c own1 _ S bv cid gp msg h i None tr Hc Hrd Ht Hd)
    as (o & w' & own' & Hspec & Hrun & _ & _ & _ & Hrc).
  destruct (forked_run answer N r (ExecuteMsg c msg h i None) (Ok (mo_out o)) (mo_abs o) (mo_pool o) _ _ _ _ _ _ _ _ Hfk)
    as (es' & Hrun' & Hfk').
  { intros own2 base2 Hc2.
    destruct (ExecuteMsg_run answer N HN base2 r b c own2 _ S bv cid gp msg h i None tr Hc2 Hrd Ht Hd)
      as (o2 & w2 & own2' & Hspec2 & Hrun2 & Hc2' & Hconf2 & _).
    rewrite Hspec in Hspec2. injection Hspec2 as <-. by exists (after_msg (n_evm s) w2 (mo_pool o)), own2'. }
  exists o, es'. split; [exact Hspec|]. split; [exact Hrun'|]. split; [exact Hfk'|].
  unfold in_evm, zoom in Hrun'. rewrite Hrun in Hrun'. injection Hrun' as <-. exact Hrc.
Qed.

(** The receipt that was just filed is found, with all the logs of its transaction. *)
Lemma GetReceipt_filed own base b w d A h rc :
  refines answer own base r b w d A → has_receipt w d h rc →
  ∃ l w', GetReceipt d h w = (Ok (Some l), w') ∧ fills w w' ∧
    w_receipts w' !! l = Some (set_Logs (Some (f_logs (a_frame A) h)) rc).
Proof.
  intros Href (s & st & l & Htop & Hst & Hl & Hrc). destruct (refines_top _ _ _ _ _ _ _ _ Href) as
    (db & s' & own' & st' & -> & Hdb & Hs & Hst' & _ & (Hc & _) & Hsh & _).
  pose proof (top_run _ _ _ _ Hdb Hs) as Htop'. rewrite Htop in Htop'. injection Htop' as <-.
  assert (on_chain w d s (s :: own' ++ base)) as Hon by by exists db.
  exists l, (with_receipts (alter (set_Logs (Some (f_logs (a_frame A) h))) l) w).
  split; [|split].
  - unfold GetReceipt. rewrite (bind_Ok _ _ _ _ _ Htop).
    rewrite (receipt_loop_spec _ w d s _ s _ h Hon Hc) by (apply chain_length in Hc; simpl in *; lia).
    rewrite find_receipt_cons by (pose proof (rf_base _ _ _ _ _ _ _ _ Href); by destruct own').
    rewrite Hst. cbn [mbind option_bind]. by rewrite Hl, (sh_logs _ _ _ _ _ _ Hsh h).
  - eexists. split; [done|]. intros l'. simpl. rewrite lookup_alter. case_decide; [subst|done].
    rewrite Hrc. by destruct rc.
  - simpl. by rewrite lookup_alter_eq, Hrc.
Qed.

(** The representation of a receipt names the node's block. *)
Lemma buildRPCReceipt_run b A bv cid gp c S s tx rc :
  FORKED b A bv cid gp c S s →
  buildRPCReceipt tx rc s =
    (Ok (receipt_fields rc (tx_Hash tx) (tx_To tx) (Uint64 (bv_BlockNumber bv)) (TransactionIndex rc) 0), s).
Proof.
  intros Hfk. pose proof (fk_ready _ _ _ _ _ _ _ _ _ _ _ Hfk) as [_ _ Hbv].
  destruct (block_values_inv _ _ _ Hbv) as (n & t & df & f & Hctx & Hn & _).
  unfold buildRPCReceipt. rewrite (bind_Ok _ _ _ _ _ (in_evm_GetVMContext s)), Hctx. cbn [bc_BlockNumber].
  rewrite (bind_Ok _ _ _ _ _ (in_evm_Ok _ _ _ _ (in_world_Ok _ (n_evm s) _ _ (get_bigp_run _ _ _ Hn)))).
  by destruct s as [[]].
Qed.
(** Reading back what a message that was applied left. *)
Lemma forked_filed b A bv cid gp c S s h rc bn :
  FORKED b A bv cid gp c S s → has_receipt (es_world (n_evm s)) c h rc →
  bc_BlockNumber (vmContext (es_evm (n_evm s))) = Some bn → BlockNumber rc = bn →
  ∃ l w', let s' := set_n_evm (set_world w' (n_evm s)) s in let rc' := set_Logs (Some (f_logs (a_frame S) h)) rc in
    in_evm (in_world (GetReceipt c h)) s = (Ok (Some l), s') ∧ FORKED b A bv cid gp c S s' ∧
    in_evm (in_world (get_receipt l)) s' = (Ok rc', s') ∧
    in_evm (in_world (get_big (BlockNumber rc'))) s' = (Ok (bv_BlockNumber bv), s').
Proof.
  intros Hfk Hrc Hbn Ebn. pose proof (fk_db _ _ _ _ _ _ _ _ _ _ _ Hfk) as (d & p & _ & _ & _ & _ & _ & own1 & base & _ & Hc & _).
  destruct (GetReceipt_filed _ _ _ _ _ _ _ _ Hc Hrc) as (l & w' & Hrun & Hf & Hl).
  destruct (forked_fills answer N r _ _ _ _ _ _ _ _ _ _ _ Hfk Hrun Hf) as [Hrun' Hfk'].
  exists l, w'. split; [exact Hrun'|]. split; [exact Hfk'|].
  pose proof (fk_ready _ _ _ _ _ _ _ _ _ _ _ Hfk') as [_ _ Hbv].
  destruct (block_values_inv _ _ _ Hbv) as (n & t & df & f & Hctx & Hn & _).
  cbn [n_evm set_n_evm es_evm es_world set_world] in *. rewrite Hctx in Hbn. injection Hbn as <-.
  assert (∀ X (m : M World X) x, m w' = (Ok x, w') →
    in_evm (in_world m) (set_n_evm (set_world w' (n_evm s)) s) = (Ok x, set_n_evm (set_world w' (n_evm s)) s)) as Hread.
  { intros X m x Hm. by rewrite (in_evm_Ok _ (set_n_evm (set_world w' (n_evm s)) s) _ _ (in_world_Ok _ (set_world w' (n_evm s)) _ _ Hm)). }
  split; apply Hread.
  - unfold get_receipt, deref. by rewrite Hl.
  - unfold get_big, deref. cbn [BlockNumber set_Logs]. by rewrite Ebn, Hn.
Qed.

Lemma forked_no_receipt b A bv cid gp c S s h :
  FORKED b A bv cid gp c S s → f_receipts (a_frame S) h = None →
  in_evm (in_world (GetReceipt c h)) s = (Ok None, s).
Proof.
  intros Hfk Hno. pose proof (fk_db _ _ _ _ _ _ _ _ _ _ _ Hfk) as (d & p & _ & _ & _ & _ & _ & own1 & base & _ & Hc & _).
  pose proof (GetReceipt_step answer r _ _ _ _ _ _ h Hc) as Hget. rewrite Hno in Hget.
  rewrite (in_evm_Ok _ _ _ _ (in_world_Ok _ (n_evm s) _ _ Hget)). by destruct s as [[]].
Qed.

(** The loop, when no two of the transactions it executes have the same hash; [before] are
    the hashes met so far. *)
(** From the nonce of the sender to the executed message. *)
Lemma bundle_head {X} b A bv cid gp c S s i from args un tx s1 out s2 (F : M Node X) (G : Transaction → M Node X) :
  FORKED b A bv cid gp c S s1 →
  in_evm (in_world (GetNonce c from)) s = (Ok (a_nonce S from), s1) →
  ToTransaction (bundle_args args (a_nonce S from)) = Some un → sign_as cid from un = inr tx →
  in_evm (ExecuteMsg c (tx_message cid tx) (tx_Hash tx) i None) s1 = (Ok out, s2) →
  (nonce ← in_evm (in_world (GetNonce c from));
   chainID ← in_evm ChainID;
   unsigned ← deref (λ _, ToTransaction (bundle_args args nonce));
   match sign_as chainID from unsigned with
   | inl _ => F
   | inr tx => msg ← in_evm (TxToMessage tx); _ ← in_evm (ExecuteMsg c msg (tx_Hash tx) i None); G tx
   end) s = G tx s2.
Proof.
  intros Hfk Hrun1 Hun Hsig Hrun2. apply forked_ok in Hfk. rewrite (bind_Ok _ _ _ _ _ Hrun1).
  rewrite (bind_Ok _ _ _ _ _ (in_evm_ChainID answer N r _ _ _ _ _ _ Hfk)).
  rewrite (bind_deref (λ _, ToTransaction _) _ _ un Hun), Hsig.
  rewrite (bind_Ok _ _ _ _ _ (in_evm_TxToMessage answer N r _ _ _ _ _ _ tx Hfk)).
  by rewrite (bind_Ok _ _ _ _ _ Hrun2).
Qed.

Lemma bundle_loop_run k b A bv cid gp c S s i msgArgs last before :
  FORKED b A bv cid gp c S s → bundle_within k msgArgs → 0 ≤ k →
  a_depth S + 1 + k * Z.of_nat (length msgArgs) < 2 ^ 63 → (∀ h, h ∉ before → blank S h) →
  ∃ txs reply gp' S', spec_bundle bv cid gp i msgArgs last S = Some (txs, reply, gp', S') ∧
    (NoDup (before ++ (tx_Hash <$> txs)) →
     ∃ es', bundle_loop i c msgArgs last s = (Ok reply, set_n_evm es' s) ∧
       FORKED b A bv cid gp' c S' (set_n_evm es' s)).
Proof.
  intros Hfk Hk Hk0. revert gp S s i last before Hfk Hk.
  induction msgArgs as [|args msgArgs IH]; intros gp S s i last before Hfk Hk Hd Hbl; cbn [spec_bundle bundle_loop].
  { eexists _, _, _, _. split; [reflexivity|]. intros _. exists (n_evm s). by destruct s. }
  apply Forall_cons in Hk as [Hk1 Hk].
  destruct (From args) as [from|].
  2:{ eexists _, _, _, _. split; [reflexivity|]. intros _. exists (n_evm s). by destruct s. }
  destruct (forked_nonce _ _ _ _ _ _ _ _ from Hfk) as (w1 & Hrun1 & Hfk1).
  destruct (bundle_tx_ok cid S from args) as (un & tx & Hun & Hsig & Htx & Hbud).
  rewrite Htx. cbn [mbind option_bind]. pose proof (Hk1 _ _ Hun) as Hgas. rewrite <-Hbud in Hgas.
  pose proof (frames_of_budget cid tx) as Hfr. rewrite length_cons in Hd.
  assert (a_depth S + 1 + frames_of (tx_message cid tx) < 2 ^ 63) as Hd1 by nia.
  set (s1 := set_n_evm _ s) in *.
  destruct (forked_message _ _ _ _ _ _ _ _ (tx_message cid tx) (tx_Hash tx) i Hfk1 Hd1)
    as (o & es2 & Hspec & Hrun2 & Hfk2 & Hrc).
  destruct (spec_ExecuteMsg_record _ _ _ _ _ _ _ _ _ Hd1 Hspec) as (Hmsg & Hother & Hdep).
  rewrite Hspec. cbn [mbind option_bind]. unfold msg_record in Hmsg.
  destruct (mo_receipt o) as [[res logs]|].
  - destruct Hmsg as (_ & _ & Hlogs & _). destruct (Hrc res logs eq_refl) as (bn & Hbn & Hhas).
    destruct (forked_filed _ _ _ _ _ _ _ (set_n_evm es2 s1) _ _ bn Hfk2 Hhas Hbn eq_refl)
      as (l & w3 & Hrun3 & Hfk3 & Hrun4 & Hrun5).
    set (s3 := set_n_evm _ (set_n_evm es2 s1)) in *. rewrite Hlogs in Hrun4, Hrun5.
    destruct (IH _ _ s3 (i + 1) (tx_Hash tx) (before ++ [tx_Hash tx]) Hfk3 Hk)
      as (txs & reply & gp' & S' & Hrest & Hloop); [nia| |].
    { intros h [Hh1 Hh2%not_elem_of_cons]%not_elem_of_app. eapply blank_same; [apply Hother, Hh2|by apply Hbl]. }
    rewrite Hrest. cbn [mbind option_bind fst snd].
    eexists _, _, _, _. split; [reflexivity|]. intros Hnd. cbn [fmap list_fmap] in Hnd.
    rewrite <-(app_assoc before [tx_Hash tx]) in Hloop. destruct (Hloop Hnd) as (es6 & Hrun6 & Hfk6).
    exists es6. split; [|exact Hfk6].
    rewrite (bundle_head _ _ _ _ _ _ _ _ _ _ _ _ _ _ _ _ _ _ Hfk1 Hrun1 Hun Hsig Hrun2), (bind_Ok _ _ _ _ _ Hrun3), (bind_Ok _ _ _ _ _ Hrun4).
    rewrite (bind_Ok _ _ _ _ _ Hrun5), (bind_Ok _ _ _ _ _ (buildRPCReceipt_run _ _ _ _ _ _ _ _ tx _ Hfk3)).
    rewrite (bind_Ok _ _ _ _ _ Hrun6). by destruct reply as [|[]].
  - destruct Hmsg as [_ Hsame]. eexists _, _, _, _. split; [reflexivity|]. intros Hnd.
    cbn [fmap list_fmap] in Hnd. apply NoDup_app in Hnd as (_ & Hdisj & _).
    assert (f_receipts (a_frame (mo_abs o)) (tx_Hash tx) = None) as Hno.
    { eapply (blank_same S); [exact Hsame|]. apply Hbl. intros Hin. apply (Hdisj _ Hin). by left. }
    exists es2. split; [|exact Hfk2].
    rewrite (bundle_head _ _ _ _ _ _ _ _ _ _ _ _ _ _ _ _ _ _ Hfk1 Hrun1 Hun Hsig Hrun2), (bind_Ok _ _ _ _ _ (forked_no_receipt _ _ _ _ _ _ _ _ _ Hfk2 Hno)). done.
Qed.
(** [D] is the difference between the state [S] and block [b] of the chain. *)
Definition difference (b : Z) (D : StateOverride) S : Prop :=
  ∀ a act key, act ≠ GET_CODEHASH →
    default (val_of act (remote_at answer b a act key)) (ov_get (default override_empty (D !! a)) act key) =
      val_of act (f_obs (a_frame S) a act key).

Lemma forked_diff b A bv cid gp c S s :
  FORKED b A bv cid gp c S s →
  ∃ D w', in_evm (in_world (GetStateDiff c)) s = (Ok D, set_n_evm (set_world w' (n_evm s)) s) ∧
    FORKED b A bv cid gp c S (set_n_evm (set_world w' (n_evm s)) s) ∧ difference b D S.
Proof.
  intros Hfk. destruct (fk_db _ _ _ _ _ _ _ _ _ _ _ Hfk) as (d & q & Hsd & Hp & Hbs).
  pose proof Hbs as (Hdb & _ & _ & own0 & base0 & _ & Hc0 & _). set (w := es_world (n_evm s)) in *.
  destruct (dk_root _ _ _ _ _ _ _ _ Hdb) as (st & Hst & H0' & _).
  assert (∀ own1 base, refines answer own1 base r b w c S → ∃ D w', GetStateDiff c w = (Ok D, w') ∧
    refines answer own1 base r b w' c S ∧ confined answer b r c own1 w own1 w' ∧ difference b D S) as Hstep.
  { intros own1 base Hc. destruct (rf_db _ _ _ _ _ _ _ _ Hc) as (_ & _ & _ & _ & _ & _ & _ & Hl & _).
    apply last_Some in Hl as [ls Hls].
    destruct (GetStateDiff_step answer own1 base r b c w S ls st Hc Hls Hst) as (D & w' & Hrun & Hc' & Hconf & Hdiff); [lia..|].
    exists D, w'. split; [exact Hrun|]. split; [exact Hc'|]. split; [exact Hconf|].
    intros a act key Hact. destruct (Hdiff a act key Hact) as [_ <-]. f_equal. f_equal.
    unfold observe. rewrite view_cons, (lookup_empty (scratchpadKey a act key) : view w [] !! _ = None).
    destruct (pad w r !! scratchpadKey a act key) as [v|] eqn:Hv; [|done].
    symmetry. by apply (dk_clean _ _ _ _ _ _ _ _ Hdb). }
  destruct (Hstep own0 base0 Hc0) as (D & w' & Hrun & _ & _ & Hdiff).
  destruct (beside_run answer N (λ _, (Ok tt, w')) tt S r b d q A c S w Hbs) as (w2 & E & Hbs' & Hbg).
  { intros own1 base Hc. destruct (Hstep own1 base Hc) as (D1 & w1 & Hrun1 & Href & Hconf & _).
    rewrite Hrun in Hrun1. injection Hrun1 as <- <-. by exists w', own1. }
  injection E as <-. exists D, w'. split; [by apply in_evm_Ok, in_world_Ok|]. split; [|exact Hdiff].
  eapply forked_evm; [done..| |apply Hfk]. destruct (fk_ready _ _ _ _ _ _ _ _ _ _ _ Hfk).
  split; [done|done|]. by eapply block_values_ext.
Qed.
(** What a bundle answers: nothing but an error, or its transactions, their receipts and
    the difference [D]. *)
Definition bundle_reply (reply : Err + list Item * Hash) (D : StateOverride) : Err + TransactionBundleResult :=
  match reply with
  | inl err => inl err
  | inr (l, h) => inr (mkTransactionBundleResult l.*1 l.*2 D h)
  end.

Lemma TraceTransactionBundle_run k b A bv cid gp s msgArgs :
  OK b A bv cid gp s → bundle_within k msgArgs → 0 ≤ k →
  2 + k * Z.of_nat (length msgArgs) < 2 ^ 63 →
  ∃ S0 txs reply gp' S', fresh_root answer b S0 ∧
    spec_bundle bv cid (bv_GasLimit bv) 0 msgArgs Hash_zero S0 = Some (txs, reply, gp', S') ∧
    (NoDup (tx_Hash <$> txs) →
     ∃ D s', TraceTransactionBundle msgArgs s = (Ok (bundle_reply reply D), s') ∧
       match reply with inl _ => True | inr _ => difference b D S' end ∧
       OK b A bv cid gp' s' ∧ n_pool s' = n_pool s ∧ n_backend s' = n_backend s).
Proof.
  intros Hok Hk Hk0 Hd.
  destruct (node_fork_root answer N r _ _ _ _ _ _ Hok) as (c & w1 & S0 & Hrun1 & Hfr & Hfk1).
  destruct (forked_gas answer N r _ _ _ _ _ _ _ _ Hfk1) as (es2 & Hrun2 & Hfk2 & _).
  destruct Hfr as (Hobs & Hdead & Hlg & Hrc & Hdep & Hsv).
  destruct (bundle_loop_run k _ _ _ _ _ _ _ _ 0 msgArgs Hash_zero [] Hfk2 Hk Hk0)
    as (txs & reply & gp' & S' & Hspec & Hloop); [lia|by split|].
  exists S0, txs, reply, gp', S'. split; [by split_and!|]. split; [exact Hspec|].
  intros Hnd. destruct (Hloop Hnd) as (es3 & Hrun3 & Hfk3).
  destruct (forked_diff _ _ _ _ _ _ _ _ Hfk3) as (D & w4 & Hrun4 & Hfk4 & Hdiff).
  unfold TraceTransactionBundle. destruct reply as [err|[l h]].
  - exists ∅. eexists. split; [|split; [done|split; [eapply forked_ok, Hfk3|done]]].
    rewrite (bind_Ok _ _ _ _ _ Hrun1), (bind_Ok _ _ _ _ _ Hrun2).
    rewrite (bind_Ok _ _ _ _ _ Hrun3). reflexivity.
  - exists D. eexists. split; [|split; [exact Hdiff|split; [eapply forked_ok, Hfk4|done]]].
    rewrite (bind_Ok _ _ _ _ _ Hrun1), (bind_Ok _ _ _ _ _ Hrun2). rewrite (bind_Ok _ _ _ _ _ Hrun3).
    rewrite (bind_Ok _ _ _ _ _ Hrun4). reflexivity.
Qed.
End running.

(** ** Properties *)

Section properties.
Context `{CoreLaws} `{!GethLaws} `{!Upstream} `{!Remote} `{!Growth}.
Context (answer : BatchElem → option RpcValue) (N : nat) (HN : Reliable answer N).
Context (Htr : ∀ j h, is_Some (make_tracer None (mkTracerContext blockHash j h))).
Context (r : loc).

(** C25: a bundle is executed on the pinned block, in the node's context with a full gas pool,
    one transaction after the other until one is rejected or has no sender; the answer has
    each with the receipt it left, and the difference its effects make to the chain.  State
    and pool of the node stay as they are. *)
Theorem TraceTransactionBundle_spec k b A bv cid gp s msgArgs :
  node_ok answer N r b A bv cid gp s → bundle_within k msgArgs → 0 ≤ k →
  2 + k * Z.of_nat (length msgArgs) < 2 ^ 63 →
  ∃ S0 txs reply gp' S', fresh_root answer b S0 ∧
    spec_bundle bv cid (bv_GasLimit bv) 0 msgArgs Hash_zero S0 = Some (txs, reply, gp', S') ∧
    (NoDup (tx_Hash <$> txs) →
     ∃ D s', TraceTransactionBundle msgArgs s = (Ok (bundle_reply reply D), s') ∧
       match reply with inl _ => True | inr _ => difference answer b D S' end ∧
       node_ok answer N r b A bv cid gp' s' ∧ n_pool s' = n_pool s).
Proof.
  intros Hok Hk Hk0 Hd.
  destruct (TraceTransactionBundle_run answer N HN Htr r k b A bv cid gp s msgArgs Hok Hk Hk0 Hd)
    as (S0 & txs & reply & gp' & S' & ? & ? & Hrun). exists S0, txs, reply, gp', S'. split_and!; [done..|].
  intros Hnd. destruct (Hrun Hnd) as (D & s' & ? & ? & ? & ? & _). by exists D, s'.
Qed.
End properties.

(** ** Examples *)

Module ToyBundle.
Export ToyUp.

(** Five wei from [a1] to [a2]. *)
Definition pay5 : TransactionArgs :=
  mkTransactionArgs (Some a1) (Some a2) None None None None (Some 5) None None None None None.

Lemma pay5_within : bundle_within 250002 [pay5].
Proof.
  apply Forall_singleton. intros nonce tx E. unfold ToTransaction, toTransaction in E. simpl in E.
  injection E as <-. reflexivity.
Defined.

(** A bundle of one transaction has one hash. *)
Lemma one_hash bv cid gp i args h A txs reply gp' A' :
  spec_bundle bv cid gp i [args] h A = Some (txs, reply, gp', A') → NoDup (tx_Hash <$> txs).
Proof.
  cbn [spec_bundle]. destruct (From args) as [from|]; [|intros [= <- _ _ _]; constructor].
  intros (tx & _ & E)%bind_Some. apply bind_Some in E as (o & _ & E).
  destruct (mo_receipt o) as [[res logs]|]; injection E as <- _ _ _; apply NoDup_singleton.
Qed.

Lemma TraceTransactionBundle_spec_witness :
  ∃ reply gp' s', TraceTransactionBundle [pay5] node1 = (Ok reply, s') ∧
    node_ok answer 1 1%nat 100 AF bv1 1 gp' s' ∧ n_pool s' = n_pool node1.
Proof.
  destruct (TraceTransactionBundle_spec answer 1 reliable tracers1 1%nat 250002 100 AF bv1 1 30000000 node1 [pay5]
    ok1 pay5_within) as (S0 & txs & reply & gp' & S' & _ & Hspec & Hrun).
  - lia.
  - reflexivity.
  - destruct (Hrun (one_hash _ _ _ _ _ _ _ _ _ _ _ Hspec)) as (D & s' & Hrun' & _ & Hok' & Hp).
    exists (bundle_reply reply D), gp', s'. split_and!; [exact Hrun'|exact Hok'|exact Hp].
Defined.
End ToyBundle.
