(* ===== verification/SafeSim.v ===== *)
(** * Simulating a safe transaction on a running node

    [SimulateSafeExec] packs the pool into one transaction of the impersonated safe, lets
    the owners approve its hash on a clone of the root, and runs it there under a tracer. *)
From S2P Require Import Prelude BigInt Geth World OverlayState Fetch StateSpec OverlayStateDB.
From S2P Require Import VmStateDB Refinement Clones Reset Merge Chain GoSlice GoStd ToyInstance TxPool.
From S2P Require Import Signer Multisend Tracers TxArgs Evm Warm EvmProps Backend Actions Debug NodeState.
From S2P Require Import NodeSteps ToyNode NodeToy NodeProps.

(** ** What the owners do *)

Section spec.
Context `{Core} `{!Upstream} `{!Remote} `{!Abi} `{!SafeContract}.
Implicit Types (A : Abs) (bv : BlockValues) (cid gp : Z).

(** The transaction in which an owner approves a hash. *)
Definition approval cid (safe : Address) (h : Hash) (nonce : Z) (owner : Address) : option Transaction :=
  match sign_as cid owner (NewTx (LegacyTx (Some safe) nonce 100000 (Some (5 * 10 ^ 9)) None (approve_calldata h))) with
  | inr tx => Some tx
  | inl _ => None
  end.

(** One owner after the other gets an ether and approves. *)
Fixpoint spec_approve bv cid gp (safe : Address) (h : Hash) (nonces : Address → Z) (owners : list Address) A
    : option (Z * Abs) :=
  match owners with
  | [] => Some (gp, A)
  | owner :: owners =>
      r ← spec_op (OpAddBalance owner (10 ^ 18)) A;
      tx ← approval cid safe h (nonces owner) owner;
      q ← spec_ExecuteTxs bv cid gp 0 [tx] None r.2;
      spec_approve bv cid q.1.2 safe h nonces owners q.2
  end.

(** The call of the safe. *)
Definition safe_message (safe : Address) (calldata : bytes) (owner : Address) (nonce : Z) : Message :=
  NewMessage owner (Some safe) nonce 0 5000000 (5 * 10 ^ 9) 0 0 calldata [] true.

(** What the simulation is made of: the batch, the nonce of the safe, the hash its owners
    approve, the owners in order, the call data, and the owners' nonces. *)
Record SafePlan := mkSafePlan {
  pl_ms : MultisendSafe; pl_nonce : Z; pl_hash : Hash; pl_owners : list Address; pl_calldata : bytes;
  pl_nonces : Address → Z
}.

(** The owners given, or the first ones of the safe. *)
Definition chosen (safe : Address) (given owners : list Address) : Prop :=
  match given with
  | [] => NewGnosisSafe safe = inr tt ∧ ∃ all t, (∀ n, call_GetThreshold n safe = inr t) ∧
      (∀ n, call_GetOwners n safe = inr all) ∧ slice all 0 (Int64 t) = Some owners
  | _ => owners = given
  end.

(** The pool can be packed, and the upstream node answers what is asked about the safe. *)
Record planned (safe : Address) (txs : list Transaction) (given : list Address) (P : SafePlan) : Prop := {
  pd_ms : ∃ l, BuildTransactions txs = Some l ∧
    NewMultisendSafe safe MultiSendCallOnlyContractAddress l 0 = inr (pl_ms P);
  pd_nonce w : GetNonce_ (pl_ms P) w = (Ok (inr (pl_nonce P)), with_call w);
  pd_hash w : GetTxDataHash (pl_ms P) (Int64 (pl_nonce P)) w = (Ok (inr (pl_hash P)), with_call w);
  pd_owners : ∃ owners, chosen safe given owners ∧
    GenSafeCalldataWithApproveHash (pl_ms P) owners = (pl_owners P, inr (pl_calldata P));
  pd_some : pl_owners P ≠ [];
  pd_nonces n a : a ∈ pl_owners P → rpc_NonceAt n a = inr (pl_nonces P a)
}.

Definition safe_txs (txs : list Transaction) : list TxData :=
  imap (λ i tx, mkTxData (Z.of_nat i) Address_zero (default Address_zero (tx_To tx)) (tx_Data tx) "" Hash_zero) txs.

Definition safe_data (safe : Address) (txs : list Transaction) (P : SafePlan) : MultiSendData :=
  mkMultiSendData (safe_txs txs) (pl_calldata P) (pl_hash P) (approve_calldata (pl_hash P)) safe
    (Int64 (pl_nonce P)) None "" None [] [].

(** What comes of the call: a panic if it was rejected, or the data completed with its
    result, its logs and its trace. *)
Definition safe_outcome (ms : MultiSendData) (r : Err + ExecutionResult) (t : ForeignTracer) (logs : list Log)
    : Outcome (Err + MultiSendData) :=
  match r with
  | inl _ => Panic "invalid memory address or nil pointer dereference"
  | inr result =>
      match foreign_result t with
      | (_, Some err) => Ok (inl err)
      | (trace, None) =>
          Ok (inr (mkMultiSendData (msd_TxData ms) (msd_MultiSendCallData ms) (msd_MultiSendTxDataHash ms)
            (msd_ApproveHashCallData ms) (msd_To ms) (msd_SafeNonce ms) (Some result)
            (match er_Revert result with [] => "" | _ => re_error (newRevertError result) end) None logs trace))
      end
  end.

(** A simulation that can be planned: the safe's contract and the upstream node answer what
    is asked, and there is a call tracer. *)
Definition safe_ok (safe : Address) (txs : list Transaction) (given : list Address) : Prop :=
  ∃ P tr, planned safe txs given P ∧
    NewForeignTracer "callTracer" (mkTracerContext Hash_zero 0 Hash_zero) [] = inr tr ∧
    let msg := safe_message safe (pl_calldata P) (hd Address_zero (pl_owners P)) (hd 0 (map (pl_nonces P) (pl_owners P))) in
    3 + 2502 * Z.of_nat (length (pl_owners P)) + frames_of msg < 2 ^ 63.
End spec.

(** ** Running it *)

Section running.
Context `{CoreLaws} `{!GethLaws} `{!Upstream} `{!Remote} `{!Growth} `{!Abi} `{!SafeContract}.
Context (answer : BatchElem → option RpcValue) (N : nat) (HN : Reliable answer N).
Context (Htr : ∀ j h, is_Some (make_tracer None (mkTracerContext blockHash j h))).
Context (r : loc).
Implicit Types (b : Z) (A S : Abs) (bv : BlockValues) (cid gp : Z) (s : Node) (w : World).

Abbreviation OK := (node_ok answer N r).
Abbreviation FORKED := (forked answer N r).

Lemma approval_ok cid safe h nonce owner :
  ∃ tx, approval cid safe h nonce owner = Some tx ∧ budget [tx] = 2502 ∧
    sign_as cid owner (NewTx (LegacyTx (Some safe) nonce 100000 (Some (5 * 10 ^ 9)) None (approve_calldata h))) = inr tx ∧
    (let msg := tx_message cid tx in m_From msg = owner ∧ m_To msg = Some safe ∧ m_Nonce msg = nonce ∧
       m_Data msg = approve_calldata h).
Proof.
  set (un := NewTx _). destruct (sign_as_ok cid owner un) as (tx & Hsig & Hgas & Hf & Ht & _ & Hn & _ & Hd).
  destruct (NewTx_Legacy (Some safe) nonce 100000 (Some (5 * 10 ^ 9)) None (approve_calldata h))
    as (_ & E1 & E2 & E3 & _ & _ & E4). fold un in E1, E2, E3, E4.
  exists tx. split; [unfold approval; fold un; by rewrite Hsig|].
  split; [unfold budget; simpl; by rewrite Hgas, E3|]. split; [exact Hsig|].
  intros msg. unfold msg. split_and!; congruence.
Qed.

Lemma forked_add b A bv cid gp c S s a z :
  FORKED b A bv cid gp c S s →
  ∃ S' w', spec_op (OpAddBalance a z) S = Some (RUnit, S') ∧ a_depth S' = a_depth S ∧
    in_evm (in_world (AddBalance c a z)) s = (Ok tt, set_n_evm (set_world w' (n_evm s)) s) ∧
    FORKED b A bv cid gp c S' (set_n_evm (set_world w' (n_evm s)) s).
Proof.
  intros Hfk.
  assert (∃ S', spec_op (OpAddBalance a z) S = Some (RUnit, S') ∧ a_depth S' = a_depth S) as (S' & Hop & Hd) by by eexists.
  exists S'. destruct (forked_world answer N r (AddBalance c a z) tt S' _ _ _ _ _ _ _ _ Hfk) as (w' & Hrun & Hfk').
  { intros own1 base w Hc.
    destruct (run_op_refines answer N HN base r b c own1 w S (OpAddBalance a z) _ _ Hc Hop)
      as (w1 & own2 & Hrun & Hc' & Hconf).
    cbn [run_op] in Hrun. apply bind_Ok_inv in Hrun as ([] & w1' & Hrun & [= ->]). exists w1, own2. by split_and!. }
  exists w'. by split_and!.
Qed.

(** The approvals. *)
Lemma approve_loop_run b A bv cid gp c S s safe h nonces owners :
  FORKED b A bv cid gp c S s → (∀ n a, a ∈ owners → rpc_NonceAt n a = inr (nonces a)) →
  a_depth S + 2 + 2502 * Z.of_nat (length owners) < 2 ^ 63 →
  ∃ gp' S' es', spec_approve bv cid gp safe h nonces owners S = Some (gp', S') ∧
    approve_loop cid safe h c owners s = (Ok (inr (map nonces owners)), set_n_evm es' s) ∧
    FORKED b A bv cid gp' c S' (set_n_evm es' s) ∧ a_depth S' ≤ a_depth S + 2502 * Z.of_nat (length owners).
Proof.
  revert gp S s. induction owners as [|owner owners IH]; intros gp S s Hfk Hn Hd; cbn [spec_approve approve_loop map].
  { exists gp, S, (n_evm s). split_and!; [done|by destruct s|by destruct s|simpl; lia]. }
  rewrite length_cons in *.
  destruct (forked_request answer N r (λ n, rpc_NonceAt n owner) _ _ _ _ _ _ _ _ Hfk) as (i & es1 & Hrun1 & Hfk1 & _).
  rewrite (Hn i owner) in Hrun1 by left.
  destruct (forked_add _ _ _ _ _ _ _ _ owner (10 ^ 18) Hfk1) as (S2 & w2 & Hop & Hd2 & Hrun2 & Hfk2).
  destruct (approval_ok cid safe h (nonces owner) owner) as (tx & Htx & Hbud & Hsig & _).
  destruct (forked_execute answer N HN r _ _ _ _ _ _ _ _ [tx] None Hfk2) as
    (out & gp3 & S3 & es3 & Hspec & Hrun3 & Hfk3 & Hd3 & _); [lia|done|].
  destruct (IH _ _ _ Hfk3) as (gp4 & S4 & es4 & Hspec4 & Hrun4 & Hfk4 & Hd4); [intros n a Ha; apply Hn; by right|lia|].
  exists gp4, S4, es4. rewrite Hop. cbn [mbind option_bind snd]. rewrite Htx. cbn [mbind option_bind].
  rewrite Hspec. cbn [mbind option_bind fst snd]. split; [exact Hspec4|]. split; [|split; [exact Hfk4|lia]].
  rewrite (bind_Ok _ _ _ _ _ Hrun1), (bind_Ok _ _ _ _ _ Hrun2), Hsig.
  by rewrite (bind_Ok _ _ _ _ _ Hrun3), (bind_Ok _ _ _ _ _ Hrun4).
Qed.
Lemma forked_logs b A bv cid gp c S s h :
  FORKED b A bv cid gp c S s → in_evm (in_world (GetLogs c h)) s = (Ok (f_logs (a_frame S) h), s).
Proof.
  intros Hfk. pose proof (fk_db _ _ _ _ _ _ _ _ _ _ _ Hfk) as (d & p & _ & _ & _ & _ & _ & own1 & base & _ & Hc & _).
  destruct (refines_top _ _ _ _ _ _ _ _ Hc) as (db & t & own' & st & -> & Hdb & Ht & _ & _ & (Hch & _) & Hsh & _).
  assert (on_chain (es_world (n_evm s)) c t (t :: own' ++ base)) as Hon by by exists db.
  pose proof (GetLogs_run _ _ _ _ h Hon) as Hrun.
  pose proof (sh_logs _ _ _ _ _ _ Hsh h) as Hlg. change ((t :: own') ++ base) with (t :: own' ++ base) in Hlg.
  rewrite Hlg in Hrun.
  rewrite (in_evm_Ok _ _ _ _ (in_world_Ok _ (n_evm s) _ _ Hrun)). by destruct s as [[]].
Qed.

(** The call of the safe on the simulated state. *)
Lemma simulate_call_run b A bv cid gp c S s ms safe owner nonce tr :
  FORKED b A bv cid gp c S s → NewForeignTracer "callTracer" (mkTracerContext Hash_zero 0 Hash_zero) [] = inr tr →
  let msg := safe_message safe (msd_MultiSendCallData ms) owner nonce in
  let p := ApplyMessage bv cid msg (2 ^ 64 - 1) in let T := before_msg msg (with_tx psuedoTransaction S) in
  a_depth S + frames_of msg < 2 ^ 63 →
  ∃ x S' tr' s', spec_prog (erase p) T = Some (x, S') ∧ shown_all p T (TrForeign tr) = TrForeign tr' ∧
    simulate_call ms safe owner nonce c s =
      (safe_outcome ms (call_result msg x.1) tr' (f_logs (a_frame S') psuedoTransaction), s') ∧
    OK b A bv cid gp s' ∧ n_pool s' = n_pool s.
Proof.
  intros Hfk Hnew msg p T Hd.
  destruct (forked_tracer answer N r _ _ _ _ _ _ _ _ (TrForeign tr) Hfk) as
    (l & es1 & es2 & Hrun1 & Hrun2 & Hfk2 & Htl & Htl2 & _).
  set (s2 := set_n_evm es2 s) in *.
  destruct (forked_world answer N r (StartLogCollection c psuedoTransaction (Keccak256Hash (str "blockhash"))) tt
    (with_tx psuedoTransaction S) _ _ _ _ _ _ _ _ Hfk2) as (w3 & Hrun3 & Hfk3).
  { intros own1 base w Hc. destruct (startlog_step answer base r b c own1 w S psuedoTransaction (Keccak256Hash (str "blockhash")) Hc)
      as (w' & ? & ? & ? & _). by exists w', own1. }
  set (s3 := set_n_evm _ s2) in *.
  destruct (forked_call answer N HN r _ _ _ _ _ _ _ _ msg true Hfk3) as (x & S' & es4 & Hx & Hrun4 & Hfk4 & Htrs & _ & _);
    [simpl; lia|intros _; exists l, (TrForeign tr); by rewrite stops_foreign|].
  destruct (shown_foreign p T tr) as [tr' Hshown]. set (s4 := set_n_evm es4 s3) in *.
  assert (in_evm (get_tracer l) s4 = (Ok (TrForeign tr'), s4)) as Hget.
  { assert (es_tracers es4 !! l = Some (TrForeign tr')) as Hl.
    { rewrite Htrs. unfold call_tracers, s3, s2. cbn [n_evm set_n_evm es_evm set_world es_tracers].
      rewrite Htl, Htl2. cbn [CaptureStart]. rewrite lookup_insert_eq. fold p T. by rewrite Hshown. }
    refine (in_evm_Ok _ s4 (TrForeign tr') es4 _). unfold get_tracer, deref. cbn [n_evm s4 set_n_evm].
    by rewrite Hl. }
  exists x, S', tr', s4. split; [exact Hx|]. split; [exact Hshown|]. split; [|split; [by eapply forked_ok|done]].
  unfold simulate_call. fold (safe_message safe (msd_MultiSendCallData ms) owner nonce). fold msg. rewrite Hnew.
  rewrite (bind_Ok _ _ _ _ _ Hrun1), (bind_Ok _ _ _ _ _ Hrun2), (bind_Ok _ _ _ _ _ Hrun3), (bind_Ok _ _ _ _ _ Hrun4).
  unfold safe_outcome. destruct (call_result msg x.1) as [err|res]; [done|].
  rewrite (bind_Ok _ _ _ _ _ Hget). destruct (foreign_result tr') as [trace [err|]]; [done|].
  by rewrite (bind_Ok _ _ _ _ _ (forked_logs _ _ _ _ _ _ _ _ psuedoTransaction Hfk4)).
Qed.

(** A question to a contract. *)
Lemma node_ask {X} (m : M World X) x b A bv cid gp s :
  (∀ w, m w = (Ok x, with_call w)) → OK b A bv cid gp s →
  ∃ es', in_evm (in_world m) s = (Ok x, set_n_evm es' s) ∧ OK b A bv cid gp (set_n_evm es' s).
Proof.
  intros Hm Hok. destruct (node_request answer N r (λ _, x) _ _ _ _ _ _ Hok) as (i & es' & Hrun & Hok' & _).
  exists es'. split; [|exact Hok']. rewrite <-Hrun. unfold in_evm, request, in_world, zoom. by rewrite Hm.
Qed.

(** The owners that approve. *)
Lemma choose_owners_run b A bv cid gp s safe given owners :
  OK b A bv cid gp s → chosen safe given owners →
  ∃ es', choose_owners safe given s = (Ok (inr owners), set_n_evm es' s) ∧ OK b A bv cid gp (set_n_evm es' s).
Proof.
  intros Hok. destruct given as [|g given]; simpl.
  - intros (Hnew & all & t & Ht & Ho & Hsl).
    destruct (node_ask (contract_call (λ n, call_GetThreshold n safe)) (inr t) _ _ _ _ _ _
      ltac:(intros w; unfold contract_call; by rewrite Ht) Hok) as (es1 & Hrun1 & Hok1).
    destruct (node_ask (contract_call (λ n, call_GetOwners n safe)) (inr all) _ _ _ _ _ _
      ltac:(intros w; unfold contract_call; by rewrite Ho) Hok1) as (es2 & Hrun2 & Hok2).
    exists es2. split; [|exact Hok2]. unfold getSafeOwnersAndThreshold. rewrite Hnew.
    rewrite !bind_assoc. rewrite (bind_Ok _ _ _ _ _ Hrun1). rewrite !bind_assoc, (bind_Ok _ _ _ _ _ Hrun2).
    rewrite bind_mret. by rewrite (bind_deref (λ _, slice all 0 (Int64 t)) _ _ owners Hsl).
  - intros ->. exists (n_evm s). by destruct s.
Qed.

Lemma SimulateSafeExec_run b A bv cid gp s given P tr :
  OK b A bv cid gp s → let safe := ImpersonatedAccount (n_backend s) in
  let txs := (entries (n_pool s)).*1 in planned safe txs given P →
  NewForeignTracer "callTracer" (mkTracerContext Hash_zero 0 Hash_zero) [] = inr tr →
  let msg := safe_message safe (pl_calldata P) (hd Address_zero (pl_owners P)) (hd 0 (map (pl_nonces P) (pl_owners P))) in
  3 + 2502 * Z.of_nat (length (pl_owners P)) + frames_of msg < 2 ^ 63 →
  ∃ S0 gp' S1 x S2 tr' s', fresh_root answer b S0 ∧
    spec_approve bv cid gp safe (pl_hash P) (pl_nonces P) (pl_owners P) S0 = Some (gp', S1) ∧
    (let p := ApplyMessage bv cid msg (2 ^ 64 - 1) in let T := before_msg msg (with_tx psuedoTransaction S1) in
     spec_prog (erase p) T = Some (x, S2) ∧ shown_all p T (TrForeign tr) = TrForeign tr') ∧
    SimulateSafeExec given s =
      (safe_outcome (safe_data safe txs P) (call_result msg x.1) tr' (f_logs (a_frame S2) psuedoTransaction), s') ∧
    OK b A bv cid gp' s' ∧ n_pool s' = n_pool s.
Proof.
  intros Hok safe txs HP Hnew msg Hd. destruct HP as [(l & Hbuild & Hms) Hnonce Hhash (owners & Hch & Hgen) Hsome Hnonces].
  destruct (node_ask _ _ _ _ _ _ _ _ Hnonce Hok) as (es1 & Hrun1 & Hok1).
  destruct (node_ask _ _ _ _ _ _ _ _ Hhash Hok1) as (es2 & Hrun2 & Hok2).
  destruct (choose_owners_run _ _ _ _ _ _ _ _ _ Hok2 Hch) as (es3 & Hrun3 & Hok3).
  destruct (node_fork_root answer N r _ _ _ _ _ _ Hok3) as (c & w4 & S0 & Hrun4 & Hfr & Hfk4).
  assert (a_depth S0 = 1) as Hd0 by apply Hfr. pose proof (frames_of_pos msg).
  destruct (approve_loop_run _ _ _ _ _ _ _ _ safe (pl_hash P) (pl_nonces P) (pl_owners P) Hfk4 Hnonces)
    as (gp' & S1 & es5 & Hspec & Hrun5 & Hfk5 & Hd5); [lia|].
  destruct (pl_owners P) as [|o os] eqn:Eo; [done|].
  destruct (simulate_call_run _ _ _ _ _ _ _ _ (safe_data safe txs P) safe o (pl_nonces P o) tr Hfk5 Hnew)
    as (x & S2 & tr' & s' & Hx & Hshown & Hrun6 & Hok6 & Hp6); [change (a_depth S1 + frames_of msg < 2 ^ 63); lia|].
  exists S0, gp', S1, x, S2, tr', s'. split; [exact Hfr|]. split; [exact Hspec|]. split; [by split|].
  split; [|split; [exact Hok6|exact Hp6]].
  unfold SimulateSafeExec, the_backend. rewrite bind_gets. fold safe.
  rewrite (bind_Ok _ _ _ _ _ (pool_txs_run s (nk_pool _ _ _ _ _ _ _ _ _ Hok))). fold txs.
  rewrite (bind_deref (λ _, BuildTransactions txs) _ _ l Hbuild), Hms.
  rewrite (bind_Ok _ _ _ _ _ Hrun1), (bind_Ok _ _ _ _ _ Hrun2), (bind_Ok _ _ _ _ _ Hrun3), Hgen.
  rewrite (bind_Ok _ _ _ _ _ Hrun4).
  rewrite (bind_Ok _ _ _ _ _ (in_evm_ChainID answer N r _ _ _ _ _ _ (forked_ok _ _ _ _ _ _ _ _ _ _ _ Hfk4))).
  rewrite (bind_Ok _ _ _ _ _ Hrun5). cbn [map].
  rewrite (bind_deref (λ _, head (o :: os)) _ _ o eq_refl).
  rewrite (bind_deref (λ _, head (pl_nonces P o :: map (pl_nonces P) os)) _ _ (pl_nonces P o) eq_refl).
  exact Hrun6.
Qed.
End running.

(** ** Properties *)

Section properties.
Context `{CoreLaws} `{!GethLaws} `{!Upstream} `{!Remote} `{!Growth} `{!Abi} `{!SafeContract}.
Context (answer : BatchElem → option RpcValue) (N : nat) (HN : Reliable answer N).
Context (Htr : ∀ j h, is_Some (make_tracer None (mkTracerContext blockHash j h))).
Context (r : loc).
Implicit Types (b : Z) (A S : Abs) (bv : BlockValues) (cid gp : Z) (s : Node).

(** C26: the simulation of a safe transaction packs the pool into one batch and runs it as the
    impersonated safe: on a clone of the pinned block each owner, in increasing order, gets an
    ether and approves the hash of the batch in a transaction of its own, and the first of
    them calls the safe under a call tracer.  The answer is the batch with the result, the
    logs and the trace of that call, but a call that is rejected outright makes the handler
    panic.  State and pool of the node stay as they are. *)
Theorem SimulateSafeExec_spec b A bv cid gp s given P tr :
  node_ok answer N r b A bv cid gp s → let safe := ImpersonatedAccount (n_backend s) in
  let txs := (entries (n_pool s)).*1 in planned safe txs given P →
  NewForeignTracer "callTracer" (mkTracerContext Hash_zero 0 Hash_zero) [] = inr tr →
  let msg := safe_message safe (pl_calldata P) (hd Address_zero (pl_owners P)) (hd 0 (map (pl_nonces P) (pl_owners P))) in
  3 + 2502 * Z.of_nat (length (pl_owners P)) + frames_of msg < 2 ^ 63 →
  ∃ S0 gp' S1 x S2 tr' s', fresh_root answer b S0 ∧
    spec_approve bv cid gp safe (pl_hash P) (pl_nonces P) (pl_owners P) S0 = Some (gp', S1) ∧
    (let p := ApplyMessage bv cid msg (2 ^ 64 - 1) in let T := before_msg msg (with_tx psuedoTransaction S1) in
     spec_prog (erase p) T = Some (x, S2) ∧ shown_all p T (TrForeign tr) = TrForeign tr') ∧
    SimulateSafeExec given s =
      (safe_outcome (safe_data safe txs P) (call_result msg x.1) tr' (f_logs (a_frame S2) psuedoTransaction), s') ∧
    node_ok answer N r b A bv cid gp' s' ∧ n_pool s' = n_pool s.
Proof. apply SimulateSafeExec_run; assumption. Qed.
End properties.

(** ** Examples *)

Module ToySafeSim.
Export ToyUp.
Import ToySafe.

(** The plan for a pool of two transfers: two of the three owners approve. *)
Definition plan (s : Address) (l : bytes) : SafePlan :=
  let ms := mkMultisendSafe s 0 l MultiSendCallOnlyContractAddress in
  let q := GenSafeCalldataWithApproveHash ms [addr 9; addr 4] in
  mkSafePlan ms 3 (Keccak256Hash (Bytes 3 ++ l)) q.1 (match q.2 with inr d => d | inl _ => [] end) (λ _, 3).

Lemma planned_two s : ∃ l, planned s [sent 7 5 []; sent 8 6 [x01]] [] (plan s l).
Proof.
  destruct (BuildTransactions [sent 7 5 []; sent 8 6 [x01]]) as [l|] eqn:E.
  2:{ exfalso. apply (f_equal (λ o, match o with Some _ => true | None => false end)) in E.
      vm_compute in E. discriminate. }
  exists l. split.
  - exists l. split; [exact E|reflexivity].
  - reflexivity.
  - reflexivity.
  - exists [addr 9; addr 4]. split; [|reflexivity]. split; [reflexivity|].
    exists [addr 9; addr 4; addr 6], 2. by split_and!.
  - intros E'. apply (f_equal length) in E'. vm_compute in E'. discriminate.
  - reflexivity.
Defined.

Lemma SimulateSafeExec_spec_witness :
  ∃ s reply s', length (entries (n_pool s)) = 2%nat ∧ SimulateSafeExec [] s = (reply, s') ∧ n_pool s' = n_pool s.
Proof.
  destruct ToyProps.two_pooled as (o1 & o2 & gp & A & s & Hok & Hent).
  destruct (planned_two (ImpersonatedAccount (n_backend s))) as [l HP].
  pose proof (SimulateSafeExec_spec answer 1 reliable tracers1 1%nat 100 A bv1 1 gp s [] (plan (ImpersonatedAccount (n_backend s)) l) []
    Hok) as Hspec. rewrite Hent in Hspec.
  destruct (Hspec HP eq_refl ltac:(reflexivity)) as (S0 & gp' & S1 & x & S2 & tr' & s' & _ & _ & _ & Hrun & _ & Hp).
  eexists s, _, s'. split; [by rewrite Hent|]. split; [exact Hrun|exact Hp].
Defined.
End ToySafeSim.
