(* ===== verification/NodeQuiet.v ===== *)
(** * Handlers that change nothing

    Readers, tracers, probes and settings: from a node that represents a specification each
    leaves a node that represents the same one.  Most of them return; those that run code
    under a tracer of this repository, or simulate a safe, may panic as [estimate_panics],
    [storage_panics], [probe_panics] and [safe_panics] say. *)
From S2P Require Import Prelude BigInt Geth World OverlayState Fetch StateSpec OverlayStateDB.
From S2P Require Import VmStateDB Refinement Clones Reset Merge Chain GoSlice GoStd ToyInstance TxPool.
From S2P Require Import Signer Multisend Tracers TxArgs Evm Warm EvmProps Backend Actions Debug NodeState.
From S2P Require Import NodeSteps Receipts NodeSpec NodeLogic StorageRange Probe Bundle SafeSim StateDiff.

(** ** When such a request panics *)

Section panics.
Context `{Core} `{!Upstream} `{!Remote} `{!Growth} `{!Abi} `{!SafeContract}.
Variable answer : BatchElem → option RpcValue.
Implicit Types (σ : Spec) (s : Node).

(** The keccak tracer cannot read a step of the estimated message. *)
Definition estimate_panics σ s (args : TransactionArgs) : Prop :=
  ∃ bv cid gp msg A1, ready (n_evm s) bv cid gp ∧
    ToMessage (estimate_args (n_backend s) args (sp_state σ)) 0 None = inr msg ∧
    keccak_stops (ApplyMessage bv cid msg (2 ^ 64 - 1))
      (before_msg msg (start_abs (a_frame (sp_state σ)) (a_depth (sp_state σ) + 1))) = Some A1.

(** The state tracer cannot read a step of a call of the pool. *)
Definition storage_panics σ s : Prop :=
  ∃ bv cid gp S0 gp', ready (n_evm s) bv cid gp ∧ at_block answer (sp_block σ) S0 ∧
    spec_range bv cid gp (sp_txs σ) S0 = Some (None, gp').

(** The keccak tracer cannot read a step of one of the two runs of the probe. *)
Definition probe_panics σ s (h : Hash) : Prop :=
  ∃ bv cid gp before tx S0 out gp' S1 bv', ready (n_evm s) bv cid gp ∧
    find_tx h [] (sp_txs σ) = Some (before, tx) ∧ at_block answer (sp_block σ) S0 ∧
    spec_ExecuteTxs bv cid gp 0 before None S0 = Some (out, gp', S1) ∧
    let msg := tx_message cid tx in spec_probe bv cid msg (cloned (before_msg msg S1)) = Some (None, bv').

(** The call of the safe is rejected outright. *)
Definition safe_panics σ s (given : list Address) : Prop :=
  ∃ bv cid gp P S0 gp' S1 x S2 err, let safe := ImpersonatedAccount (n_backend s) in
    let msg := safe_message safe (pl_calldata P) (hd Address_zero (pl_owners P)) (hd 0 (map (pl_nonces P) (pl_owners P))) in
    ready (n_evm s) bv cid gp ∧ planned safe (sp_txs σ) given P ∧ fresh_root answer (sp_block σ) S0 ∧
    spec_approve bv cid gp safe (pl_hash P) (pl_nonces P) (pl_owners P) S0 = Some (gp', S1) ∧
    spec_prog (erase (ApplyMessage bv cid msg (2 ^ 64 - 1))) (before_msg msg (with_tx psuedoTransaction S1)) =
      Some (x, S2) ∧ call_result msg x.1 = inl err.
End panics.

(** From [s] the computation returns, or panics where it may, in a node in [Q]. *)
Definition settles {S X} (may : Prop) (m : M S X) (Q : S → Prop) (s : S) : Prop :=
  ∃ o s', m s = (o, s') ∧ ((∃ x, o = Ok x) ∨ may ∧ ∃ err, o = Panic err) ∧ Q s'.

Section quiet.
Context `{CoreLaws} `{!GethLaws} `{!Upstream} `{!Remote} `{!Growth} `{!Abi} `{!SafeContract}.
Context (answer : BatchElem → option RpcValue) (N : nat) (HN : Reliable answer N).
Context (Htr : ∀ j h, is_Some (make_tracer None (mkTracerContext blockHash j h))).
Context (r : loc).
Implicit Types (σ : Spec) (s : Node).

Abbreviation Rep := (Rep answer N r).

(** ** Touched storage *)

Lemma storage_settles σ s arg a keyStart maxResult :
  budget (sp_txs σ) < 2 ^ 61 → Rep σ s →
  settles (storage_panics answer σ s) (StorageRangeAt Hash_zero arg a keyStart maxResult) (Rep σ) s.
Proof.
  intros Hb Hs. pose proof (Rep_txs _ _ _ _ _ Hs) as Etx. pose proof Hs as (bv & cid & gp & Hok & E).
  destruct (range_index (sp_txs σ) arg) as [err|i] eqn:Hi.
  - eexists _, s. split; [eapply StorageRangeAt_missing; [exact Hok|by rewrite Etx]|]. eauto.
  - destruct (StorageRangeAt_run answer N HN Htr r _ _ _ _ _ _ arg a keyStart maxResult i Hok)
      as (S0 & res & gp' & out & s' & Hat & Hspec & Hrun & Hres & Hok' & Hp & _); [by rewrite Etx|rewrite Etx; lia|].
    rewrite Etx in Hspec. exists out, s'. split; [exact Hrun|]. split; [|exists bv, cid, gp'; by rewrite Hp].
    destruct res as [[acc S']|]; [destruct Hres as (result & _ & ->); eauto|]. right. split; [|done].
    exists bv, cid, gp, S0, gp'. split_and!; [apply Hok|done..].
Qed.

(** ** Traces and probes of the pool *)

(** The pool splits at the transaction that is looked for. *)
Lemma pool_split h txs before tx :
  find_tx h [] txs = Some (before, tx) → budget txs < 2 ^ 61 →
  ∃ after, txs = before ++ tx :: after ∧ tx_Hash tx = h ∧ (tx_Hash tx ∉ tx_Hash <$> before) ∧
    3 + budget (before ++ [tx]) < 2 ^ 63.
Proof.
  intros (l1 & l2 & -> & -> & <- & Hn)%find_tx_split Hb. exists l2. cbn [app].
  change (tx :: l2) with ([tx] ++ l2) in Hb. rewrite app_assoc, budget_app in Hb.
  pose proof (budget_nonneg l2). split_and!; [done|done|done|lia].
Qed.

Lemma trace_triple σ h config :
  budget (sp_txs σ) < 2 ^ 61 → (∀ i, is_Some (rpc_Header i "latest")) →
  (∀ ctx, is_Some (debug_tracer config ctx)) → triple (Rep σ) (TraceTransaction h config) (λ _, Rep σ).
Proof.
  intros Hb Hhd Hcfg s Hs. pose proof (Rep_txs _ _ _ _ _ Hs) as Etx. pose proof Hs as (bv & cid & gp & Hok & E).
  pose proof (pool_txs_run s (nk_pool _ _ _ _ _ _ _ _ _ Hok)) as Hpool. rewrite Etx in Hpool.
  destruct (find_tx h [] (sp_txs σ)) as [[before tx]|] eqn:Hfind.
  - destruct (pool_split _ _ _ _ Hfind Hb) as (after & Hsplit & <- & Hn & Hb'). rewrite <-Etx in Hsplit.
    destruct (TraceTransaction_run answer N HN Htr r _ _ bv cid gp s config before tx after
      Hok Hsplit Hn Hhd Hcfg Hb') as (ctx & gp' & s' & Hok' & Hp' & _ & Hrun).
    assert (Rep σ s') as Hs' by (exists bv, cid, gp'; by rewrite Hp').
    destruct (debug_tracer config ctx) as [[err|[tr is_struct]]|]; [eauto| |done].
    destruct Hrun as (S0 & out & S1 & x & S2 & tr' & _ & _ & _ & _ & Hrun). eauto.
  - eexists _, s. split; [|exact Hs]. unfold TraceTransaction. by rewrite (bind_Ok _ _ _ _ _ Hpool), Hfind.
Qed.

Lemma probe_settles σ s h :
  budget (sp_txs σ) < 2 ^ 61 → Rep σ s →
  settles (probe_panics answer σ s h) (RunTxWithDifferentContext h) (Rep σ) s.
Proof.
  intros Hb Hs. pose proof (Rep_txs _ _ _ _ _ Hs) as Etx. pose proof Hs as (bv & cid & gp & Hok & E).
  pose proof (pool_txs_run s (nk_pool _ _ _ _ _ _ _ _ _ Hok)) as Hpool. rewrite Etx in Hpool.
  destruct (find_tx h [] (sp_txs σ)) as [[before tx]|] eqn:Hfind.
  - destruct (pool_split _ _ _ _ Hfind Hb) as (after & Hsplit & <- & Hn & Hb'). rewrite <-Etx in Hsplit.
    destruct (RunTxWithDifferentContext_run answer N HN Htr r _ _ bv cid gp s before tx after Hok Hsplit Hn Hb')
      as (S0 & out & gp' & S1 & reply & bv' & o & s' & Hat & Hspec & Hreply & Ho & Hrun & Hok' & Hp').
    exists o, s'. split; [exact Hrun|]. split; [|exists bv', cid, gp'; split; [exact Hok'|by rewrite Hp']].
    destruct reply as [x|]; simpl in Ho; [left; eauto|]. right. split; [|done].
    exists bv, cid, gp, before, tx, S0, out, gp', S1, bv'. split_and!; [apply Hok|done..].
  - eexists _, s. split; [|split; [left; by eexists|exact Hs]]. unfold RunTxWithDifferentContext.
    by rewrite (bind_Ok _ _ _ _ _ Hpool), Hfind.
Qed.

(** ** Readers *)

Lemma read_state_triple {X} σ (m : loc → M World X) :
  triple (Rep σ) (on_StateDB m) (λ _, Rep σ) → triple (Rep σ) (read_state m) (λ _, Rep σ).
Proof.
  intros Hm s Hs. destruct (Hm s Hs) as (x & s' & Hrun & Hs').
  pose proof Hs as (bv & cid & gp & Hok & _). destruct (nk_db _ _ _ _ _ _ _ _ _ Hok) as (d & p & Hd & _).
  unfold on_StateDB in Hrun. rewrite (bind_Ok _ _ _ _ _ (in_evm_the_StateDB s d Hd)) in Hrun.
  exists (inr x), s'. split; [|done]. unfold read_state.
  rewrite (bind_Ok _ _ _ _ _ (in_evm_the_evm s)), Hd. by rewrite (bind_Ok _ _ _ _ _ Hrun).
Qed.

Lemma nonce_triple σ a : triple (Rep σ) (on_StateDB (λ d, GetNonce d a)) (λ _, Rep σ).
Proof.
  apply (Rep_read answer N r). apply (reads_op answer N HN r (OpGetNonce a) (λ d, GetNonce d a) RInt); [done|].
  intros A. by eexists.
Qed.

Lemma balance_triple σ a : triple (Rep σ) (on_StateDB (λ d, GetBalance d a)) (λ _, Rep σ).
Proof.
  apply (Rep_read answer N r). apply (reads_op answer N HN r (OpGetBalance a) (λ d, GetBalance d a) RInt); [done|].
  intros A. by eexists.
Qed.

Lemma code_triple σ a : triple (Rep σ) (on_StateDB (λ d, GetCode d a)) (λ _, Rep σ).
Proof.
  apply (Rep_read answer N r). apply (reads_op answer N HN r (OpGetCode a) (λ d, GetCode d a) RBytes); [done|].
  intros A. by eexists.
Qed.

Lemma logs_triple σ h : triple (Rep σ) (on_StateDB (λ d, GetLogs d h)) (λ _, Rep σ).
Proof.
  apply (Rep_read answer N r). intros d own base w A b Href.
  destruct (refines_on_chain answer _ _ _ _ _ _ _ Href) as (s & own' & -> & Hon).
  eexists _, w, _. split; [by eapply GetLogs_run|]. split; [exact Href|apply confined_refl].
Qed.

Lemma block_number_triple σ : triple (Rep σ) EthBlockNumber (λ _, Rep σ).
Proof. step Rep_request. apply triple_pure. intros _. by apply triple_ret. Qed.

Lemma transaction_triple σ h : triple (Rep σ) (EthGetTransactionByHash h) (λ _, Rep σ).
Proof.
  unfold EthGetTransactionByHash. step triple_gets.
  destruct (GetTransactionByHash _ h) as [i [tx|]]; [|by apply triple_ret].
  step block_number_triple. step Rep_TxToMessage. apply triple_pure. intros _. by apply triple_ret.
Qed.

(** As many results as transactions. *)
Lemma txs_loop_triple σ i txs rs :
  length rs = length txs → triple (Rep σ) (txs_loop i txs rs) (λ _, Rep σ).
Proof.
  revert i rs. induction txs as [|tx txs IH]; intros i [|o rs] Hl; try done; cbn [txs_loop].
  - by apply triple_ret.
  - step (triple_deref (head (o :: rs)) o). apply triple_pure. intros ->.
    step Rep_TxToMessage. apply triple_pure. intros _.
    eapply triple_bind; [apply IH; simpl in Hl |- *; lia|]. intros ?. by apply triple_ret.
Qed.

Lemma txs_triple σ : triple (Rep σ) GetTxs (λ _, Rep σ).
Proof.
  unfold GetTxs. step Rep_pool_txs. apply triple_pure. intros ->.
  step Rep_pool_results. apply triple_pure. intros ->.
  apply txs_loop_triple. unfold sp_txs. by rewrite !length_fmap.
Qed.

Lemma logs_handler_triple σ crit : triple (Rep σ) (EthGetLogs crit) (λ _, Rep σ).
Proof.
  unfold EthGetLogs. case_decide.
  - step Rep_pool_txs. apply triple_pure. intros ->.
    eapply triple_bind; [apply (triple_fold _ (sp_txs σ) [] (Rep σ))|intros ?; by apply triple_ret].
    intros l tx _. step logs_triple. by apply triple_ret.
  - eapply triple_conseq; [apply Rep_request|done|]. by intros ? ? [_ ?].
Qed.

(** Marshalling without full transactions does not fail. *)
Lemma RPCMarshalBlock_ok block : ∃ m, RPCMarshalBlock block true false = inr m.
Proof. by eexists. Qed.

Lemma block_by_number_triple σ number fullTx : triple (Rep σ) (GetBlockByNumber number fullTx) (λ _, Rep σ).
Proof.
  unfold GetBlockByNumber. destruct (Z.eqb number LatestBlockNumber); [|destruct (Z.eqb number PendingBlockNumber)].
  - step Rep_request. apply triple_pure. intros _. destruct x as [err|blk]; [by apply triple_ret|].
    step Rep_pool_txs. apply triple_pure. intros ->.
    match goal with |- context [RPCMarshalBlock ?b true false] => destruct (RPCMarshalBlock_ok b) as [m ->] end.
    by apply triple_ret.
  - by apply triple_ret.
  - step Rep_request. apply triple_pure. intros _. destruct x as [err|blk]; [by apply triple_ret|].
    destruct (RPCMarshalBlock_ok blk) as [m ->]. by apply triple_ret.
Qed.

Lemma block_by_hash_triple σ h fullTx : triple (Rep σ) (GetBlockByHash h fullTx) (λ _, Rep σ).
Proof.
  unfold GetBlockByHash. step Rep_request. apply triple_pure. intros _.
  destruct x as [blk|]; [by apply triple_ret|apply block_by_number_triple].
Qed.

Lemma fee_history_settles σ s count last :
  Rep σ s → settles (2 ^ 48 < 8 * count) (FeeHistory count last) (Rep σ) s.
Proof.
  intros Hs. destruct (block_number_triple σ s Hs) as (x & s' & Hrun & Hs').
  unfold settles, FeeHistory. rewrite (bind_Ok _ _ _ _ _ Hrun). destruct (Z.ltb_spec (2 ^ 48) (8 * count)).
  - eexists _, s'. split; [done|]. split; [right; eauto|done].
  - eexists _, s'. split; [done|]. split; [left; eauto|done].
Qed.

Lemma chain_id_triple σ : triple (Rep σ) EthChainId (λ _, Rep σ).
Proof.
  unfold EthChainId. step Rep_the_backend. destruct (OverrideChainID x); [by apply triple_ret|apply Rep_ChainID].
Qed.

Lemma receipt_triple σ h : triple (Rep σ) (GetTransactionReceipt h) (λ _, Rep σ).
Proof.
  intros s (bv & cid & gp & Hok & E).
  destruct (GetTransactionReceipt_run answer N r _ _ _ _ _ _ h Hok) as (reply & s' & Hrun & Hok' & Hp & _).
  exists reply, s'. split; [exact Hrun|]. exists bv, cid, gp. by rewrite Hp.
Qed.

Lemma version_triple σ : triple (Rep σ) Version (λ _, Rep σ).
Proof. unfold Version. step Rep_ChainID. by apply triple_ret. Qed.

(** A getter of the EVM. *)
Lemma getter_triple {X} σ (f : MferEVM → X) : triple (Rep σ) (in_evm (e ← the_evm; mret (f e))) (λ _, Rep σ).
Proof. intros s Hs. exists (f (es_evm (n_evm s))), s. split; [by destruct s as [[]]|done]. Qed.

Lemma backend_getter_triple {X} σ (f : MferBackend → X) :
  triple (Rep σ) (b ← the_backend; mret (f b)) (λ _, Rep σ).
Proof. step Rep_the_backend. by apply triple_ret. Qed.

(** ** State difference and calls upstream *)

Lemma diff_triple σ : triple (Rep σ) (on_StateDB GetStateDiff) (λ _, Rep σ).
Proof.
  intros s (bv & cid & gp & Hok & E). pose proof (nk_db _ _ _ _ _ _ _ _ _ Hok) as (d & p & Hd & Hp & Hdb).
  destruct (dk_refines _ _ _ _ _ _ _ _ Hdb) as [own Href].
  destruct (dk_root _ _ _ _ _ _ _ _ Hdb) as (st & Hst & H0' & _).
  destruct (GetStateDiff_step answer _ _ _ _ _ _ _ own st Href eq_refl Hst) as (D & w' & Hrun & Href' & Hconf & _);
    [lia..|].
  eexists D, _. split.
  - unfold on_StateDB. rewrite (bind_Ok _ _ _ _ _ (in_evm_the_StateDB s d Hd)).
    by apply in_evm_Ok, in_world_Ok.
  - exists bv, cid, gp. split; [|done].
    eapply node_ok_world; [done..| |exact (cf_bigs _ _ _ _ _ _ _ _ Hconf)]. by eapply db_ok_run.
Qed.

Lemma state_block_triple σ : triple (Rep σ) (on_StateDB StateBlockNumber) (λ _, Rep σ).
Proof.
  intros s Hs. pose proof Hs as (bv & cid & gp & Hok & E). pose proof (nk_db _ _ _ _ _ _ _ _ _ Hok) as (d & p & Hd & Hp & Hdb).
  destruct (db_counters answer N r _ _ _ _ _ Hdb) as (Hrun & _). exists (sp_block σ), s. split; [|done].
  unfold on_StateDB. rewrite (bind_Ok _ _ _ _ _ (in_evm_the_StateDB s d Hd)).
  rewrite (in_evm_Ok _ _ _ _ (in_world_Ok _ (n_evm s) _ _ Hrun)). by destruct s as [[]].
Qed.

Lemma passthrough_triple σ args block overrides :
  triple (Rep σ) (CallPassthrough args block overrides) (λ _, Rep σ).
Proof.
  unfold CallPassthrough. step Rep_the_backend. step diff_triple. step state_block_triple.
  step Rep_request. apply triple_pure. intros _. by apply triple_ret.
Qed.

(** ** Bundles and safe transactions *)

Lemma bundle_triple σ msgArgs :
  bundle_ok msgArgs → triple (Rep σ) (TraceTransactionBundle msgArgs) (λ _, Rep σ).
Proof.
  intros [(k & Hk0 & Hk & Hd) Hnd] s (bv & cid & gp & Hok & E).
  destruct (TraceTransactionBundle_run answer N HN Htr r k _ _ _ _ _ _ msgArgs Hok Hk Hk0 Hd)
    as (S0 & txs & reply & gp' & S' & _ & Hspec & Hrun).
  destruct (Hrun (Hnd _ _ _ _ _ _ _ _ Hspec)) as (D & s' & Hs' & _ & Hok' & Hp & _).
  eexists _, s'. split; [exact Hs'|]. exists bv, cid, gp'. by rewrite Hp.
Qed.

Lemma safe_settles σ given s :
  safe_ok (ImpersonatedAccount (n_backend s)) (sp_txs σ) given → Rep σ s →
  settles (safe_panics answer σ s given) (SimulateSafeExec given) (Rep σ) s.
Proof.
  intros (P & tr & HP & Htc & Hd) Hs. pose proof (Rep_txs _ _ _ _ _ Hs) as Etx.
  destruct Hs as (bv & cid & gp & Hok & E). pose proof HP as HP'. rewrite <-Etx in HP.
  destruct (SimulateSafeExec_run answer N HN Htr r _ _ bv cid gp s given P tr Hok HP Htc Hd)
    as (S0 & gp' & S1 & x & S2 & tr' & s' & Hfr & Happ & (Hx & _) & Hrun & Hok' & Hp).
  eexists _, s'. split; [exact Hrun|]. split; [|exists bv, cid, gp'; by rewrite Hp].
  unfold safe_outcome. destruct (call_result _ x.1) as [err|res] eqn:Hres.
  - right. split; [|by eexists]. exists bv, cid, gp, P, S0, gp', S1, x, S2, err. split_and!; [apply Hok|done..].
  - left. destruct (foreign_result tr') as [trace [err|]]; by eexists.
Qed.

Lemma contract_triple {X} σ (f : nat → X) :
  triple (Rep σ) (in_evm (in_world (contract_call f))) (λ _, Rep σ).
Proof. intros s Hs. destruct (Rep_request answer N r σ f s Hs) as (x & s' & Hrun & _ & Hs'). by exists x, s'. Qed.

Lemma safe_owners_triple σ : triple (Rep σ) GetSafeOwnersAndThreshold (λ _, Rep σ).
Proof.
  unfold GetSafeOwnersAndThreshold. step Rep_the_backend. unfold getSafeOwnersAndThreshold.
  destruct (NewGnosisSafe _); [by apply triple_ret|]. step contract_triple.
  match goal with |- triple _ (match ?x with _ => _ end) _ => destruct x end; [by apply triple_ret|].
  step contract_triple. by apply triple_ret.
Qed.

(** ** The size of batches *)

Definition rebatch (n : Z) (w : World) : World := with_states (alter (set_batchSize n) r) w.

Lemma rebatch_field {X} n w l (f : OverlayState → X) :
  (∀ st, f (set_batchSize n st) = f st) → f <$> w_states (rebatch n w) !! l = f <$> w_states w !! l.
Proof.
  intros Hf. simpl. rewrite lookup_alter. case_decide; [subst|done].
  destruct (w_states w !! l); simpl; [by rewrite Hf|done].
Qed.

Lemma rebatch_bind {X} n w l (f : OverlayState → option X) :
  (∀ st, f (set_batchSize n st) = f st) → (w_states (rebatch n w) !! l ≫= f) = (w_states w !! l ≫= f).
Proof.
  intros Hf. pose proof (rebatch_field n w l f Hf) as E.
  by destruct (w_states (rebatch n w) !! l), (w_states w !! l); simplify_eq/=.
Qed.

Lemma rebatch_pad n w l : pad (rebatch n w) l = pad w l.
Proof.
  unfold pad. pose proof (rebatch_field n w l scratchPad (λ _, eq_refl)) as E.
  by destruct (w_states (rebatch n w) !! l), (w_states w !! l); simplify_eq/=.
Qed.

(** Nothing that is shown depends on it. *)
Lemma rebatch_shows n b w (t : loc) ls F : shows answer b w t ls F → shows answer b (rebatch n w) t ls F.
Proof.
  intros []. split; intros.
  - rewrite <-sh_obs. unfold observe. by rewrite (view_ext w (rebatch n w)) by (intros; apply rebatch_pad).
  - rewrite <-sh_dead. unfold dead_in. by rewrite rebatch_pad.
  - rewrite <-sh_logs. apply chain_logs_ext. intros l _. by apply rebatch_bind.
  - rewrite (find_receipt_ext w (rebatch n w)) by (intros l _; by apply rebatch_bind). apply sh_receipts.
  - by rewrite rebatch_field.
Qed.

Lemma rebatch_tower n b w own base depth F saved :
  tower answer b w own base depth F saved → tower answer b (rebatch n w) own base depth F saved.
Proof.
  revert depth F saved. induction own as [|t own IH]; intros depth F saved; [done|].
  intros (Hsh & Hd & Hrest). split; [by apply rebatch_shows|]. split; [by rewrite rebatch_field|].
  destruct saved as [|[id F'] saved], own; try done.
  destruct Hrest as (? & ? & ?). split_and!; [done|done|by apply IH].
Qed.

Lemma rebatch_refines n own base b w d A :
  refines answer own base r b w d A → 1 ≤ n → refines answer own base r b (rebatch n w) d A.
Proof.
  intros [(db & t & ? & ? & ? & ? & Hc & Hl & (st & p & Hst & Hp & Hbn & Hu & _)) ? Hf ? ? Htow Hwf] Hn.
  split; [|done| |done|done|by apply rebatch_tower|].
  - exists db, t. split_and!; [done..|]. split; [|split; [done|]].
    + eapply chain_ext; [|exact Hc]. intros l st0 _ Hst0.
      pose proof (rebatch_field n w l parent (λ _, eq_refl)) as E. rewrite Hst0 in E.
      destruct (w_states (rebatch n w) !! l) as [st1|]; [|done]. exists st1. split; [done|]. by injection E.
    + exists (set_batchSize n st), p. simpl. by rewrite lookup_alter_eq, Hst.
  - intros l Hl'. apply Hf. simpl in Hl'. by rewrite lookup_alter_is_Some in Hl'.
  - intros l. rewrite rebatch_pad. apply Hwf.
Qed.

Lemma rebatch_db_ok n b d p A w :
  db_ok answer N r b d p A w → 1 ≤ n → db_ok answer N r b d p A (rebatch n w).
Proof.
  intros [[own Href] Hcl Ht (st & Hst & Hd & Hlg & Hbn) Hsb Hc] Hn.
  split; [exists own; by apply rebatch_refines| | | |done|done].
  - intros a act key v. rewrite rebatch_pad. apply Hcl.
  - intros a act key Hact. rewrite rebatch_pad. intros (st0 & Hst0 & Ha)%Ht; [|done].
    simplify_eq. exists (set_batchSize n st). simpl. by rewrite lookup_alter_eq, Hst.
  - exists (set_batchSize n st). simpl. by rewrite lookup_alter_eq, Hst.
Qed.

Lemma batch_triple σ n : 1 ≤ n → triple (Rep σ) (ActSetBatchSize n) (λ _, Rep σ).
Proof.
  intros Hn s (bv & cid & gp & Hok & E). pose proof (nk_db _ _ _ _ _ _ _ _ _ Hok) as (d & p & Hd & Hp & Hdb).
  destruct (dk_refines _ _ _ _ _ _ _ _ Hdb) as [own Href].
  destruct (rf_db _ _ _ _ _ _ _ _ Href) as (db & t & Hdb' & Ht & _ & _ & Hc & Hl & _).
  eexists tt, _. split.
  - unfold ActSetBatchSize, on_StateDB. rewrite (bind_Ok _ _ _ _ _ (in_evm_the_StateDB s d Hd)).
    apply in_evm_Ok, in_world_Ok. unfold SetBatchSize.
    rewrite (bind_Ok _ _ _ _ _ (top_run _ _ _ _ Hdb' Ht)), (bind_Ok _ _ _ _ _ (getRootState_spec _ _ _ _ Hc Hl)).
    reflexivity.
  - exists bv, cid, gp. split; [|done].
    eapply node_ok_world; [done..| |done]. by apply (rebatch_db_ok n).
Qed.
End quiet.
