(* ===== verification/NodeHandlers.v ===== *)
(** * The node's handlers, simulated

    [Handler] lists the requests of clients, a constructor for every method of the registered
    interfaces, and the ticks of the node's own goroutine, [effect]
    what each may do to the specification of the node, [handler_ok] what it takes for
    granted, and [panics] when it panics.  Every one of them is simulated. *)
From S2P Require Import Prelude BigInt Geth World OverlayState Fetch StateSpec OverlayStateDB.
From S2P Require Import VmStateDB Refinement Clones Reset Merge Chain GoSlice GoStd ToyInstance TxPool.
From S2P Require Import Signer Multisend Tracers TxArgs Evm Warm EvmProps Backend Actions Debug NodeState.
From S2P Require Import NodeSteps NodeSpec NodeLogic Blocks Bundle SafeSim NodeQuiet.

(** ** Handlers *)

Section handlers.
Context `{Core} `{!Upstream} `{!Remote} `{!Growth} `{!Abi} `{!SafeContract}.

Inductive Handler :=
| HSend (args : TransactionArgs)
| HSendRaw (input : bytes)
| HPrint (a : Address)
| HCall (args : TransactionArgs) (block : BlockNumberOrHash) (overrides : option StateOverride)
| HCallPassthrough (args : TransactionArgs) (block : BlockNumberOrHash) (overrides : option StateOverride)
| HCallLocal (args : TransactionArgs) (block : BlockNumberOrHash) (overrides : option StateOverride)
| HEstimate (args : TransactionArgs) (block : option BlockNumberOrHash)
| HTrace (h : Hash) (config : option TraceConfig)
| HStorageRange (arg : TxIdxOrHash) (a : Address) (keyStart : bytes) (maxResult : Z)
| HClear
| HReExec
| HReset
| HClearKeys
| HTick (missing : bool)
| HNonce (a : Address) (block : BlockNumberOrHash)
| HBalance (a : Address) (block : BlockNumberOrHash)
| HCode (a : Address) (block : BlockNumberOrHash)
| HTransaction (h : Hash)
| HTxs
| HLogs (crit : FilterCriteria)
| HBlockNumber
| HBlockByNumber (number : Z) (fullTx : bool)
| HBlockByHash (h : Hash) (fullTx : bool)
| HFeeHistory (blockCount lastBlock : Z)
| HChainId
| HImpersonate (a : Address)
| HRandomize (enable : bool)
| HPassthrough (enable : bool)
| HOverrideChainID (id : Z)
| HTimeDelta (delta : Z)
| HBlockDelta (delta : Z)
| HReceipt (h : Hash)
| HProbe (h : Hash)
| HBundle (msgArgs : list TransactionArgs)
| HSafe (safeOwners : list Address)
| HSafeOwners
| HStateDiff
| HBatchSize (n : Z)
| HTraceBlock (number : Z) (config : option TraceConfig)
| HTraceRange (numberFrom numberTo : Z) (config : option TraceConfig)
| HAccounts
| HRequestAccounts
| HVersion
| HListening
| HGasPrice
| HSwitchChain (id : option Z)
| HPreimage (h : Hash)
| HGetTimeDelta
| HGetBlockDelta
| HGetImpersonated
| HGetRandomized
| HGetPassthrough.

Definition dropped {A} (m : M Node A) : M Node unit := _ ← m; mret tt.

Definition run_handler (h : Handler) : M Node unit :=
  match h with
  | HSend args => dropped (SendTransaction args)
  | HSendRaw input => dropped (SendRawTransaction input)
  | HPrint a => PrintMoney a
  | HCall args block overrides => dropped (Call args block overrides)
  | HCallPassthrough args block overrides => dropped (CallPassthrough args block overrides)
  | HCallLocal args block overrides => dropped (CallLocal args block overrides)
  | HEstimate args block => dropped (EstimateGas args block)
  | HTrace h config => dropped (TraceTransaction h config)
  | HStorageRange arg a keyStart maxResult => dropped (StorageRangeAt Hash_zero arg a keyStart maxResult)
  | HClear => ClearTxPool
  | HReExec => ReExecTxPool
  | HReset => ResetState
  | HClearKeys => ClearKeyCache
  | HTick missing => updatePendingBN missing
  | HNonce a block => dropped (GetTransactionCount a block)
  | HBalance a block => dropped (EthGetBalance a block)
  | HCode a block => dropped (EthGetCode a block)
  | HTransaction h => dropped (EthGetTransactionByHash h)
  | HTxs => dropped GetTxs
  | HLogs crit => dropped (EthGetLogs crit)
  | HBlockNumber => dropped EthBlockNumber
  | HBlockByNumber number fullTx => dropped (GetBlockByNumber number fullTx)
  | HBlockByHash h fullTx => dropped (GetBlockByHash h fullTx)
  | HFeeHistory blockCount lastBlock => dropped (FeeHistory blockCount lastBlock)
  | HChainId => dropped EthChainId
  | HImpersonate a => Impersonate a
  | HRandomize enable => ToggleRandAddr enable
  | HPassthrough enable => TogglePassthrough enable
  | HOverrideChainID id => ActOverrideChainID id
  | HTimeDelta delta => ActSetTimeDelta delta
  | HBlockDelta delta => ActSetBlockNumberDelta delta
  | HReceipt h => dropped (GetTransactionReceipt h)
  | HProbe h => dropped (RunTxWithDifferentContext h)
  | HBundle msgArgs => dropped (TraceTransactionBundle msgArgs)
  | HSafe safeOwners => dropped (SimulateSafeExec safeOwners)
  | HSafeOwners => dropped GetSafeOwnersAndThreshold
  | HStateDiff => dropped ActGetStateDiff
  | HBatchSize n => ActSetBatchSize n
  | HTraceBlock number config => dropped (TraceBlockByNumber number config)
  | HTraceRange numberFrom numberTo config => dropped (TraceBlockByNumberRange numberFrom numberTo config)
  | HAccounts => dropped Accounts
  | HRequestAccounts => dropped RequestAccounts
  | HVersion => dropped Version
  | HListening => dropped Listening
  | HGasPrice => dropped EthGasPrice
  | HSwitchChain id => SwitchEthereumChain id
  | HPreimage h => dropped (DebugPreimage h)
  | HGetTimeDelta => dropped ActGetTimeDelta
  | HGetBlockDelta => dropped ActGetBlockNumberDelta
  | HGetImpersonated => dropped ActImpersonatedAccount
  | HGetRandomized => dropped RandAddrEnabled
  | HGetPassthrough => dropped PassthroughEnabled
  end.

(** The transaction [PrintMoney] sends. *)
Definition print_args (a : Address) : TransactionArgs :=
  mkTransactionArgs (Some FAKE_ACCOUNT_RICH) (Some a) None None None None
    (Some (10 ^ 18 * 1000)) None None None None None.

(** [tx] is what a client's arguments are sent as: completed, with the next nonce of the
    sender and no fees, and signed for the sender. *)
Definition sent (σ : Spec) (s : Node) (args : TransactionArgs) (tx : Transaction) : Prop :=
  let x := preprocessArgs (n_backend s) args in
  let from := send_from (n_backend s) x in
  ∃ cid unsigned,
    ToTransaction (send_args x (bc_GasLimit (vmContext (es_evm (n_evm s)))) (a_nonce (sp_state σ) from))
      = Some unsigned ∧ sign_as cid from unsigned = inr tx.

(** What a request may do. *)
Definition effect (σ : Spec) (s : Node) (h : Handler) (e : Effect) : Prop :=
  match h with
  | HSend args => ∃ tx, e = ESend tx ∧ sent σ s args tx
  | HPrint a => ∃ tx, e = ESend tx ∧ sent σ s (print_args a) tx
  | HSendRaw input =>
      match UnmarshalBinary input with
      | inl _ => e = EQuiet
      | inr tx => e = ESend tx
      end
  | HClear => e = EClear
  | HReExec => e = EReExec
  | HTick true => e = EQuiet ∨ e = EReExec
  | HReset | HClearKeys => e = EReset
  | HTraceBlock _ _ | HTraceRange _ _ _ => e = EQuiet ∨ e = EReset
  | _ => e = EQuiet
  end.

Definition pooled (s : Node) : list Transaction := (entries (n_pool s)).*1.

(** The upstream node tells its chain and the header the node asks for. *)
Definition upstream_up (s : Node) : Prop :=
  (∀ i, ∃ cid, rpc_ChainID i = inr cid) ∧ ∀ i, is_Some (rpc_Header i (head_request (n_evm s))).

(** The gas a client gives is a 64-bit number. *)
Definition typed (args : TransactionArgs) : Prop := from_option is_u64 True (Gas args).

Definition send_ok (s : Node) (args : TransactionArgs) : Prop := ∀ nonce unsigned,
  ToTransaction (send_args (preprocessArgs (n_backend s) args)
    (bc_GasLimit (vmContext (es_evm (n_evm s)))) nonce) = Some unsigned →
  budget (pooled s ++ [unsigned]) < 2 ^ 61.

(** [n] blocks of the upstream node can be traced: their tracer exists, the block before the
    first has a header, and their gas is below a bound no chain comes near. *)
Definition traceable (s : Node) (config : option TraceConfig) (n : nat) : Prop :=
  upstream_up s ∧ (∀ j h, is_Some (make_tracer config (mkTracerContext blockHash j h))) ∧
  ∀ blks, length blks = n → (∀ blk, blk ∈ blks → ∃ i k, rpc_BlockByNumber i k = inr blk) →
    3 + budget (block_txs blks) < 2 ^ 63 ∧
    ∀ blk i, head blks = Some blk → is_Some (rpc_Header i (sprintf_hex (before_block blk))).

(** What a request takes for granted.  For all of them: the gas of the pool, with that of
    the transaction a request adds, is below a bound no chain comes near.  Calls and
    estimates: the gas a client gives is a 64-bit number.  A trace of a pooled transaction:
    the upstream node has a latest header, and the tracer asked for is known, or is refused
    with an error, whatever it is to trace.  Resetting, executing the pool again, and the
    tick that does so: the upstream node is up.  Setting the batch size: it is positive.
    A bundle: as [bundle_ok] says.  The simulation of a safe: as [safe_ok] says.  Tracing
    blocks of the chain: as [traceable] says, unless the range is one that panics. *)
Definition handler_ok (s : Node) (h : Handler) : Prop :=
  budget (pooled s) < 2 ^ 61 ∧
  match h with
  | HSend args => send_ok s args
  | HPrint a => send_ok s (print_args a)
  | HSendRaw input => ∀ tx, UnmarshalBinary input = inr tx → budget (pooled s ++ [tx]) < 2 ^ 61
  | HCall args _ _ | HCallLocal args _ _ => typed args
  | HEstimate args _ => typed args
  | HTrace _ config => (∀ i, is_Some (rpc_Header i "latest")) ∧ ∀ ctx, is_Some (debug_tracer config ctx)
  | HReExec | HReset | HTick true => upstream_up s
  | HBatchSize n => 1 ≤ n
  | HBundle msgArgs => bundle_ok msgArgs
  | HSafe safeOwners => safe_ok (ImpersonatedAccount (n_backend s)) (pooled s) safeOwners
  | HTraceBlock _ config => traceable s config 1
  | HTraceRange numberFrom numberTo config =>
      match range_count numberFrom numberTo with Some count => traceable s config count | None => True end
  | _ => True
  end.

(** When a request panics: a tracer of this repository meets a step it cannot read, the call
    of a simulated safe is rejected, or a slice cannot be made. *)
Definition panics (answer : BatchElem → option RpcValue) (σ : Spec) (s : Node) (h : Handler) : Prop :=
  match h with
  | HEstimate args _ => estimate_panics σ s args
  | HStorageRange _ _ _ _ => storage_panics answer σ s
  | HProbe h => probe_panics answer σ s h
  | HSafe safeOwners => safe_panics answer σ s safeOwners
  | HFeeHistory blockCount _ => 2 ^ 48 < 8 * blockCount
  | HTraceRange numberFrom numberTo _ => range_count numberFrom numberTo = None
  | _ => False
  end.
End handlers.

(** ** Simulation *)

Section simulation.
Context `{CoreLaws} `{!GethLaws} `{!Upstream} `{!Remote} `{!Growth} `{!Abi} `{!SafeContract}.
Context (answer : BatchElem → option RpcValue) (N : nat) (HN : Reliable answer N).
Context (Htr : ∀ j h, is_Some (make_tracer None (mkTracerContext blockHash j h))).
Context (r : loc).
Implicit Types (σ : Spec) (s : Node).

Abbreviation Rep := (Rep answer N r).

(** The state has no more layers than its pool explains. *)
Definition bounded σ : Prop := a_depth (sp_state σ) ≤ 1 + budget (sp_txs σ).

(** From [s], which represents [σ], the computation has one of the effects. *)
Definition simulated (Ef : Effect → Prop) σ s (m : M Node unit) : Prop :=
  ∃ s' e σ', m s = (Ok tt, s') ∧ Ef e ∧ spec_step answer e σ σ' ∧ Rep σ' s' ∧ bounded σ'.

(** The same, but it may panic, and then does nothing. *)
Definition simulated_or (may : Prop) (Ef : Effect → Prop) σ s (m : M Node unit) : Prop :=
  ∃ o s' e σ', m s = (o, s') ∧ (o = Ok tt ∨ may ∧ e = EQuiet ∧ ∃ err, o = Panic err) ∧
    Ef e ∧ spec_step answer e σ σ' ∧ Rep σ' s' ∧ bounded σ'.

Lemma simulated_Ok may Ef σ s m : simulated Ef σ s m → simulated_or may Ef σ s m.
Proof. intros (s' & e & σ' & ? & ? & ? & ? & ?). exists (Ok tt), s', e, σ'. eauto 10. Qed.

Lemma simulated_never may Ef σ s m : ¬ may → simulated_or may Ef σ s m → simulated Ef σ s m.
Proof. intros Hmay (o & s' & e & σ' & Hrun & [->|[? _]] & Hrest); [by exists s', e, σ'|done]. Qed.

Lemma dropped_run {X} (m : M Node X) s x s' : m s = (Ok x, s') → dropped m s = (Ok tt, s').
Proof. intros Hrun. unfold dropped. by rewrite (bind_Ok _ _ _ _ _ Hrun). Qed.

(** Nothing happens. *)
Lemma simulated_quiet (Ef : Effect → Prop) σ s m s' :
  Ef EQuiet → bounded σ → m s = (Ok tt, s') → Rep σ s' → simulated Ef σ s m.
Proof. intros. exists s', EQuiet, σ. split_and!; [done|done|constructor|done|done]. Qed.

Lemma quiet_dropped {X} σ s (m : M Node X) :
  triple (Rep σ) m (λ _, Rep σ) → bounded σ → Rep σ s → simulated (λ e, e = EQuiet) σ s (dropped m).
Proof.
  intros Hm Hb Hs. destruct (Hm s Hs) as (x & s' & Hrun & Hs').
  eapply simulated_quiet; [done|done|by eapply dropped_run|done].
Qed.

Lemma settles_dropped {X} (may : Prop) (Ef : Effect → Prop) σ s (m : M Node X) :
  settles may m (Rep σ) s → Ef EQuiet → bounded σ → simulated_or may Ef σ s (dropped m).
Proof.
  intros (o & s' & Hrun & Ho & Hs') He Hb. destruct Ho as [[x ->]|[Hmay [err ->]]].
  - apply simulated_Ok. eapply simulated_quiet; [done|done|by eapply dropped_run|done].
  - exists (Panic err), s', EQuiet, σ. split; [by apply bind_Panic|]. split; [right; eauto|].
    split_and!; [done|constructor|done|done].
Qed.

Lemma quiet_setting σ s (m : M Node unit) :
  triple (Rep σ) m (λ _, Rep σ) → bounded σ → Rep σ s → simulated (λ e, e = EQuiet) σ s m.
Proof.
  intros Hm Hb Hs. destruct (Hm s Hs) as ([] & s' & Hrun & Hs'). eapply simulated_quiet; [done|done..].
Qed.

(** *** Small facts *)

(** A call takes few snapshots, whatever its gas. *)
Lemma message_frames args msg :
  typed args → ToMessage args 0 None = inr msg → frames_of msg < 2 ^ 59.
Proof.
  intros Ht (gp & fc & tc & _ & ->)%ToMessage_inv. unfold frames_of, message_gas, typed in *. simpl.
  set (g := default _ (Gas args)).
  assert (Z.max 0 g ≤ 2 ^ 64) as Hle.
  2:{ apply (Z.div_le_mono _ _ 40) in Hle; [|lia]. change (2 ^ 64 / 40) with 461168601842738790 in Hle. lia. }
  subst g. change ((2 ^ 64 - 1) / 2) with 9223372036854775807.
  destruct (Gas args); simpl in *; unfold is_u64 in *; lia.
Qed.

Lemma preprocess_typed bk args : typed args → typed (preprocessArgs bk args).
Proof.
  unfold typed, preprocessArgs. destruct (negb (Randomized bk)); [done|].
  case_decide; destruct (Data args) eqn:E; simpl; rewrite ?E; done.
Qed.

Lemma pooled_txs σ s : Rep σ s → pooled s = sp_txs σ.
Proof. intros (? & ? & ? & _ & E). unfold pooled, sp_txs. by rewrite E. Qed.

Lemma bounded_small σ s : Rep σ s → bounded σ → budget (pooled s) < 2 ^ 61 →
  a_depth (sp_state σ) < 2 ^ 61 + 1 ∧ budget (sp_txs σ) < 2 ^ 61.
Proof. intros Hs Hb. rewrite (pooled_txs _ _ Hs). unfold bounded in Hb. lia. Qed.

(** *** Sending *)

Lemma simulated_send (Ef : Effect → Prop) σ s s' m bv cid gp gp' tx o A' :
  Ef (ESend tx) → bounded σ → m s = (Ok tt, s') →
  spec_ExecuteTxs bv cid gp 0 [tx] None (sp_state σ) = Some ([o], gp', A') →
  node_ok answer N r (sp_block σ) A' bv cid gp' s' → entries (n_pool s') = sp_pool σ ++ [(tx, o)] →
  a_depth A' ≤ a_depth (sp_state σ) + budget [tx] → simulated Ef σ s m.
Proof.
  intros He Hb Hrun Hspec Hok Hent Hd. destruct σ as [b A l].
  exists s', (ESend tx), (mkSpec b A' (l ++ [(tx, o)])).
  split_and!; [done|done|by econstructor|by exists bv, cid, gp'|].
  unfold bounded, sp_txs in *. simpl in *. rewrite fmap_app, budget_app. simpl. lia.
Qed.

Lemma send_simulated σ s args :
  Rep σ s → bounded σ → budget (pooled s) < 2 ^ 61 → send_ok s args →
  simulated (λ e, ∃ tx, e = ESend tx ∧ sent σ s args tx) σ s (dropped (SendTransaction args)).
Proof.
  intros Hs Hb Hp Hsend.
  pose proof Hb as Hd. unfold bounded in Hd. pose proof (pooled_txs _ _ Hs) as Epool. destruct Hs as (bv & cid & gp & Hok & E).
  set (from := send_from (n_backend s) (preprocessArgs (n_backend s) args)).
  destruct (send_args_complete (preprocessArgs (n_backend s) args)
    (bc_GasLimit (vmContext (es_evm (n_evm s)))) (a_nonce (sp_state σ) from)) as [un Hun].
  pose proof (Hsend _ _ Hun) as Hb2. rewrite budget_app, Epool in Hb2.
  pose proof (budget_nonneg (sp_txs σ)).
  destruct (SendTransaction_run answer N HN Htr r _ _ bv cid gp s args un Hok Hun) as
    (tx & o & gp' & A' & s' & Hsig & _ & Hspec & Hrun & Hok' & Hent & _ & Hdep); [lia|].
  eapply simulated_send; [by eexists; split; [|by exists cid, un]|done|by eapply dropped_run|exact Hspec|exact Hok'|by rewrite Hent, E|done].
Qed.

Lemma send_raw_simulated σ s input :
  Rep σ s → bounded σ → handler_ok s (HSendRaw input) →
  simulated (effect σ s (HSendRaw input)) σ s (dropped (SendRawTransaction input)).
Proof.
  intros Hs Hb [Hp Hraw]. pose proof Hb as Hd. unfold bounded in Hd.
  destruct (UnmarshalBinary input) as [err|tx] eqn:Hu.
  - eapply simulated_quiet; [by simpl; rewrite Hu|done| |exact Hs]. unfold dropped, SendRawTransaction. by rewrite Hu.
  - pose proof (Hraw _ eq_refl) as Hb2. rewrite budget_app, (pooled_txs _ _ Hs) in Hb2.
    pose proof (budget_nonneg (sp_txs σ)). destruct Hs as (bv & cid & gp & Hok & E).
    destruct (execute_and_pool_run answer N HN Htr r _ _ bv cid gp s tx Hok) as
      (o & gp' & A' & s' & Hspec & Hrun & Hok' & Hent & _ & Hdep); [lia|].
    eapply simulated_send; [by simpl; rewrite Hu|done| |exact Hspec|exact Hok'|by rewrite Hent, E|done].
    eapply dropped_run. unfold SendRawTransaction. rewrite Hu. by rewrite (bind_Ok _ _ _ _ _ Hrun).
Qed.

(** *** Starting over *)

Lemma clear_simulated σ s : Rep σ s → simulated (λ e, e = EClear) σ s ClearTxPool.
Proof.
  destruct σ as [b A l]. intros (bv & cid & gp & Hok & E).
  destruct (ClearTxPool_run answer N HN r _ _ bv cid gp s Hok) as (A' & s' & Hrun & Hok' & Hat & Hent & _).
  exists s', EClear, (mkSpec b A' []). split_and!; [done|done|by constructor|by eexists bv, cid, _|].
  unfold bounded. simpl. rewrite (ab_depth _ _ _ Hat). lia.
Qed.

Lemma reexec_simulated (Ef : Effect → Prop) σ s :
  Ef EReExec → Rep σ s → budget (pooled s) < 2 ^ 61 → upstream_up s → simulated Ef σ s ReExecTxPool.
Proof.
  intros He Hs Hp [Hup Huh]. rewrite (pooled_txs _ _ Hs) in Hp.
  destruct σ as [b A l], Hs as (bv & cid & gp & Hok & E).
  destruct (Hup (w_calls (es_world (n_evm s)))) as [cid' Hcid].
  destruct (Huh (S (w_calls (es_world (n_evm s))))) as [h Hh].
  destruct (ReExecTxPool_run answer N HN Htr r b A bv cid gp s cid' h Hok Hcid Hh)
    as (A0 & out & gp' & A' & s' & Hat & Hspec & Hrun & Hok' & Hent & _ & Hdep).
  { rewrite E. unfold sp_txs in Hp. simpl in Hp |- *. lia. }
  rewrite E in *. cbn [sp_pool] in *. pose proof (spec_ExecuteTxs_length _ _ _ _ _ _ _ _ _ _ Hspec) as Hl.
  eexists s', EReExec, (mkSpec _ A' (zip l.*1 out)).
  split_and!; [done|done|by econstructor|by eexists _, cid', gp'|].
  unfold bounded, sp_txs. simpl. rewrite fst_zip by lia. done.
Qed.

Lemma reset_simulated σ s : Rep σ s → upstream_up s → simulated (λ e, e = EReset) σ s ResetState.
Proof.
  intros Hs [Hup Huh]. destruct σ as [b A l], Hs as (bv & cid & gp & Hok & E).
  destruct (Hup (w_calls (es_world (n_evm s)))) as [cid' Hcid].
  destruct (Huh (S (w_calls (es_world (n_evm s))))) as [h Hh].
  destruct (Prepare_run answer N HN r b A bv cid gp s cid' h Hok Hcid Hh) as (A' & es' & Hrun & Hat & Hok' & _).
  eexists _, EReset, (mkSpec _ A' l). split; [|split; [done|split]].
  - unfold ResetState. by rewrite (bind_Ok _ _ _ _ _ (in_evm_Ok Prepare s None es' Hrun)).
  - constructor. by right.
  - split; [by eexists _, cid', _|]. unfold bounded, sp_txs. simpl. rewrite (ab_depth _ _ _ Hat).
    pose proof (budget_nonneg l.*1). lia.
Qed.

(** Refreshing the root and leaving the fake accounts without their money. *)
Lemma clear_keys_simulated σ s : Rep σ s → simulated (λ e, e = EReset) σ s ClearKeyCache.
Proof.
  intros Hs. destruct σ as [b A l], Hs as (bv & cid & gp & Hok & E).
  pose proof (nk_db _ _ _ _ _ _ _ _ _ Hok) as (d & p & Hd & Hp & Hdb). cbn [sp_block sp_state] in *.
  destruct (repin_step answer N HN r _ _ _ _ _ b true Hdb) as (w2 & S0 & Hrun2 & Hdb2 & Hfresh & Hb2).
  apply bind_Ok_inv in Hrun2 as ([] & w1 & Hset & Hrun2). injection Hset as <-.
  assert (with_u64 <[p := b]> (es_world (n_evm s)) = es_world (n_evm s)) as Ew.
  { pose proof (db_ok_block answer N r _ _ _ _ _ Hdb) as Hu. destruct (es_world (n_evm s)).
    unfold with_u64. simpl in *. by rewrite insert_id. }
  rewrite Ew in Hrun2.
  eexists _, EReset, (mkSpec b S0 l). split; [|split; [done|split]].
  - unfold ClearKeyCache, on_StateDB. rewrite (bind_Ok _ _ _ _ _ (in_evm_the_StateDB s d Hd)).
    apply in_evm_Ok, in_world_Ok, Hrun2.
  - constructor. by left.
  - split.
    + exists bv, cid, gp. split; [|done]. by eapply node_ok_world.
    + unfold bounded, sp_txs. simpl. destruct Hfresh as (_ & _ & _ & _ & -> & _).
      pose proof (budget_nonneg l.*1). lia.
Qed.

(** *** Calls *)

Lemma call_local_simulated σ s args block overrides :
  Rep σ s → bounded σ → handler_ok s (HCallLocal args block overrides) →
  simulated (λ e, e = EQuiet) σ s (dropped (CallLocal args block overrides)).
Proof.
  intros Hs Hb (Hp & Ht). destruct (bounded_small _ _ Hs Hb Hp) as [Hd _].
  destruct (ToMessage (preprocessArgs (n_backend s) args) 0 None) as [err|msg] eqn:Hmsg.
  - eapply simulated_quiet; [done|done| |exact Hs]. eapply dropped_run.
    unfold CallLocal, the_backend. by rewrite bind_gets, Hmsg.
  - pose proof (message_frames _ _ (preprocess_typed _ _ Ht) Hmsg) as Hf.
    destruct Hs as (bv & cid & gp & Hok & E).
    destruct (CallLocal_run answer N HN r _ _ bv cid gp s args block overrides msg Hok Hmsg)
      as (bv' & x & S' & s' & _ & _ & Hrun & Hok' & Hp' & _); [lia|].
    eapply simulated_quiet; [done|done|by eapply dropped_run|]. exists bv', cid, gp. by rewrite Hp'.
Qed.

Lemma call_simulated σ s args block overrides :
  Rep σ s → bounded σ → handler_ok s (HCall args block overrides) →
  simulated (λ e, e = EQuiet) σ s (dropped (Call args block overrides)).
Proof.
  intros Hs Hb Hok. assert (Call args block overrides s =
    (if Passthrough (n_backend s) then CallPassthrough args block None else CallLocal args block overrides) s) as Hcall.
  { unfold Call, the_backend. by rewrite bind_gets. }
  unfold simulated, dropped, mbind, M_bind. rewrite Hcall. destruct (Passthrough (n_backend s)).
  - by apply quiet_dropped; [apply passthrough_triple|..].
  - by apply call_local_simulated.
Qed.

Lemma estimate_settles σ s args block :
  Rep σ s → bounded σ → handler_ok s (HEstimate args block) →
  settles (estimate_panics σ s args) (EstimateGas args block) (Rep σ) s.
Proof.
  intros Hs Hb (Hp & Ht). destruct (bounded_small _ _ Hs Hb Hp) as [Hd _].
  destruct Hs as (bv & cid & gp & Hok & E).
  destruct (ToMessage (estimate_args (n_backend s) args (sp_state σ)) 0 None) as [err|msg] eqn:Hmsg.
  - set (x := preprocessArgs (n_backend s) args).
    destruct (node_nonce answer N HN r _ _ _ _ _ _ (default Address_zero (From x)) Hok) as (w0 & Hn & Hok0).
    eexists _, _. split; [|split; [left; by eexists|by exists bv, cid, gp; split; [exact Hok0|]]].
    unfold EstimateGas, the_backend. rewrite bind_gets. fold x.
    rewrite (bind_Ok _ _ _ _ _ Hn). unfold estimate_args in Hmsg. fold x in Hmsg. by rewrite Hmsg.
  - assert (frames_of msg < 2 ^ 59) as Hf.
    { eapply message_frames; [|exact Hmsg]. exact (preprocess_typed _ _ Ht). }
    destruct (EstimateGas_run answer N HN r _ _ bv cid gp s args block msg Hok Hmsg)
      as (out & s' & Hrun & Hout & Hok' & Hp' & _); [lia|].
    exists out, s'. split; [exact Hrun|]. split; [|exists bv, cid, gp; by rewrite Hp'].
    destruct (keccak_stops _ _) as [A1|] eqn:Hstop.
    + right. split; [|exact Hout]. exists bv, cid, gp, msg, A1. split_and!; [apply Hok|done..].
    + left. destruct Hout as (x & S' & _ & ->). by eexists.
Qed.

(** *** Blocks *)

(** Nothing a request does changes what the node asks for. *)
Lemma up_request {X} σ (f : nat → X) :
  triple (λ s, upstream_up s ∧ Rep σ s) (in_evm (request f)) (λ x s, (∃ i, x = f i) ∧ upstream_up s ∧ Rep σ s).
Proof.
  intros s [Hup Hs]. destruct (Rep_request answer N r σ f s Hs) as (x & s' & Hrun & Hx & Hs').
  exists x, s'. split; [exact Hrun|]. split; [exact Hx|]. split; [|exact Hs'].
  destruct s as [[w e tr nx] p bk]. injection Hrun as _ <-. exact Hup.
Qed.

Lemma fetch_blocks_triple σ from count :
  triple (λ s, upstream_up s ∧ Rep σ s) (fetch_blocks from count) (λ res s,
    match res with
    | inl _ => True
    | inr blks => length blks = count ∧ ∀ blk, blk ∈ blks → ∃ i k, rpc_BlockByNumber i k = inr blk
    end ∧ upstream_up s ∧ Rep σ s).
Proof.
  revert from. induction count as [|count IH]; intros from; cbn [fetch_blocks].
  { apply triple_ret. intros s Hs. split; [|done]. split; [done|]. by intros blk ?%elem_of_nil. }
  eapply triple_bind; [apply up_request|]. intros x. apply triple_pure. intros [i ->].
  destruct (rpc_BlockByNumber i (Some from)) as [err|blk] eqn:Hblk; [by apply triple_ret|].
  eapply triple_bind; [apply IH|]. intros [err|blks]; apply triple_ret; [done|].
  intros s ((Hl & Hall) & Hs). split; [|done]. split; [simpl; by rewrite Hl|].
  intros blk' [->|?]%elem_of_cons; eauto.
Qed.

Lemma read_blocks_length cid config e bv blocks A res A' :
  read_blocks cid config e bv blocks A = Some (res, A') → length res = length blocks.
Proof.
  unfold read_blocks. revert bv A res. induction blocks as [|blk blocks IH]; intros bv A res; cbn [over_blocks].
  { by intros [= <- _]. }
  intros ([l A1] & _ & E)%bind_Some. apply bind_Some in E as ([rest A2] & E & [= <- <-]).
  simpl. by rewrite (IH _ _ _ E).
Qed.

Lemma traceBlocks_simulated σ s config blks :
  Rep σ s → traceable s config (length blks) → (∀ blk, blk ∈ blks → ∃ i k, rpc_BlockByNumber i k = inr blk) →
  ∃ res s' e σ', traceBlocks blks config s = (Ok res, s') ∧ (e = EQuiet ∨ e = EReset) ∧ spec_step answer e σ σ' ∧
    Rep σ' s' ∧ (bounded σ → bounded σ') ∧ (blks ≠ [] → ∃ l, res = inr l ∧ length l = length blks).
Proof.
  intros Hs ([Hup Huh] & Hcfg & Hall) Hblks. destruct (Hall blks eq_refl Hblks) as [Hbud Hhd].
  destruct blks as [|blk blks].
  { eexists _, s, EQuiet, σ. split_and!; [reflexivity|by left|constructor|done|done|done]. }
  destruct σ as [b A l], Hs as (bv & cid & gp & Hok & E).
  destruct (Hup (w_calls (es_world (n_evm s)))) as [cid' Hcid].
  destruct (Huh (Datatypes.S (w_calls (es_world (n_evm s))))) as [h Hh].
  destruct (traceBlocks_run answer N HN r _ _ _ _ _ s blk blks config cid' h Hok Hcid Hh (λ i, Hhd blk i eq_refl) Hcfg Hbud)
    as (S0 & res & gp' & S' & s' & _ & Hread & Hrun & (A' & Hfr & Hok') & Hp & _).
  exists (inr res), s', EReset, (mkSpec (before_block blk) A' l). split_and!.
  - exact Hrun.
  - by right.
  - constructor. by left.
  - eexists _, cid', gp'. split; [exact Hok'|by rewrite Hp].
  - intros _. unfold bounded, sp_txs. simpl. destruct Hfr as (_ & _ & _ & _ & -> & _).
    pose proof (budget_nonneg l.*1). lia.
  - intros _. exists res. split; [done|]. by eapply read_blocks_length.
Qed.

Lemma trace_block_simulated σ s number config :
  Rep σ s → bounded σ → handler_ok s (HTraceBlock number config) →
  simulated (effect σ s (HTraceBlock number config)) σ s (dropped (TraceBlockByNumber number config)).
Proof.
  intros Hs Hb (_ & Hup & Htr' & Hall). unfold TraceBlockByNumber. set (bn := if Z.eqb number (-1) then _ else _).
  destruct (up_request σ (λ n, rpc_BlockByNumber n bn) s (conj Hup Hs)) as (x & s1 & Hrun1 & [i ->] & Hup1 & Hs1).
  destruct (rpc_BlockByNumber i bn) as [err|blk] eqn:Hblk.
  { eapply simulated_quiet; [by left|done| |exact Hs1]. eapply dropped_run. by rewrite (bind_Ok _ _ _ _ _ Hrun1). }
  destruct (traceBlocks_simulated σ s1 config [blk] Hs1) as (res & s2 & e & σ' & Hrun2 & He & Hstep & Hs2 & Hb2 & Hres).
  { by split. }
  { intros blk' ->%list_elem_of_singleton. eauto. }
  destruct (Hres ltac:(done)) as (l & -> & Hl). destruct l as [|l0 l]; [done|].
  exists s2, e, σ'. split; [|split_and!; [done..|by apply Hb2]].
  eapply dropped_run. by rewrite (bind_Ok _ _ _ _ _ Hrun1), (bind_Ok _ _ _ _ _ Hrun2).
Qed.

Lemma trace_range_simulated σ s numberFrom numberTo config :
  Rep σ s → bounded σ → handler_ok s (HTraceRange numberFrom numberTo config) →
  simulated_or (range_count numberFrom numberTo = None) (effect σ s (HTraceRange numberFrom numberTo config)) σ s
    (dropped (TraceBlockByNumberRange numberFrom numberTo config)).
Proof.
  intros Hs Hb (_ & Hx). pose proof (range_count_run numberFrom numberTo config s) as Hrun.
  destruct (range_count numberFrom numberTo) as [count|].
  2:{ destruct Hrun as [err Hrun]. apply settles_dropped; [|by left|done].
      exists (Panic err), s. split; [exact Hrun|]. split; [right; eauto|done]. }
  destruct Hx as (Hup & Htr' & Hall). apply simulated_Ok.
  destruct (fetch_blocks_triple σ numberFrom count s (conj Hup Hs)) as (res & s1 & Hrun1 & Hres & Hup1 & Hs1).
  rewrite (bind_Ok _ _ _ _ _ Hrun1) in Hrun. destruct res as [err|blks].
  { eapply simulated_quiet; [by left|done|by eapply dropped_run|exact Hs1]. }
  destruct Hres as [Hl Hblks].
  destruct (traceBlocks_simulated σ s1 config blks Hs1) as (res & s2 & e & σ' & Hrun2 & He & Hstep & Hs2 & Hb2 & _).
  { rewrite Hl. by split. }
  { exact Hblks. }
  exists s2, e, σ'. split; [|split_and!; [done..|by apply Hb2]].
  eapply dropped_run. by rewrite Hrun.
Qed.

(** *** The node's own goroutine *)

Lemma tick_simulated σ s missing :
  Rep σ s → bounded σ → handler_ok s (HTick missing) →
  simulated (effect σ s (HTick missing)) σ s (updatePendingBN missing).
Proof.
  intros Hs Hb [Hp Hup]. destruct missing.
  - destruct Hs as (bv & cid & gp & Hok & E).
    destruct (node_missing answer N r _ _ _ _ _ _ Hok) as (again & es' & Hrun & Hok' & He & Hh).
    set (s1 := set_n_evm es' s) in *.
    assert (Rep σ s1) as Hs1 by by exists bv, cid, gp.
    assert (simulated (λ e, e = EQuiet ∨ e = EReExec) σ s1 (if again : bool then ReExecTxPool else mret tt)) as
      (s2 & e & σ2 & Hrun2 & He2 & Hstep & Hs2 & Hb2).
    { destruct again; [|eapply simulated_quiet; [by left|done..]].
      apply reexec_simulated; [by right|done|done|].
      destruct Hup as [Hc Hhd]. split; [done|]. intros i. change (n_evm s1) with es'. rewrite Hh. apply Hhd. }
    exists s2, e, σ2. split; [|done]. destruct Hs2 as (bv2 & cid2 & gp2 & Hok2 & _).
    unfold updatePendingBN. rewrite (bind_Ok _ _ _ _ _ Hrun), (bind_Ok _ _ _ _ _ Hrun2).
    by apply (node_log answer N r _ _ _ _ _ _ Hok2).
  - destruct Hs as (bv & cid & gp & Hok & E).
    destruct (node_follow answer N r _ _ _ _ _ _ Hok) as (es' & Hrun & Hok').
    pose proof (node_log answer N r _ _ _ _ _ _ Hok') as Hlog.
    eapply (simulated_quiet _ _ _ _ (set_n_evm es' s)); [done|done| |by eexists _, cid, gp].
    unfold updatePendingBN, follow_head, in_evm, zoom in *.
    destruct (setVMContext (n_evm s)) as [v es1] eqn:Er. injection Hrun as -> ->.
    rewrite (bind_Ok _ _ _ _ _ Er). exact Hlog.
Qed.

(** *** All of them *)

Lemma handler_simulated σ s h :
  Rep σ s → bounded σ → handler_ok s h → simulated_or (panics answer σ s h) (effect σ s h) σ s (run_handler h).
Proof.
  intros Hs Hb Hok. pose proof Hok as [Hp Hx]. destruct (bounded_small _ _ Hs Hb Hp) as [_ Hp'].
  destruct h; cbn [run_handler];
    try (by apply settles_dropped; [first [by apply estimate_settles|by apply storage_settles
      |by apply probe_settles|by apply fee_history_settles
      |rewrite (pooled_txs _ _ Hs) in Hx; by apply safe_settles]|done..]);
    try (by apply trace_range_simulated); try apply simulated_Ok;
    try (by apply quiet_dropped; [apply triple_ret|done..]);
    try (by apply quiet_setting; [apply Rep_backend|done..]);
    try (by apply quiet_setting; [by apply Rep_delta|done..]);
    try (by apply quiet_dropped; [apply backend_getter_triple|done..]);
    try (by apply quiet_dropped; [apply getter_triple|done..]).
  - by apply send_simulated.
  - by apply send_raw_simulated.
  - unfold PrintMoney. by apply send_simulated.
  - by apply call_simulated.
  - apply quiet_dropped; [by apply passthrough_triple|done..].
  - by apply call_local_simulated.
  - destruct Hx as (Hhd & Ht). apply quiet_dropped; [by apply trace_triple|done..].
  - by apply clear_simulated.
  - apply reexec_simulated; [done|done..].
  - by apply reset_simulated.
  - by apply clear_keys_simulated.
  - by apply tick_simulated.
  - apply quiet_dropped; [by apply nonce_triple|done..].
  - apply quiet_dropped; [by apply read_state_triple, balance_triple|done..].
  - apply quiet_dropped; [by apply read_state_triple, code_triple|done..].
  - apply quiet_dropped; [by apply transaction_triple|done..].
  - apply quiet_dropped; [by apply txs_triple|done..].
  - apply quiet_dropped; [by apply logs_handler_triple|done..].
  - apply quiet_dropped; [by apply block_number_triple|done..].
  - apply quiet_dropped; [by apply block_by_number_triple|done..].
  - apply quiet_dropped; [by apply block_by_hash_triple|done..].
  - apply quiet_dropped; [by apply chain_id_triple|done..].
  - apply quiet_dropped; [by apply receipt_triple|done..].
  - apply quiet_dropped; [by apply bundle_triple|done..].
  - apply quiet_dropped; [by apply safe_owners_triple|done..].
  - apply quiet_dropped; [by apply diff_triple|done..].
  - apply quiet_setting; [by apply batch_triple|done..].
  - by apply trace_block_simulated.
  - apply quiet_dropped; [by apply version_triple|done..].
  - apply quiet_setting; [by apply triple_ret|done..].
Qed.
End simulation.
