(* ===== verification/NodeInvariant.v ===== *)
(** * The node simulates its specification

    A node stays in step with its pool until its state is thrown away, and comes back in
    step when the pool is cleared or executed again. *)
From S2P Require Import Prelude BigInt Geth World OverlayState Fetch StateSpec OverlayStateDB.
From S2P Require Import VmStateDB Refinement Clones Reset Merge Chain GoSlice GoStd ToyInstance TxPool.
From S2P Require Import Signer Multisend Tracers TxArgs Evm Warm EvmProps Backend Actions Debug NodeState.
From S2P Require Import NodeSteps NodeSpec NodeLogic Bundle NodeHandlers ToyNode NodeToy.

(** ** Properties *)

Section properties.
Context `{CoreLaws} `{!GethLaws} `{!Upstream} `{!Remote} `{!Growth} `{!Abi} `{!SafeContract}.
Context (answer : BatchElem → option RpcValue) (N : nat) (HN : Reliable answer N).
Context (Htr : ∀ j h, is_Some (make_tracer None (mkTracerContext blockHash j h))).
Context (r : loc).

(** The node represents a specification, within the bound on its layers. *)
Definition represents (σ : Spec) (s : Node) : Prop := Rep answer N r σ s ∧ bounded σ.

(** One admissible request, which returns or panics: the server goes on serving after a
    panic. *)
Definition serves (h : Handler) (s s' : Node) : Prop := handler_ok s h ∧ ∃ o, run_handler h s = (o, s').

(** A sequence of requests. *)
Inductive history : Node → list Handler → Node → Prop :=
| history_nil s : history s [] s
| history_cons s h s1 hs s2 : serves h s s1 → history s1 hs s2 → history s (h :: hs) s2.

(** A request that is served is simulated by one step of the specification. *)
Lemma serves_step σ h s s' :
  represents σ s → serves h s s' → ∃ e σ', effect σ s h e ∧ spec_step answer e σ σ' ∧ represents σ' s'.
Proof.
  intros [Hs Hb] [Hok [o Hrun]].
  destruct (handler_simulated answer N HN Htr r σ s h Hs Hb Hok) as (o' & s1 & e & σ' & Hrun' & _ & He & Hstep & Hs' & Hb').
  rewrite Hrun in Hrun'. injection Hrun' as <- <-. by exists e, σ'.
Qed.

(** C1: the node simulates its specification.  What an admissible request does is one of the
    effects it may have: to send a transaction executes it on the state and adds it to the
    pool with its result; clearing gives the pinned block and an empty pool; executing again
    gives the results and the state of the pool on the new block; resetting, clearing the key
    cache and tracing blocks of the chain throw the state away and keep the pool; calls,
    estimates, bundles, simulations of safe transactions, traces and probes of the pool,
    readers and settings do nothing.  It returns, or it panics where [panics] says it may
    and leaves the node as it was: an estimate, a probe or a list of touched storage whose
    code shows a step that the tracer cannot read, a simulated safe whose call is rejected, a
    range of blocks or a history of fees for which no slice can be made.  [handler_ok] lists
    what is taken for granted: the gas of the pool below 2^61; gas a client gives of 64
    bits; an upstream node that answers when the request has to have its answer; known
    tracers; a positive batch size; bundles and safes as [bundle_ok] and [safe_ok] say; and
    blocks of the chain as [traceable] says.  The requests are the methods of every registered
    interface, and the rounds that follow the chain. *)
Theorem node_refines σ s h :
  represents σ s → handler_ok s h →
  ∃ o s' e σ', run_handler h s = (o, s') ∧ effect σ s h e ∧ spec_step answer e σ σ' ∧ represents σ' s' ∧
    (o = Ok tt ∨ panics answer σ s h ∧ e = EQuiet ∧ ∃ err, o = Panic err).
Proof.
  intros [Hs Hb] Hok.
  destruct (handler_simulated answer N HN Htr r σ s h Hs Hb Hok) as (o & s1 & e & σ' & ? & ? & ? & ? & ? & ?).
  by exists o, s1, e, σ'.
Qed.

(** The requests that bring state and pool in step, and those that may throw the state
    away: tracing blocks of the chain leaves the node pinned to the block before them. *)
Definition restores (h : Handler) : Prop := h = HClear ∨ h = HReExec.
Definition throws (h : Handler) : Prop :=
  match h with HReset | HClearKeys | HTraceBlock _ _ | HTraceRange _ _ _ => True | _ => False end.

#[global] Instance throws_dec h : Decision (throws h).
Proof. destruct h; first [left; exact I | right; intros []]. Defined.

Lemma restores_effect σ s h e : restores h → effect σ s h e → e = EClear ∨ e = EReExec.
Proof. intros [-> | ->]; simpl; auto. Qed.

Lemma throws_effect σ s h e : ¬ throws h → effect σ s h e → e ≠ EReset.
Proof.
  intros Hh He ->. destruct h; simpl in He, Hh; try discriminate; try (by destruct He as (? & ? & _)); try done.
  - by destruct (UnmarshalBinary input).
  - destruct missing; [by destruct He|done].
Qed.

(** A history in which each request that throws the state away is made good later. *)
Definition settled (hs : list Handler) : Prop :=
  ∀ pre h post, hs = pre ++ h :: post → throws h → Exists restores post.

Lemma settled_tail h hs : settled (h :: hs) → settled hs.
Proof. intros Hs pre h' post ->. by apply (Hs (h :: pre)). Qed.

Lemma settled_forall hs : Forall (λ h, ¬ throws h) hs → settled hs.
Proof. intros Hall pre h post -> Hth. apply Forall_app in Hall as [_ [? _]%Forall_cons]. done. Qed.

(** C2: the node stays in step with its pool, and comes back.  After any history of requests
    that starts in step, or contains a request that clears or executes the pool, and in
    which such a request follows whatever throws the state away, the state is what the
    pool, executed from the pinned block, leads to. *)
Theorem node_invariant σ s hs s' :
  represents σ s → history s hs s' → settled hs → in_step answer σ ∨ Exists restores hs →
  ∃ σ', represents σ' s' ∧ in_step answer σ'.
Proof.
  intros Hrep Hhist. revert σ Hrep. induction Hhist as [s|s h s1 hs s2 Hserve _ IH]; intros σ Hrep Hset Hin.
  - destruct Hin as [Hin|Hin]; [by exists σ|by apply Exists_nil in Hin].
  - destruct (serves_step σ h s s1 Hrep Hserve) as (e & σ1 & He & Hstep & Hrep1).
    destruct (spec_step_in_step answer e σ σ1 Hstep) as [Hkeep Hrestore].
    apply (IH σ1 Hrep1); [by eapply settled_tail|].
    destruct (decide (throws h)) as [Hth|Hth]; [right; by eapply (Hset [])|].
    pose proof (throws_effect _ _ _ _ Hth He) as Hne.
    destruct Hin as [Hin|[Hh|Hex]%Exists_cons]; [left; by apply Hkeep| |by right].
    left. apply Hrestore. by eapply restores_effect.
Qed.
End properties.

(** ** Examples *)

Module ToyInvariant.
Export ToyUp Multisend.ToySafe.

Definition σ1 : Spec := mkSpec 100 AF [].

Lemma represents1 : represents answer 1 1%nat σ1 node1.
Proof. split; [exists bv1, 1, 30000000; split; [exact ok1|reflexivity]|]. unfold bounded. simpl. lia. Defined.

Lemma in_step1 : in_step answer σ1.
Proof. exists AF. split; [exact at_block1|apply executed_nil]. Defined.

Lemma print_ok : handler_ok node1 (HPrint a2).
Proof. split; [reflexivity|]. intros nonce un E. injection E as <-. reflexivity. Defined.

(** A bundle of one transfer meets what is asked of bundles. *)
Definition transfer1 : TransactionArgs :=
  mkTransactionArgs (Some a1) (Some a2) None None None None (Some 5) None None None None None.

Example bundle_ok1 : bundle_ok [transfer1].
Proof.
  split.
  - exists (2 ^ 60). split; [lia|]. split; [|reflexivity]. constructor; [|constructor].
    intros nonce tx E. injection E as <-. vm_compute. discriminate.
  - intros bv cid gp S txs reply gp' S' E. cbn [spec_bundle From transfer1] in E.
    apply bind_Some in E as (tx & _ & (o & _ & E)%bind_Some).
    destruct (mo_receipt o) as [[res logs]|]; simpl in E; injection E as <- _ _ _; apply NoDup_singleton.
Qed.

(** Money is sent to [a2]. *)
Lemma node_refines_witness :
  ∃ s tx o A, run_handler (HPrint a2) node1 = (Ok tt, s) ∧
    represents answer 1 1%nat (mkSpec 100 A [(tx, o)]) s.
Proof.
  destruct (node_refines answer 1 reliable tracers1 1%nat σ1 node1 (HPrint a2) represents1 print_ok)
    as (o' & s & e & σ & Hrun & (tx & -> & _) & Hstep & Hrep & [->|[[] _]]).
  inversion Hstep; subst. exists s, tx, o, A'. split; [exact Hrun|exact Hrep].
Defined.

(** Money is sent; the pool is executed again. *)
Lemma node_invariant_witness :
  ∃ s s' σ, run_handler (HPrint a2) node1 = (Ok tt, s) ∧ run_handler HReExec s = (Ok tt, s') ∧
    represents answer 1 1%nat σ s' ∧ in_step answer σ.
Proof.
  destruct (SendTransaction_run answer 1 reliable tracers1 1%nat 100 AF bv1 1 30000000 node1 (print_args a2)
    _ ok1 eq_refl ltac:(reflexivity)) as (tx & o & gp' & A' & s & _ & Hgas & _ & Hrun & Hok & Hent & _).
  apply dropped_run in Hrun.
  assert (pooled s = [tx]) as Hpool by (unfold pooled; by rewrite Hent).
  assert (budget (pooled s) < 2 ^ 61) as Hbud by (rewrite Hpool; cbn [budget foldr]; rewrite Hgas; reflexivity).
  assert (handler_ok s HReExec) as Hre.
  { split; [exact Hbud|]. split; intros i; [by exists 1|by exists header100]. }
  assert (Rep answer 1 1%nat (mkSpec 100 A' [(tx, o)]) s) as Hrep.
  { exists bv1, 1, gp'. split; [exact Hok|exact Hent]. }
  destruct (reexec_simulated answer 1 reliable tracers1 1%nat (λ _, True) _ s I Hrep Hbud (proj2 Hre))
    as (s' & _ & _ & Hrun' & _). clear Hrep.
  destruct (node_invariant answer 1 reliable tracers1 1%nat σ1 node1 [HPrint a2; HReExec] s' represents1)
    as (σ & Hrep & Hin).
  - eapply history_cons; [split; [exact print_ok|exists (Ok tt); exact Hrun]|].
    eapply history_cons; [split; [exact Hre|exists (Ok tt); exact Hrun']|apply history_nil].
  - apply settled_forall. repeat constructor; by intros [].
  - left. exact in_step1.
  - exists s, s', σ. split_and!; [exact Hrun|exact Hrun'|exact Hrep|exact Hin].
Defined.
End ToyInvariant.
