(* ===== verification/NodeReceipts.v ===== *)
(** * Receipts of the pool

    What a client reads about a transaction it sent, on a node whose state is in step with
    its pool. *)
From S2P Require Import Prelude BigInt Geth World OverlayState Fetch StateSpec OverlayStateDB.
From S2P Require Import VmStateDB Refinement Clones Reset Merge Chain GoSlice GoStd ToyInstance TxPool.
From S2P Require Import Signer Multisend Tracers TxArgs Evm Warm EvmProps Backend Actions Debug NodeState.
From S2P Require Import NodeSteps Receipts NodeSpec NodeLogic NodeHandlers NodeInvariant ToyNode NodeToy.

Section receipts.
Context `{CoreLaws} `{!GethLaws} `{!Upstream} `{!Remote} `{!Growth} `{!Abi} `{!SafeContract}.
Context (answer : BatchElem → option RpcValue) (N : nat) (HN : Reliable answer N).
Context (r : loc).
Implicit Types (σ : Spec) (s : Node).

Abbreviation represents := (represents answer N r).

(** What a node in step with its pool has on record for a transaction of the pool. *)
Lemma in_step_recorded σ before tx o after :
  in_step answer σ → sp_pool σ = before ++ (tx, o) :: after → NoDup (tx_Hash <$> sp_txs σ) →
  budget (sp_txs σ) < 2 ^ 61 →
  ∃ A0 cid out, at_block answer (sp_block σ) A0 ∧ ran A0 before tx cid out ∧ (mo_out out).2 = o ∧
    on_record (sp_state σ) cid tx out.
Proof.
  intros (A0 & Hat & Hex) Hpool Hnd Hb. pose proof Hat as [_ _ Hlg Hrc Hdep _]. unfold sp_txs in *.
  destruct (executed_record A0 _ _ Hex) as (_ & _ & Hall); [lia|done|by split|].
  destruct (Hall _ _ _ _ Hpool) as (cid & out & Hrest). by exists A0, cid, out.
Qed.

(** The pool finds a transaction at its place when no two hashes are equal. *)
Lemma pool_find s before tx o after :
  entries (n_pool s) = before ++ (tx, o) :: after → pool_ok (n_pool s) →
  NoDup (tx_Hash <$> (entries (n_pool s)).*1) →
  GetTransactionByHash (n_pool s) (tx_Hash tx) = (length before, Some tx).
Proof.
  intros Hent Hok Hnd. destruct (seen_length _ Hok) as [E1 E2].
  assert ((entries (n_pool s)).*1 = (seen (n_pool s) (GetPoolTxs (n_pool s))).1) as Etx.
  { unfold entries. apply fst_zip. lia. }
  unfold GetTransactionByHash. change (contents _ _) with (seen (n_pool s) (GetPoolTxs (n_pool s))).1.
  rewrite <-Etx. rewrite Hent in *. clear Etx. rewrite fmap_app in *. cbn [fmap list_fmap fst] in *.
  assert (find_hash (tx_Hash tx) 0 (before.*1 ++ tx :: after.*1) = Some (length before, tx)) as ->; [|done].
  apply find_hash_Some. rewrite Nat.sub_0_r. split_and!; [lia| |done|].
  - by rewrite lookup_app_r, length_fmap, Nat.sub_diag by by rewrite length_fmap.
  - intros k tx' Hk Hl Heq. rewrite lookup_app_l in Hl by by rewrite length_fmap.
    rewrite fmap_app in Hnd. apply NoDup_app in Hnd as (_ & Hd & _).
    apply (Hd (tx_Hash tx')); [|rewrite Heq; left].
    by apply list_elem_of_fmap_2, list_elem_of_lookup_2 with k.
Qed.

(** ** Properties *)

(** The fields of a receipt: [bn] is its block, [i] its place there, [res] and [logs] what
    executing the transaction came to. *)
Record says (from : Address) (bn i cid : Z) (tx : Transaction) (res : ExecutionResult) (logs : list Log)
    (fields : gmap string Value) : Prop := {
  says_from : fields !! "from" = Some (VAddress from);
  says_to : fields !! "to" = Some (VOptAddress (tx_To tx));
  says_hash : fields !! "transactionHash" = Some (VHash (tx_Hash tx));
  says_index : fields !! "transactionIndex" = Some (VInt i);
  says_block : fields !! "blockNumber" = Some (VInt bn);
  says_block_hash : fields !! "blockHash" = Some (VHash blockHash);
  says_type : fields !! "type" = Some (VInt (tx_Type tx));
  says_gas : fields !! "gasUsed" = Some (VInt (er_UsedGas res));
  says_cumulative : fields !! "cumulativeGasUsed" = Some (VInt (er_UsedGas res));
  says_status : fields !! "status" = Some (VInt (if er_Failed res then 0 else 1));
  says_logs : fields !! "logs" = Some (VLogs logs);
  says_contract : fields !! "contractAddress" =
    Some (match m_To (tx_message cid tx) with
          | Some _ => VNull
          | None =>
              let created := CreateAddress (m_From (tx_message cid tx)) (m_Nonce (tx_message cid tx)) in
              if decide (created = Address_zero) then VNull else VAddress created
          end)
}.

(** The receipt that is kept tells what executing the transaction came to. *)
Lemma receipt_says from bn i cid tx res logs j :
  says from bn i cid tx res logs (<["from" := VAddress from]>
    (receipt_fields (set_Logs (Some logs) (plain (make_receipt res (tx_message cid tx) (tx_Hash tx) j 0%nat [])))
      (tx_Hash tx) (tx_To tx) bn i (tx_Type tx))).
Proof.
  unfold receipt_fields, plain, make_receipt, set_Logs.
  cbn [PostState Status GasUsed CumulativeGasUsed ContractAddress Logs default from_option id list_to_map foldr].
  destruct (Hash_Bytes rootHash); destruct (m_To (tx_message cid tx)) eqn:Hto; repeat case_decide; try done;
    split; rewrite ?Hto; cbv zeta; rewrite ?decide_True, ?decide_False by done; by simplify_map_eq.
Qed.

(** The answer to a client that asks for the receipt of a transaction, when executing the
    transaction had the outcome [out]. *)
Definition told (from : Address) (bn i cid : Z) (tx : Transaction) (out : MsgOutcome)
    (reply : Err + gmap string Value) : Prop :=
  match mo_receipt out with
  | None => reply = inl ("tx: " ++ hex_string (Hash_Bytes (tx_Hash tx)) ++ " receipt not found")%string
  | Some (res, logs) => (∃ l trace, logs = l ++ [trace_log trace]) ∧
      ∃ fields, reply = inr fields ∧ says from bn i cid tx res logs fields
  end.

(** C11: on a node in step with its pool, a client that asks for the receipt of a pooled
    transaction is told what executing it gave.  The transaction was executed once, from the
    state that the transactions before it led to from the pinned block, with the gas the ones
    before it in its batch had left and the block context the batch had; [out] is what that
    came to, and its error is the transaction's result in the pool.  If the transaction was
    rejected there is no receipt.  If it was applied, the fields of the receipt are the gas of
    that result, its status, 1 for success and 0 for failure, the address of the contract it
    created, all its logs, of which the last is the trace, its hash, type, destination and
    place in the pool, the number of the block after the upstream node's latest, and, whoever
    sent it, the impersonated account as its sender.  The node stays as it is. *)
Theorem pool_receipts σ s before tx o after :
  represents σ s → in_step answer σ → sp_pool σ = before ++ (tx, o) :: after →
  NoDup (tx_Hash <$> sp_txs σ) → budget (sp_txs σ) < 2 ^ 61 →
  ∃ A0 cid out reply s', at_block answer (sp_block σ) A0 ∧ ran A0 before tx cid out ∧ (mo_out out).2 = o ∧
    GetTransactionReceipt (tx_Hash tx) s = (Ok reply, s') ∧ represents σ s' ∧
    told (ImpersonatedAccount (n_backend s)) (next_number (rpc_BlockNumber (w_calls (es_world (n_evm s)))))
      (Z.of_nat (length before)) cid tx out reply.
Proof.
  intros [(bv & cid & gp & Hok & Hent) Hb] Hin Hpool Hnd Hbud.
  destruct (in_step_recorded _ _ _ _ _ Hin Hpool Hnd Hbud) as (A0 & cid' & out & Hat & Hran & Ho & Hrec).
  destruct (GetTransactionReceipt_run answer N r _ _ _ _ _ _ (tx_Hash tx) Hok)
    as (reply & s' & Hrun & Hok' & Hp' & _ & Hreply).
  rewrite (pool_find s before tx o after) in Hreply;
    [|by rewrite Hent|exact (nk_pool _ _ _ _ _ _ _ _ _ Hok)|by rewrite Hent].
  rewrite (Hreply eq_refl) in Hrun. exists A0, cid', out. eexists. exists s'.
  split_and!; [done..|exact Hrun|by split; [exists bv, cid, gp; rewrite Hp'|]|].
  unfold receipt_reply, told. unfold on_record in Hrec.
  destruct (mo_receipt out) as [[res logs]|]; [|by destruct Hrec as [-> _]].
  destruct Hrec as ([i ->] & <- & Htrace). split; [exact Htrace|]. eexists. split; [reflexivity|].
  apply receipt_says.
Qed.
End receipts.

(** ** Examples *)

Module ToyReceipts.
Export ToyUp Multisend.ToySafe.

(** Money was sent to [a2]: the receipt of the transfer is found. *)
Lemma pool_receipts_witness :
  ∃ s tx o cid out reply s', run_handler (HPrint a2) node1 = (Ok tt, s) ∧ entries (n_pool s) = [(tx, o)] ∧
    (mo_out out).2 = o ∧ GetTransactionReceipt (tx_Hash tx) s = (Ok reply, s') ∧
    told a1 (next_number (rpc_BlockNumber (w_calls (es_world (n_evm s))))) 0 cid tx out reply.
Proof.
  destruct (SendTransaction_run answer 1 reliable tracers1 1%nat 100 AF bv1 1 30000000 node1 (print_args a2)
    _ ok1 eq_refl ltac:(reflexivity)) as (tx & o & gp' & A' & s & _ & Hgas & Hspec & Hrun & Hok & Hent & Hbk & Hd).
  assert (budget [tx] < 2 ^ 61) as Hbud by (cbn [budget foldr]; rewrite Hgas; reflexivity).
  destruct (pool_receipts answer 1 1%nat (mkSpec 100 A' [(tx, o)]) s [] tx o []) as (A0 & cid & out & reply & s' & _ & _ & Ho & Hrec & _ & Htold).
  - split; [exists bv1, 1, gp'; split; [exact Hok|exact Hent]|]. unfold bounded. simpl in Hd |- *. lia.
  - exists AF. split; [exact at_block1|].
    exact (executed_batch AF [] AF bv1 1 30000000 [tx] [o] gp' A' (executed_nil AF) Hspec).
  - reflexivity.
  - apply NoDup_singleton.
  - exact Hbud.
  - rewrite Hbk in Htold. exists s, tx, o, cid, out, reply, s'. split; [exact (dropped_run _ _ _ _ Hrun)|].
    split; [exact Hent|]. split; [exact Ho|]. split; [exact Hrec|exact Htold].
Defined.
End ToyReceipts.
