(* ===== verification/Threads.v ===== *)
(** * Goroutines and the state lock

    The RPC server runs every request in a goroutine of its own.  [Code] is a handler as the
    sequence of its calls, [StateLock(); defer StateUnlock()] among them, and [step] an
    interleaving of several of them over one shared state.  Goroutines that touch the state
    under the lock only are [guarded]: whatever the schedule, they behave as if they had run
    one after the other, none of them waits for ever, and every schedule ends. *)
From stdpp Require Import relations.
From S2P Require Import Prelude.

(** ** The lock and the goroutines *)

(** The lock of [MferEVM] holds the number of the goroutine that has it; locking it waits
    while somebody does. *)
Definition StateLock (i : nat) (stateLock : option nat) : option (option nat) :=
  match stateLock with None => Some (Some i) | Some _ => None end.

Definition StateUnlock (stateLock : option nat) : option nat := None.

Section threads.
Context {S A : Type}.
Implicit Types σ : S.

Inductive Code : Type :=
| Return (a : A)
| Call {X : Type} (m : M S X) (k : X → Code)
| Lock (k : Code).

(** A goroutine that runs, with the unlocking it has deferred, or its outcome. *)
Inductive Goroutine := Running (deferred : bool) (c : Code) | Finished (o : Outcome A).

Record Config := mkConfig { cf_state : S; cf_lock : option nat; cf_go : list Goroutine }.

Definition ending (deferred : bool) (l : option nat) : option nat := if deferred then StateUnlock l else l.

(** One goroutine makes a call, gets the lock, or ends.  The server recovers a panic, after
    the deferred calls have run; a call that diverges does not come back. *)
Inductive step : Config → Config → Prop :=
| step_call σ l gs i d X (m : M S X) k x σ' :
    gs !! i = Some (Running d (Call m k)) → m σ = (Ok x, σ') →
    step (mkConfig σ l gs) (mkConfig σ' l (<[i := Running d (k x)]> gs))
| step_panic σ l gs i d X (m : M S X) k e σ' :
    gs !! i = Some (Running d (Call m k)) → m σ = (Panic e, σ') →
    step (mkConfig σ l gs) (mkConfig σ' (ending d l) (<[i := Finished (Panic e)]> gs))
| step_lock σ l gs i k l' :
    gs !! i = Some (Running false (Lock k)) → StateLock i l = Some l' →
    step (mkConfig σ l gs) (mkConfig σ l' (<[i := Running true k]> gs))
| step_return σ l gs i d a :
    gs !! i = Some (Running d (Return a)) →
    step (mkConfig σ l gs) (mkConfig σ (ending d l) (<[i := Finished (Ok a)]> gs)).

Definition start (cs : list Code) σ : Config := mkConfig σ None (Running false <$> cs).

Definition finished (g : Goroutine) : Prop := match g with Finished _ => True | _ => False end.

(** A goroutine alone. *)
Fixpoint run_code (c : Code) : M S A :=
  match c with
  | Return a => mret a
  | Call m k => m ≫= λ x, run_code (k x)
  | Lock k => run_code k
  end.

(** The state after the goroutines [l] have run, one after the other. *)
Definition after (cs : list Code) σ (l : list nat) : S :=
  foldl (λ σ i, match cs !! i with Some c => (run_code c σ).2 | None => σ end) σ l.

Lemma after_snoc cs σ l i c : cs !! i = Some c → after cs σ (l ++ [i]) = (run_code c (after cs σ l)).2.
Proof. intros Hc. unfold after. by rewrite foldl_app; simpl; rewrite Hc. Qed.

(** ** Schedules that let one goroutine run *)

(** Code without the lock, and code that takes it once. *)
Fixpoint lockless (c : Code) : Prop :=
  match c with Return _ => True | Call m k => ∀ x, lockless (k x) | Lock _ => False end.
Fixpoint one_lock (c : Code) : Prop :=
  match c with Return _ => True | Call m k => ∀ x, one_lock (k x) | Lock k => lockless k end.

Lemma run_lockless c i d σ l gs a σ' :
  lockless c → gs !! i = Some (Running d c) → run_code c σ = (Ok a, σ') →
  rtc step (mkConfig σ l gs) (mkConfig σ' (ending d l) (<[i := Finished (Ok a)]> gs)).
Proof.
  revert σ gs. induction c as [b|X m k IH|k IH]; intros σ gs Hc Hg Hrun; [| |done].
  - injection Hrun as -> ->. apply rtc_once. by apply step_return.
  - apply bind_Ok_inv in Hrun as (x & σ1 & Hm & Hrun).
    eapply rtc_l; [by eapply step_call|]. rewrite <-(list_insert_insert_eq gs i (Finished (Ok a)) (Running d (k x))).
    apply (IH x); [apply Hc| |exact Hrun]. apply list_lookup_insert_eq. by eapply lookup_lt_Some.
Qed.

Lemma run_one_lock c i σ gs a σ' :
  one_lock c → gs !! i = Some (Running false c) → run_code c σ = (Ok a, σ') →
  rtc step (mkConfig σ None gs) (mkConfig σ' None (<[i := Finished (Ok a)]> gs)).
Proof.
  revert σ gs. induction c as [b|X m k IH|k IH]; intros σ gs Hc Hg Hrun.
  - injection Hrun as -> ->. apply rtc_once. exact (step_return _ None gs i false _ Hg).
  - apply bind_Ok_inv in Hrun as (x & σ1 & Hm & Hrun).
    eapply rtc_l; [by eapply step_call|]. rewrite <-(list_insert_insert_eq gs i (Finished (Ok a)) (Running false (k x))).
    apply (IH x); [apply Hc| |exact Hrun]. apply list_lookup_insert_eq. by eapply lookup_lt_Some.
  - eapply rtc_l; [by eapply step_lock|]. rewrite <-(list_insert_insert_eq gs i (Finished (Ok a)) (Running true k)).
    apply (run_lockless k i true); [done| |done]. apply list_lookup_insert_eq. by eapply lookup_lt_Some.
Qed.

(** The same, with the goroutines that result. *)
Lemma run_alone c i σ gs gs' a σ' :
  one_lock c → gs !! i = Some (Running false c) → run_code c σ = (Ok a, σ') →
  gs' = <[i := Finished (Ok a)]> gs → rtc step (mkConfig σ None gs) (mkConfig σ' None gs').
Proof. intros Hc Hg Hrun ->. by eapply run_one_lock. Qed.

Lemma run_on c i d σ l l' gs gs' a σ' :
  lockless c → gs !! i = Some (Running d c) → run_code c σ = (Ok a, σ') →
  l' = ending d l → gs' = <[i := Finished (Ok a)]> gs → rtc step (mkConfig σ l gs) (mkConfig σ' l' gs').
Proof. intros Hc Hg Hrun -> ->. by eapply run_lockless. Qed.

(** ** Discipline *)

(** [B] is a part of the state that nobody changes: the settings. *)
Context {B : Type} (settings : S → B).

(** Code that runs under the lock. *)
Fixpoint critical (c : Code) : Prop :=
  match c with
  | Return _ => True
  | Call m k => (∀ σ, settings (m σ).2 = settings σ) ∧ ∀ x, critical (k x)
  | Lock _ => False
  end.

(** Code that only reads the settings before it takes the lock. *)
Fixpoint guarded (c : Code) : Prop :=
  match c with
  | Return _ => True
  | @Call X m k => (∃ f : B → X, ∀ σ, m σ = (Ok (f (settings σ)), σ)) ∧ ∀ x, guarded (k x)
  | Lock k => critical k
  end.

Lemma critical_settings c σ : critical c → settings (run_code c σ).2 = settings σ.
Proof.
  revert σ. induction c as [a|X m k IH|k IH]; intros σ; [done| |done]. intros [Hm Hk]. simpl.
  unfold mbind, M_bind. specialize (Hm σ). destruct (m σ) as [[x|e|] σ']; simpl in *; [|done..].
  by rewrite IH.
Qed.

Lemma guarded_settings c σ : guarded c → settings (run_code c σ).2 = settings σ.
Proof.
  revert σ. induction c as [a|X m k IH|k IH]; intros σ; [done| |exact (critical_settings k σ)].
  intros [[f Hm] Hk]. simpl. unfold mbind, M_bind. rewrite Hm. by apply IH.
Qed.

(** ** The invariant of a schedule *)

Variables (cs : list Code) (σ0 : S).
Hypothesis Hguarded : Forall guarded cs.

(** Where the goroutine [i], which is [c], stands, when those of [order] are through. *)
Definition served_at (order : list nat) (i : nat) (c : Code) (g : Goroutine) : Prop :=
  ∃ l1 l2, order = l1 ++ i :: l2 ∧ g = Finished (run_code c (after cs σ0 l1)).1.

Definition inside (order : list nat) σ (c : Code) (g : Goroutine) : Prop :=
  ∃ k, g = Running true k ∧ critical k ∧ run_code k σ = run_code c (after cs σ0 order).

Definition outside (c : Code) (g : Goroutine) : Prop :=
  ∃ k, g = Running false k ∧ guarded k ∧ ∀ σ, settings σ = settings σ0 → run_code k σ = run_code c σ.

Record serial (order : list nat) (cfg : Config) : Prop := {
  sr_nodup : NoDup order;
  sr_bound : Forall (λ i, i < length cs)%nat order;
  sr_length : length (cf_go cfg) = length cs;
  sr_settings : settings (cf_state cfg) = settings σ0;
  sr_after : settings (after cs σ0 order) = settings σ0;
  sr_free : cf_lock cfg = None → cf_state cfg = after cs σ0 order;
  sr_holder i : cf_lock cfg = Some i → (i < length cs)%nat;
  sr_go i c g : cs !! i = Some c → cf_go cfg !! i = Some g →
    ((cf_lock cfg ≠ Some i ∧ served_at order i c g) ∨
     ((i ∉ order) ∧ cf_lock cfg = Some i ∧ inside order (cf_state cfg) c g) ∨
     ((i ∉ order) ∧ cf_lock cfg ≠ Some i ∧ outside c g))
}.

Lemma served_at_snoc order i j c g : served_at order j c g → served_at (order ++ [i]) j c g.
Proof. intros (l1 & l2 & -> & Hg). exists l1, (l2 ++ [i]). by rewrite <-app_assoc. Qed.

Lemma not_elem_of_snoc (l : list nat) i j : j ∉ l → j ≠ i → j ∉ l ++ [i].
Proof. intros Hl Hne. rewrite elem_of_app, list_elem_of_singleton. by intros [|]. Qed.

(** Somebody ends: with the lock, or without having had it. *)
Lemma serial_finish order σ l gs i c o σ1 σ' l' :
  serial order (mkConfig σ l gs) → cs !! i = Some c → i ∉ order →
  run_code c (after cs σ0 order) = (o, σ1) →
  (l = Some i ∧ l' = None ∧ σ' = σ1) ∨ (l ≠ Some i ∧ l' = l ∧ σ' = σ ∧ σ1 = after cs σ0 order) →
  serial (order ++ [i]) (mkConfig σ' l' (<[i := Finished o]> gs)).
Proof.
  intros Hs Hc Hi Hrun Hl. destruct Hs as [Hnd Hbd Hlen Hset Haf Hfree Hhold Hgo]. simpl in *.
  assert (after cs σ0 (order ++ [i]) = σ1) as Eaf by by rewrite (after_snoc _ _ _ _ _ Hc), Hrun.
  assert (settings σ1 = settings σ0) as Hset1.
  { rewrite <-Haf, <-(guarded_settings c (after cs σ0 order)), Hrun; [done|].
    exact (Forall_lookup_1 _ _ _ _ Hguarded Hc). }
  split; cbn [cf_state cf_lock cf_go]; rewrite ?Eaf, ?length_insert; try done.
  - apply NoDup_app. split_and!; [done| |apply NoDup_singleton]. by intros j Hj ->%list_elem_of_singleton.
  - apply Forall_app. split; [done|]. apply Forall_singleton. by eapply lookup_lt_Some.
  - by destruct Hl as [(_ & _ & ->)|(_ & _ & -> & _)].
  - intros ->. destruct Hl as [(_ & _ & ->)|(_ & <- & -> & ->)]; [done|by apply Hfree].
  - intros j ->. destruct Hl as [(_ & [=] & _)|(_ & El & _)]. by apply Hhold.
  - intros j c' g Hc' Hg. destruct (decide (j = i)) as [->|Hne].
    { rewrite list_lookup_insert_eq in Hg by (apply lookup_lt_Some in Hc; lia). simplify_eq.
      left. split; [by destruct Hl as [(_ & -> & _)|(? & -> & _)]|].
      exists order, []. split; [done|]. by rewrite Hrun. }
    rewrite list_lookup_insert_ne in Hg by done.
    destruct (Hgo j c' g Hc' Hg) as [[El Hse]|[(Hj & El & Hin)|(Hj & El & Hout)]].
    + left. split; [by destruct Hl as [(_ & -> & _)|(_ & -> & _)]|by apply served_at_snoc].
    + destruct Hl as [[-> _]|(_ & -> & -> & ->)]; [congruence|]. right. left. split; [by apply not_elem_of_snoc|]. split; [done|].
      destruct Hin as (k & ? & ? & ?). exists k. by rewrite Eaf.
    + right. right. split; [by apply not_elem_of_snoc|]. split; [|done]. by destruct Hl as [(_ & -> & _)|(_ & -> & _)].
Qed.

(** Somebody goes on. *)
Lemma serial_go_on order σ l gs i c g σ' l' :
  serial order (mkConfig σ l gs) → cs !! i = Some c → i ∉ order → settings σ' = settings σ0 →
  (σ' = σ ∧ l' = l ∧ l ≠ Some i ∧ outside c g) ∨ (l' = Some i ∧ (l = None ∨ l = Some i) ∧ inside order σ' c g) →
  serial order (mkConfig σ' l' (<[i := g]> gs)).
Proof.
  intros Hs Hc Hi Hset' Hl. destruct Hs as [Hnd Hbd Hlen Hset Haf Hfree Hhold Hgo]. simpl in *.
  split; simpl; rewrite ?length_insert; try done.
  - intros ->. destruct Hl as [(-> & <- & _)|([=] & _)]. by apply Hfree.
  - intros j ->. destruct Hl as [(_ & <- & _)|([= ->] & _)]; [by apply Hhold|]. by eapply lookup_lt_Some.
  - intros j c' g' Hc' Hg. destruct (decide (j = i)) as [->|Hne].
    { rewrite list_lookup_insert_eq in Hg by (apply lookup_lt_Some in Hc; lia). simplify_eq. right.
      destruct Hl as [(-> & -> & ? & ?)|(-> & _ & ?)]; [by right|by left]. }
    rewrite list_lookup_insert_ne in Hg by done. destruct (Hgo j c' g' Hc' Hg) as [[El Hse]|[(Hj & El & Hin)|(Hj & El & Hout)]].
    + left. split; [|done]. destruct Hl as [(_ & -> & _)|(-> & _)]; [done|congruence].
    + destruct Hl as [(-> & -> & _)|(_ & [-> | ->] & _)]; [by right; left|done|congruence].
    + right. right. split; [done|]. split; [|done]. destruct Hl as [(_ & -> & _)|(-> & _)]; [done|congruence].
Qed.

(** Where the goroutine of a step stands. *)
Lemma serial_running order cfg i d k :
  serial order cfg → cf_go cfg !! i = Some (Running d k) →
  ∃ c, cs !! i = Some c ∧ (i ∉ order) ∧
    ((d = true ∧ cf_lock cfg = Some i ∧ critical k ∧ run_code k (cf_state cfg) = run_code c (after cs σ0 order)) ∨
     (d = false ∧ cf_lock cfg ≠ Some i ∧ guarded k ∧ ∀ σ, settings σ = settings σ0 → run_code k σ = run_code c σ)).
Proof.
  intros Hs Hg. destruct (lookup_lt_is_Some_2 cs i) as [c Hc].
  { rewrite <-(sr_length _ _ Hs). by eapply lookup_lt_Some. }
  exists c. split; [done|].
  destruct (sr_go _ _ Hs i c _ Hc Hg)
    as [(_ & l1 & l2 & _ & [=])|[(Hi & Hl & k' & E & ? & ?)|(Hi & Hl & k' & E & ? & ?)]];
    simplify_eq; (split; [done|]); [left|right]; done.
Qed.

Lemma serial_step order cfg cfg' : serial order cfg → step cfg cfg' → ∃ order', serial order' cfg'.
Proof.
  intros Hs Hstep. pose proof (sr_after _ _ Hs) as Haf. pose proof (sr_settings _ _ Hs) as Hset.
  destruct Hstep as [σ l gs i d X m k x σ' Hi Hm|σ l gs i d X m k e σ' Hi Hm|σ l gs i k l' Hi Hl|σ l gs i d a Hi];
    destruct (serial_running _ _ _ _ _ Hs Hi) as (c & Hc & Hn & [(Ed & El & Hk & Hrun)|(Ed & El & Hk & Hrun)]);
    try discriminate Ed; try subst d; cbn [cf_state cf_lock cf_go run_code guarded critical ending] in *.
  - destruct Hk as [Hp Hk]. exists order. eapply serial_go_on; [done..| |].
    + rewrite <-Hset, <-(Hp σ). by rewrite Hm.
    + right. split; [done|]. split; [by right|]. exists (k x). split_and!; [done|done|].
      by rewrite <-Hrun, (bind_Ok _ _ _ _ _ Hm).
  - destruct Hk as [[f Hf] Hk]. rewrite Hf in Hm. injection Hm as <- <-. exists order.
    eapply serial_go_on; [done..|]. left. split_and!; [done..|]. eexists. split; [done|]. split; [done|].
    intros τ Hτ. by rewrite <-Hrun, (bind_Ok _ _ _ _ _ (Hf τ)), Hset, Hτ.
  - destruct Hk as [Hp Hk]. exists (order ++ [i]). eapply serial_finish; [done..| |by left].
    rewrite <-Hrun. unfold mbind, M_bind. by rewrite Hm.
  - destruct Hk as [[f Hf] _]. by rewrite Hf in Hm.
  - destruct l; [done|]. injection Hl as <-. exists order. eapply serial_go_on; [done..|]. right. split; [done|]. split; [by left|].
    exists k. split_and!; [done|done|]. pose proof (sr_free _ _ Hs eq_refl) as Ef. cbn in Ef. rewrite Ef. exact (Hrun _ Haf).
  - exists (order ++ [i]). eapply serial_finish; [done..|by rewrite <-Hrun|by left].
  - exists (order ++ [i]). eapply serial_finish; [done..|by rewrite <-(Hrun _ Haf)|by right].
Qed.

Lemma serial_start : serial [] (start cs σ0).
Proof.
  split; simpl; rewrite ?length_fmap; try done; [apply NoDup_nil_2|].
  intros i c g Hc Hg. right. right. rewrite list_lookup_fmap, Hc in Hg. injection Hg as <-.
  split; [set_solver|]. split; [done|]. exists c. split_and!; [done|exact (Forall_lookup_1 _ _ _ _ Hguarded Hc)|done].
Qed.

(** Whatever the schedule, the goroutines that are through have run one after the other. *)
Lemma serial_steps cfg : rtc step (start cs σ0) cfg → ∃ order, serial order cfg.
Proof.
  refine (rtc_ind_r (λ cfg, ∃ order, serial order cfg) _ _ _ cfg); [exists []; apply serial_start|].
  intros y z _ Hyz [order Hs]. by eapply serial_step.
Qed.

(** When all are through. *)
Lemma serial_all order cfg :
  serial order cfg → Forall finished (cf_go cfg) →
  order ≡ₚ seq 0 (length cs) ∧ cf_state cfg = after cs σ0 order ∧
  ∀ i c, cs !! i = Some c → ∃ l1 l2, order = l1 ++ i :: l2 ∧
    cf_go cfg !! i = Some (Finished (run_code c (after cs σ0 l1)).1).
Proof.
  clear Hguarded. intros Hs Hall.
  assert (∀ i c, cs !! i = Some c → ∃ l1 l2, order = l1 ++ i :: l2 ∧
    cf_go cfg !! i = Some (Finished (run_code c (after cs σ0 l1)).1)) as Hse.
  { intros i c Hc. destruct (lookup_lt_is_Some_2 (cf_go cfg) i) as [g Hg].
    { rewrite (sr_length _ _ Hs). by eapply lookup_lt_Some. }
    pose proof (Forall_lookup_1 _ _ _ _ Hall Hg) as Hf.
    destruct (sr_go _ _ Hs i c g Hc Hg) as [(_ & l1 & l2 & ? & ->)|[(_ & _ & k & -> & _)|(_ & _ & k & -> & _)]];
      [by exists l1, l2|done|done]. }
  split; [|split; [|done]].
  - apply NoDup_Permutation; [apply Hs|apply NoDup_seq|]. intros i. rewrite elem_of_seq. split.
    + intros Hi. pose proof (sr_bound _ _ Hs) as Hb. rewrite Forall_forall in Hb. specialize (Hb i Hi). lia.
    + intros [_ Hi]. destruct (lookup_lt_is_Some_2 cs i) as [c Hc]; [lia|].
      destruct (Hse i c Hc) as (l1 & l2 & -> & _). set_solver.
  - apply (sr_free _ _ Hs). destruct (cf_lock cfg) as [i|] eqn:El; [|done]. exfalso.
    destruct (lookup_lt_is_Some_2 cs i (sr_holder _ _ Hs i El)) as [c Hc].
    destruct (Hse i c Hc) as (l1 & l2 & E & Hg).
    destruct (sr_go _ _ Hs i c _ Hc Hg) as [[? _]|[(Hi & _)|(_ & ? & _)]]; [done| |done]. apply Hi. rewrite E. set_solver.
Qed.

(** ** Nobody waits for ever *)

#[global] Instance finished_dec g : Decision (finished g).
Proof. destruct g; [right; by intros []|left; done]. Defined.

Definition stuck_call (cfg : Config) : Prop :=
  ∃ i d X (m : M S X) k, cf_go cfg !! i = Some (Running d (Call m k)) ∧ (m (cf_state cfg)).1 = Diverge.

(** Who is not waiting for the lock can go on, unless a call of his diverges. *)
Lemma running_steps σ l gs i d k :
  gs !! i = Some (Running d k) → (∀ k', k = Lock k' → d = false ∧ l = None) →
  (∃ cfg', step (mkConfig σ l gs) cfg') ∨ stuck_call (mkConfig σ l gs).
Proof.
  intros Hg Hk. destruct k as [a|X m k|k].
  - left. eexists. by eapply step_return.
  - destruct (m σ) as [[x|e|] σ'] eqn:Hm.
    + left. eexists. by eapply step_call.
    + left. eexists. by eapply step_panic.
    + right. exists i, d, X, m, k. by simpl; rewrite Hm.
  - destruct (Hk k eq_refl) as [-> ->]. left. eexists. by eapply step_lock.
Qed.

Lemma serial_progress order cfg :
  serial order cfg → Forall finished (cf_go cfg) ∨ (∃ cfg', step cfg cfg') ∨ stuck_call cfg.
Proof.
  intros Hs. destruct cfg as [σ l gs]. destruct l as [i|].
  - right. destruct (lookup_lt_is_Some_2 cs i (sr_holder _ _ Hs i eq_refl)) as [c Hc].
    destruct (lookup_lt_is_Some_2 gs i) as [g Hg].
    { rewrite (sr_length _ _ Hs : length gs = _). by eapply lookup_lt_Some. }
    destruct (sr_go _ _ Hs i c g Hc Hg) as [[? _]|[(_ & _ & k & -> & Hk & _)|(_ & ? & _)]]; [done| |done].
    apply (running_steps _ _ _ _ _ _ Hg). by intros k' ->.
  - destruct (decide (Forall finished gs)) as [Hall|Hnot]; [by left|right].
    apply not_Forall_Exists, Exists_exists in Hnot as (g & [i Hg]%list_elem_of_lookup & Hf); [|apply _].
    destruct g as [d k|o]; [|by destruct Hf]. apply (running_steps _ _ _ _ _ _ Hg). intros k' ->. split; [|done].
    by destruct (serial_running _ _ _ _ _ Hs Hg) as (c & _ & _ & [(_ & [=] & _)|(-> & _)]).
Qed.
End threads.

(** ** Every schedule ends *)

Section ending.
Context {S A : Type}.

(** What a step makes of a goroutine. *)
Definition next (g g' : Goroutine (S := S) (A := A)) : Prop :=
  match g with
  | Finished _ => False
  | Running d c => (∃ o, g' = Finished o) ∨
      match c with
      | Return _ => False
      | Call m k => ∃ x, g' = Running d (k x)
      | Lock k => g' = Running true k
      end
  end.

Lemma next_ends g : sn next g.
Proof.
  assert (∀ o : Outcome A, sn next (Finished o)) as Hfin by (by intros o; constructor).
  destruct g as [d c|o]; [|apply Hfin]. revert d. induction c as [a|X m k IH|k IH]; intros d; constructor; intros g' [[o ->]|Hn];
    [apply Hfin|done|apply Hfin| |apply Hfin|].
  - destruct Hn as [x ->]. apply IH.
  - rewrite Hn. apply IH.
Qed.

(** Changing one element of a list at a time comes to an end if changing elements does. *)
Lemma sn_insert {T} (R : relation T) (l : list T) :
  Forall (sn R) l → sn (λ l l', ∃ i x x', l !! i = Some x ∧ R x x' ∧ l' = <[i := x']> l) l.
Proof.
  induction 1 as [|x l Hx _ IH].
  { constructor. intros l' (i & x & x' & Hi & _). by rewrite lookup_nil in Hi. }
  revert l IH. induction Hx as [x _ IHx]. intros l Hl. induction Hl as [l Hl IHl].
  constructor. intros l' ([|i] & y & y' & Hi & Hy & ->); simpl in *; simplify_eq.
  - apply IHx; [done|]. by constructor.
  - apply IHl. by exists i, y, y'.
Qed.

Lemma step_ends (cfg : Config (S := S) (A := A)) : sn step cfg.
Proof.
  destruct cfg as [σ l gs]. revert σ l.
  assert (sn (λ gs gs', ∃ i g g', gs !! i = Some g ∧ next g g' ∧ gs' = <[i := g']> gs) gs) as Hgs.
  { apply sn_insert, Forall_forall. intros g _. apply next_ends. }
  induction Hgs as [gs _ IH]. intros σ l. constructor. intros cfg' Hstep. unfold flip in *.
  inversion Hstep; subst; apply IH; do 3 eexists; (split; [eassumption|]); (split; [|reflexivity]); simpl; eauto.
Qed.
End ending.
