(* ===== verification/Locks.v ===== *)
(** * The handlers that change the state, as goroutines

    [StateLock] is taken by [SendTransaction], [ResetState] and [ReExecTxPool] before they
    touch the state, so concurrent requests of these kinds behave as if they came one after
    the other.  [ClearTxPool] takes it too late and [SendRawTransaction] not at all; what
    goes wrong then is proved too. *)
From stdpp Require Import relations.
From S2P Require Import Prelude BigInt Geth World OverlayState Fetch StateSpec OverlayStateDB.
From S2P Require Import VmStateDB Refinement Clones Reset Merge Chain GoSlice GoStd ToyInstance TxPool.
From S2P Require Import Signer Multisend Tracers TxArgs Evm Warm EvmProps Backend Actions Debug NodeState.
From S2P Require Import NodeSteps NodeSpec NodeLogic NodeHandlers NodeInvariant ToyNode NodeToy NodeProps Threads.

(** ** The handlers, call by call *)

Section goroutines.
Context `{Core} `{!Upstream} `{!Remote} `{!Growth} `{!Abi} `{!SafeContract}.

(** What a client is told. *)
Inductive Reply := Done | Sent (h : Hash) | Refused (err : Err).

Abbreviation GoCode := (Code (S := Node) (A := Reply)).

(** Executing and pooling are two steps. *)
Definition execute_and_pool_go (tx : Transaction) : GoCode :=
  Call (in_evm the_StateDB) (λ d,
  Call (in_evm (ExecuteTxs [tx] d None)) (λ res,
  Call (deref (λ _, head res)) (λ r,
  Call (update_pool (λ p, AddTx p tx r)) (λ _,
  Return (Sent (tx_Hash tx)))))).

(** The settings are read before the lock is taken. *)
Definition SendTransaction_go (args : TransactionArgs) : GoCode :=
  Call the_backend (λ b,
  let args := preprocessArgs b args in
  Call the_backend (λ b,
  let from := send_from b args in
  Lock (
  Call (in_evm GetVMContext) (λ c,
  Call (on_StateDB (λ d, GetNonce d from)) (λ nonce,
  Call (in_evm ChainID) (λ chainID,
  Call (deref (λ _, ToTransaction (send_args args (bc_GasLimit c) nonce))) (λ tx,
  match sign_as chainID from tx with
  | inl err => Call (panic (A := unit) err) (λ _, Return Done)
  | inr tx => execute_and_pool_go tx
  end))))))).

(** No lock. *)
Definition SendRawTransaction_go (input : bytes) : GoCode :=
  match UnmarshalBinary input with
  | inl err => Return (Refused err)
  | inr tx => execute_and_pool_go tx
  end.

Definition ResetState_go : GoCode := Lock (Call (in_evm Prepare) (λ _, Return Done)).

(** The pool is emptied before the lock is taken. *)
Definition ClearTxPool_go : GoCode :=
  Call (update_pool (λ p, (Reset p).2)) (λ _,
  Lock (Call (in_evm ResetToRoot) (λ _, Return Done))).

Definition ReExecTxPool_go : GoCode :=
  Lock (
  Call (in_evm Prepare) (λ _,
  Call pool_txs (λ txs,
  Call (in_evm the_StateDB) (λ d,
  Call (in_evm (ExecuteTxs txs d None)) (λ execResults,
  Call (update_pool (λ p, SetResults p execResults)) (λ _,
  Return Done)))))).

(** *** Requests that hold the lock throughout *)

Inductive Request := RSend (args : TransactionArgs) | RReset | RReExec.

Definition code_of (q : Request) : GoCode :=
  match q with RSend args => SendTransaction_go args | RReset => ResetState_go | RReExec => ReExecTxPool_go end.

(** The same request served alone. *)
Definition serve (q : Request) : M Node Reply :=
  match q with
  | RSend args => h ← SendTransaction args; mret (Sent h)
  | RReset => ResetState ;; mret Done
  | RReExec => ReExecTxPool ;; mret Done
  end.

Definition handler_of (q : Request) : Handler :=
  match q with RSend args => HSend args | RReset => HReset | RReExec => HReExec end.

(** The node after the requests [l], one after the other. *)
Definition served (rs : list Request) (s : Node) (l : list nat) : Node :=
  foldl (λ s i, match rs !! i with Some q => (serve q s).2 | None => s end) s l.
End goroutines.

(** ** The discipline of the lock *)

Section discipline.
Context `{Core} `{!Upstream} `{!Remote} `{!Growth} `{!Abi} `{!SafeContract}.
Implicit Types (s : Node).

(** A goroutine alone is the handler. *)
Ltac alone := repeat first
  [ reflexivity
  | rewrite bind_assoc
  | apply bind_ext; intros ].

Lemma execute_and_pool_alone tx s :
  run_code (execute_and_pool_go tx) s = (h ← execute_and_pool tx; mret (Sent h)) s.
Proof. unfold execute_and_pool. cbn [run_code execute_and_pool_go]. alone. Qed.

Lemma SendTransaction_alone args s :
  run_code (SendTransaction_go args) s = (h ← SendTransaction args; mret (Sent h)) s.
Proof.
  cbn [run_code SendTransaction_go]. unfold SendTransaction, the_backend. rewrite !bind_gets, !bind_assoc, !bind_gets.
  alone. destruct (sign_as _ _ _) as [err|tx]; [done|]. apply execute_and_pool_alone.
Qed.

Lemma SendRawTransaction_alone input s :
  run_code (SendRawTransaction_go input) s =
    (r ← SendRawTransaction input; mret (match r with inl err => Refused err | inr h => Sent h end)) s.
Proof.
  unfold SendRawTransaction, SendRawTransaction_go. destruct (UnmarshalBinary input) as [err|tx]; [done|].
  rewrite execute_and_pool_alone. alone.
Qed.

Lemma ResetState_alone s : run_code ResetState_go s = (ResetState ;; mret Done) s.
Proof. unfold ResetState. cbn [run_code ResetState_go]. alone. Qed.

Lemma ClearTxPool_alone s : run_code ClearTxPool_go s = (ClearTxPool ;; mret Done) s.
Proof. unfold ClearTxPool. cbn [run_code ClearTxPool_go]. alone. Qed.

Lemma ReExecTxPool_alone s : run_code ReExecTxPool_go s = (ReExecTxPool ;; mret Done) s.
Proof. unfold ReExecTxPool. cbn [run_code ReExecTxPool_go]. alone. Qed.

Lemma code_of_alone q s : run_code (code_of q) s = serve q s.
Proof. destruct q; [apply SendTransaction_alone|apply ResetState_alone|apply ReExecTxPool_alone]. Qed.

(** Nothing they call changes the settings. *)
Lemma in_evm_settings {X} (m : M EvmState X) s : n_backend (in_evm m s).2 = n_backend s.
Proof. done. Qed.

Lemma on_StateDB_settings {X} (m : loc → M World X) s : n_backend (on_StateDB m s).2 = n_backend s.
Proof.
  unfold on_StateDB, mbind, M_bind. pose proof (in_evm_settings the_StateDB s) as Hs.
  destruct (in_evm the_StateDB s) as [[d| |] s1]; exact Hs.
Qed.

Lemma deref_settings {X} (o : option X) s : n_backend (deref (λ _, o) s).2 = n_backend s.
Proof. unfold deref. by destruct o. Qed.

Lemma execute_and_pool_critical tx : critical n_backend (execute_and_pool_go tx).
Proof.
  cbn. split; [done|intros d]. split; [done|intros res].
  split; [intros s; exact (deref_settings _ s)|intros r]. by split.
Qed.

Lemma code_of_guarded q : guarded n_backend (code_of q).
Proof.
  destruct q as [args| |]; cbn.
  - split; [by exists id|intros b]. split; [by exists id|intros b'].
    split; [done|intros c]. split; [intros s; exact (on_StateDB_settings _ s)|intros nonce].
    split; [done|intros cid]. split; [intros s; exact (deref_settings _ s)|intros tx].
    destruct (sign_as _ _ _); [by split|apply execute_and_pool_critical].
  - split; [done|done].
  - split; [done|intros _]. split; [done|intros l].
    split; [done|intros d]. split; [done|intros out]. by split.
Qed.

Lemma code_of_all_guarded rs : Forall (guarded n_backend) (code_of <$> rs).
Proof. apply Forall_fmap, Forall_forall. intros q _. apply code_of_guarded. Qed.

Lemma after_served rs s l : after (code_of <$> rs) s l = served rs s l.
Proof.
  unfold after, served. revert s. induction l as [|i l IH]; intros s; [done|]. simpl. rewrite <-IH. f_equal.
  rewrite list_lookup_fmap. destruct (rs !! i) as [q|]; [|done]. simpl. by rewrite code_of_alone.
Qed.
Lemma locked_order rs s cfg :
  rtc step (start (code_of <$> rs) s) cfg → Forall finished (cf_go cfg) →
  ∃ order, order ≡ₚ seq 0 (length rs) ∧ cf_state cfg = served rs s order ∧
    ∀ i q, rs !! i = Some q → ∃ l1 l2, order = l1 ++ i :: l2 ∧
      cf_go cfg !! i = Some (Finished (serve q (served rs s l1)).1).
Proof.
  intros Hsteps Hall.
  destruct (serial_steps n_backend (code_of <$> rs) s (code_of_all_guarded rs) cfg Hsteps) as [order Hs].
  destruct (serial_all n_backend _ _ _ _ Hs Hall) as (Hp & Hst & Hgo). exists order.
  rewrite length_fmap in Hp. rewrite after_served in Hst. split; [exact Hp|]. split; [exact Hst|].
  intros i q Hq. destruct (Hgo i (code_of q)) as (l1 & l2 & E & Hg); [by rewrite list_lookup_fmap, Hq|].
  exists l1, l2. split; [exact E|]. by rewrite Hg, code_of_alone, after_served.
Qed.
End discipline.

(** ** Properties *)

Section properties.
Context `{Core} `{!Upstream} `{!Remote} `{!Growth} `{!Abi} `{!SafeContract}.

(** C3: requests that hold the lock are served as if they had come one after the other.
    However the calls of any number of concurrent [SendTransaction], [ResetState] and
    [ReExecTxPool] interleave, once all are through, the node is where serving them in some
    order takes it, and each client has the answer, or the panic, of its turn. *)
Theorem locked_serializable rs s cfg :
  rtc step (start (code_of <$> rs) s) cfg → Forall finished (cf_go cfg) →
  ∃ order, order ≡ₚ seq 0 (length rs) ∧ cf_state cfg = served rs s order ∧
    ∀ i q, rs !! i = Some q → ∃ l1 l2, order = l1 ++ i :: l2 ∧
      cf_go cfg !! i = Some (Finished (serve q (served rs s l1)).1).
Proof.
  apply locked_order.
Qed.

(** C4: concurrent requests that hold the lock all get their turn.  No schedule of them goes
    on for ever, and it does not stop before all are through, unless a call of one of them
    does not come back: nobody waits for a lock that is never released, also after a panic. *)
Theorem locked_progress rs s cfg :
  sn step (start (code_of <$> rs) s) ∧
  (rtc step (start (code_of <$> rs) s) cfg →
   Forall finished (cf_go cfg) ∨ (∃ cfg', step cfg cfg') ∨ stuck_call cfg).
Proof.
  split; [apply step_ends|]. intros Hsteps.
  destruct (serial_steps n_backend (code_of <$> rs) s (code_of_all_guarded rs) cfg Hsteps) as [order Hs].
  by eapply serial_progress.
Qed.
End properties.

(** ** Concurrent requests and the specification of the node *)

Section refinement.
Context `{CoreLaws} `{!GethLaws} `{!Upstream} `{!Remote} `{!Growth} `{!Abi} `{!SafeContract}.
Context (answer : BatchElem → option RpcValue) (N : nat) (HN : Reliable answer N).
Context (Htr : ∀ j h, is_Some (make_tracer None (mkTracerContext blockHash j h))).
Context (r : loc).
Implicit Types (σ : Spec) (s : Node).

Lemma serve_handler q s s' : run_handler (handler_of q) s = (Ok tt, s') → ∃ a, serve q s = (Ok a, s').
Proof.
  destruct q as [args| |]; simpl.
  - unfold dropped. intros (h & s1 & Hrun & [= ->])%bind_Ok_inv. exists (Sent h). by rewrite (bind_Ok _ _ _ _ _ Hrun).
  - intros Hrun. exists Done. by rewrite (bind_Ok _ _ _ _ _ Hrun).
  - intros Hrun. exists Done. by rewrite (bind_Ok _ _ _ _ _ Hrun).
Qed.

(** Every request is admissible whenever it is its turn. *)
Definition admissible (rs : list Request) (s : Node) : Prop :=
  ∀ l1 i l2 q, l1 ++ i :: l2 ≡ₚ seq 0 (length rs) → rs !! i = Some q →
    handler_ok (served rs s l1) (handler_of q).

Lemma served_snoc rs s l i q : rs !! i = Some q → served rs s (l ++ [i]) = (serve q (served rs s l)).2.
Proof. intros Hq. unfold served. by rewrite foldl_app; simpl; rewrite Hq. Qed.

(** One turn. *)
Lemma turn_represents σ rs s l1 i l2 q :
  admissible rs s → l1 ++ i :: l2 ≡ₚ seq 0 (length rs) → rs !! i = Some q →
  represents answer N r σ (served rs s l1) →
  ∃ a σ', (serve q (served rs s l1)).1 = Ok a ∧ represents answer N r σ' (served rs s (l1 ++ [i])) ∧
    (q ≠ RReset → in_step answer σ → in_step answer σ').
Proof.
  intros Hadm Hperm Hq [Hrep Hb]. pose proof (Hadm _ _ _ _ Hperm Hq) as Hok.
  assert (¬ panics answer σ (served rs s l1) (handler_of q)) as Hno by (destruct q; intros []).
  destruct (simulated_never answer N r _ _ _ _ _ Hno (handler_simulated answer N HN Htr r σ _ _ Hrep Hb Hok)) as (s' & e & σ' & Hrun & He & Hstep & Hrep' & Hb').
  destruct (serve_handler _ _ _ Hrun) as [a Ha]. exists a, σ'.
  rewrite (served_snoc _ _ _ _ _ Hq), Ha. split; [done|]. split; [by split|]. intros Hne.
  apply (spec_step_in_step answer e σ σ' Hstep). intros ->. destruct q; simpl in He; [|done|done].
  by destruct He as (? & [=] & _).
Qed.

Lemma turns_represent σ rs s l1 l2 :
  admissible rs s → l1 ++ l2 ≡ₚ seq 0 (length rs) → represents answer N r σ s →
  ∃ σ', represents answer N r σ' (served rs s l1) ∧ (RReset ∉ rs → in_step answer σ → in_step answer σ').
Proof.
  intros Hadm. revert l2. induction l1 as [|i l1 IH] using rev_ind; intros l2 Hperm Hrep; [by exists σ|].
  rewrite <-app_assoc in Hperm. destruct (IH ([i] ++ l2) Hperm Hrep) as (σ1 & Hrep1 & Hin1).
  destruct (lookup_lt_is_Some_2 rs i) as [q Hq].
  { assert (i ∈ seq 0 (length rs)) as Hi by (rewrite <-Hperm; set_solver). apply elem_of_seq in Hi. lia. }
  destruct (turn_represents σ1 rs s l1 i l2 q Hadm Hperm Hq Hrep1) as (a & σ2 & _ & Hrep2 & Hin2).
  exists σ2. split; [done|]. intros Hne Hin. apply Hin2; [|by apply Hin1].
  intros ->. apply Hne. by eapply list_elem_of_lookup_2.
Qed.

(** C5: concurrent requests keep the node in step with its pool.  If each request is
    admissible whenever its turn comes, then after any schedule that serves them all, no
    client met a panic, the node represents a specification, and its state is what its
    pool leads to, if it was before and nobody reset it. *)
Theorem locked_in_step σ rs s cfg :
  represents answer N r σ s → admissible rs s →
  rtc step (start (code_of <$> rs) s) cfg → Forall finished (cf_go cfg) →
  (∀ i, (i < length rs)%nat → ∃ a, cf_go cfg !! i = Some (Finished (Ok a))) ∧
  ∃ σ', represents answer N r σ' (cf_state cfg) ∧ (RReset ∉ rs → in_step answer σ → in_step answer σ').
Proof.
  intros Hrep Hadm Hsteps Hall. destruct (locked_order rs s cfg Hsteps Hall) as (order & Hperm & Hst & Hgo). split.
  - intros i Hi. destruct (lookup_lt_is_Some_2 rs i Hi) as [q Hq].
    destruct (Hgo i q Hq) as (l1 & l2 & -> & Hg).
    destruct (turns_represent σ rs s l1 (i :: l2) Hadm Hperm Hrep) as (σ1 & Hrep1 & _).
    destruct (turn_represents σ1 rs s l1 i l2 q Hadm Hperm Hq Hrep1) as (a & _ & Ha & _). exists a. by rewrite Hg, Ha.
  - rewrite Hst. apply (turns_represent σ rs s order []); [done|by rewrite app_nil_r|done].
Qed.
End refinement.

(** ** Requests that do not hold the lock *)

Section races.
Context `{CoreLaws} `{!GethLaws} `{!Upstream} `{!Remote} `{!Growth} `{!Abi} `{!SafeContract}.
Context (answer : BatchElem → option RpcValue) (N : nat) (HN : Reliable answer N).
Context (Htr : ∀ j h, is_Some (make_tracer None (mkTracerContext blockHash j h))).
Context (r : loc).
Implicit Types (b : Z) (A S : Abs) (bv : BlockValues) (cid gp : Z) (s : Node).

Lemma execute_and_pool_lockless tx : lockless (execute_and_pool_go tx).
Proof. done. Qed.

Lemma SendTransaction_one_lock args : one_lock (SendTransaction_go args).
Proof. cbn. intros b0 b' c nonce cid tx. by destruct (sign_as _ _ _). Qed.

Lemma code_of_one_lock q : one_lock (code_of q).
Proof. destruct q; [apply SendTransaction_one_lock|done|done]. Qed.

(** C13: [ClearTxPool] races with [SendTransaction].  It empties the pool before it takes the
    lock, so a transaction that is sent in between is executed and joins the empty pool,
    and then [ResetToRoot] throws its effects away: the client has its hash, the pool has the
    transaction, and the state is that of the pinned block. *)
Theorem ClearTxPool_races b A bv cid gp s args unsigned :
  node_ok answer N r b A bv cid gp s →
  let x := preprocessArgs (n_backend s) args in
  let from := send_from (n_backend s) x in
  ToTransaction (send_args x (bc_GasLimit (vmContext (es_evm (n_evm s)))) (a_nonce A from)) = Some unsigned →
  a_depth A + 2 + budget [unsigned] < 2 ^ 63 →
  ∃ tx o A' gp' s', sign_as cid from unsigned = inr tx ∧
    rtc step (start [ClearTxPool_go; SendTransaction_go args] s)
      (mkConfig s' None [Finished (Ok Done); Finished (Ok (Sent (tx_Hash tx)))]) ∧
    entries (n_pool s') = [(tx, o)] ∧ at_block answer b A' ∧ node_ok answer N r b A' bv cid gp' s'.
Proof.
  intros Hok x from Hun Hd. destruct (Reset_ok _ (nk_pool _ _ _ _ _ _ _ _ _ Hok)) as [Hpool Hent].
  set (s1 := set_n_pool (Reset (n_pool s)).2 s).
  destruct (SendTransaction_run answer N HN Htr r b A bv cid gp s1 args unsigned
    (node_ok_pool _ _ _ _ _ _ _ _ _ _ Hpool Hok) Hun Hd) as (tx & o & gp2 & A2 & s2 & Hsig & _ & _ & Hrun2 & Hok2 & Hent2 & _).
  destruct (ResetToRoot_run answer N HN r _ _ _ _ _ _ Hok2) as (A3 & es3 & Hrun3 & Hok3 & Hat3).
  exists tx, o, A3. eexists _, (set_n_evm es3 s2). split; [exact Hsig|]. split; [|split; [|by split; [exact Hat3|exact Hok3]]].
  - eapply rtc_l; [eapply (step_call _ _ _ 0%nat); reflexivity|]. cbn [list_insert insert start fmap list_fmap].
    eapply rtc_trans.
    + eapply (run_alone _ 1%nat); [apply (SendTransaction_one_lock args)|reflexivity| |reflexivity].
      rewrite SendTransaction_alone, (bind_Ok _ _ _ _ _ Hrun2). reflexivity.
    + eapply (run_alone _ 0%nat); [|reflexivity| |reflexivity]; [done|]. cbn [run_code].
      rewrite (bind_Ok _ _ _ _ _ Hrun3). reflexivity.
  - change (entries (n_pool s2) = [(tx, o)]). rewrite Hent2. unfold s1. cbn [n_pool set_n_pool]. by rewrite Hent.
Qed.

(** A pool whose results were replaced by too few. *)
Lemma SetResults_seen pool rs :
  pool_ok pool → seen (SetResults pool rs) (GetPoolTxs (SetResults pool rs)) = ((entries pool).*1, rs).
Proof.
  intros Hok. destruct (seen_length pool Hok) as [E1 E2]. unfold SetResults.
  destruct (make_of (res_heap pool) rs) as [e rh] eqn:He. destruct (make_of_contents _ _ _ _ He) as [Hc _].
  unfold entries, seen in *. simpl in *. rewrite Hc. f_equal. symmetry. apply fst_zip. lia.
Qed.

Lemma in_evm_pool {X} (m : M EvmState X) s x p :
  in_evm m s = (x, s) → in_evm m (set_n_pool p s) = (x, set_n_pool p s).
Proof.
  unfold in_evm, zoom. intros E. injection E as E1 E2. apply (f_equal n_evm) in E2. cbn [n_evm set_n_evm set_n_pool] in *.
  by rewrite E1, E2; destruct s.
Qed.

(** Listing the pool reads a result for each of its transactions. *)
Lemma txs_loop_short (s : Node) (txs : list Transaction) (rs : list (option Err)) i :
  (∀ tx, ∃ msg, in_evm (TxToMessage tx) s = (Ok msg, s)) → (length rs < length txs)%nat →
  ∃ e, txs_loop i txs rs s = (Panic e, s).
Proof.
  intros Hmsg. revert i rs. induction txs as [|tx txs IH]; intros i rs Hlen; [simpl in Hlen; lia|].
  destruct rs as [|o rs]; [by eexists|]. destruct (Hmsg tx) as [msg Hm].
  destruct (IH (i + 1) rs) as [e He]; [simpl in Hlen; lia|]. exists e. cbn [txs_loop].
  rewrite (bind_deref (λ _, head (o :: rs)) _ _ o eq_refl), (bind_Ok _ _ _ _ _ Hm). by apply bind_Panic.
Qed.

(** C14: [SendRawTransaction] races with [ReExecTxPool].  It takes no lock, so a transaction
    may join the pool after its transactions were read for executing them again: then there
    is one result less than there are transactions, and listing the pool panics from then
    on. *)
Theorem SendRawTransaction_races b A bv cid gp s input tx cid' h :
  node_ok answer N r b A bv cid gp s → UnmarshalBinary input = inr tx →
  rpc_ChainID (w_calls (es_world (n_evm s))) = inr cid' →
  rpc_Header (S (w_calls (es_world (n_evm s)))) (head_request (n_evm s)) = Some h →
  3 + budget ((entries (n_pool s)).*1 ++ [tx]) < 2 ^ 63 →
  ∃ s' e, rtc step (start [ReExecTxPool_go; SendRawTransaction_go input] s)
      (mkConfig s' None [Finished (Ok Done); Finished (Ok (Sent (tx_Hash tx)))]) ∧
    GetTxs s' = (Panic e, s').
Proof.
  intros Hok Hin Hcid Hh Hbud. set (txs := (entries (n_pool s)).*1) in *. rewrite budget_app in Hbud.
  pose proof (budget_nonneg txs). pose proof (budget_nonneg [tx]).
  destruct (Prepare_run answer N HN r b A bv cid gp s cid' h Hok Hcid Hh) as (A1 & es1 & Hrun1 & Hat & Hok1 & _).
  destruct (execute_and_pool_run answer N HN Htr r _ A1 _ cid' _ _ tx Hok1) as
    (o & gp2 & A2 & s2 & _ & Hrun2 & Hok2 & Hent2 & _ & Hd2); [rewrite (ab_depth _ _ _ Hat); lia|].
  rewrite (ab_depth _ _ _ Hat) in Hd2. cbn [n_pool set_n_evm] in Hent2.
  destruct (node_execute answer N HN Htr r _ _ _ _ _ _ txs Hok2) as
    (out & gp3 & A3 & d & es3 & Hspec & Hsd & Hrun3 & Hok3 & _); [lia|].
  pose proof (spec_ExecuteTxs_length _ _ _ _ _ _ _ _ _ _ Hspec) as Hlen.
  set (s3 := set_n_evm es3 s2) in *. set (s4 := set_n_pool (SetResults (n_pool s3) out) s3).
  assert (seen (n_pool s4) (GetPoolTxs (n_pool s4)) = (txs ++ [tx], out)) as Hseen.
  { unfold s4. cbn [n_pool set_n_pool]. rewrite (SetResults_seen _ _ (nk_pool _ _ _ _ _ _ _ _ _ Hok3)).
    change (entries (n_pool s3)) with (entries (n_pool s2)). by rewrite Hent2, fmap_app. }
  destruct (txs_loop_short s4 (txs ++ [tx]) out 0) as [e He].
  { intros tx'. exists (tx_message cid' tx'). pose proof (in_evm_TxToMessage answer N r _ _ _ _ _ _ tx' Hok3) as Hm.
    exact (in_evm_pool _ _ _ _ Hm). }
  { rewrite length_app, Hlen. simpl. lia. }
  exists s4, e. split.
  - assert (SendRawTransaction_go input = execute_and_pool_go tx) as -> by (by unfold SendRawTransaction_go; rewrite Hin).
    eapply rtc_l; [eapply (step_lock _ _ _ 0%nat); reflexivity|].
    eapply rtc_l; [eapply (step_call _ _ _ 0%nat); [reflexivity|by apply in_evm_Ok]|].
    eapply rtc_l; [eapply (step_call _ _ _ 0%nat); [reflexivity|]|].
    { apply (pool_txs_run (set_n_evm es1 s)), (nk_pool _ _ _ _ _ _ _ _ _ Hok1). }
    eapply rtc_trans; [eapply (run_on _ 1%nat); [by apply (execute_and_pool_lockless tx)|reflexivity| |reflexivity..]|].
    { rewrite execute_and_pool_alone, (bind_Ok _ _ _ _ _ Hrun2). reflexivity. }
    eapply (run_on _ 0%nat); [|reflexivity| |reflexivity..]; [done|]. cbn [run_code].
    rewrite (bind_Ok _ _ _ _ _ Hsd). change (entries (n_pool (set_n_evm es1 s))).*1 with txs.
    rewrite (bind_Ok _ _ _ _ _ Hrun3). reflexivity.
  - unfold GetTxs, pool_txs, pool_results. rewrite !bind_gets, Hseen. exact He.
Qed.
End races.

(** ** Examples *)

Module ToyLocks.
Export ToyUp Multisend.ToySafe.

(** Five wei to [a2]. *)
Definition pay : TransactionArgs :=
  mkTransactionArgs (Some a1) (Some a2) (Some 100000) None None None (Some 5) None None None None None.

Definition both : list Request := [RSend pay; RReExec].

Lemma pay_ok s : budget (pooled s) < 2 ^ 60 → Randomized (n_backend s) = false → handler_ok s (HSend pay).
Proof.
  intros Hp Hr. split; [lia|]. intros nonce un. unfold preprocessArgs. rewrite Hr. intros E. injection E as <-.
  rewrite budget_app. change (budget [_]) with 2502. lia.
Defined.

Lemma reexec_ok s : budget (pooled s) < 2 ^ 60 → handler_ok s HReExec.
Proof. intros Hp. split; [lia|]. split; intros i; by eexists. Defined.

(** Either may come first. *)
Lemma both_admissible : admissible both node1.
Proof.
  destruct (SendTransaction_run answer 1 reliable tracers1 1%nat 100 AF bv1 1 30000000 node1 pay
    _ ok1 eq_refl ltac:(reflexivity)) as (tx & o & gp1 & A1' & s1 & _ & Hgas & _ & Hrun1 & _ & Hent1 & _).
  assert (rpc_ChainID (w_calls (es_world (n_evm node1))) = inr 1) as Hcid by reflexivity.
  assert (rpc_Header (S (w_calls (es_world (n_evm node1)))) (head_request (n_evm node1)) = Some header100) as Hhd by reflexivity.
  destruct (ReExecTxPool_run answer 1 reliable tracers1 1%nat 100 AF bv1 1 30000000 node1 1 header100 ok1
    Hcid Hhd ltac:(reflexivity)) as (A0 & out & gp2 & A2' & s2 & _ & _ & Hrun2 & _ & Hent2 & Hbk2 & _).
  intros l1 i l2 q Hperm Hq. symmetry in Hperm. apply Permutation_length_2_inv in Hperm.
  destruct l1 as [|j [|k l1]]; [| |by destruct Hperm as [E|E]; destruct l1].
  - destruct Hperm as [E|E]; injection E as -> _; injection Hq as <-; [by apply pay_ok|by apply reexec_ok].
  - destruct Hperm as [E|E]; injection E as -> -> _; injection Hq as <-; unfold served; simpl.
    + rewrite (bind_Ok _ _ _ _ _ Hrun1). apply reexec_ok. simpl. unfold pooled. rewrite Hent1.
      change (budget [tx] < 2 ^ 60). cbn [budget foldr]. rewrite Hgas. reflexivity.
    + rewrite (bind_Ok _ _ _ _ _ Hrun2). apply pay_ok; simpl.
      * unfold pooled. rewrite Hent2. reflexivity.
      * by rewrite Hbk2.
Defined.

(** Two requests may be served one after the other. *)
Lemma two_run (q1 q2 : Request) (s s1 s2 : Node) (a1 a2 : Reply) :
  serve q1 s = (Ok a1, s1) → serve q2 s1 = (Ok a2, s2) →
  ∃ cfg, rtc step (start (code_of <$> [q1; q2]) s) cfg ∧ Forall finished (cf_go cfg).
Proof.
  intros H1 H2. eexists. split.
  - eapply rtc_trans.
    + eapply (run_alone (code_of q1) 0%nat); [apply code_of_one_lock|reflexivity|by rewrite code_of_alone|reflexivity].
    + eapply (run_alone (code_of q2) 1%nat); [apply code_of_one_lock|reflexivity|by rewrite code_of_alone|reflexivity].
  - by repeat constructor.
Defined.

Lemma Ok_pair {X} (m : M Node X) s a : (m s).1 = Ok a → m s = (Ok a, (m s).2).
Proof. destruct (m s). simpl. by intros ->. Defined.

Lemma both_run : ∃ cfg, rtc step (start (code_of <$> both) node1) cfg ∧ Forall finished (cf_go cfg).
Proof.
  destruct (turn_represents answer 1 reliable tracers1 1%nat _ both node1 [] 0%nat [1%nat] (RSend pay) both_admissible
    ltac:(reflexivity) eq_refl ToyInvariant.represents1) as (a1' & σ1 & Ha1 & Hrep1 & _).
  destruct (turn_represents answer 1 reliable tracers1 1%nat _ both node1 [0%nat] 1%nat [] RReExec both_admissible
    ltac:(reflexivity) eq_refl Hrep1) as (a2' & σ2 & Ha2 & _).
  exact (two_run (RSend pay) RReExec _ _ _ _ _ (Ok_pair _ _ _ Ha1) (Ok_pair _ _ _ Ha2)).
Defined.

Lemma locked_serializable_witness :
  ∃ cfg order, rtc step (start (code_of <$> both) node1) cfg ∧ (order = [0; 1]%nat ∨ order = [1; 0]%nat) ∧
    cf_state cfg = served both node1 order.
Proof.
  destruct both_run as (cfg & Hsteps & Hall).
  destruct (locked_serializable both node1 cfg Hsteps Hall) as (order & Hperm & Hst & _).
  exists cfg, order. split_and!; [exact Hsteps| |exact Hst]. symmetry in Hperm. by apply Permutation_length_2_inv in Hperm.
Defined.

Lemma locked_progress_witness :
  ∃ cfg, rtc step (start (code_of <$> both) node1) cfg ∧
    (Forall finished (cf_go cfg) ∨ (∃ cfg', step cfg cfg') ∨ stuck_call cfg).
Proof.
  exists (start (code_of <$> both) node1). split; [apply rtc_refl|].
  exact (proj2 (locked_progress both node1 _) (rtc_refl _ _)).
Defined.

Lemma locked_in_step_witness :
  ∃ cfg σ, rtc step (start (code_of <$> both) node1) cfg ∧ represents answer 1 1%nat σ (cf_state cfg) ∧
    in_step answer σ.
Proof.
  destruct both_run as (cfg & Hsteps & Hall).
  destruct (locked_in_step answer 1 reliable tracers1 1%nat _ both node1 cfg ToyInvariant.represents1 both_admissible
    Hsteps Hall) as (_ & σ & Hrep & Hin).
  exists cfg, σ. split_and!; [exact Hsteps|exact Hrep|]. apply Hin; [|exact ToyInvariant.in_step1].
  unfold both. rewrite !not_elem_of_cons. by split_and!; [discriminate|discriminate|apply not_elem_of_nil].
Defined.

(** A transfer is sent while the pool is cleared. *)
Lemma ClearTxPool_races_witness :
  ∃ tx o A' s', rtc step (start [ClearTxPool_go; SendTransaction_go (print_args a2)] node1)
      (mkConfig s' None [Finished (Ok Done); Finished (Ok (Sent (tx_Hash tx)))]) ∧
    entries (n_pool s') = [(tx, o)] ∧ at_block answer 100 A'.
Proof.
  destruct (ClearTxPool_races answer 1 reliable tracers1 1%nat 100 AF bv1 1 30000000 node1 (print_args a2) _ ok1
    eq_refl ltac:(reflexivity)) as (tx & o & A' & gp' & s' & _ & Hsteps & Hent & Hat & _).
  exists tx, o, A', s'. split_and!; [exact Hsteps|exact Hent|exact Hat].
Defined.

(** A raw transaction arrives while a pool of two is executed again. *)
Lemma SendRawTransaction_races_witness :
  ∃ s s' e cfg, length (entries (n_pool s)) = 2%nat ∧
    rtc step (start [ReExecTxPool_go; SendRawTransaction_go [x01]] s) cfg ∧ cf_state cfg = s' ∧
    GetTxs s' = (Panic e, s').
Proof.
  destruct ToyProps.two_pooled as (o1 & o2 & gp & A & s & Hok & Hent).
  pose proof (SendRawTransaction_races answer 1 reliable tracers1 1%nat 100 A bv1 1 gp s [x01] _ 1 header100 Hok
    eq_refl eq_refl eq_refl) as Hrace. rewrite Hent in Hrace.
  destruct (Hrace ltac:(reflexivity)) as (s' & e & Hsteps & Hget).
  eexists s, s', e, _. rewrite Hent. split_and!; [reflexivity|exact Hsteps|reflexivity|exact Hget].
Defined.
End ToyLocks.
