(* ===== verification/NodeStart.v ===== *)
(** * Starting the node

    [NewMferEVM] dials, prepares and retries until both succeed; the node built on it is up
    and in step with its empty pool. *)
From S2P Require Import Prelude BigInt Geth World OverlayState Fetch StateSpec OverlayStateDB.
From S2P Require Import VmStateDB Refinement Clones Reset Chain GoSlice GoStd ToyInstance TxPool.
From S2P Require Import Signer Tracers TxArgs Evm Warm EvmProps Backend Actions Debug NodeState.
From S2P Require Import NodeSteps NodeSpec NodeLogic NodeHandlers ToyNode NodeToy NodeInvariant.

(** ** Definitions *)

Section defs.
Context `{Core} `{!Upstream} `{!Remote}.

(** The header a starting node asks for: that of the block its URL names, or the head's. *)
Definition start_request (specificBlock : option Z) : string := from_option sprintf_hex "latest" specificBlock.

(** From its [K]-th answer on the upstream node lets itself be dialled and tells its chain;
    it has the header that is asked for. *)
Record comes_up (K : nat) (url : bytes) (specificBlock : option Z) : Prop := {
  up_dial i : (K ≤ i)%nat → rpc_Dial i url = true;
  up_chain i : (K ≤ i)%nat → ∃ cid, rpc_ChainID i = inr cid;
  up_header i : is_Some (rpc_Header i (start_request specificBlock))
}.

(** An EVM that was not prepared yet. *)
Record unprepared (es : EvmState) : Prop := {
  un_db : StateDB (es_evm es) = None;
  un_batch : 1 ≤ evm_batchSize (es_evm es);
  un_fresh : fresh_world (es_world es)
}.
End defs.

(** ** Lemmas *)

Section start.
Context `{CoreLaws} `{!GethLaws} `{!Upstream} `{!Remote} `{!Growth}.
Context (answer : BatchElem → option RpcValue) (N : nat) (HN : Reliable answer N).

(** A new database, put on a fresh layer over its refreshed root. *)
Lemma new_db_ok w p b path maxk batch :
  fresh_world w → w_u64 w !! p = Some b → 1 ≤ batch → (N ≤ w_calls w)%nat →
  ∃ d w1 w2 A, NewOverlayStateDB (Some p) path maxk batch w = (Ok d, w1) ∧
    InitState d true false w1 = (Ok tt, w2) ∧ db_ok answer N (w_next w) b d p A w2 ∧
    fresh_root answer b A ∧ w_bigs w2 = w_bigs w.
Proof.
  intros Hf Hp Hb Hc. destruct (new_db_step answer w p b path maxk batch Hf Hp Hb) as
    (w1 & Hrun1 & Href & Hcl & Htr & Hdb & Hu & Hbg & Hcalls & Hroot).
  assert (db_ok answer N (w_next w) b (S (S (w_next w))) p (start_abs (pinned_frame answer b) 1) w1) as Hok.
  { split; [by eexists|done|done|done|by rewrite Hdb|lia]. }
  destruct (repin_step answer N HN _ _ _ _ _ _ b false Hok) as (w2 & A & Hrun2 & Hok2 & Hfresh & Hb2).
  apply bind_Ok_inv in Hrun2 as ([] & w1' & [= <-] & Hrun2).
  assert (with_u64 <[p := b]> w1 = w1) as E.
  { destruct w1. unfold with_u64. simpl in *. by rewrite insert_id. }
  rewrite E in Hrun2. eexists _, w1, w2, A. split; [exact Hrun1|]. split; [exact Hrun2|].
  split; [exact Hok2|]. split; [exact Hfresh|]. by rewrite Hb2.
Qed.

(** The first [Prepare] builds the database. *)
Lemma Prepare_first es p cid h pool bk :
  unprepared es → blockNumber (es_evm es) = Some p → is_Some (w_u64 (es_world es) !! p) →
  (N ≤ S (S (w_calls (es_world es))))%nat → pool_ok pool →
  rpc_ChainID (w_calls (es_world es)) = inr cid →
  rpc_Header (S (w_calls (es_world es))) (head_request es) = Some h →
  ∃ r A es', Prepare es = (Ok None, es') ∧ at_block answer (Uint64 (hd_Number h)) A ∧
    node_ok answer N r (Uint64 (hd_Number h)) A (next_block h (es_evm es) 0) cid (hd_GasLimit h)
      (mkNode es' pool bk).
Proof.
  intros [Hsd Hbs Hf] Hp [bn0 Hbn0] Hc Hpool Hcid Hh.
  destruct (Prepare_context es cid h Hcid) as (es1 & Hrun1 & Hc1 & Hsd1 & Hp1 & Hown & Hgl & Hbv1 &
    Hst & Hdbs & Hu & Hn & Hcl & _ & Hbs1 & Hrcs & _); [by rewrite Hp; exists bn0|exact Hh|].
  set (b := Uint64 (hd_Number h)). set (w2 := with_u64 <[p := b]> (es_world es1)).
  assert (fresh_world w2) as Hf2 by (eapply heap_fresh; [exact Hf|done|done|intros l; simpl; by rewrite Hrcs|done]).
  destruct (new_db_ok w2 p b (keyCacheFilePath (es_evm es1)) (evm_maxKeyCache (es_evm es1))
    (evm_batchSize (es_evm es1)) Hf2) as (d & w3 & w4 & S0 & Hrun3 & Hrun4 & Hdb4 & Hfresh & Hb4);
    [by simpl; rewrite lookup_insert_eq|by rewrite Hbs1|simpl; lia|].
  destruct (dk_refines _ _ _ _ _ _ _ _ Hdb4) as [own4 Href4].
  destruct (fund_step answer N HN own4 _ _ _ d w4 S0 Href4) as (w5 & own5 & Hrun5 & Href5 & Hconf5).
  exists (w_next w2), (fund fake_accounts S0),
    (with_evm (set_gasPool (hd_GasLimit h)) (set_world w5 (with_evm (set_StateDB d) es1))).
  split; [|split; [by apply fund_at_block|]].
  - unfold Prepare. rewrite Hrun1. rewrite (bind_deref (λ _, Some h) _ _ h eq_refl).
    unfold SetBlockNumber, the_StateDB, AddGasPool, the_evm, update_evm.
    rewrite bind_assoc, bind_gets, Hp1, Hp.
    rewrite (bind_Ok _ _ _ _ _ (in_world_Ok (p0 ← non_nil (Some p); set_u64 p0 b) es1 tt w2 eq_refl)).
    rewrite bind_gets. cbn [es_evm set_world]. rewrite Hsd1, Hsd, Hp1, Hp.
    rewrite bind_assoc, (bind_Ok _ _ _ _ _ (in_world_Ok _ (set_world w2 es1) _ _ Hrun3)).
    rewrite bind_modify, bind_assoc, bind_gets. cbn [es_evm set_world with_evm StateDB set_StateDB].
    set (es3 := with_evm (set_StateDB d) (set_world w3 (set_world w2 es1))).
    rewrite (bind_Ok _ _ _ _ _ (in_world_Ok (non_nil (Some d)) es3 d w3 eq_refl)).
    rewrite (bind_Ok _ _ _ _ _ (in_world_Ok _ (set_world w3 es3) _ _ Hrun4)).
    rewrite (bind_Ok _ _ _ _ _ (in_world_Ok _ (set_world w4 (set_world w3 es3)) _ _ Hrun5)).
    rewrite bind_assoc, bind_gets, bind_modify. cbn. by rewrite Hgl.
  - split; [done| | |exact Hown].
    + exists d, p. split_and!; [done|by simpl; rewrite Hp1|]. by eapply db_ok_run.
    + split; [done|done|]. eapply block_values_ext; [|exact Hbv1]. simpl.
      by rewrite (cf_bigs _ _ _ _ _ _ _ _ Hconf5), Hb4.
Qed.
(** A [Prepare] that is not told its chain gives up. *)
Lemma Prepare_no_chain es err :
  rpc_ChainID (w_calls (es_world es)) = inl err →
  ∃ es', Prepare es = (Ok (Some err), es') ∧ es_world es' = with_call (es_world es) ∧
    StateDB (es_evm es') = StateDB (es_evm es) ∧ evm_batchSize (es_evm es') = evm_batchSize (es_evm es) ∧
    timeDelta (es_evm es') = timeDelta (es_evm es) ∧
    blockNumberDelta (es_evm es') = blockNumberDelta (es_evm es).
Proof.
  intros Herr. eexists. split.
  - unfold Prepare, update_evm. rewrite bind_modify.
    rewrite (bind_Ok (request rpc_ChainID) _ _ (inl err)
      (set_world (with_call (es_world es)) (with_evm (λ e, set_ChainID (default 1 (chainConfig_ChainID e)) e) es)));
      [reflexivity|]. unfold request, in_world, zoom. simpl. by rewrite Herr.
  - done.
Qed.

(** The EVM after a successful dial: the block number is a new object. *)
Definition dialled (specificBlock : option Z) (es : EvmState) : EvmState :=
  let p := w_next (es_world es) in
  let w := with_next (with_u64 <[p := 0]> (with_call (es_world es))) in
  mkEvmState (match specificBlock with Some bn => with_u64 <[p := bn]> w | None => w end)
    (set_block p (match specificBlock with Some _ => true | None => false end) (es_evm es))
    (es_tracers es) (es_next es).

Lemma dialled_run fuel url specificBlock es :
  rpc_Dial (w_calls (es_world es)) url = true →
  dial_loop (S fuel) url specificBlock es =
    (err ← Prepare;
     match err with Some _ => dial_loop fuel url specificBlock | None => mret tt end) (dialled specificBlock es).
Proof.
  intros Hd. cbn [dial_loop].
  rewrite (bind_Ok _ _ es true (set_world (with_call (es_world es)) es));
    [|unfold request, in_world, zoom; by rewrite Hd].
  set (es1 := set_world _ es). set (p := w_next (es_world es1)).
  rewrite (bind_Ok _ _ es1 p (set_world (with_next (with_u64 <[p := 0]> (es_world es1))) es1) eq_refl).
  unfold update_evm. rewrite bind_modify.
  rewrite (bind_Ok _ _ _ tt (dialled specificBlock es)); [done|]. by destruct specificBlock.
Qed.

Lemma dialled_unprepared specificBlock es :
  unprepared es → unprepared (dialled specificBlock es) ∧
  blockNumber (es_evm (dialled specificBlock es)) = Some (w_next (es_world es)) ∧
  is_Some (w_u64 (es_world (dialled specificBlock es)) !! w_next (es_world es)) ∧
  w_calls (es_world (dialled specificBlock es)) = S (w_calls (es_world es)) ∧
  head_request (dialled specificBlock es) = start_request specificBlock.
Proof.
  intros [U1 U2 U3]. split; [|split; [done|]].
  - split; [done|done|]. destruct specificBlock; (eapply heap_fresh; [exact U3|done|done|done|simpl; lia]).
  - unfold head_request. destruct specificBlock as [bn|]; simpl; rewrite lookup_insert_eq; split_and!; eauto.
Qed.

(** The node comes up within its patience. *)
Lemma dial_loop_run K url specificBlock fuel es pool bk :
  comes_up K url specificBlock → unprepared es → (0 < fuel)%nat → (K < fuel + w_calls (es_world es))%nat →
  pool_ok pool → (N ≤ w_calls (es_world es) + 3)%nat →
  ∃ i j h r A bv cid es', rpc_Header i (start_request specificBlock) = Some h ∧ rpc_ChainID j = inr cid ∧
    bv = mkBlockValues (hd_Coinbase h) (hd_GasLimit h)
      (i64 (u64 (Uint64 (hd_Number h) + 1 + blockNumberDelta (es_evm es))))
      (i64 (u64 (hd_Time h + timeDelta (es_evm es)))) (hd_Difficulty h) 0 ∧
    dial_loop fuel url specificBlock es = (Ok tt, es') ∧ at_block answer (Uint64 (hd_Number h)) A ∧
    node_ok answer N r (Uint64 (hd_Number h)) A bv cid (hd_GasLimit h) (mkNode es' pool bk).
Proof.
  intros Hup. revert es. induction fuel as [|fuel IH]; intros es Hun H0' HK Hpool Hc; [lia|].
  destruct (rpc_Dial (w_calls (es_world es)) url) eqn:Hd.
  - rewrite (dialled_run _ _ _ _ Hd).
    destruct (dialled_unprepared specificBlock es Hun) as (Hun1 & Hp1 & Hu1 & Hc1 & Hreq).
    set (es1 := dialled specificBlock es) in *.
    destruct (rpc_ChainID (w_calls (es_world es1))) as [err|cid] eqn:Hcid.
    + destruct (Prepare_no_chain es1 err Hcid) as (es2 & Hrun & Hw & E1 & E2 & E3 & E4).
      rewrite (bind_Ok _ _ _ _ _ Hrun).
      assert (S (w_calls (es_world es)) < K)%nat.
      { rewrite Hc1 in Hcid. destruct (decide (K ≤ S (w_calls (es_world es)))%nat) as [Hle|]; [|lia].
        destruct (up_chain _ _ _ Hup _ Hle). congruence. }
      assert (unprepared es2) as Hun2.
      { destruct Hun1 as [U1 U2 U3]. split; [congruence|congruence|]. rewrite Hw.
        eapply heap_fresh; [exact U3|done|done|done|simpl; lia]. }
      change (timeDelta (es_evm es)) with (timeDelta (es_evm es1)).
      change (blockNumberDelta (es_evm es)) with (blockNumberDelta (es_evm es1)).
      rewrite <-E3, <-E4. apply IH; [done|lia| |done|]; rewrite Hw; cbn [w_calls with_call]; lia.
    + destruct (up_header _ _ _ Hup (S (w_calls (es_world es1)))) as [h Hh].
      destruct (Prepare_first es1 _ cid h pool bk Hun1 Hp1 Hu1) as (r & A & es2 & Hrun & Hat & Hok);
        [lia|done|done|by rewrite Hreq|].
      eexists _, _, h, r, A, _, cid, es2. split; [exact Hh|]. split; [exact Hcid|]. split; [reflexivity|].
      split; [by rewrite (bind_Ok _ _ _ _ _ Hrun)|]. split; [done|exact Hok].
  - assert (w_calls (es_world es) < K)%nat.
    { destruct (decide (K ≤ w_calls (es_world es))%nat) as [Hle|]; [|lia].
      apply (up_dial _ _ _ Hup) in Hle. congruence. }
    cbn [dial_loop].
    rewrite (bind_Ok _ _ es false (set_world (with_call (es_world es)) es));
      [|unfold request, in_world, zoom; by rewrite Hd].
    apply (IH (set_world (with_call (es_world es)) es)); [|lia|simpl; lia|done|simpl; lia].
    destruct Hun as [U1 U2 U3]. split; [done|done|]. eapply heap_fresh; [exact U3|done|done|done|simpl; lia].
Qed.
End start.

(** ** Property *)

Section property.
Context `{CoreLaws} `{!GethLaws} `{!Upstream} `{!Remote} `{!Growth}.
Context (answer : BatchElem → option RpcValue) (N : nat) (HN : Reliable answer N).

Lemma start_run K rawurl url specificBlock account path maxKey batch randomize es :
  parse_url rawurl = Some (url, specificBlock) → comes_up K url specificBlock →
  (K < patience + w_calls (es_world es))%nat → (N ≤ w_calls (es_world es) + 3)%nat →
  fresh_world (es_world es) → 1 ≤ batch →
  ∃ i j h r A cid es', rpc_Header i (start_request specificBlock) = Some h ∧ rpc_ChainID j = inr cid ∧
    NewMferEVM rawurl account path maxKey batch es = (Ok tt, es') ∧
    let s := NewMferBackend es' NewMferTxPool account randomize in
    at_block answer (Uint64 (hd_Number h)) A ∧
    node_ok answer N r (Uint64 (hd_Number h)) A
      (mkBlockValues (hd_Coinbase h) (hd_GasLimit h) (i64 (u64 (Uint64 (hd_Number h) + 1)))
        (i64 (u64 (hd_Time h))) (hd_Difficulty h) 0) cid (hd_GasLimit h) s ∧
    let σ := mkSpec (Uint64 (hd_Number h)) A [] in represents answer N r σ s ∧ in_step answer σ.
Proof.
  intros Hurl Hup HK Hc Hf Hb. pose proof (rel_patience answer N HN) as Hpat.
  unfold NewMferEVM. rewrite Hurl. unfold update_evm. rewrite bind_modify.
  set (es0 := with_evm _ es).
  destruct (dial_loop_run answer N HN K url specificBlock patience es0 NewMferTxPool
    (mkMferBackend account randomize false None) Hup) as
    (i & j & h & r & A & bv & cid & es' & Hh & Hcid & Ebv & Hrun & Hat & Hok); [done|lia|done|apply pool_reachable_ok; constructor|done|].
  simpl in Ebv. rewrite !Z.add_0_r in Ebv.
  exists i, j, h, r, A, cid, es'. split; [done|]. split; [done|]. split; [|split; [done|]].
  - rewrite (bind_Ok _ _ _ _ _ Hrun). destruct (nk_db _ _ _ _ _ _ _ _ _ Hok) as (d & p & Hd & _ & Hdb).
    destruct (db_counters answer N _ _ _ _ _ _ Hdb) as (Hbn & _). simpl in Hd, Hbn.
    unfold the_StateDB, the_evm. rewrite bind_assoc, bind_gets, Hd.
    rewrite (bind_Ok _ _ _ _ _ (in_world_Ok (non_nil (Some d)) es' d _ eq_refl)).
    rewrite (bind_Ok _ _ _ _ _ (in_world_Ok _ (set_world (es_world es') es') _ _ Hbn)).
    by destruct es'.
  - subst bv. split; [exact Hok|]. split.
    + split; [by eexists _, cid, _|]. unfold bounded. simpl. rewrite (ab_depth _ _ _ Hat). done.
    + exists A. split; [done|constructor].
Qed.

(** C8: the node starts.  If the upstream node comes up before the patience of the node
    ends, [NewMferEVM] returns, whatever failed before; the node then is up, pinned to the
    block its URL names or to the head, in the context of the next block, and its state is
    that block with money on the fake accounts. *)
Theorem NewMferEVM_starts K rawurl url specificBlock account path maxKey batch randomize es :
  parse_url rawurl = Some (url, specificBlock) → comes_up K url specificBlock →
  (K < patience + w_calls (es_world es))%nat → (N ≤ w_calls (es_world es) + 3)%nat →
  fresh_world (es_world es) → 1 ≤ batch →
  ∃ i j h r A cid es', rpc_Header i (start_request specificBlock) = Some h ∧ rpc_ChainID j = inr cid ∧
    NewMferEVM rawurl account path maxKey batch es = (Ok tt, es') ∧
    let s := NewMferBackend es' NewMferTxPool account randomize in
    at_block answer (Uint64 (hd_Number h)) A ∧
    node_ok answer N r (Uint64 (hd_Number h)) A
      (mkBlockValues (hd_Coinbase h) (hd_GasLimit h) (i64 (u64 (Uint64 (hd_Number h) + 1)))
        (i64 (u64 (hd_Time h))) (hd_Difficulty h) 0) cid (hd_GasLimit h) s ∧
    let σ := mkSpec (Uint64 (hd_Number h)) A [] in represents answer N r σ s ∧ in_step answer σ.
Proof. apply start_run. Qed.
End property.

(** ** Example *)

Module ToyStart.
Export ToyUp.

Definition es0 : EvmState := mkEvmState w0 evm1 ∅ 0.

Lemma comes_up1 : comes_up 0 [x68] (Some 100).
Proof. split; [reflexivity| |]; intros; by eexists. Defined.

(** The URL is [h@100]. *)
Lemma NewMferEVM_starts_witness :
  ∃ es', NewMferEVM (str "h@100") a1 "keys" 10 2 es0 = (Ok tt, es') ∧
    ∃ r A, at_block answer 100 A ∧
      node_ok answer 1 r 100 A (mkBlockValues (addr 77) 30000000 101 1700 5 0) 1 30000000
        (NewMferBackend es' NewMferTxPool a1 false).
Proof.
  destruct (NewMferEVM_starts answer 1 reliable 0 (str "h@100") [x68] (Some 100) a1 "keys" 10 2 false es0)
    as (i & j & h & r & A & cid & es' & Hh & Hcid & Hrun & Hat & Hok & _).
  - reflexivity.
  - exact comes_up1.
  - simpl. lia.
  - simpl. lia.
  - exact w0_fresh.
  - lia.
  - injection Hh as <-. injection Hcid as <-. exists es'. split; [exact Hrun|].
    exists r, A. split; [exact Hat|exact Hok].
Defined.
End ToyStart.
