(* ===== verification/Follow.v ===== *)
(** * The goroutine that follows the chain

    [updatePendingBN] of mferevm/evm.go asks the upstream node for new heads, or polls when
    it refuses, and looks from time to time whether the pinned block is still there.  A
    second goroutine asks again when the subscription breaks.  [follow] is what one event
    does; Actions.v has the rounds themselves. *)
From S2P Require Import Prelude BigInt Geth World OverlayState Fetch StateSpec OverlayStateDB.
From S2P Require Import VmStateDB Refinement Clones Reset Merge Chain GoSlice GoStd ToyInstance TxPool.
From S2P Require Import Signer Multisend Tracers TxArgs Evm Warm EvmProps Backend Actions Debug NodeState.
From S2P Require Import NodeSteps NodeSpec NodeLogic NodeHandlers NodeInvariant ToyNode NodeToy NodeProps StorageRange.

(** ** The goroutines *)

(** Whether the [n]-th round trip, a request to be sent new heads, is granted. *)
Class NewHeads := { rpc_SubscribeNewHead : nat → bool }.

Section follower.
Context `{Core} `{!Upstream} `{!Remote} `{!Growth} `{!NewHeads}.

(** A stopped ticker may have ticked once before. *)
Inductive Ticker := Running | Stopped (ticked : bool).

(** The subscription: refused at the start, live, or broken and being asked for again. *)
Inductive Subscription := Refused | Live | Broken.

Record Follower := mkFollower { ticker5Sec : Ticker; sub : Subscription }.

Definition SubscribeNewHead : M Node bool := in_evm (request rpc_SubscribeNewHead).

(** Five seconds may have passed before the answer. *)
Definition start_follower (late : bool) : M Node Follower :=
  ok ← SubscribeNewHead;
  mret (if ok : bool then mkFollower (Stopped late) Live else mkFollower Running Refused).

(** The ticker of ten seconds, the ticker of five, a new head; the subscription breaks; it is
    asked for again, a second after the last time. *)
Inductive Event := EvMissing | EvPoll | EvHead | EvBreak | EvRetry.

(** What may happen. *)
Definition possible (f : Follower) (ev : Event) : bool :=
  match ev with
  | EvMissing => true
  | EvPoll => match ticker5Sec f with Running | Stopped true => true | Stopped false => false end
  | EvHead | EvBreak => match sub f with Live => true | _ => false end
  | EvRetry => match sub f with Broken => true | _ => false end
  end.

Definition follow (f : Follower) (ev : Event) : M Node Follower :=
  match ev with
  | EvMissing => updatePendingBN true ;; mret f
  | EvPoll =>
      updatePendingBN false ;;
      mret (mkFollower (match ticker5Sec f with Running => Running | Stopped _ => Stopped false end) (sub f))
  | EvHead => updatePendingBN false ;; mret f
  | EvBreak => mret (mkFollower (ticker5Sec f) Broken)
  | EvRetry => ok ← SubscribeNewHead; mret (mkFollower (ticker5Sec f) (if ok : bool then Live else Broken))
  end.

(** The label RESUB: the subscription is asked for until it is granted. *)
Fixpoint resubscribe (fuel : nat) (f : Follower) : M Node Follower :=
  match fuel with
  | O => diverge
  | S fuel =>
      f ← follow f EvRetry;
      match sub f with Live => mret f | _ => resubscribe fuel f end
  end.

(** The ticker runs exactly if the first request was refused; only then nobody asks for the
    subscription any more. *)
Definition following (f : Follower) : Prop := ticker5Sec f = Running ↔ sub f = Refused.
End follower.

(** ** Lemmas *)

Section lemmas.
Context `{CoreLaws} `{!GethLaws} `{!Upstream} `{!Remote} `{!Growth} `{!Abi} `{!SafeContract} `{!NewHeads}.
Context (answer : BatchElem → option RpcValue) (N : nat) (HN : Reliable answer N).
Context (Htr : ∀ j h, is_Some (make_tracer None (mkTracerContext blockHash j h))).
Context (r : loc).
Implicit Types (σ : Spec) (s : Node) (f : Follower).

Abbreviation OK := (node_ok answer N r).
Abbreviation represents := (represents answer N r).

(** What a round takes for granted. *)
Definition event_ok s (ev : Event) : Prop :=
  match ev with
  | EvMissing => handler_ok s (HTick true)
  | EvPoll | EvHead => handler_ok s (HTick false)
  | EvBreak | EvRetry => True
  end.

(** A sequence of events. *)
Inductive followed : Follower → Node → list Event → Follower → Node → Prop :=
| followed_nil f s : followed f s [] f s
| followed_cons f s ev f1 s1 evs f2 s2 :
    possible f ev = true → event_ok s ev → follow f ev s = (Ok f1, s1) → followed f1 s1 evs f2 s2 →
    followed f s (ev :: evs) f2 s2.

Lemma represents_request {X} σ s (g : nat → X) :
  represents σ s → ∃ s', in_evm (request g) s = (Ok (g (w_calls (es_world (n_evm s)))), s') ∧
    w_calls (es_world (n_evm s')) = S (w_calls (es_world (n_evm s))) ∧ represents σ s'.
Proof.
  intros [(bv & cid & gp & Hok & E) Hb]. destruct (node_asked answer N r g _ _ _ _ _ _ Hok) as [Hrun Hok'].
  eexists. split; [exact Hrun|]. split; [done|]. split; [by exists bv, cid, gp|done].
Qed.

(** A round is a tick of the node. *)
Lemma round_run σ s missing :
  represents σ s → handler_ok s (HTick missing) →
  ∃ s' σ', updatePendingBN missing s = (Ok tt, s') ∧ represents σ' s' ∧ (in_step answer σ → in_step answer σ').
Proof.
  intros [Hs Hb] Hok.
  destruct (tick_simulated answer N HN Htr r σ s missing Hs Hb Hok) as (s' & e & σ' & Hrun & He & Hstep & Hs' & Hb').
  exists s', σ'. split; [done|]. split; [done|]. destruct (spec_step_in_step answer e σ σ' Hstep) as [Hkeep _].
  apply Hkeep. destruct missing; simpl in He; [destruct He as [->| ->]|subst]; discriminate.
Qed.

Lemma follow_run σ f s ev :
  represents σ s → following f → possible f ev = true → event_ok s ev →
  ∃ f' s' σ', follow f ev s = (Ok f', s') ∧ represents σ' s' ∧ (in_step answer σ → in_step answer σ') ∧ following f'.
Proof.
  intros Hs Hf Hp Hok. destruct ev; cbn [follow event_ok possible] in *.
  - destruct (round_run _ _ _ Hs Hok) as (s' & σ' & Hrun & ? & ?). eexists f, s', σ'.
    split; [by rewrite (bind_Ok _ _ _ _ _ Hrun)|done].
  - destruct (round_run _ _ _ Hs Hok) as (s' & σ' & Hrun & ? & ?). eexists _, s', σ'.
    split; [by rewrite (bind_Ok _ _ _ _ _ Hrun)|]. split; [done|]. split; [done|].
    unfold following in *. simpl. destruct Hf as [Hf1 Hf2]. split; destruct (ticker5Sec f); naive_solver.
  - destruct (round_run _ _ _ Hs Hok) as (s' & σ' & Hrun & ? & ?). eexists f, s', σ'.
    split; [by rewrite (bind_Ok _ _ _ _ _ Hrun)|done].
  - eexists _, s, σ. split; [done|]. split; [done|]. split; [done|].
    unfold following in *. simpl. destruct Hf as [Hf1 Hf2]. split; destruct (sub f); naive_solver.
  - destruct (represents_request σ s rpc_SubscribeNewHead Hs) as (s' & Hrun & _ & Hs'). eexists _, s', σ.
    split; [unfold SubscribeNewHead; by rewrite (bind_Ok _ _ _ _ _ Hrun)|]. split; [done|]. split; [done|].
    unfold following in *. simpl. destruct Hf as [Hf1 Hf2]. split; destruct (sub f), (rpc_SubscribeNewHead _); naive_solver.
Qed.

(** The subscription comes back when the upstream node grants one again. *)
Lemma resubscribe_run σ f s k fuel :
  represents σ s → sub f = Broken → (k < fuel)%nat →
  rpc_SubscribeNewHead (w_calls (es_world (n_evm s)) + k) = true →
  ∃ s', resubscribe fuel f s = (Ok (mkFollower (ticker5Sec f) Live), s') ∧ represents σ s'.
Proof.
  revert f s fuel. induction k as [|k IH]; intros f s fuel Hs Hf Hk Hg; (destruct fuel as [|fuel]; [lia|]);
    destruct (represents_request σ s rpc_SubscribeNewHead Hs) as (s' & Hrun & Hc & Hs');
    cbn [resubscribe follow]; unfold SubscribeNewHead; rewrite bind_assoc, (bind_Ok _ _ _ _ _ Hrun), bind_mret; cbn [sub].
  - rewrite Nat.add_0_r in Hg. rewrite Hg. by exists s'.
  - destruct (rpc_SubscribeNewHead (w_calls (es_world (n_evm s)))); [by exists s'|].
    apply (IH (mkFollower (ticker5Sec f) Broken)); [done|done|lia|]. by rewrite Hc, Nat.add_succ_comm.
Qed.

Lemma start_follower_run σ s late :
  represents σ s → ∃ f s', start_follower late s = (Ok f, s') ∧ represents σ s' ∧ following f.
Proof.
  intros Hs. destruct (represents_request σ s rpc_SubscribeNewHead Hs) as (s' & Hrun & _ & Hs').
  eexists _, s'. split; [unfold start_follower, SubscribeNewHead; by rewrite (bind_Ok _ _ _ _ _ Hrun)|].
  split; [done|]. by destruct (rpc_SubscribeNewHead _).
Qed.

Lemma followed_run σ f s evs f' s' :
  represents σ s → in_step answer σ → following f → followed f s evs f' s' →
  ∃ σ', represents σ' s' ∧ in_step answer σ' ∧ following f'.
Proof.
  intros Hs Hin Hf Hrun. revert σ Hs Hin Hf. induction Hrun as [f s|f s ev f1 s1 evs f2 s2 Hp Hok Hstep _ IH];
    intros σ Hs Hin Hf; [by exists σ|].
  destruct (follow_run σ f s ev Hs Hf Hp Hok) as (f1' & s1' & σ1 & Hstep' & Hs1 & Hin1 & Hf1).
  rewrite Hstep in Hstep'. injection Hstep' as <- <-. by apply (IH σ1); [|apply Hin1|].
Qed.

(** *** When the upstream node fails *)

(** Without an answer to the first question nothing is prepared. *)
Lemma Prepare_down b A bv cid gp s err :
  OK b A bv cid gp s → rpc_ChainID (w_calls (es_world (n_evm s))) = inl err →
  in_evm Prepare s = (Ok (Some err), set_n_evm (set_world (with_call (es_world (n_evm s))) (n_evm s)) s).
Proof.
  intros Hok Herr. unfold in_evm, zoom, Prepare, update_evm. rewrite bind_modify.
  assert (with_evm (λ e, set_ChainID (default 1 (chainConfig_ChainID e)) e) (n_evm s) = n_evm s) as ->.
  { pose proof (rd_chain _ _ _ _ (nk_ready _ _ _ _ _ _ _ _ _ Hok)) as Hc.
    destruct s as [[w e trs nx] pl bk]. simpl in *. unfold with_evm. simpl. rewrite Hc. f_equal.
    destruct e. simpl in *. by subst. }
  assert (request rpc_ChainID (n_evm s) = (Ok (inl err), set_world (with_call (es_world (n_evm s))) (n_evm s))) as Hrun.
  { unfold request, in_world, zoom. by rewrite Herr. }
  by rewrite (bind_Ok _ _ _ _ _ Hrun).
Qed.

Lemma ReExecTxPool_down b A bv cid gp s err :
  OK b A bv cid gp s → let txs := (entries (n_pool s)).*1 in
  rpc_ChainID (w_calls (es_world (n_evm s))) = inl err → a_depth A + 2 + budget txs < 2 ^ 63 →
  ∃ out gp' A' s', spec_ExecuteTxs bv cid gp 0 txs None A = Some (out, gp', A') ∧
    ReExecTxPool s = (Ok tt, s') ∧ OK b A' bv cid gp' s' ∧ entries (n_pool s') = zip txs out.
Proof.
  intros Hok txs Herr Hd. pose proof (Prepare_down _ _ _ _ _ _ _ Hok Herr) as Hrun1.
  destruct (node_asked answer N r rpc_ChainID _ _ _ _ _ _ Hok) as [_ Hok1]. set (s1 := set_n_evm _ s) in *.
  destruct (node_execute answer N HN Htr r _ _ _ _ _ _ txs Hok1 Hd) as
    (out & gp' & A' & d & es2 & Hspec & Hsd & Hrun2 & Hok2 & _).
  pose proof (spec_ExecuteTxs_length _ _ _ _ _ _ _ _ _ _ Hspec) as Hlen. unfold txs in Hlen. rewrite length_fmap in Hlen.
  destruct (SetResults_ok (n_pool s) out (nk_pool _ _ _ _ _ _ _ _ _ Hok) Hlen) as [Hpool Hent].
  exists out, gp', A'. eexists. split; [exact Hspec|]. split; [|split; [exact (node_ok_pool answer N r _ _ _ _ _ _ _ Hpool Hok2)|exact Hent]].
  unfold ReExecTxPool. rewrite (bind_Ok _ _ _ _ _ Hrun1).
  rewrite (bind_Ok _ _ _ _ _ (pool_txs_run s1 (nk_pool _ _ _ _ _ _ _ _ _ Hok))).
  change (entries (n_pool s1)).*1 with txs. rewrite (bind_Ok _ _ _ _ _ Hsd). by rewrite (bind_Ok _ _ _ _ _ Hrun2).
Qed.
End lemmas.

(** ** Properties *)

Section properties.
Context `{CoreLaws} `{!GethLaws} `{!Upstream} `{!Remote} `{!Growth} `{!Abi} `{!SafeContract} `{!NewHeads}.
Context (answer : BatchElem → option RpcValue) (N : nat) (HN : Reliable answer N).
Context (Htr : ∀ j h, is_Some (make_tracer None (mkTracerContext blockHash j h))).
Context (r : loc).

(** C12: following the chain keeps the node in step with its pool.  From the start of the
    goroutine, whatever comes in, new heads, ticks, broken subscriptions and attempts to
    renew them, every round returns, the node goes on representing a specification that is
    in step, and it polls exactly if the upstream node refused the first subscription.  A
    broken one comes back with the first request that is granted; until then neither heads
    nor ticks of the running ticker move the block context. *)
Theorem follower_keeps_in_step σ s0 late f s evs f' s' :
  represents answer N r σ s0 → in_step answer σ → start_follower late s0 = (Ok f, s) → followed f s evs f' s' →
  ∃ σ', represents answer N r σ' s' ∧ in_step answer σ' ∧
    (∀ ev, possible f' ev = true → event_ok s' ev → ∃ f'' s'', follow f' ev s' = (Ok f'', s'')) ∧
    (ticker5Sec f' = Running ↔ sub f' = Refused) ∧
    (sub f' = Broken → possible f' EvHead = false ∧ ticker5Sec f' ≠ Running ∧
      ∀ k, rpc_SubscribeNewHead (w_calls (es_world (n_evm s')) + k) = true →
        ∃ s'', resubscribe (S k) f' s' = (Ok (mkFollower (ticker5Sec f') Live), s'')).
Proof.
  intros Hs0 Hin Hst Hrun. destruct (start_follower_run answer N r σ s0 late Hs0) as (f0 & s0' & Hst' & Hs & Hf).
  rewrite Hst in Hst'. injection Hst' as <- <-.
  destruct (followed_run answer N HN Htr r _ _ _ _ _ _ Hs Hin Hf Hrun) as (σ' & Hs' & Hin' & Hf').
  exists σ'. split; [done|]. split; [done|]. split; [|split; [exact Hf'|]].
  - intros ev Hp Hok. destruct (follow_run answer N HN Htr r σ' f' s' ev Hs' Hf' Hp Hok) as (f'' & s'' & σ'' & ? & _). eauto.
  - intros Hb. split; [simpl; by rewrite Hb|]. split; [intros E%Hf'; congruence|]. intros k Hk.
    destruct (resubscribe_run answer N r σ' f' s' k (S k) Hs' Hb ltac:(lia) Hk) as (s'' & ? & _). eauto.
Qed.

(** C15: an upstream node that is down makes the node execute its pool on top of itself.  If it
    answers neither for the balance nor for the chain id, the round that looks for the
    pinned block takes the block for lost and asks for the pool to be executed again, but
    preparing fails without notice: the transactions run once more on the state they have
    already led to, and with what gas is left, and the outcomes replace their results. *)
Theorem missing_tick_outage b A bv cid gp s e1 e2 :
  node_ok answer N r b A bv cid gp s →
  let txs := (entries (n_pool s)).*1 in let calls := w_calls (es_world (n_evm s)) in
  rpc_BalanceAt calls Address_zero (i64 b) = inl e1 → rpc_ChainID (S calls) = inl e2 →
  a_depth A + 2 + budget txs < 2 ^ 63 →
  ∃ out gp' A' s', spec_ExecuteTxs bv cid gp 0 txs None A = Some (out, gp', A') ∧
    updatePendingBN true s = (Ok tt, s') ∧ node_ok answer N r b A' bv cid gp' s' ∧
    entries (n_pool s') = zip txs out.
Proof.
  intros Hok txs calls He1 He2 Hd.
  destruct (node_asked answer N r (λ n, rpc_BalanceAt n Address_zero (i64 b)) _ _ _ _ _ _ Hok) as [Hrun1 Hok1].
  set (s1 := set_n_evm _ s) in *.
  assert (in_evm check_missing s = (Ok true, s1)) as Hmiss.
  { destruct (nk_db _ _ _ _ _ _ _ _ _ Hok) as (d & p & Hsd & Hp & Hdb).
    destruct (db_counters answer N r _ _ _ _ _ Hdb) as (Hbn & _ & _).
    apply in_evm_Ok. unfold check_missing, the_evm. rewrite bind_gets, Hsd.
    rewrite (bind_Ok _ _ _ _ _ (in_world_Ok _ (n_evm s) _ _ Hbn)).
    unfold calls in He1. unfold request, in_world, zoom, mbind, M_bind. simpl. by rewrite He1. }
  destruct (ReExecTxPool_down answer N HN Htr r _ _ _ _ _ _ e2 Hok1 He2 Hd) as (out & gp' & A' & s2 & Hspec & Hrun2 & Hok2 & Hent).
  exists out, gp', A', s2. split; [exact Hspec|]. split; [|split; [exact Hok2|exact Hent]].
  unfold updatePendingBN. rewrite (bind_Ok _ _ _ _ _ Hmiss), (bind_Ok _ _ _ _ _ Hrun2).
  by apply (node_log answer N r _ _ _ _ _ _ Hok2).
Qed.

(** C16: a head that comes too early brings the program down.  The goroutine is started before
    the EVM is prepared for the first time, when the block context has no numbers yet: if
    the round of a new head or of the ticker is told a header then, because preparing is
    slow or has to be tried again, it dereferences nil. *)
Theorem early_head_panics rawurl url account path maxKey batch es0 fuel :
  parse_url rawurl = Some (url, None) → patience = S fuel → rpc_Dial (w_calls (es_world es0)) url = true →
  ∃ es, NewMferEVM rawurl account path maxKey batch es0 =
      ((err ← Prepare;
        match err with Some _ => dial_loop fuel url None | None => mret tt end) ;;
       d ← the_StateDB; _ ← in_world (StateBlockNumber d); mret tt) es ∧
    ∀ s h, rpc_Header (w_calls (es_world es)) "latest" = Some h →
      ∃ err s', updatePendingBN false (set_n_evm es s) = (Panic err, s').
Proof.
  intros Hurl Hpat Hdial. eexists. split.
  - unfold NewMferEVM. rewrite Hurl. unfold update_evm. rewrite bind_modify, Hpat. cbn [dial_loop].
    rewrite bind_assoc. erewrite bind_Ok by (unfold request, in_world, zoom; simpl; by rewrite Hdial).
    cbv beta iota. rewrite !bind_assoc. erewrite bind_Ok by reflexivity. unfold update_evm.
    rewrite bind_assoc, bind_modify, bind_assoc, bind_mret, ?bind_assoc. reflexivity.
  - intros s h Hh.
    unfold updatePendingBN, follow_head, setVMContext, GetBlockHeader, request, in_evm, in_world, zoom, the_evm, update_evm.
    unfold mbind, M_bind. simpl in *. rewrite Hh. simpl. eauto.
Qed.
End properties.

(** ** Examples *)

Module ToyFollow.
Export ToyInvariant ToyRange.

(** Every other request for new heads is granted. *)
#[export] Instance heads : NewHeads := {| rpc_SubscribeNewHead := Nat.odd |}.

(** The subscription is granted, a new head comes in, and the subscription breaks. *)
Lemma follower_keeps_in_step_witness :
  ∃ s0 s σ, start_follower false node1 = (Ok (mkFollower (Stopped false) Live), s0) ∧
    followed (mkFollower (Stopped false) Live) s0 [EvHead; EvBreak] (mkFollower (Stopped false) Broken) s ∧
    represents answer 1 1%nat σ s ∧ in_step answer σ.
Proof.
  destruct (represents_request answer 1 1%nat σ1 node1 rpc_SubscribeNewHead represents1) as (s0 & Hreq & Hc & Hs0).
  assert (start_follower false node1 = (Ok (mkFollower (Stopped false) Live), s0)) as Hst.
  { unfold start_follower, SubscribeNewHead. rewrite (bind_Ok _ _ _ _ _ Hreq). reflexivity. }
  assert (handler_ok s0 (HTick false)) as Htick.
  { assert (s0 = set_n_evm (set_world (with_call (es_world (n_evm node1))) (n_evm node1)) node1) as ->
      by exact (eq_sym (f_equal snd Hreq)).
    split; [reflexivity|exact I]. }
  destruct (round_run answer 1 reliable tracers1 1%nat σ1 s0 false Hs0 Htick) as (s & _ & Hrun & _).
  assert (followed (mkFollower (Stopped false) Live) s0 [EvHead; EvBreak] (mkFollower (Stopped false) Broken) s) as Hf.
  { eapply followed_cons; [reflexivity|exact Htick| |].
    - cbn [follow]. rewrite (bind_Ok _ _ _ _ _ Hrun). reflexivity.
    - eapply followed_cons; [reflexivity|exact I|reflexivity|constructor]. }
  destruct (follower_keeps_in_step answer 1 reliable tracers1 1%nat σ1 node1 false _ s0 _ _ s represents1 in_step1 Hst Hf)
    as (σ & Hs & Hin & _).
  exists s0, s, σ. split; [exact Hst|]. split; [exact Hf|]. split; [exact Hs|exact Hin].
Defined.

(** The same node when its upstream is down: the pool of two is executed again. *)
Definition remote_down : Remote := {|
  rpc_Dial n _ := false;
  rpc_ChainID n := inl "down";
  rpc_Header n s := None;
  rpc_BalanceAt n a z := inl "down";
  rpc_NonceAt n a := inl "down";
  rpc_BlockNumber n := inl "down";
  rpc_BlockByNumber n z := inl "down";
  rpc_BlockByHash n h := None;
  rpc_Call n args diff := inl "down";
  rpc_FilterLogs n crit := inl "down";
  warm_schedule n := []
|}.

Lemma missing_tick_outage_witness :
  ∃ A' gp' s', updatePendingBN (H2 := remote_down) true (set_n_pool pool2 node1) = (Ok tt, s') ∧
    node_ok answer 1 1%nat 100 A' bv1 1 gp' s' ∧
    entries (n_pool s') = [(sent 7 5 [], None); (sent 8 6 [x01], Some "execution reverted: reason")].
Proof.
  destruct (missing_tick_outage (H4 := remote_down) answer 1 reliable tracers1 1%nat 100 AF bv1 1 30000000 _ "down" "down"
    (node_ok_pool answer 1 1%nat _ _ _ _ _ _ _ pool2_ok ok1) eq_refl eq_refl ltac:(reflexivity))
    as (out & gp' & A' & s' & Hex & Hrun & Hok & Hent).
  exists A', gp', s'. split; [exact Hrun|]. split; [exact Hok|].
  apply (f_equal (fmap (λ q, q.1.1))) in Hex.
  assert ((λ q, q.1.1) <$> spec_ExecuteTxs bv1 1 30000000 0 [sent 7 5 []; sent 8 6 [x01]] None AF
    = Some [None; Some "execution reverted: reason"]) as E by reflexivity.
  change ((entries (n_pool (set_n_pool pool2 node1))).*1) with [sent 7 5 []; sent 8 6 [x01]] in *.
  rewrite E in Hex. simpl in Hex. injection Hex as <-. exact Hent.
Defined.

Lemma early_head_panics_witness :
  ∃ es s' err, updatePendingBN false (set_n_evm es node1) = (Panic err, s').
Proof.
  destruct (early_head_panics [x68] [x68] a1 "keys" 10 2 (n_evm node1) 2
    ltac:(reflexivity) ltac:(reflexivity) ltac:(reflexivity)) as (es & _ & Hpanic).
  destruct (Hpanic node1 header100 eq_refl) as (err & s' & Hrun). by exists es, s', err.
Defined.
End ToyFollow.
