(* ===== verification/Main.v ===== *)
(** * cmd/mfer-node/main.go: the program

    [main] reads its flags, starts the EVM, builds the backend on it and serves.  Setting up
    the log, the flags' parsing and the HTTP server are the system's; [Flags] are the
    values of the flags. *)
From S2P Require Import Prelude BigInt Geth World OverlayState Fetch StateSpec OverlayStateDB.
From S2P Require Import VmStateDB Refinement Clones Reset Chain GoSlice GoStd ToyInstance TxPool.
From S2P Require Import Signer Tracers TxArgs Evm Warm EvmProps Backend Actions Debug NodeState.
From S2P Require Import NodeSteps NodeSpec NodeLogic NodeHandlers ToyNode NodeToy NodeInvariant NodeStart.

(** ** The program *)

Section main.
Context `{Core} `{!Upstream} `{!Remote} `{!Growth}.

(** [common.HexToAddress] *)
Variable HexToAddress : bytes → Address.

Record Flags := mkFlags {
  f_account : bytes;
  f_rand : bool;
  f_passthrough : bool;
  f_upstreamURL : bytes;
  f_listenURL : bytes;
  f_keyCacheFilePath : string;
  f_maxKeyCache : Z;
  f_batchSize : Z;
  f_chainID : Z;
  f_version : bool
}.

(** The defaults; that of the path depends on the user's directories. *)
Definition default_flags (path : string) : Flags :=
  mkFlags (str "0xaaaaaaaaaaaaaaaaaaaaaaaaaaaaaaaaaaaaaaaa") false true (str "http://localhost:8545")
    (str "127.0.0.1:10545") path 100 100 0 false.

(** The receivers of the handlers; each holds the one backend. *)
Inductive Service := EthAPI | AuxAPI | DebugAPI | MferActionAPI | ProbeAPI.

Record API := mkAPI { Namespace : string; Version : string; api_Service : Service; Public : bool }.

Definition GetEthAPIs : list API :=
  [mkAPI "eth" "1.0" EthAPI true; mkAPI "net" "1.0" AuxAPI true; mkAPI "wallet" "1.0" AuxAPI true;
   mkAPI "debug" "1.0" DebugAPI true; mkAPI "mfer" "1.0" MferActionAPI true; mkAPI "probe" "1.0" ProbeAPI true].

(** A process that has exited, or one that serves the handlers of a node on an address. *)
Inductive Process := Exited (code : Z) | Serving (addr : bytes) (port : Z) (apis : list API) (s : Node).

(** [splittedListen[1]] is out of range when there is no colon; a port that is no number
    is fatal. *)
Definition listen_address (listenURL : bytes) : option (option (bytes * Z)) :=
  let splittedListen := split x3a listenURL in
  listenAddr ← splittedListen !! 0%nat;
  listenPort ← splittedListen !! 1%nat;
  Some (p ← Atoi listenPort; Some (listenAddr, p)).

Definition main (fl : Flags) : M EvmState Process :=
  if f_version fl then mret (Exited 0) else
  r ← deref (λ _, listen_address (f_listenURL fl));
  match r with
  | None => mret (Exited 1)
  | Some (listenAddr, listenPort) =>
      let impersonatedAccount := HexToAddress (f_account fl) in
      NewMferEVM (f_upstreamURL fl) impersonatedAccount (f_keyCacheFilePath fl) (f_maxKeyCache fl) (f_batchSize fl) ;;
      mferEVM ← gets id;
      let b := NewMferBackend mferEVM NewMferTxPool impersonatedAccount (f_rand fl) in
      let b := set_n_backend (λ b, mkMferBackend (ImpersonatedAccount b) (Randomized b) (f_passthrough fl) (OverrideChainID b)) b in
      let b := if Z.eqb (f_chainID fl) 0 then b
               else set_n_backend (λ b, mkMferBackend (ImpersonatedAccount b) (Randomized b) (Passthrough b) (Some (i64 (f_chainID fl)))) b in
      mret (Serving listenAddr listenPort GetEthAPIs b)
  end.
End main.

(** ** Property *)

Section property.
Context `{CoreLaws} `{!GethLaws} `{!Upstream} `{!Remote} `{!Growth}.
Context (answer : BatchElem → option RpcValue) (N : nat) (HN : Reliable answer N).
Context (HexToAddress : bytes → Address).

(** The settings the flags ask for. *)
Definition settings_of (fl : Flags) : MferBackend :=
  mkMferBackend (HexToAddress (f_account fl)) (f_rand fl) (f_passthrough fl)
    (if Z.eqb (f_chainID fl) 0 then None else Some (i64 (f_chainID fl))).

(** C9: the program starts.  If the address to listen on is well formed and the upstream
    node comes up before the patience of the program ends, [main] serves a node with the
    settings its flags ask for; the node is up, pinned to the block the URL of the
    upstream node names or to the head, and in step with its empty pool. *)
Theorem main_serves K fl addr port url specificBlock es :
  f_version fl = false → listen_address (f_listenURL fl) = Some (Some (addr, port)) →
  parse_url (f_upstreamURL fl) = Some (url, specificBlock) → comes_up K url specificBlock →
  (K < patience + w_calls (es_world es))%nat → (N ≤ w_calls (es_world es) + 3)%nat →
  fresh_world (es_world es) → 1 ≤ f_batchSize fl →
  ∃ i h r A s es', rpc_Header i (start_request specificBlock) = Some h ∧
    main HexToAddress fl es = (Ok (Serving addr port GetEthAPIs s), es') ∧ n_evm s = es' ∧
    n_backend s = settings_of fl ∧ at_block answer (Uint64 (hd_Number h)) A ∧
    let σ := mkSpec (Uint64 (hd_Number h)) A [] in represents answer N r σ s ∧ in_step answer σ.
Proof.
  intros Hv Hl Hurl Hup HK Hc Hf Hb.
  destruct (start_run answer N HN K (f_upstreamURL fl) url specificBlock (HexToAddress (f_account fl))
    (f_keyCacheFilePath fl) (f_maxKeyCache fl) (f_batchSize fl) (f_rand fl) es Hurl Hup HK Hc Hf Hb)
    as (i & j & h & r & A & cid & es' & Hh & _ & Hrun & Hat & Hok & Hrep & Hin).
  exists i, h, r, A, (mkNode es' NewMferTxPool (settings_of fl)), es'.
  split; [exact Hh|]. split; [|split; [done|split; [done|split; [exact Hat|split; [|exact Hin]]]]].
  - unfold main. rewrite Hv.
    rewrite (bind_deref (λ _, listen_address _) _ _ _ Hl), (bind_Ok _ _ _ _ _ Hrun), bind_gets.
    unfold settings_of. by destruct (Z.eqb (f_chainID fl) 0).
  - destruct Hrep as [(bv & c & g & Hok' & E) Hb']. split; [|done]. exists bv, c, g. split; [|done].
    by destruct Hok'; split.
Qed.
End property.

(** ** Example *)

Module ToyMain.
Export ToyStart.

Definition flags1 : Flags :=
  mkFlags (str "0x01") false true (str "h@100") (str "127.0.0.1:10545") "keys" 10 2 5 false.

Lemma main_serves_witness :
  ∃ s es', main (λ _, a1) flags1 es0 = (Ok (Serving (str "127.0.0.1") 10545 GetEthAPIs s), es') ∧
    n_backend s = mkMferBackend a1 false true (Some 5).
Proof.
  destruct (main_serves answer 1 reliable (λ _, a1) 0 flags1 (str "127.0.0.1") 10545 [x68] (Some 100) es0)
    as (i & h & r & A & s & es' & Hh & Hrun & _ & Hset & _).
  - reflexivity.
  - vm_compute. reflexivity.
  - reflexivity.
  - exact comes_up1.
  - simpl. lia.
  - simpl. lia.
  - exact w0_fresh.
  - simpl. lia.
  - exists s, es'. split; [exact Hrun|exact Hset].
Defined.
End ToyMain.
